(* ===== verification/_CoqProject ===== *)
-Q . S2P
Prelude.v
Decimals.v
Contracts.v
Digits.v
FloatRepr.v
Sha256.v
Json.v
SyntheticId.v
PyTime.v
PyIso.v
StateMachine.v
Events.v
Store.v
StoreInv.v
StoreProps.v
Config.v
Cache.v
RateLimit.v
OrderBook.v
BookService.v
BookServiceProps.v
Adapters.v
Gates.v
HandleRecovery.v
Router.v
RouterProps.v
CancelAmend.v
SimLifecycle.v
RouterExamples.v
Liberator.v
Reconciler.v
ReconcileCore.v
ReconcileCoreProps.v
ReconcilerProps.v
ReconcilerExamples.v
LiberatorProps.v
JsonProps.v
LiberatorExamples.v
PyFloat.v
StreamingPro.v
Fees.v
FeesProps.v
PyText.v
FeeDoc.v
FeeDocProps.v
FeeDocExamples.v
SpReconciler.v
SpTime.v
SpProps.v
SpWire.v
Transport.v
SpExamples.v
Runtime.v
Engine.v
EngineProps.v
EngineExamples.v
Api.v
Cursor.v
Routes.v
RoutesProps.v
Streams.v
StreamsProps.v
Wire.v
WireProps.v
WireExamples.v
EngineIO.v
BookProvider.v
BookProviderProps.v
BookProviderLive.v
BookProviderExamples.v
BookRuntime.v
BookSystem.v
BookSystemProps.v
BookSystemExamples.v
Lifespan.v
LifespanProps.v
LifespanExamples.v
ApiProps.v
RoutesExamples.v
RouteBodies.v
