(* ===== verification/Prelude.v ===== *)
(** * quant-execution-engine: a verification development

    The engine ([src/src/quant_execution_engine]) takes orders over HTTP, checks
    them, records them in Postgres, places them at a venue (the paper venue SIM,
    or the brokers Liberator and Streaming Pro through HTTP bridges), and repairs
    its records against the venue's own lists.  Redis holds counters, locks and
    the kill switch; an in-process hub streams order updates.

    ** How the parts interact

    [OrderRouter] (core/router.py) runs a frozen pipeline per request: kill
    switch, idempotency read, contract and capability checks, risk gate, price
    band, stage ladder and routing authority, the submit lock, then a durable
    insert, the venue call, and the ack and fills through the repositories.
    Adapters only report; the repositories are the only writers of the tables, and
    the database's triggers append the audit rows.  The reconciler writes through
    the same repositories.  Every repository write publishes to the hub.

    ** Files and the code they model

    - Prelude: the effect monad ([M]: explicit world, exceptions that keep the
      world, [transaction] that rolls back), the [engine] hint database, the
      [respects] lemmas every invariant is pushed through handlers with, and list
      lemmas.
    - Decimals: Python's [decimal.Decimal] (28 digits, half-even).  Digits, PyText:
      decimal digits, printing decimals.  FloatRepr, PyFloat: binary floats, their
      [repr], and [int].  PyTime: datetimes and dates.  PyIso: [isoformat] and
      [fromisoformat] with their round trip.  Json, JsonProps: [json.dumps] and
      [json.loads] with theirs.  Sha256, SyntheticId: the digest, and the ids both
      brokers' mapping.py gives an order the engine did not place.
    - Contracts: contracts/*.py: enums, [NormalizedOrder] with its validators,
      capabilities, the exception taxonomy.
    - StateMachine: core/state_machine.py.
    - Events: events/hub.py, events/models.py.
    - Store, StoreInv, StoreProps: db/models.py and db/repositories.py, the store
      invariant [db_wf] and the evolution preorder [evo], and the functional
      theorems.
    - Config: config/settings.py and the start-up half of
      core/routing_authority.py.
    - Cache: cache/counters.py, cache/single_flight.py, core/kill_switch.py.
    - RateLimit: adapters/rate_limit.py.
    - OrderBook, BookService, BookServiceProps: order_book/models.py, service.py,
      router.py.
    - EngineIO: order_book/providers/_engineio.py and the parsing half of
      providers/liberator.py; BookProvider, BookProviderProps, BookProviderLive,
      BookProviderExamples: the feed of providers/liberator.py as steps between
      awaits; BookRuntime: order_book/runtime.py and adapters/market_data.py;
      BookSystem, BookSystemProps, BookSystemExamples: the service and the feed as
      one system, their interleavings joined.
    - Adapters: adapters/base.py, session.py, heartbeat, sim.py, sim_pricing.py;
      [adapter_ok] is the interface the router's theorems are proved against.
    - Gates: core/stage.py, risk.py, price_band.py, the submit half of
      routing_authority.py and [OrderRouter._resolve_adapter].
    - HandleRecovery: core/handle_recovery.py.
    - Router, RouterProps, CancelAmend, SimLifecycle, RouterExamples:
      core/router.py.
    - Liberator, LiberatorProps, LiberatorExamples: adapters/liberator/models.py,
      mapping.py, adapter.py.
    - Reconciler, ReconcileCore, ReconcileCoreProps, ReconcilerProps,
      ReconcilerExamples: adapters/liberator/reconciler.py; ReconcileCore holds
      what both brokers' repair loops share.
    - StreamingPro, SpReconciler, SpTime, SpProps, SpWire, SpExamples:
      adapters/streaming_pro/models.py, mapping.py, adapter.py, heartbeat.py,
      reconciler.py.
    - Transport, Runtime: both brokers' transport.py and runtime.py.
    - Fees, FeesProps: reference/fee_schedule.py and
      db/fee_observations.py.  FeeDoc, FeeDocProps, FeeDocExamples: the text of an
      adopted entry, and scripts/generate_fee_doc.py.
    - Engine, EngineProps, EngineExamples: the process of api/main.py's lifespan:
      settings, adapters, worker tasks, the store, and its steps.  Lifespan,
      LifespanProps, LifespanExamples: the same lifespan as one sequence of
      resources acquired and released (db/postgres.py, cache/redis_client.py and
      the create/close pairs of every runtime).
    - Api, ApiProps: api/deps.py, error_handlers.py, audit.py and the history
      pages.  Cursor: the history cursor of routes.py.  Streams, StreamsProps:
      api/streams.py.  Wire, WireProps, WireExamples: the bodies, frames, NDJSON lines
      and error envelope as text, and an event-stream client reading them.  Routes,
      RoutesProps, RoutesExamples: the handlers of routes.py, schemas.py, and the
      route table of api/main.py.  RouteBodies: the contents of the two history
      routes, with what they say they cannot contain.

    ** What the theorems show

    - Durable truth ([engine_durable_truth], [attached_engine_durable]): any
      sequence of router operations, against any venue and with any other tasks
      running inside the awaits, keeps [db_wf] and only evolves the store: legal
      edges, fixed identity, append-only fills and audit rows.  The second is the
      whole process: start, requests, both brokers' heartbeats, trips and repair
      loops, stop and restart.
    - Ordering and authority: the kill switch precedes every effect of a submit or
      amend and is no obstacle to a cancel, engaging it halts before it sweeps, an order is stored before it reaches a venue, a
      real venue is reached only from an authorised account and stage, and a
      process that is up holds exactly the broker adapters and workers its settings
      allow ([broker_surface_gated]).
    - The repositories: what a fill does on every branch, and that redelivering it
      does nothing.
    - Reconciliation: one pass settles a row to what the venue reports, for either
      broker, but for a match that raced a cancel; a lost ack is bound only to a
      unique unclaimed candidate, and within a working set never twice in a pass; the
      two planners agree but for one case
      ([planners_agree]); one naive timestamp aborts a pass, of either broker
      ([naive_time_aborts_pass], [lost_ack_fate]).
    - The wire: the payloads sent mean the order given, and the two row dialects
      of Streaming Pro read as one ([dialects_agree]).
    - Router functions: the paper lifecycle under any pricer, lock waits that only
      wait and end with an answer, duplicates, cancel, cancel-replace.
    - Streams: an order-update stream loses nothing silently and repeats nothing,
      in any interleaving ([stream_complete]); a client of the event-stream standard
      reads back exactly what was sent ([client_reads_stream]) and reconnects with
      its [Last-Event-ID] without losing or repeating an event, also under a strategy
      filter ([reconnect_loses_nothing]); a cursor from before a restart is not recognised
      ([stale_cursor_silent]); the export reads back line by line
      ([export_reads_back]).
    - The order-book feed: a book is published under the symbol its room belongs
      to ([feed_attribution]); in joint runs of the service and its provider what
      the service believes is what the provider does ([feed_agrees]), and a frame
      reaches every consumer of its book ([consumer_receives], in calm runs: see
      [provider_step]); what a call that overlaps an unsubscribe, a cancelled acquire,
      a second market of a symbol or a long outage can lose ([reap_races_subscribe],
      [cancelled_acquire_starves], [second_market_dropped], [reconnect_backoff]).
    - Start and stop: each optional resource that fails to open costs only itself
      ([startup_degrades]), shutdown releases everything ([shutdown_releases]),
      unless the feed's reader died first ([shutdown_cut_short]).
    - HTTP: the gateway alias is the native surface without the admin routes, the
      read key opens the account reads and nothing else, a client that passes the
      cursor back gets the whole history ([http_history_complete]), and the contents
      state the window, what is missing and since when the store is complete
      ([coverage_states_gaps], [history_window_reads_back],
      [history_within_complete_since]).
    - Fees: a fee is read as of its date, adopting one keeps the past, and the
      month's tier volume counts each fill once; an adopted entry's text reads back
      as the entry ([adopted_entry_reads_back]), the mirror document is complete and
      its drift check exact ([doc_complete], [drift_check_exact]), and the first
      adoption breaks the generator ([adoption_breaks_doc]).
    - Bounds: risk caps, the token bucket's rate, single flight, order-book
      queues.
    - Further theorems: [terminal_handle_claimed_twice], [stale_claims_bind_twice],
      [ambiguous_rejected_next_day] and [cancel_confirm_drops_fill] exhibit runs
      in which the reconciler does something its documentation excludes;
      [offer_accounting], [store_audit_chain], [handleless_ack_never_raises],
      [native_amend_outcome], [audit_export_complete], [risk_check_caps],
      [cursor_roundtrip], [dialects_agree], [alias_is_native], [resolve_in_force],
      [book_service_bounded], [feed_serves_subscribed], [synthetic_ids_accepted] and
      [rejections_typed] extend the groups above.

    ** Bounds and fuel

    Each loop that is not structural has fuel with a proof that it is enough:
    [recover_loop] gets one more than [recovery_polls], the number of polls the
    deadline and minimum allow ([recover_handle_bounded]); [await_loop] gets
    [await_fuel], two more than the polls the budget holds ([lock_miss_answers]);
    [history_all] and [follow_history] need more than one step per stored order
    ([history_complete], [http_history_complete]);
    [json_loads] gets one step per character, and no amount reads more
    ([json_loads_complete]); [float_numeral] tries 17 digits, which tell any two
    floats apart ([float_numeral_total]).
    The digit loops of Decimals and [drop_all] of Contracts run on the size of
    their argument.  Integers are unbounded, as in Python.

    ** Parameters and abstractions

    - Postgres answers every statement; its triggers, CHECKs and NUMERIC type are
      [OrdersSchema] with the documented laws [OrdersSchemaSpec]
      (docs/data/execution-schema.md).  Redis is [RedisOps]/[RedisSpec], each
      command of which may fail.  Venue bridges, pydantic's coercion of venue
      rows and its dumps of response rows and timestamps, the instant the database
      driver takes a naive time for, the TOML parser of a whole file, uuid
      generation, sleeping and the other tasks that run meanwhile are function
      arguments; the sections that rely on them name what they assume,
      and concrete instances in StoreProps, Cache and the Examples files show that
      it can hold.
    - A stored timestamp is a [Z] of microseconds UTC, and a [PyDatetime] where its
      offset or the lack of one matters; the venue's day is UTC+7.  Dates do not end
      with the year 9999.  Float
      seconds are microseconds, or exact rationals in RateLimit.
    - Strings are UTF-8 bytes; character classes are ASCII's.  Log calls are left
      out; exception messages are kept only where the program stores or compares
      them.  The interpreter's limits (digits of an integer, recursion depth) are not
      reached.

    ** Not modelled

    What the Postgres, Redis, HTTP and websocket drivers do on the network, TLS
    contexts and logging set-up are input/output without logic of their own and stay
    out, as do pydantic's dumping of single response rows and the text of log lines and
    messages nobody reads back.  Every operation of the program that changes state is a
    definition here.  The joint system of BookSystem and the node of Engine are proved
    separately: the paper pricer only reads a cached book, any book. *)

From stdpp Require Import base gmap strings list sorting.
From Stdlib Require Import ZArith Lia.

(** ** The effect monad

    Every handler of the engine is Python code that threads a mutable world
    (the durable store, the event hub, Redis, the venue sessions, the clock)
    and may raise.  An exception does NOT roll the world back: whatever was
    written before the [raise] stays written.  That is what [M] says. *)

Inductive result (E A : Type) : Type :=
  | Ok (a : A)
  | Err (e : E).
Arguments Ok {E A} a.
Arguments Err {E A} e.

(** Pure code that may raise, and the filter whose test may. *)
Definition result_bind {E A B} (x : result E A) (k : A -> result E B) : result E B :=
  match x with Ok a => k a | Err e => Err e end.

Fixpoint filter_r {E A} (test : A -> result E bool) (xs : list A) : result E (list A) :=
  match xs with
  | [] => Ok []
  | x :: xs' =>
      result_bind (test x) (fun c =>
      result_bind (filter_r test xs') (fun ys => Ok (if c : bool then x :: ys else ys)))
  end.

Definition holds {E} (r : result E bool) : bool := match r with Ok b => b | Err _ => false end.

Lemma filter_r_ok {E A} (test : A -> result E bool) xs ys :
  filter_r test xs = Ok ys -> ys = List.filter (fun x => holds (test x)) xs.
Proof.
  revert ys. induction xs as [|x xs IH]; simpl; intros ys; [by intros [= <-]|].
  destruct (test x) as [c|e]; simpl; [|done]. destruct (filter_r test xs) as [zs|]; simpl; [|done].
  intros [= <-]. rewrite <- (IH zs eq_refl). by destruct c.
Qed.

Lemma filter_r_total {E A} (test : A -> result E bool) xs :
  (forall x, In x xs -> exists b, test x = Ok b) -> exists ys, filter_r test xs = Ok ys.
Proof.
  induction xs as [|x xs IH]; simpl; intros H; [eauto|].
  destruct (H x (or_introl eq_refl)) as [b ->]. destruct IH as [ys ->]; [auto|]. simpl. eauto.
Qed.

Lemma filter_r_err {E A} (test : A -> result E bool) xs e :
  filter_r test xs = Err e -> exists x, In x xs /\ test x = Err e.
Proof.
  induction xs as [|x xs IH]; simpl; [done|]. destruct (test x) as [c|e'] eqn:Hx; simpl.
  - destruct (filter_r test xs) as [ys|e']; simpl; [done|]. intros [= <-].
    destruct (IH eq_refl) as (y & ? & ?). eauto.
  - intros [= <-]. eauto.
Qed.

(** When the test can only raise [e], one element on which it does is enough. *)
Lemma filter_r_raises {E A} (test : A -> result E bool) e x xs :
  (forall y, test y = Err e \/ exists b, test y = Ok b) ->
  In x xs -> test x = Err e -> filter_r test xs = Err e.
Proof.
  intros Hall Hin Hx. induction xs as [|y xs IH]; [done|]. simpl.
  destruct Hin as [->|Hin]; [by rewrite Hx|].
  destruct (Hall y) as [->|[b ->]]; [done|]. simpl. by rewrite (IH Hin).
Qed.

Definition M (E W A : Type) : Type := W -> result E A * W.

Section monad.
Context {E W : Type}.

Definition ret {A} (a : A) : M E W A := fun w => (Ok a, w).

Definition raise {A} (e : E) : M E W A := fun w => (Err e, w).

Definition bind {A B} (m : M E W A) (k : A -> M E W B) : M E W B :=
  fun w =>
    match m w with
    | (Ok a, w') => k a w'
    | (Err e, w') => (Err e, w')
    end.

(** [gets]: read the world. *)
Definition gets {A} (f : W -> A) : M E W A := fun w => (Ok (f w), w).

(** [modify]: write the world. *)
Definition modify (f : W -> W) : M E W unit := fun w => (Ok tt, f w).

(** [try: m except e: h e]; [h] re-raises what it does not handle. *)
Definition catch {A} (m : M E W A) (h : E -> M E W A) : M E W A :=
  fun w =>
    match m w with
    | (Ok a, w') => (Ok a, w')
    | (Err e, w') => h e w'
    end.

(** [try: m finally: c]. *)
Definition finally {A} (m : M E W A) (c : M E W unit) : M E W A :=
  fun w =>
    let '(r, w') := m w in
    match c w' with
    | (Ok _, w'') => (r, w'')
    | (Err e, w'') => (Err e, w'')
    end.

(** A database transaction: an exception restores the view [get] of the
    world at entry ([put] writes it back), a success commits. *)
Definition transaction {S A} (get : W -> S) (put : S -> W -> W)
    (m : M E W A) : M E W A :=
  fun w =>
    match m w with
    | (Ok a, w') => (Ok a, w')
    | (Err e, w') => (Err e, put (get w) w')
    end.

(** [for x in xs: f x] *)
Fixpoint for_each {A} (xs : list A) (f : A -> M E W unit) : M E W unit :=
  match xs with
  | [] => ret tt
  | x :: xs' => bind (f x) (fun _ => for_each xs' f)
  end.

(** A loop with an accumulator. *)
Fixpoint fold_m {A S} (xs : list A) (s : S) (f : S -> A -> M E W S) : M E W S :=
  match xs with
  | [] => ret s
  | x :: xs' => bind (f s x) (fun s' => fold_m xs' s' f)
  end.

Definition lift_result {A} (r : result E A) : M E W A := fun w => (r, w).
End monad.

Declare Scope engine_scope.
Delimit Scope engine_scope with engine.

Notation "'let*' x ':=' m 'in' k" := (bind m (fun x => k))
  (at level 10, x pattern, m at level 100, k at level 200) : engine_scope.
Notation "m ';;;' k" := (bind m (fun _ => k))
  (at level 199, right associativity) : engine_scope.
Notation "'when' b 'do' m" := (if b then m else ret tt)
  (at level 198, b at level 100, m at level 100) : engine_scope.

#[global] Open Scope engine_scope.

(** ** Reasoning about [M]

    [respects R m]: whatever [m] does (return or raise), the world it leaves is
    related by [R] to the world it started from.  For a preorder [R] this is
    compositional, so one lemma per primitive operation lifts to every handler. *)

Section respects.
Context {E W : Type} (R : relation W).

Definition respects {A} (m : M E W A) : Prop := forall w, R w (m w).2.

Context `{!PreOrder R}.

Lemma respects_ret {A} (a : A) : respects (ret a).
Proof. intros w; reflexivity. Qed.

Lemma respects_raise {A} (e : E) : respects (A := A) (raise e).
Proof. intros w; reflexivity. Qed.

Lemma respects_gets {A} (f : W -> A) : respects (gets f).
Proof. intros w; reflexivity. Qed.

Lemma respects_lift {A} (r : result E A) : respects (lift_result r).
Proof. intros w; reflexivity. Qed.

Lemma respects_modify f : (forall w, R w (f w)) -> respects (modify f).
Proof. intros H w; apply H. Qed.

Lemma respects_bind {A B} (m : M E W A) (k : A -> M E W B) :
  respects m -> (forall a, respects (k a)) -> respects (bind m k).
Proof.
  intros Hm Hk w. specialize (Hm w). unfold bind.
  destruct (m w) as [[a|e] w']; simpl in *; [|done].
  etrans; [exact Hm | apply Hk].
Qed.

Lemma respects_catch {A} (m : M E W A) h :
  respects m -> (forall e, respects (h e)) -> respects (catch m h).
Proof.
  intros Hm Hh w. specialize (Hm w). unfold catch.
  destruct (m w) as [[a|e] w']; simpl in *; [done|].
  etrans; [exact Hm | apply Hh].
Qed.

Lemma respects_finally {A} (m : M E W A) c :
  respects m -> respects c -> respects (finally m c).
Proof.
  intros Hm Hc w. specialize (Hm w). unfold finally.
  destruct (m w) as [r w']; simpl in *. specialize (Hc w').
  destruct (c w') as [[?|?] ?]; simpl in *; by etrans.
Qed.

Lemma respects_for_each {A} (xs : list A) f :
  (forall x, respects (f x)) -> respects (for_each xs f).
Proof.
  intros Hf. induction xs as [|x xs IH]; simpl.
  - apply respects_ret.
  - apply respects_bind; auto.
Qed.

Lemma respects_fold_m {A S} (xs : list A) f : forall (s : S),
  (forall s x, respects (f s x)) -> respects (fold_m xs s f).
Proof.
  intros s Hf. revert s. induction xs as [|x xs IH]; intros s; simpl.
  - apply respects_ret.
  - apply respects_bind; auto.
Qed.
End respects.

Create HintDb engine.

(** Walk the structure of a handler, leaving only the primitive steps, which
    the [engine] hint database closes. *)
Ltac respects_step :=
  match goal with
  | |- respects _ (ret _) => apply respects_ret; apply _
  | |- respects _ (raise _) => apply respects_raise; apply _
  | |- respects _ (gets _) => apply respects_gets; apply _
  | |- respects _ (lift_result _) => apply respects_lift; apply _
  | |- respects _ (bind _ _) => apply respects_bind; [apply _ | | intros ?]
  | |- respects _ (catch _ _) => apply respects_catch; [apply _ | | intros ?]
  | |- respects _ (finally _ _) => apply respects_finally; [apply _ | | ]
  | |- respects _ (for_each _ _) => apply respects_for_each; [apply _ | intros ?]
  | |- respects _ (fold_m _ _ _) => apply respects_fold_m; [apply _ | intros ? ?]
  | |- _ => progress (eauto with engine)
  | |- _ => case_match
  end.
Ltac respects_tac := repeat respects_step.

(** Evaluation lemmas used to run a handler one step at a time. *)
Section run.
Context {E W : Type}.

Lemma bind_ok {A B} (m : M E W A) (k : A -> M E W B) w a w' :
  m w = (Ok a, w') -> bind m k w = k a w'.
Proof. intros H. unfold bind. by rewrite H. Qed.

Lemma bind_err {A B} (m : M E W A) (k : A -> M E W B) w e w' :
  m w = (Err e, w') -> bind m k w = (Err e, w').
Proof. intros H. unfold bind. by rewrite H. Qed.

Lemma bind_ext {A B} (m m' : M E W A) (k k' : A -> M E W B) w :
  m w = m' w -> (forall a w', m' w = (Ok a, w') -> k a w' = k' a w') ->
  bind m k w = bind m' k' w.
Proof.
  intros Hm Hk. unfold bind. rewrite Hm. destruct (m' w) as [[a|e] w'] eqn:Hw; [|done].
  by apply Hk.
Qed.

Lemma fold_m_ext {A S} (f g : S -> A -> M E W S) xs s w :
  (forall s x w, f s x w = g s x w) -> fold_m xs s f w = fold_m xs s g w.
Proof.
  intros Hfg. revert s w. induction xs as [|x xs IH]; intros s w; [done|].
  simpl. unfold bind. rewrite Hfg. destruct (g s x w) as [[]]; auto.
Qed.

(** A loop whose step is [g] or raises at once runs [g] over a prefix of the list. *)
Lemma fold_m_prefix {A S} (f g : S -> A -> M E W S) xs s w :
  (forall s x w, (exists e, f s x w = (Err e, w)) \/ f s x w = g s x w) ->
  exists ys, ys `prefix_of` xs /\ (fold_m xs s f w).2 = (fold_m ys s g w).2.
Proof.
  intros Hfg. revert s w. induction xs as [|x xs IH]; intros s w; [by exists []|].
  simpl. unfold bind. destruct (Hfg s x w) as [[e ->]| ->].
  { exists []. split; [apply prefix_nil | done]. }
  destruct (g s x w) as [[s'|e] w'] eqn:Hs.
  - destruct (IH s' w') as (ys & Hys & Heq). exists (x :: ys). split; [by apply prefix_cons|].
    simpl. unfold bind. rewrite Hs. exact Heq.
  - exists [x]. split; [apply prefix_cons, prefix_nil|]. simpl. unfold bind. by rewrite Hs.
Qed.

Lemma catch_ext {A} (m m' : M E W A) (h : E -> M E W A) w :
  m w = m' w -> catch m h w = catch m' h w.
Proof. intros Hm. unfold catch. by rewrite Hm. Qed.

Lemma bind_inv_ok {A B} (m : M E W A) (k : A -> M E W B) w b w'' :
  bind m k w = (Ok b, w'') ->
  exists a w', m w = (Ok a, w') /\ k a w' = (Ok b, w'').
Proof.
  unfold bind. destruct (m w) as [[a|e] w']; intros H; [eauto | congruence].
Qed.

Lemma catch_ok {A} (m : M E W A) h w a w' :
  m w = (Ok a, w') -> catch m h w = (Ok a, w').
Proof. intros H. unfold catch. by rewrite H. Qed.

Lemma catch_err {A} (m : M E W A) h w e w' :
  m w = (Err e, w') -> catch m h w = h e w'.
Proof. intros H. unfold catch. by rewrite H. Qed.

Lemma bind_assoc {A B C} (m : M E W A) (k : A -> M E W B) (l : B -> M E W C) w :
  bind (bind m k) l w = bind m (fun a => bind (k a) l) w.
Proof. unfold bind. by destruct (m w) as [[?|?] ?]. Qed.
End run.

Ltac inv_ok H :=
  let a := fresh "a" in let w := fresh "w" in let H1 := fresh "Hm" in
  apply bind_inv_ok in H as (a & w & H1 & H).

(** ** Generic lemmas shared by the components *)

(** The sum of the quantities of a list (SQL [COALESCE(SUM(quantity), 0)]). *)
Definition zsum (l : list Z) : Z := foldr Z.add 0%Z l.

Lemma zsum_app l k : zsum (l ++ k) = (zsum l + zsum k)%Z.
Proof. induction l as [|x l IH]; simpl; [done|]. rewrite IH. lia. Qed.

Lemma zsum_nonneg l : Forall (fun x => 0 <= x)%Z l -> (0 <= zsum l)%Z.
Proof. induction 1; simpl; lia. Qed.

(** Python's [x in frozenset] on a finite type with decidable equality. *)
Definition memb {A} `{EqDecision A} (x : A) (l : list A) : bool := bool_decide (x ∈ l).

Lemma memb_spec {A} `{EqDecision A} (x : A) l : memb x l = true <-> x ∈ l.
Proof. unfold memb. by rewrite bool_decide_eq_true. Qed.

(** ** Filtered lists *)

Lemma StronglySorted_filter {A} (R : relation A) (P : A -> Prop) `{!forall x, Decision (P x)} l :
  StronglySorted R l -> StronglySorted R (filter P l).
Proof.
  induction 1 as [|x l Hl IH Hx]; [constructor|]. rewrite filter_cons.
  case_decide; [|done]. constructor; [done|].
  rewrite Forall_forall in Hx |- *. intros y [_ Hy]%list_elem_of_filter. auto.
Qed.

Lemma filter_nil_of {A} (P : A -> Prop) `{!forall x, Decision (P x)} (l : list A) :
  (forall x, x ∈ l -> ~ P x) -> filter P l = [].
Proof.
  induction l as [|x l IH]; intros Hl; [done|]. rewrite filter_cons_False; set_solver.
Qed.

Lemma filter_all_of {A} (P : A -> Prop) `{!forall x, Decision (P x)} (l : list A) :
  (forall x, x ∈ l -> P x) -> filter P l = l.
Proof.
  induction l as [|x l IH]; intros Hl; [done|].
  rewrite filter_cons_True by set_solver. f_equal. set_solver.
Qed.
