(* ===== verification/Decimals.v ===== *)
(** * Decimals: Python's [decimal.Decimal] as the engine uses it

    Every price and cap of the engine is a finite [Decimal] (pydantic refuses
    NaN and infinities).  A [Decimal] is a signed coefficient and an exponent;
    comparison is exact, arithmetic rounds half-even to the default context's
    28 significant digits, [quantize] and [format(d, "f")] are the library's. *)

From S2P Require Import Prelude.
From stdpp Require Import base gmap strings list.
From Stdlib Require Import ZArith Lia QArith Qpower Lqa.
Open Scope Z_scope.

Record Decimal := Dec { d_coeff : Z; d_exp : Z }.

#[export] Instance Decimal_eq_dec : EqDecision Decimal.
Proof. solve_decision. Defined.

Definition dec_of_Z (z : Z) : Decimal := Dec z 0.
Definition dec_zero : Decimal := Dec 0 0.

(** ** Exact comparison: bring both operands to the smaller exponent. *)

Definition dec_scale (e : Z) (d : Decimal) : Z := d_coeff d * 10 ^ (d_exp d - e).

Definition dec_compare (a b : Decimal) : comparison :=
  let e := Z.min (d_exp a) (d_exp b) in
  Z.compare (dec_scale e a) (dec_scale e b).

Definition dec_ltb (a b : Decimal) : bool :=
  match dec_compare a b with Lt => true | _ => false end.
Definition dec_leb (a b : Decimal) : bool :=
  match dec_compare a b with Gt => false | _ => true end.
Definition dec_eqb (a b : Decimal) : bool :=
  match dec_compare a b with Eq => true | _ => false end.
Definition dec_gtb (a b : Decimal) : bool := dec_ltb b a.

Definition dec_min (a b : Decimal) : Decimal := if dec_ltb b a then b else a.
Definition dec_max (a b : Decimal) : Decimal := if dec_ltb a b then b else a.

(** ** The context: 28 digits, round-half-even *)

Definition dec_prec : Z := 28.

Fixpoint digits_go (fuel : nat) (n : Z) : Z :=
  match fuel with
  | O => 1
  | S f => if n <? 10 then 1 else 1 + digits_go f (n / 10)
  end.

(** Number of decimal digits of [|n|] (1 for 0), Python's [len(str(abs(n)))]. *)
Definition num_digits (n : Z) : Z := digits_go (Z.to_nat (Z.log2 (Z.abs n) + 1)) (Z.abs n).

(** [|n| / 10^k] rounded half-even, for [k >= 0]. *)
Definition round_half_even (n k : Z) : Z :=
  let p := 10 ^ k in
  let q := n / p in
  let r := n mod p in
  if 2 * r <? p then q
  else if p <? 2 * r then q + 1
  else if Z.even q then q else q + 1.

Definition dec_fix (d : Decimal) : Decimal :=
  let n := num_digits (d_coeff d) in
  if n <=? dec_prec then d
  else
    let k := n - dec_prec in
    let c := round_half_even (Z.abs (d_coeff d)) k in
    let s := Z.sgn (d_coeff d) in
    if num_digits c <=? dec_prec then Dec (s * c) (d_exp d + k)
    else Dec (s * (c / 10)) (d_exp d + k + 1).

Definition dec_sub (a b : Decimal) : Decimal :=
  let e := Z.min (d_exp a) (d_exp b) in
  dec_fix (Dec (dec_scale e a - dec_scale e b) e).

Definition dec_mul (a b : Decimal) : Decimal :=
  dec_fix (Dec (d_coeff a * d_coeff b) (d_exp a + d_exp b)).

Definition dec_abs (a : Decimal) : Decimal := dec_fix (Dec (Z.abs (d_coeff a)) (d_exp a)).

(** Strip trailing zeros of an exact quotient while the exponent is below the
    ideal one. *)
Fixpoint strip_zeros (fuel : nat) (c e ideal : Z) : Decimal :=
  match fuel with
  | O => Dec c e
  | S f => if (e <? ideal) && (c mod 10 =? 0) then strip_zeros f (c / 10) (e + 1) ideal
           else Dec c e
  end.

(** [a / b] ([None] for a zero divisor, which raises). *)
Definition dec_div (a b : Decimal) : option Decimal :=
  if d_coeff b =? 0 then None
  else
    let s := Z.sgn (d_coeff a) * Z.sgn (d_coeff b) in
    let ca := Z.abs (d_coeff a) in
    let cb := Z.abs (d_coeff b) in
    let ideal := d_exp a - d_exp b in
    if ca =? 0 then Some (Dec 0 ideal)
    else
      let shift := num_digits cb - num_digits ca + dec_prec + 1 in
      let num := if 0 <=? shift then ca * 10 ^ shift else ca in
      let den := if 0 <=? shift then cb else cb * 10 ^ (- shift) in
      let q := num / den in
      let r := num mod den in
      let e := ideal - shift in
      if r =? 0 then
        let d := strip_zeros (Z.to_nat shift) q e ideal in
        Some (dec_fix (Dec (s * d_coeff d) (d_exp d)))
      else
        let q' := if q mod 5 =? 0 then q + 1 else q in
        Some (dec_fix (Dec (s * q') e)).

(** [d.quantize(Decimal(1).scaleb(e))]: [None] when the result would need more
    than 28 digits ([InvalidOperation]). *)
Definition dec_quantize (d : Decimal) (e : Z) : option Decimal :=
  let c :=
    if e <=? d_exp d then d_coeff d * 10 ^ (d_exp d - e)
    else Z.sgn (d_coeff d) * round_half_even (Z.abs (d_coeff d)) (e - d_exp d) in
  if num_digits c <=? dec_prec then Some (Dec c e) else None.

(** ** [format(d, "f")] *)

Definition digit_char (d : Z) : Ascii.ascii := Ascii.ascii_of_nat (48 + Z.to_nat d).

Fixpoint digits_str (fuel : nat) (n : Z) (acc : string) : string :=
  match fuel with
  | O => acc
  | S f =>
      let acc' := String (digit_char (n mod 10)) acc in
      if n <? 10 then acc' else digits_str f (n / 10) acc'
  end.

(** [str(n)] for a non-negative [n]. *)
Definition nat_str (n : Z) : string := digits_str (Z.to_nat (num_digits n)) n "".

(** [str(n)] for an [int]. *)
Definition int_str (n : Z) : string :=
  if n <? 0 then ("-" +:+ nat_str (- n))%string else nat_str n.

Fixpoint zeros (n : nat) : string :=
  match n with O => "" | S k => String (digit_char 0) (zeros k) end.

Definition format_f (d : Decimal) : string :=
  let sign := if d_coeff d <? 0 then "-"%string else ""%string in
  let ds := nat_str (Z.abs (d_coeff d)) in
  if 0 <=? d_exp d then
    if d_coeff d =? 0 then "0"%string
    else (sign +:+ ds +:+ zeros (Z.to_nat (d_exp d)))%string
  else
    let frac := Z.to_nat (- d_exp d) in
    let padded := (zeros (S frac - String.length ds)%nat +:+ ds)%string in
    let cut := (String.length padded - frac)%nat in
    (sign +:+ String.substring 0 cut padded +:+ "." +:+ String.substring cut frac padded)%string.

Example format_f_1 : format_f (Dec 12345 (-2)) = "123.45"%string.
Proof. reflexivity. Qed.
Example format_f_2 : format_f (Dec 5 (-3)) = "0.005"%string.
Proof. reflexivity. Qed.
Example format_f_3 : format_f (Dec (-12) 3) = "-12000"%string.
Proof. reflexivity. Qed.
Example dec_div_1 : dec_div (Dec 1 0) (Dec 3 0) = Some (Dec 3333333333333333333333333333 (-28)).
Proof. reflexivity. Qed.
Example dec_div_2 : dec_div (Dec 10 0) (Dec 4 0) = Some (Dec 25 (-1)).
Proof. reflexivity. Qed.
Example dec_quantize_1 : dec_quantize (Dec 12345 (-3)) (-2) = Some (Dec 1234 (-2)).
Proof. reflexivity. Qed.

(** ** The value a Decimal denotes, and what comparison decides *)

Definition dec_val (d : Decimal) : Q := (inject_Z (d_coeff d) * Qpower 10 (d_exp d))%Q.

Lemma Qpower10_pos e : (0 < Qpower 10 e)%Q.
Proof. apply Qpower_0_lt. reflexivity. Qed.

Lemma dec_val_scale e d : e <= d_exp d ->
  (dec_val d == inject_Z (dec_scale e d) * Qpower 10 e)%Q.
Proof.
  intros H. unfold dec_val, dec_scale. rewrite inject_Z_mult.
  rewrite <- (Qmult_assoc (inject_Z (d_coeff d))). apply Qmult_comp; [reflexivity|].
  replace (d_exp d) with ((d_exp d - e) + e) at 1 by lia.
  rewrite Qpower_plus by discriminate. apply Qmult_comp; [|reflexivity].
  rewrite (Zpower_Qpower 10) by lia. reflexivity.
Qed.

Lemma dec_compare_val a b : dec_compare a b = (dec_val a ?= dec_val b)%Q.
Proof.
  unfold dec_compare. set (e := Z.min (d_exp a) (d_exp b)).
  rewrite (dec_val_scale e a), (dec_val_scale e b) by (unfold e; lia).
  pose proof (Qpower10_pos e) as Hp.
  destruct (Z.compare_spec (dec_scale e a) (dec_scale e b)) as [H|H|H]; symmetry.
  - rewrite H. by apply Qeq_alt.
  - apply Qlt_alt. apply Qmult_lt_compat_r; [done|]. by rewrite <- Zlt_Qlt.
  - apply Qgt_alt. apply Qmult_lt_compat_r; [done|]. by rewrite <- Zlt_Qlt.
Qed.

Lemma dec_leb_spec a b : dec_leb a b = true <-> (dec_val a <= dec_val b)%Q.
Proof.
  unfold dec_leb. rewrite dec_compare_val.
  destruct (dec_val a ?= dec_val b)%Q eqn:Hc.
  - apply Qeq_alt in Hc. split; [|done]. intros _. rewrite Hc. apply Qle_refl.
  - apply Qlt_alt in Hc. split; [|done]. intros _. by apply Qlt_le_weak.
  - apply Qgt_alt in Hc. split; [done|]. intros H. exfalso. by apply (Qle_not_lt _ _ H).
Qed.

Lemma dec_ltb_spec a b : dec_ltb a b = true <-> (dec_val a < dec_val b)%Q.
Proof.
  unfold dec_ltb. rewrite dec_compare_val, Qlt_alt.
  by destruct (dec_val a ?= dec_val b)%Q.
Qed.

Lemma dec_eqb_spec a b : dec_eqb a b = true <-> (dec_val a == dec_val b)%Q.
Proof.
  unfold dec_eqb. rewrite dec_compare_val, Qeq_alt.
  by destruct (dec_val a ?= dec_val b)%Q.
Qed.

Lemma dec_ltb_leb a b : dec_ltb a b = negb (dec_leb b a).
Proof.
  apply eq_true_iff_eq. rewrite dec_ltb_spec, negb_true_iff, <- not_true_iff_false, dec_leb_spec.
  split; [apply Qlt_not_le | apply Qnot_le_lt].
Qed.

Lemma dec_eqb_refl a : dec_eqb a a = true.
Proof. by apply dec_eqb_spec. Qed.

Lemma dec_min_le_l a b : dec_leb (dec_min a b) a = true.
Proof.
  unfold dec_min. destruct (dec_ltb b a) eqn:H; apply dec_leb_spec.
  - apply dec_ltb_spec in H. by apply Qlt_le_weak.
  - apply Qle_refl.
Qed.

Lemma dec_min_le_r a b : dec_leb (dec_min a b) b = true.
Proof.
  unfold dec_min. rewrite dec_ltb_leb. destruct (dec_leb a b) eqn:H; simpl; [done|].
  apply dec_leb_spec, Qle_refl.
Qed.

Lemma dec_max_ge_l a b : dec_leb a (dec_max a b) = true.
Proof.
  unfold dec_max. destruct (dec_ltb a b) eqn:H; apply dec_leb_spec.
  - apply dec_ltb_spec in H. by apply Qlt_le_weak.
  - apply Qle_refl.
Qed.

Lemma dec_max_ge_r a b : dec_leb b (dec_max a b) = true.
Proof.
  unfold dec_max. rewrite dec_ltb_leb. destruct (dec_leb b a) eqn:H; simpl; [done|].
  apply dec_leb_spec, Qle_refl.
Qed.

(** ** Digit counts and exactness *)

Lemma digits_go_le fuel : forall n k, 0 <= n -> 1 <= k -> n < 10 ^ k -> digits_go fuel n <= k.
Proof.
  induction fuel as [|f IH]; intros n k Hn Hk Hlt; simpl; [lia|].
  destruct (Z.ltb_spec n 10); [lia|].
  destruct (Z.eq_dec k 1) as [->|Hk1]; [simpl in Hlt; lia|].
  enough (digits_go f (n / 10) <= k - 1) by lia.
  apply IH; [apply Z.div_pos; lia | lia |].
  apply Z.div_lt_upper_bound; [lia|].
  replace (10 * 10 ^ (k - 1)) with (10 ^ k); [lia|].
  replace k with (Z.succ (k - 1)) at 1 by lia. by rewrite Z.pow_succ_r by lia.
Qed.

Lemma num_digits_le n k : 1 <= k -> Z.abs n < 10 ^ k -> num_digits n <= k.
Proof. intros. apply digits_go_le; lia. Qed.

(** Within 28 digits the context never rounds. *)
Lemma dec_fix_exact d : Z.abs (d_coeff d) < 10 ^ dec_prec -> dec_fix d = d.
Proof.
  intros H. unfold dec_fix. rewrite (proj2 (Z.leb_le _ _)); [done|].
  by apply num_digits_le.
Qed.

Lemma dec_mul_exact a b :
  Z.abs (d_coeff a * d_coeff b) < 10 ^ dec_prec ->
  (dec_val (dec_mul a b) == dec_val a * dec_val b)%Q.
Proof.
  intros H. unfold dec_mul. rewrite dec_fix_exact by done. unfold dec_val; simpl.
  rewrite inject_Z_mult, Qpower_plus by discriminate. ring.
Qed.

(** ** Printing integers is injective *)

Fixpoint digits_val (s : string) (v : Z) : Z :=
  match s with
  | EmptyString => v
  | String a s' => digits_val s' (10 * v + (Z.of_nat (Ascii.nat_of_ascii a) - 48))
  end.

Lemma digit_char_val d : 0 <= d < 10 -> Z.of_nat (Ascii.nat_of_ascii (digit_char d)) - 48 = d.
Proof.
  intros Hd. unfold digit_char. rewrite Ascii.nat_ascii_embedding; lia.
Qed.

Lemma digits_str_val fuel : forall n acc, 0 <= n < 10 ^ Z.of_nat fuel -> (0 < fuel)%nat ->
  digits_val (digits_str fuel n acc) 0 = digits_val acc n.
Proof.
  induction fuel as [|f IH]; intros n acc Hn Hf; [lia|]. simpl.
  pose proof (Z.mod_pos_bound n 10 ltac:(lia)) as Hm.
  destruct (Z.ltb_spec n 10).
  - simpl. rewrite digit_char_val by done. by rewrite Z.mod_small by lia.
  - rewrite IH.
    + simpl. rewrite digit_char_val by done. f_equal. pose proof (Z.div_mod n 10). lia.
    + split; [apply Z.div_pos; lia|]. apply Z.div_lt_upper_bound; [lia|].
      rewrite Nat2Z.inj_succ, Z.pow_succ_r in Hn by lia. lia.
    + destruct f; [simpl in Hn; lia|lia].
Qed.

Lemma digits_go_pos fuel : forall n, 1 <= digits_go fuel n.
Proof.
  induction fuel as [|f IH]; intros m; simpl; [lia|].
  destruct (m <? 10); [lia|]. specialize (IH (m / 10)). lia.
Qed.

Lemma digits_go_gt fuel : forall n, 0 <= n < 2 ^ Z.of_nat fuel -> n < 10 ^ digits_go fuel n.
Proof.
  induction fuel as [|f IH]; intros n Hn; simpl; [simpl in Hn; lia|].
  destruct (Z.ltb_spec n 10); [simpl; lia|].
  assert (H10 : n / 10 < 10 ^ digits_go f (n / 10)).
  { apply IH. split; [apply Z.div_pos; lia|].
    rewrite Nat2Z.inj_succ, Z.pow_succ_r in Hn by lia.
    apply Z.div_lt_upper_bound; lia. }
  pose proof (digits_go_pos f (n / 10)).
  rewrite Z.pow_add_r by lia. pose proof (Z.div_mod n 10). pose proof (Z.mod_pos_bound n 10). lia.
Qed.

Lemma nat_str_val n : 0 <= n -> digits_val (nat_str n) 0 = n.
Proof.
  intros Hn. unfold nat_str, num_digits. rewrite Z.abs_eq by done.
  set (fu := Z.to_nat (Z.log2 n + 1)).
  assert (Hlt : n < 2 ^ Z.of_nat fu).
  { unfold fu. rewrite Z2Nat.id by (pose proof (Z.log2_nonneg n); lia).
    destruct (Z.eq_dec n 0) as [->|]; [reflexivity|]. apply Z.log2_lt_pow2; lia. }
  pose proof (digits_go_pos fu n) as Hpos. rewrite digits_str_val; [done| |lia].
  rewrite Z2Nat.id by lia. split; [done|]. by apply digits_go_gt.
Qed.

Lemma nat_str_inj a b : 0 <= a -> 0 <= b -> nat_str a = nat_str b -> a = b.
Proof. intros Ha Hb E. by rewrite <- (nat_str_val a Ha), <- (nat_str_val b Hb), E. Qed.

Lemma int_str_inj a b : 0 <= a -> 0 <= b -> int_str a = int_str b -> a = b.
Proof.
  intros Ha Hb. unfold int_str.
  rewrite (proj2 (Z.ltb_ge a 0)), (proj2 (Z.ltb_ge b 0)) by lia. by apply nat_str_inj.
Qed.
