(* ===== verification/Contracts.v ===== *)
(** * Contracts: the frozen order language

    [contracts/enums.py], [contracts/orders.py], [contracts/capabilities.py]
    and the exception taxonomy of [contracts/errors.py] with the module-local
    errors of [adapters], [db], [cache] and [core].  Message texts are kept
    only where the program stores or compares them. *)

From S2P Require Import Prelude Decimals.
From stdpp Require Import base gmap strings list.
From Stdlib Require Import ZArith Lia.
Open Scope Z_scope.

(** ** Enums *)

Inductive Broker := SIM | LIBERATOR | STREAMING_PRO.
Inductive Market := SET_ | TFEX.
Inductive Side := BUY | SELL.
Inductive OrderType := MARKET | LIMIT | STOP | STOP_LIMIT | ICEBERG | MTL | ATO | ATC.
Inductive Tif := DAY | IOC | FOK | GTC.
Inductive PositionEffect := OPEN | CLOSE.

Module Stage.
Inductive t := SIM | PAPER | MICRO_LIVE | LIVE.
End Stage.

Module OrderState.
Inductive t :=
  | PENDING_NEW | NEW | PARTIALLY_FILLED | FILLED | PENDING_CANCEL
  | PENDING_REPLACE | CANCELLED | REJECTED | EXPIRED.

Definition all : list t :=
  [PENDING_NEW; NEW; PARTIALLY_FILLED; FILLED; PENDING_CANCEL;
   PENDING_REPLACE; CANCELLED; REJECTED; EXPIRED].

Definition value (s : t) : string :=
  match s with
  | PENDING_NEW => "PENDING_NEW"
  | NEW => "NEW"
  | PARTIALLY_FILLED => "PARTIALLY_FILLED"
  | FILLED => "FILLED"
  | PENDING_CANCEL => "PENDING_CANCEL"
  | PENDING_REPLACE => "PENDING_REPLACE"
  | CANCELLED => "CANCELLED"
  | REJECTED => "REJECTED"
  | EXPIRED => "EXPIRED"
  end.
End OrderState.

Module PublicOrderStatus.
Inductive t := NEW | PARTIALLY_FILLED | FILLED | CANCELLED | REJECTED | EXPIRED.

Definition value (s : t) : string :=
  match s with
  | NEW => "NEW"
  | PARTIALLY_FILLED => "PARTIALLY_FILLED"
  | FILLED => "FILLED"
  | CANCELLED => "CANCELLED"
  | REJECTED => "REJECTED"
  | EXPIRED => "EXPIRED"
  end.
End PublicOrderStatus.

Module HandleResolution.
Inductive t := CONFIRMED | PENDING | UNKNOWN.
End HandleResolution.

#[export] Instance Broker_eq_dec : EqDecision Broker.
Proof. solve_decision. Defined.
#[export] Instance Market_eq_dec : EqDecision Market.
Proof. solve_decision. Defined.
#[export] Instance Side_eq_dec : EqDecision Side.
Proof. solve_decision. Defined.
#[export] Instance OrderType_eq_dec : EqDecision OrderType.
Proof. solve_decision. Defined.
#[export] Instance Tif_eq_dec : EqDecision Tif.
Proof. solve_decision. Defined.
#[export] Instance PositionEffect_eq_dec : EqDecision PositionEffect.
Proof. solve_decision. Defined.
#[export] Instance Stage_eq_dec : EqDecision Stage.t.
Proof. solve_decision. Defined.
#[export] Instance OrderState_eq_dec : EqDecision OrderState.t.
Proof. solve_decision. Defined.
#[export] Instance PublicOrderStatus_eq_dec : EqDecision PublicOrderStatus.t.
Proof. solve_decision. Defined.
#[export] Instance HandleResolution_eq_dec : EqDecision HandleResolution.t.
Proof. solve_decision. Defined.

Definition Broker_value (b : Broker) : string :=
  match b with SIM => "sim" | LIBERATOR => "liberator" | STREAMING_PRO => "streaming_pro" end.
Definition Market_value (m : Market) : string :=
  match m with SET_ => "SET" | TFEX => "TFEX" end.
Definition Side_value (s : Side) : string :=
  match s with BUY => "BUY" | SELL => "SELL" end.
Definition OrderType_value (t : OrderType) : string :=
  match t with
  | MARKET => "MARKET" | LIMIT => "LIMIT" | STOP => "STOP" | STOP_LIMIT => "STOP_LIMIT"
  | ICEBERG => "ICEBERG" | MTL => "MTL" | ATO => "ATO" | ATC => "ATC"
  end.
Definition Tif_value (t : Tif) : string :=
  match t with DAY => "DAY" | IOC => "IOC" | FOK => "FOK" | GTC => "GTC" end.
Definition PositionEffect_value (p : PositionEffect) : string :=
  match p with OPEN => "OPEN" | CLOSE => "CLOSE" end.

(** [PublicOrderStatus(state.value)]: the enum lookup by value, which raises
    (here [None]) for a value outside the six. *)
Definition PublicOrderStatus_of_value (v : string) : option PublicOrderStatus.t :=
  List.find (fun p => String.eqb (PublicOrderStatus.value p) v)
    [PublicOrderStatus.NEW; PublicOrderStatus.PARTIALLY_FILLED; PublicOrderStatus.FILLED;
     PublicOrderStatus.CANCELLED; PublicOrderStatus.REJECTED; PublicOrderStatus.EXPIRED].

Definition to_public_status (state : OrderState.t) (filled_qty : Z)
    : option PublicOrderStatus.t :=
  if decide (state = OrderState.PENDING_NEW) then Some PublicOrderStatus.NEW
  else if memb state [OrderState.PENDING_CANCEL; OrderState.PENDING_REPLACE] then
    Some (if 0 <? filled_qty then PublicOrderStatus.PARTIALLY_FILLED
          else PublicOrderStatus.NEW)
  else PublicOrderStatus_of_value (OrderState.value state).

(** ** Exceptions

    One constructor per exception class the modelled code raises or catches.
    [cid] is the [client_order_id] keyword of [OrderRejectedError]. *)

Inductive exn : Type :=
  (* OrderRejectedError and its subclasses *)
  | PublicModeRejected
  | ReadKeyForbidden
  | VenueOrdersUnavailable
  | KillSwitchEngagedError
  | KillSwitchPinnedError
  | KillSwitchNotEngagedError
  | StageRejected
  | CapabilityError
  | RiskRejected (cap : string) (cid : option string)
  | PriceBandExceeded (cid : option string)
  | DuplicateBurstDetected (cid : option string)
  | OrderNotFound (cid : option string)
  | IllegalTransition (cid : option string)
  | StoreConstraintViolated (cid : option string)
  | ConcurrentSubmit (cid : option string)
  | AmendRejected (msg : string) (cid : option string)
  | RealRoutingNotAuthorized
  | CircuitOpenError
  | OrderBookUnavailable
  | OrderStreamUnavailable
  | LiberatorAccountNotFound
  | LiberatorPositionsUncaptured
  | StreamingProAccountUnavailable
  | StreamingProPositionsUncaptured
  (* AdapterError and its subclasses *)
  | AdapterError (msg : string)
  | LiberatorTransportError (msg : string)
  | LiberatorMappingError (msg : string)
  | StreamingProTransportError (msg : string)
  | StreamingProMappingError (msg : string)
  (* other engine errors *)
  | CacheError
  | ConfigError
  | RepositoryError
  | PoolNotInitializedError
  | DuplicateOrderSignal (cid : string)
  (* errors of the language and the libraries the code calls *)
  | ValueError (msg : string)
  | ValidationError
  | AssertionError
  | DivisionByZero
  | InvalidOperation
  | UniqueViolationError
  | CheckViolationError
  | RedisError
  | HTTPException (status : Z)
  | OtherError (msg : string)
  (* a fuelled loop of this model ran out of fuel; no source counterpart *)
  | OutOfFuel.

#[export] Instance exn_eq_dec : EqDecision exn.
Proof. solve_decision. Defined.

(** [isinstance(exc, AdapterError)] *)
Definition is_AdapterError (e : exn) : bool :=
  match e with
  | AdapterError _ | LiberatorTransportError _ | LiberatorMappingError _
  | StreamingProTransportError _ | StreamingProMappingError _ => true
  | _ => false
  end.

(** [str(exc)] for the adapter errors, whose text is persisted. *)
Definition exn_str (e : exn) : string :=
  match e with
  | AdapterError m | LiberatorTransportError m | LiberatorMappingError m
  | StreamingProTransportError m | StreamingProMappingError m | ValueError m
  | OtherError m => m
  | AmendRejected m _ => m
  | _ => ""
  end.

(** The stable wire [code] of an [OrderRejectedError]; [None] for any other
    exception class. *)
Definition exn_code (e : exn) : option string :=
  match e with
  | PublicModeRejected => Some "public_mode"
  | ReadKeyForbidden => Some "read_key_forbidden"
  | VenueOrdersUnavailable => Some "venue_orders_unavailable"
  | KillSwitchEngagedError => Some "kill_switch_engaged"
  | KillSwitchPinnedError => Some "kill_switch_env_pinned"
  | KillSwitchNotEngagedError => Some "kill_switch_not_engaged"
  | StageRejected => Some "stage_rejected"
  | CapabilityError => Some "capability_unsupported"
  | RiskRejected _ _ => Some "risk_rejected"
  | PriceBandExceeded _ => Some "price_band_exceeded"
  | DuplicateBurstDetected _ => Some "duplicate_burst_detected"
  | OrderNotFound _ => Some "order_not_found"
  | IllegalTransition _ => Some "illegal_transition"
  | StoreConstraintViolated _ => Some "store_constraint_violated"
  | ConcurrentSubmit _ => Some "submit_in_flight"
  | AmendRejected _ _ => Some "amend_rejected"
  | RealRoutingNotAuthorized => Some "real_routing_not_authorized"
  | CircuitOpenError => Some "broker_circuit_open"
  | OrderBookUnavailable => Some "order_book_unavailable"
  | OrderStreamUnavailable => Some "order_stream_unavailable"
  | LiberatorAccountNotFound => Some "liberator_account_not_found"
  | LiberatorPositionsUncaptured => Some "liberator_positions_uncaptured"
  | StreamingProAccountUnavailable => Some "streaming_pro_account_unavailable"
  | StreamingProPositionsUncaptured => Some "streaming_pro_positions_uncaptured"
  | _ => None
  end.

(** ** JSON values ([dict[str, Any]] payloads and metadata) *)

#[warnings="-register-all"]
Inductive json : Type :=
  | JNull
  | JBool (b : bool)
  | JInt (z : Z)
  | JFloat (repr : string)      (* a binary float, by its [repr] *)
  | JStr (s : string)
  | JList (l : list json)
  | JObj (kvs : list (string * json)).

(** [d.get(k)] on a JSON object: the value of the key ([JNull] when absent, as
    [dict.get] answers [None] for both). *)
Fixpoint jassoc (k : string) (kvs : list (string * json)) : option json :=
  match kvs with
  | [] => None
  | (k', v) :: kvs' => if String.eqb k k' then Some v else jassoc k kvs'
  end.

Definition jget (k : string) (kvs : list (string * json)) : json :=
  default JNull (jassoc k kvs).

(** ** NormalizedOrder *)

Record NormalizedOrder := {
  no_client_order_id : string;
  no_broker : Broker;
  no_account : string;
  no_market : Market;
  no_symbol : string;
  no_side : Side;
  no_order_type : OrderType;
  no_price : option Decimal;
  no_stop_price : option Decimal;
  no_quantity : Z;
  no_display_qty : option Z;
  no_tif : Tif;
  no_position_effect : option PositionEffect;
  no_metadata : list (string * json);
}.

Definition _PRICED_TYPES : list OrderType := [LIMIT; STOP_LIMIT].
Definition _STOP_TYPES : list OrderType := [STOP; STOP_LIMIT].

(** *** [uuid.UUID(value)]

    The constructor drops the literal markers ["urn:"] and ["uuid:"], strips
    braces at both ends, drops hyphens and demands 32 characters that [int(_, 16)]
    reads as a number in range. *)

Fixpoint starts_with (p l : list Ascii.ascii) : bool :=
  match p, l with
  | [], _ => true
  | a :: p', b :: l' => Ascii.eqb a b && starts_with p' l'
  | _ :: _, [] => false
  end.

(** [s.replace(p, "")], left to right, for a non-empty [p]. *)
Fixpoint drop_all (fuel : nat) (p l : list Ascii.ascii) : list Ascii.ascii :=
  match fuel, l with
  | S f, a :: l' =>
      if starts_with p l then drop_all f p (drop (length p) l)
      else a :: drop_all f p l'
  | _, _ => l
  end.

Definition remove_sub (p : string) (l : list Ascii.ascii) : list Ascii.ascii :=
  drop_all (length l) (String.list_ascii_of_string p) l.

Fixpoint lstrip_with (f : Ascii.ascii -> bool) (l : list Ascii.ascii) : list Ascii.ascii :=
  match l with
  | a :: l' => if f a then lstrip_with f l' else l
  | [] => []
  end.

Definition strip_with (f : Ascii.ascii -> bool) (l : list Ascii.ascii) : list Ascii.ascii :=
  rev (lstrip_with f (rev (lstrip_with f l))).

Definition char_code (a : Ascii.ascii) : Z := Z.of_nat (Ascii.nat_of_ascii a).

Definition is_space (a : Ascii.ascii) : bool :=
  memb (char_code a) [9; 10; 11; 12; 13; 28; 29; 30; 31; 32].
Definition is_brace (a : Ascii.ascii) : bool := memb (char_code a) [123; 125].

Definition hex_digit (a : Ascii.ascii) : option Z :=
  let c := char_code a in
  if (48 <=? c) && (c <=? 57) then Some (c - 48)
  else if (97 <=? c) && (c <=? 102) then Some (c - 87)
  else if (65 <=? c) && (c <=? 70) then Some (c - 55)
  else None.

(** Digits with single underscores between them. *)
Fixpoint hex_value (l : list Ascii.ascii) (acc : Z) (after_digit : bool) : option Z :=
  match l with
  | [] => if after_digit then Some acc else None
  | a :: l' =>
      match hex_digit a with
      | Some d => hex_value l' (16 * acc + d) true
      | None => if (char_code a =? 95) && after_digit then hex_value l' acc false else None
      end
  end.

(** [int(s, 16)] *)
Definition int16 (l : list Ascii.ascii) : option Z :=
  let l := strip_with is_space l in
  let '(neg, l) :=
    match l with
    | a :: l' => if char_code a =? 45 then (true, l')
                 else if char_code a =? 43 then (false, l') else (false, l)
    | [] => (false, [])
    end in
  let l :=
    match l with
    | a :: b :: l' =>
        if (char_code a =? 48) && memb (char_code b) [120; 88]
        then match l' with
             | c :: l'' => if char_code c =? 95 then l'' else l'
             | [] => []
             end
        else l
    | _ => l
    end in
  v ← hex_value l 0 false; Some (if neg : bool then - v else v).

Definition uuid_parse (value : string) : option Z :=
  let l := remove_sub "uuid:" (remove_sub "urn:" (String.list_ascii_of_string value)) in
  let h := remove_sub "-" (strip_with is_brace l) in
  if (length h =? 32)%nat then
    v ← int16 h;
    if (0 <=? v) && (v <? 2 ^ 128) then Some v else None
  else None.

(** [uuid.UUID.version]: [None] unless the variant bits are RFC 4122's. *)
Definition uuid_version (v : Z) : option Z :=
  if Z.testbit v 63 && negb (Z.testbit v 62) then Some (Z.land (Z.shiftr v 76) 15) else None.

Definition _uuid4_at_the_boundary (value : string) : result exn string :=
  match uuid_parse value with
  | None => Err (ValueError "client_order_id must be a UUIDv4")
  | Some parsed =>
      if decide (uuid_version parsed = Some 4) then Ok value
      else Err (ValueError "client_order_id must be a UUIDv4")
  end.

(** *** The cross-field rules, in the validator's order *)
Definition _cross_field_rules (o : NormalizedOrder) : result exn NormalizedOrder :=
  if match no_price o with Some p => dec_leb p dec_zero | None => false end
  then Err (ValueError "price must be > 0")
  else if match no_stop_price o with Some p => dec_leb p dec_zero | None => false end
  then Err (ValueError "stop_price must be > 0")
  else if memb (no_order_type o) _PRICED_TYPES && bool_decide (no_price o = None)
  then Err (ValueError ("price is required for "%string +:+ OrderType_value (no_order_type o)))
  else if memb (no_order_type o) _STOP_TYPES && bool_decide (no_stop_price o = None)
  then Err (ValueError ("stop_price is required for "%string +:+ OrderType_value (no_order_type o)))
  else
    match
      match no_display_qty o with
      | Some dq =>
          if negb (bool_decide (no_order_type o = ICEBERG))
          then Some "display_qty is only valid for ICEBERG orders"%string
          else if no_quantity o <? dq then Some "display_qty must be <= quantity"%string
          else None
      | None =>
          if bool_decide (no_order_type o = ICEBERG)
          then Some "ICEBERG orders require display_qty"%string else None
      end
    with
    | Some m => Err (ValueError m)
    | None =>
        if bool_decide (no_market o = TFEX) && bool_decide (no_position_effect o = None)
        then Err (ValueError "position_effect is required for TFEX orders")
        else if bool_decide (no_market o = SET_) && negb (bool_decide (no_position_effect o = None))
        then Err (ValueError "position_effect must be omitted for SET orders")
        else Ok o
    end.

(** [Field(min_length=1)], [Field(gt=0)] *)
Definition _field_constraints (o : NormalizedOrder) : bool :=
  negb (String.eqb (no_account o) "") && negb (String.eqb (no_symbol o) "") &&
  (0 <? no_quantity o) &&
  match no_display_qty o with Some dq => 0 <? dq | None => true end.

(** Building a [NormalizedOrder]: field constraints and field validators first,
    the model validator last. *)
Definition NormalizedOrder_new (o : NormalizedOrder) : result exn NormalizedOrder :=
  match _uuid4_at_the_boundary (no_client_order_id o) with
  | Err e => Err e
  | Ok _ =>
      if _field_constraints o then _cross_field_rules o
      else Err (ValueError "field constraint")
  end.

(** ** The capability matrix *)

Record CapabilitySet := {
  cap_broker : Broker;
  cap_market : Market;
  cap_order_types : list OrderType;
  cap_tifs : list Tif;
  cap_position_effects : list PositionEffect;
  cap_amend : string;
  cap_adapter_installed : bool;
}.

Definition assert_supports (c : CapabilitySet) (order_type : OrderType) (tif : Tif)
    (position_effect : option PositionEffect) : result exn unit :=
  if negb (memb order_type (cap_order_types c)) then Err CapabilityError
  else if negb (memb tif (cap_tifs c)) then Err CapabilityError
  else match position_effect with
       | Some pe => if negb (memb pe (cap_position_effects c)) then Err CapabilityError else Ok tt
       | None => Ok tt
       end.

Definition _ALL_TYPES : list OrderType :=
  [MARKET; LIMIT; STOP; STOP_LIMIT; ICEBERG; MTL; ATO; ATC].
Definition _ALL_TIFS : list Tif := [DAY; IOC; FOK; GTC].

Definition mk_cap b m ts fs ps a : CapabilitySet :=
  {| cap_broker := b; cap_market := m; cap_order_types := ts; cap_tifs := fs;
     cap_position_effects := ps; cap_amend := a; cap_adapter_installed := true |}.

Definition CAPABILITY_MATRIX : list CapabilitySet :=
  [ mk_cap SIM SET_ _ALL_TYPES _ALL_TIFS [] "native";
    mk_cap SIM TFEX _ALL_TYPES _ALL_TIFS [OPEN; CLOSE] "native";
    mk_cap LIBERATOR SET_ [MARKET; LIMIT; ICEBERG; MTL; ATO; ATC] _ALL_TIFS [] "cancel_replace";
    mk_cap LIBERATOR TFEX [MARKET; LIMIT; STOP; STOP_LIMIT; ICEBERG] _ALL_TIFS [OPEN; CLOSE]
      "cancel_replace";
    mk_cap STREAMING_PRO SET_ [MARKET; LIMIT] [DAY] [] "cancel_replace";
    mk_cap STREAMING_PRO TFEX [MARKET; LIMIT] [DAY] [OPEN; CLOSE] "cancel_replace" ].

Definition lookup_caps (broker : Broker) (market : Market) : result exn CapabilitySet :=
  match
    List.find (fun e => bool_decide (cap_broker e = broker) && bool_decide (cap_market e = market))
      CAPABILITY_MATRIX
  with
  | Some entry => Ok entry
  | None => Err CapabilityError
  end.

(** ** Facts *)

Lemma lookup_caps_total b m : exists c,
  lookup_caps b m = Ok c /\ cap_broker c = b /\ cap_market c = m.
Proof. destruct b, m; eexists; (split; [reflexivity | done]). Qed.

Lemma to_public_status_some s q : exists p, to_public_status s q = Some p.
Proof. destruct s; cbn; eauto. Qed.

(** [to_public_status] is total: every internal state has a public status,
    and the six states the two enums share map to themselves, so the public
    enum lookup [PublicOrderStatus(state.value)] can never raise. *)
Theorem to_public_status_total s q :
  exists p, to_public_status s q = Some p /\
    (p = PublicOrderStatus.FILLED <-> s = OrderState.FILLED) /\
    (p = PublicOrderStatus.CANCELLED <-> s = OrderState.CANCELLED) /\
    (p = PublicOrderStatus.REJECTED <-> s = OrderState.REJECTED) /\
    (p = PublicOrderStatus.EXPIRED <-> s = OrderState.EXPIRED).
Proof.
  destruct s; cbn; (eexists; split; [reflexivity|]);
    destruct (0 <? q); repeat split; intros; congruence.
Qed.

(** What the boundary guarantees about every order the engine holds. *)
Record order_wf (o : NormalizedOrder) : Prop := {
  wf_qty : 0 < no_quantity o;
  wf_price : forall p, no_price o = Some p -> dec_ltb dec_zero p = true;
  wf_stop : forall p, no_stop_price o = Some p -> dec_ltb dec_zero p = true;
  wf_priced : no_order_type o = LIMIT \/ no_order_type o = STOP_LIMIT ->
              is_Some (no_price o);
  wf_stopped : no_order_type o = STOP \/ no_order_type o = STOP_LIMIT ->
               is_Some (no_stop_price o);
  wf_display : forall d, no_display_qty o = Some d ->
               no_order_type o = ICEBERG /\ 0 < d <= no_quantity o;
  wf_iceberg : no_order_type o = ICEBERG -> is_Some (no_display_qty o);
  wf_tfex : no_market o = TFEX <-> is_Some (no_position_effect o);
}.

Ltac split_ok H :=
  repeat match type of H with
  | context [if ?b then _ else _] => destruct b eqn:?; try discriminate H
  | context [match ?b with _ => _ end] => destruct b eqn:?; try discriminate H
  end.

Lemma cross_field_rules_same o o' : _cross_field_rules o = Ok o' -> o' = o.
Proof. unfold _cross_field_rules. intros H. split_ok H; congruence. Qed.

(** C40: whatever passes [NormalizedOrder]'s validators satisfies the frozen
    cross-field contract: positive quantity and prices, a price for the priced
    types, a stop price for the stop types, [display_qty] exactly on ICEBERG and
    within the quantity, [position_effect] exactly on TFEX; and validation
    returns the order unchanged. *)
Theorem NormalizedOrder_new_wf o o' :
  NormalizedOrder_new o = Ok o' -> o' = o /\ order_wf o.
Proof.
  unfold NormalizedOrder_new. intros H.
  destruct (_uuid4_at_the_boundary _); [|done].
  destruct (_field_constraints o) eqn:Hf; [|done].
  split; [by apply cross_field_rules_same|].
  unfold _field_constraints in Hf. rewrite !andb_true_iff in Hf.
  destruct Hf as [[[_ _] Hq] Hd]. apply Z.ltb_lt in Hq.
  unfold _cross_field_rules in H.
  destruct o as [cid b acc m sym sd t p sp q dq tf pe md]; simpl in *.
  split; simpl; [done|..].
  - intros x ->. rewrite dec_ltb_leb. by destruct (dec_leb x dec_zero).
  - intros x ->. rewrite dec_ltb_leb. split_ok H; done.
  - intros Ht. destruct p; [done|]. destruct Ht as [-> | ->]; split_ok H; done.
  - intros Ht. destruct sp; [done|]. destruct Ht as [-> | ->]; split_ok H; done.
  - intros d ->. apply Z.ltb_lt in Hd. split_ok H; simplify_eq; try done;
      repeat match goal with
      | E : negb _ = false |- _ => apply negb_false_iff in E
      | E : bool_decide _ = true |- _ => apply bool_decide_eq_true in E
      | E : (_ <? _) = false |- _ => apply Z.ltb_ge in E
      end; split; try done; lia.
  - intros ->. destruct dq; [done|]. split_ok H; done.
  - destruct m, pe; simpl in *; split_ok H; split; intros; try done; by inversion 1.
Qed.

Lemma NormalizedOrder_new_wf_witness :
  let o := {| no_client_order_id := "12345678-1234-4234-8234-123456789abc"; no_broker := SIM;
              no_account := "acct"; no_market := TFEX; no_symbol := "S50Z26"; no_side := BUY;
              no_order_type := ICEBERG; no_price := Some (Dec 9005 (-1)); no_stop_price := None;
              no_quantity := 10; no_display_qty := Some 2; no_tif := DAY;
              no_position_effect := Some OPEN; no_metadata := [] |} in
  NormalizedOrder_new o = Ok o /\ order_wf o.
Proof.
  intros o. assert (H : NormalizedOrder_new o = Ok o) by (vm_compute; reflexivity).
  split; [exact H|]. exact (proj2 (NormalizedOrder_new_wf o o H)).
Defined.
