(* ===== verification/Digits.v ===== *)
(** * Digits: printed numerals as character lists *)

From S2P Require Import Prelude Decimals Contracts.
From stdpp Require Import base strings list.
From Stdlib Require Import ZArith Lia.
Open Scope Z_scope.

Definition is_digit (a : Ascii.ascii) : bool := (48 <=? char_code a) && (char_code a <=? 57).

Abbreviation chars := String.list_ascii_of_string.

Definition all_digits (l : list Ascii.ascii) : Prop := Forall (fun a => is_digit a = true) l.

Lemma chars_app s t : chars (s +:+ t)%string = chars s ++ chars t.
Proof. induction s as [|a s IH]; simpl; [done|]. by rewrite IH. Qed.

Lemma chars_length s : length (chars s) = String.length s.
Proof. induction s; simpl; congruence. Qed.

Lemma digit_char_is_digit d : 0 <= d < 10 -> is_digit (digit_char d) = true.
Proof.
  intros Hd. pose proof (digit_char_val d Hd). unfold is_digit, char_code.
  apply andb_true_iff. split; apply Z.leb_le; lia.
Qed.

Lemma digits_str_digits fuel : forall n acc, all_digits (chars acc) ->
  all_digits (chars (digits_str fuel n acc)).
Proof.
  induction fuel as [|f IH]; intros n acc Ha; simpl; [done|].
  assert (all_digits (chars (String (digit_char (n mod 10)) acc))) as Hc.
  { constructor; [|done]. apply digit_char_is_digit, Z.mod_pos_bound. lia. }
  destruct (n <? 10); auto.
Qed.

Lemma digits_str_acc fuel : forall n acc, (String.length acc <= String.length (digits_str fuel n acc))%nat.
Proof.
  induction fuel as [|f IH]; intros n acc; simpl; [lia|].
  destruct (n <? 10); simpl; [lia|]. specialize (IH (n / 10) (String (digit_char (n mod 10)) acc)).
  simpl in IH. lia.
Qed.

Lemma nat_str_digits n : all_digits (chars (nat_str n)).
Proof. apply digits_str_digits. constructor. Qed.

Lemma nat_str_nonempty n : (0 < String.length (nat_str n))%nat.
Proof.
  unfold nat_str, num_digits.
  pose proof (digits_go_pos (Z.to_nat (Z.log2 (Z.abs n) + 1)) (Z.abs n)) as Hp.
  set (k := digits_go _ _) in *. destruct (Z.to_nat k) as [|f] eqn:Hf; [lia|]. simpl.
  destruct (n <? 10); simpl; [lia|].
  pose proof (digits_str_acc f (n / 10) (String (digit_char (n mod 10)) "")). simpl in *. lia.
Qed.

Lemma zeros_digits k : all_digits (chars (zeros k)).
Proof. induction k; simpl; constructor; [reflexivity | done]. Qed.

Definition digits_from (v : Z) (ds : list Ascii.ascii) : Z :=
  fold_left (fun v a => 10 * v + (char_code a - 48)) ds v.

Lemma digits_from_val s : forall v, digits_from v (chars s) = digits_val s v.
Proof. induction s as [|a s IH]; intros v; simpl; [done|]. by rewrite <- IH. Qed.

Lemma digits_from_app v l k : digits_from v (l ++ k) = digits_from (digits_from v l) k.
Proof. apply fold_left_app. Qed.

Lemma digits_from_zeros v k : digits_from v (chars (zeros k)) = v * 10 ^ Z.of_nat k.
Proof.
  revert v. induction k as [|k IH]; intros v; simpl zeros; [simpl; lia|].
  change (digits_from v (chars (String (digit_char 0) (zeros k))))
    with (digits_from (10 * v + (char_code (digit_char 0) - 48)) (chars (zeros k))).
  rewrite IH.
  replace (char_code (digit_char 0) - 48) with 0 by reflexivity.
  rewrite Nat2Z.inj_succ, Z.pow_succ_r by lia. lia.
Qed.

Lemma chars_substring s : forall n m, chars (String.substring n m s) = take m (drop n (chars s)).
Proof.
  induction s as [|a s IH]; intros [|n] [|m]; simpl; try done; try apply IH.
  - f_equal. rewrite IH. done.
Qed.

Lemma all_digits_take k l : all_digits l -> all_digits (take k l).
Proof. apply Forall_take. Qed.
Lemma all_digits_drop k l : all_digits l -> all_digits (drop k l).
Proof. apply Forall_drop. Qed.

Lemma chars_zeros k : length (chars (zeros k)) = k.
Proof. induction k; simpl; congruence. Qed.

Lemma nat_str_chars n : 0 <= n -> digits_from 0 (chars (nat_str n)) = n.
Proof. intros Hn. by rewrite digits_from_val, nat_str_val. Qed.

(** [n] with at least [k] digits. *)
Definition pad (k : nat) (n : Z) : string :=
  let ds := nat_str n in (zeros (k - String.length ds) +:+ ds)%string.

Lemma digits_str_length fuel : forall n acc,
  (String.length (digits_str fuel n acc) <= fuel + String.length acc)%nat.
Proof.
  induction fuel as [|f IH]; intros n acc; simpl; [lia|]. destruct (n <? 10); simpl; [lia|].
  specialize (IH (n / 10) (String (digit_char (n mod 10)) acc)). simpl in IH. lia.
Qed.

(** A number that fits its field is printed at its width. *)
Lemma pad_digits k n : (1 <= k)%nat -> 0 <= n < 10 ^ Z.of_nat k ->
  all_digits (chars (pad k n)) /\ length (chars (pad k n)) = k /\ digits_from 0 (chars (pad k n)) = n.
Proof.
  intros Hk Hn. unfold pad. cbv zeta. rewrite chars_app. split_and!.
  - apply Forall_app. split; [apply zeros_digits|apply nat_str_digits].
  - rewrite length_app, chars_zeros, chars_length.
    pose proof (digits_str_length (Z.to_nat (num_digits n)) n "") as Hl. fold (nat_str n) in Hl. simpl in Hl.
    pose proof (num_digits_le n (Z.of_nat k) ltac:(lia) ltac:(lia)). lia.
  - rewrite digits_from_app, digits_from_zeros, Z.mul_0_l. apply nat_str_chars. lia.
Qed.
