(* ===== verification/FloatRepr.v ===== *)
(** * FloatRepr: binary floats and their [repr]

    A decimal numeral rounded to the nearest binary64 (ties to even), and the text
    [repr] gives it: of the shortest numerals that read back as the same float, the
    one nearest to it. *)

From S2P Require Import Prelude Decimals Contracts Digits.
From stdpp Require Import base strings list.
From Stdlib Require Import ZArith Lia.
Open Scope Z_scope.

(** ** Rounding *)

(** [n / d] rounded to the nearest integer, ties to even ([0 <= n], [0 < d]). *)
Definition round_ratio (n d : Z) : Z :=
  let q := n / d in
  let r := n mod d in
  if 2 * r <? d then q else if d <? 2 * r then q + 1 else if Z.even q then q else q + 1.

(** A non-negative rational as a binary64 significand and exponent; below the
    normal range the significand is rounded at a fixed exponent. *)
Definition binary64 (n d : Z) : Z * Z :=
  let k := Z.max (Z.log2 n - Z.log2 d - 53) (-1074) in
  let scale e := if 0 <=? e then round_ratio n (d * 2 ^ e) else round_ratio (n * 2 ^ (- e)) d in
  if scale k <? 2 ^ 53 then (scale k, k)
  else if scale (k + 1) <? 2 ^ 53 then (scale (k + 1), k + 1) else (scale (k + 2), k + 2).

(** [c * b ^ e] as a fraction. *)
Definition power (b c e : Z) : Z * Z := if 0 <=? e then (c * b ^ e, 1) else (c, b ^ (- e)).

(** The float nearest to [c * 10 ^ e], [c] not negative; [None] for infinity. *)
Definition float_of (c e : Z) : option (Z * Z) :=
  let '(n, d) := power 10 c e in
  let '(m, k) := binary64 n d in
  if (0 <=? k) && (2 ^ 1024 <=? m * 2 ^ k) then None else Some (m, k).

(** ** [repr] *)

(** The numeral of [p] digits at [10 ^ (point - p)] below or above [n / d] that reads
    back as [x]; the nearer one when both do. *)
Definition numeral_at (x : Z * Z) (n d point p : Z) : option Z :=
  let '(u, v) := power 10 1 (p - point) in
  let lo := (n * u) / (d * v) in
  let r := (n * u) mod (d * v) in
  let reads c := bool_decide (float_of c (point - p) = Some x) in
  let near := round_ratio (n * u) (d * v) in
  let far := if near =? lo then lo + 1 else lo in
  if reads near then Some near else if (r =? 0) then None else if reads far then Some far else None.

Fixpoint shortest (x : Z * Z) (n d point : Z) (fuel : nat) (p : Z) : option (Z * Z) :=
  match fuel with
  | O => None
  | S f => match numeral_at x n d point p with
           | Some c => Some (c, point - p)
           | None => shortest x n d point f (p + 1)
           end
  end.

(** The decimal point comes after [point] digits: [10 ^ (point - 1) <= n / d < 10 ^ point];
    no float is below [10 ^ -330]. *)
Definition decimal_point (n d : Z) : Z := num_digits (n * 10 ^ 330 / d) - 330.

(** 17 digits tell two binary64 floats apart. *)
Definition float_numeral (x : Z * Z) : option (Z * Z) :=
  let '(n, d) := power 2 x.1 x.2 in shortest x n d (decimal_point n d) 17 1.

(** The digits without trailing zeros. *)
Fixpoint strip_zeros (fuel : nat) (c e : Z) : Z * Z :=
  match fuel with
  | O => (c, e)
  | S f => if (c mod 10 =? 0) && negb (c =? 0) then strip_zeros f (c / 10) (e + 1) else (c, e)
  end.

(** Positional from [1e-4] to below [1e16], else with an exponent of two digits or
    more. *)
Definition format_r (c e : Z) : string :=
  let '(c, e) := strip_zeros 17 c e in
  let ds := nat_str c in
  let len := Z.of_nat (String.length ds) in
  let point := len + e in
  if (-4 <? point) && (point <=? 16) then
    if len <=? point then (ds +:+ zeros (Z.to_nat (point - len)) +:+ ".0")%string
    else if 0 <? point then
      let k := Z.to_nat point in
      (String.substring 0 k ds +:+ "." +:+ String.substring k (Z.to_nat (len - point)) ds)%string
    else ("0." +:+ zeros (Z.to_nat (- point)) +:+ ds)%string
  else
    let tail := String.substring 1 (Z.to_nat (len - 1)) ds in
    let x := point - 1 in
    (String.substring 0 1 ds +:+ (if (len =? 1)%Z then "" else "." +:+ tail) +:+ "e" +:+
     (if (x <? 0)%Z then "-" else "+") +:+ pad 2 (Z.abs x))%string.

(** [repr(float)] of the numeral [± c * 10 ^ e]. *)
Definition float_repr (neg : bool) (c e : Z) : string :=
  ((if neg then "-" else "") +:+
   match float_of c e with
   | None => "inf"
   | Some x => if (x.1 =? 0)%Z then "0.0"
               else match float_numeral x with
                    | Some (c', e') => format_r c' e'
                    | None => ""
                    end
   end)%string.

Example float_repr_1 : map (fun '(c, e) => float_repr false c e)
    [(150, -2); (1, -1); (100, 0); (1, 16); (123456789012345678, 0); (1, -4); (1, -5); (12, -8); (1, 400);
     (0, 5); (5, -324); (2, -324); (5684341886080801486968994140625, -44); (9007199254740993, 0); (17976931348623157, 292); (1, 23); (99, 14)] =
  ["1.5"; "0.1"; "100.0"; "1e+16"; "1.2345678901234568e+17"; "0.0001"; "1e-05"; "1.2e-07"; "inf";
   "0.0"; "5e-324"; "0.0"; "5.684341886080802e-14"; "9007199254740992.0"; "1.7976931348623157e+308"; "1e+23"; "9900000000000000.0"]%string.
Proof. vm_compute. reflexivity. Qed.

(** The numeral printed for a float reads back as that float. *)
Lemma shortest_reads x n d point fuel : forall p c e,
  shortest x n d point fuel p = Some (c, e) -> float_of c e = Some x.
Proof.
  induction fuel as [|f IH]; simpl; [done|]. intros p c e.
  destruct (numeral_at x n d point p) as [c'|] eqn:Hn; [|apply IH]. intros [= <- <-].
  unfold numeral_at in Hn. destruct (power 10 1 (p - point)) as [u v]. cbv zeta in Hn.
  repeat (case_bool_decide || destruct (_ =? 0)); by simplify_eq.
Qed.

Lemma float_numeral_reads x c e : float_numeral x = Some (c, e) -> float_of c e = Some x.
Proof. unfold float_numeral. destruct (power 2 x.1 x.2) as [n d]. apply shortest_reads. Qed.

(** ** 17 digits are enough *)

Lemma round_ge n d q : 0 < d -> (2 * q - 1) * d < 2 * n -> q <= round_ratio n d.
Proof.
  intros Hd H. unfold round_ratio. pose proof (Z.div_mod n d ltac:(lia)) as E.
  pose proof (Z.mod_pos_bound n d Hd). set (k := n / d) in *. set (r := n mod d) in *.
  destruct (Z.ltb_spec (2 * r) d); [nia|]. destruct (Z.ltb_spec d (2 * r)); [nia|].
  destruct (Z.even k); nia.
Qed.

Lemma round_le n d q : 0 < d -> 2 * n < (2 * q + 1) * d -> round_ratio n d <= q.
Proof.
  intros Hd H. unfold round_ratio. pose proof (Z.div_mod n d ltac:(lia)) as E.
  pose proof (Z.mod_pos_bound n d Hd). set (k := n / d) in *. set (r := n mod d) in *.
  destruct (Z.ltb_spec (2 * r) d); [nia|]. destruct (Z.ltb_spec d (2 * r)); [nia|].
  destruct (Z.even k); nia.
Qed.

(** Rounding is within half a unit. *)
Lemma round_error n d : 0 < d -> 2 * Z.abs (d * round_ratio n d - n) <= d.
Proof.
  intros Hd. unfold round_ratio. pose proof (Z.div_mod n d ltac:(lia)) as E.
  pose proof (Z.mod_pos_bound n d Hd). set (k := n / d) in *. set (r := n mod d) in *.
  destruct (Z.ltb_spec (2 * r) d); [nia|]. destruct (Z.ltb_spec d (2 * r)); [nia|].
  destruct (Z.even k); nia.
Qed.

(** [n / (d * 2 ^ e)] as a fraction. *)
Definition scaled (n d e : Z) : Z * Z := if 0 <=? e then (n, d * 2 ^ e) else (n * 2 ^ (- e), d).
Definition significand (n d e : Z) : Z := round_ratio (scaled n d e).1 (scaled n d e).2.

Lemma binary64_eq n d : binary64 n d =
  let k := Z.max (Z.log2 n - Z.log2 d - 53) (-1074) in
  if significand n d k <? 2 ^ 53 then (significand n d k, k)
  else if significand n d (k + 1) <? 2 ^ 53 then (significand n d (k + 1), k + 1)
  else (significand n d (k + 2), k + 2).
Proof.
  unfold binary64, significand, scaled. cbv zeta. by destruct (0 <=? _), (0 <=? _ + 1), (0 <=? _ + 2).
Qed.

Lemma scaled_pos n d e : 0 < n -> 0 < d -> 0 < (scaled n d e).1 /\ 0 < (scaled n d e).2.
Proof. intros Hn Hd. unfold scaled. destruct (Z.leb_spec 0 e); simpl; split; try lia; apply Z.mul_pos_pos; lia. Qed.

Lemma scaled_step n d e :
  (scaled n d e).1 * (scaled n d (e + 1)).2 = 2 * (scaled n d (e + 1)).1 * (scaled n d e).2.
Proof.
  unfold scaled. destruct (Z.leb_spec 0 e), (Z.leb_spec 0 (e + 1)); simpl; try lia.
  - rewrite Z.pow_add_r by lia. lia.
  - replace e with (-1) by lia. simpl. lia.
  - replace (- e) with (- (e + 1) + 1) by lia. rewrite Z.pow_add_r by lia. lia.
Qed.

Lemma scaled_log2 n d e : 0 < n -> 0 < d ->
  Z.log2 (scaled n d e).1 - Z.log2 (scaled n d e).2 = Z.log2 n - Z.log2 d - e.
Proof.
  intros Hn Hd. unfold scaled. destruct (Z.leb_spec 0 e); simpl; rewrite Z.log2_mul_pow2 by lia; lia.
Qed.

(** Bounds of a quotient bound the difference of the logarithms, and conversely. *)
Lemma log2_lt a b k : 0 < a -> 0 < b -> 0 <= k -> a < 2 ^ k * b -> Z.log2 a - Z.log2 b <= k.
Proof.
  intros Ha Hb Hk H. destruct (Z.log2_spec b Hb) as [_ Hu].
  enough (Z.log2 a < k + Z.succ (Z.log2 b)) by lia. pose proof (Z.log2_nonneg b).
  apply Z.log2_lt_pow2; [done|]. rewrite Z.pow_add_r by lia. nia.
Qed.

Lemma log2_ge a b k : 0 < b -> 0 <= k -> 2 ^ k * b <= a -> k <= Z.log2 a - Z.log2 b.
Proof.
  intros Hb Hk H. destruct (Z.log2_spec b Hb) as [Hl _]. pose proof (Z.log2_nonneg b).
  enough (k + Z.log2 b <= Z.log2 a) by lia. apply Z.log2_le_pow2; [nia|]. rewrite Z.pow_add_r by lia. nia.
Qed.

(** What the significand at an exponent says about the one above. *)
Lemma significand_up n d e N : 0 < n -> 0 < d ->
  (4 * N - 1) * (scaled n d (e + 1)).2 < 4 * (scaled n d (e + 1)).1 -> 2 * N <= significand n d e.
Proof.
  intros Hn Hd H. destruct (scaled_pos n d e Hn Hd), (scaled_pos n d (e + 1) Hn Hd).
  pose proof (scaled_step n d e). apply round_ge; [done|].
  set (a := (scaled n d e).1) in *. set (b := (scaled n d e).2) in *.
  set (a' := (scaled n d (e + 1)).1) in *. set (b' := (scaled n d (e + 1)).2) in *.
  apply (Z.mul_lt_mono_pos_r b'); [done|].
  replace (2 * a * b') with (4 * a' * b) by lia. nia.
Qed.

Lemma significand_down n d e N : 0 < n -> 0 < d ->
  2 * N <= significand n d e -> N <= significand n d (e + 1).
Proof.
  intros Hn Hd H. destruct (scaled_pos n d e Hn Hd) as [Ha Hb], (scaled_pos n d (e + 1) Hn Hd) as [Ha' Hb'].
  pose proof (scaled_step n d e). pose proof (round_error (scaled n d e).1 _ Hb) as He. fold (significand n d e) in He.
  apply round_ge; [done|].
  set (a := (scaled n d e).1) in *. set (b := (scaled n d e).2) in *. set (s := significand n d e) in *.
  set (a' := (scaled n d (e + 1)).1) in *. set (b' := (scaled n d (e + 1)).2) in *.
  apply (Z.mul_lt_mono_pos_r (2 * b)); [lia|].
  replace (2 * a' * (2 * b)) with (2 * a * b') by lia.
  assert (2 * a >= (2 * s - 1) * b) by nia. nia.
Qed.

(** The floats but zero. *)
Definition is_float (x : Z * Z) : Prop :=
  let '(m, k) := x in 0 < m < 2 ^ 53 /\ -1074 <= k /\ (k = -1074 \/ 2 ^ 52 <= m).

(** A fraction strictly nearer to a float than to its neighbours is read as it. *)
Lemma binary64_near n d m k : 0 < n -> 0 < d -> is_float (m, k) ->
  let '(a, b) := scaled n d k in
  (2 * m - 1) * b < 2 * a < (2 * m + 1) * b -> (k = -1074 \/ (4 * 2 ^ 52 - 1) * b < 4 * a) ->
  binary64 n d = (m, k).
Proof.
  intros Hn Hd (Hm & Hk & Hnorm). destruct (scaled n d k) as [a b] eqn:E. intros Hr Hlow.
  pose proof (scaled_pos n d k Hn Hd) as [Ha Hb]. pose proof (scaled_log2 n d k Hn Hd) as Hlog.
  rewrite E in Ha, Hb, Hlog. simpl in Ha, Hb, Hlog.
  assert (Hsig : significand n d k = m).
  { unfold significand. rewrite E. simpl.
    pose proof (round_ge a b m Hb ltac:(lia)). pose proof (round_le a b m Hb ltac:(lia)). lia. }
  pose proof (log2_lt a b 53 Ha Hb ltac:(lia) ltac:(nia)) as Hup.
  rewrite binary64_eq. cbv zeta. set (kk := Z.max _ _).
  destruct Hlow as [->|Hlow]; [replace kk with (-1074) by lia; by rewrite Hsig, (proj2 (Z.ltb_lt _ _)) by lia|].
  pose proof (log2_ge a b 51 Hb ltac:(lia) ltac:(lia)) as Hdn.
  assert (H1 : 2 ^ 53 <= significand n d (k - 1)).
  { change (2 ^ 53) with (2 * 2 ^ 52). apply significand_up; [done..|].
    replace (k - 1 + 1) with k by lia. rewrite E. simpl. lia. }
  assert (H2 : 2 ^ 53 <= significand n d (k - 2)).
  { change (2 ^ 53) with (2 * 2 ^ 52). apply significand_up; [done..|]. replace (k - 2 + 1) with (k - 1) by lia.
    pose proof (scaled_step n d (k - 1)) as Hst. replace (k - 1 + 1) with k in Hst by lia. rewrite E in Hst.
    pose proof (scaled_pos n d (k - 1) Hn Hd) as [Ha1 Hb1]. simpl in Hst.
    set (a1 := (scaled n d (k - 1)).1) in *. set (b1 := (scaled n d (k - 1)).2) in *.
    apply (Z.mul_lt_mono_pos_r b); [done|]. replace (4 * a1 * b) with (8 * a * b1) by lia.
    assert ((4 * 2 ^ 52 - 1) * b * b1 < 4 * a * b1) by (apply Z.mul_lt_mono_pos_r; lia). nia. }
  assert (Hcase : kk = k \/ kk = k - 1 \/ kk = k - 2) by lia.
  destruct Hcase as [->|[->| ->]].
  - by rewrite Hsig, (proj2 (Z.ltb_lt _ _)) by lia.
  - rewrite (proj2 (Z.ltb_ge _ _)) by lia. replace (k - 1 + 1) with k by lia.
    by rewrite Hsig, (proj2 (Z.ltb_lt _ _)) by lia.
  - rewrite (proj2 (Z.ltb_ge _ _)) by lia. replace (k - 2 + 1) with (k - 1) by lia.
    rewrite (proj2 (Z.ltb_ge _ _)) by lia. replace (k - 2 + 2) with k by lia. by rewrite Hsig.
Qed.

(** What is read is zero or a float. *)
Lemma binary64_float n d : 0 < n -> 0 < d -> (binary64 n d).1 <> 0 -> is_float (binary64 n d).
Proof.
  intros Hn Hd. rewrite binary64_eq. cbv zeta. set (kk := Z.max _ _).
  assert (Hpos : forall e, 0 <= significand n d e).
  { intros e. destruct (scaled_pos n d e Hn Hd). apply round_ge; lia. }
  pose proof (scaled_log2 n d kk Hn Hd) as Hlog. destruct (scaled_pos n d kk Hn Hd) as [Ha Hb].
  destruct (Z.ltb_spec (significand n d kk) (2 ^ 53)) as [H1|H1]; [|
    destruct (Z.ltb_spec (significand n d (kk + 1)) (2 ^ 53)) as [H2|H2]]; simpl; intros Hnz.
  - specialize (Hpos kk). split; [lia|]. split; [lia|].
    destruct (Z.eq_dec kk (-1074)) as [|Hne]; [by left|right].
    apply round_ge; [done|]. set (a := (scaled n d kk).1) in *. set (b := (scaled n d kk).2) in *.
    destruct (Z.log2_spec a Ha) as [Hla _], (Z.log2_spec b Hb) as [_ Hub].
    replace (Z.log2 a) with (52 + Z.succ (Z.log2 b)) in Hla by lia. pose proof (Z.log2_nonneg b).
    rewrite Z.pow_add_r in Hla by lia. nia.
  - specialize (Hpos (kk + 1)). split; [lia|]. split; [lia|]. right.
    apply significand_down; [done..|]. lia.
  - assert (2 ^ 52 <= significand n d (kk + 2)).
    { replace (kk + 2) with (kk + 1 + 1) by lia. apply significand_down; [done..|]. lia. }
    split; [|split; [lia|by right]]. split; [lia|].
    enough (significand n d (kk + 2) <= 2 ^ 52) by lia.
    destruct (scaled_pos n d (kk + 2) Hn Hd) as [Ha2 Hb2]. apply round_le; [done|].
    pose proof (scaled_log2 n d (kk + 2) Hn Hd) as Hl2.
    set (a := (scaled n d (kk + 2)).1) in *. set (b := (scaled n d (kk + 2)).2) in *.
    destruct (Z.log2_spec a Ha2) as [_ Hua], (Z.log2_spec b Hb2) as [Hlb _]. pose proof (Z.log2_nonneg b).
    assert (Z.succ (Z.log2 a) <= 52 + Z.log2 b) by lia.
    assert (2 ^ Z.succ (Z.log2 a) <= 2 ^ (52 + Z.log2 b)) by (apply Z.pow_le_mono_r; lia).
    rewrite Z.pow_add_r in * by lia. nia.
Qed.

Lemma power_pos b c e : 0 < b -> 0 < c -> 0 < (power b c e).1 /\ 0 < (power b c e).2.
Proof. intros Hb Hc. unfold power. destruct (Z.leb_spec 0 e); simpl; split; try lia; try apply Z.mul_pos_pos; lia. Qed.

Lemma num_digits_low n : 0 < n -> 10 ^ (num_digits n - 1) <= n /\ 1 <= num_digits n.
Proof.
  intros Hn. pose proof (digits_go_pos (Z.to_nat (Z.log2 (Z.abs n) + 1)) (Z.abs n)) as Hp.
  fold (num_digits n) in Hp. split; [|done]. destruct (Z.eq_dec (num_digits n) 1) as [->|]; [simpl; lia|].
  destruct (Z.le_gt_cases (10 ^ (num_digits n - 1)) n); [done|].
  pose proof (num_digits_le n (num_digits n - 1) ltac:(lia) ltac:(lia)). lia.
Qed.

(** The decimal point of a fraction of at least [10 ^ -330]. *)
Lemma decimal_point_low n d : 0 < n -> 0 < d -> d <= n * 10 ^ 330 ->
  let '(u, v) := power 10 1 (17 - decimal_point n d) in 10 ^ 16 * v * d <= n * u.
Proof.
  intros Hn Hd Hbig. unfold decimal_point. set (T := n * 10 ^ 330 / d).
  assert (HT : 0 < T) by (apply Z.div_str_pos; lia).
  destruct (num_digits_low T HT) as [Hlow Hnd]. assert (HTd : T * d <= n * 10 ^ 330).
  { rewrite Z.mul_comm. apply Z.mul_div_le. lia. }
  clearbody T. set (D := num_digits T) in *. clearbody D.
  assert (H : 10 ^ (D - 1) * d <= n * 10 ^ 330) by nia. clear -Hn Hd Hnd H.
  assert (P : 0 < 10 ^ 330) by (apply Z.pow_pos_nonneg; lia).
  unfold power. destruct (Z.leb_spec 0 (17 - (D - 330))).
  - rewrite !Z.mul_1_l, Z.mul_1_r. apply (Z.mul_le_mono_pos_r _ _ (10 ^ 330)); [done|].
    assert (E : 10 ^ 16 * 10 ^ 330 = 10 ^ (D - 1) * 10 ^ (17 - (D - 330))).
    { rewrite <- !Z.pow_add_r by lia. f_equal. lia. }
    set (Q := 10 ^ (17 - (D - 330))) in *. assert (0 < Q) by (apply Z.pow_pos_nonneg; lia). nia.
  - apply (Z.mul_le_mono_pos_r _ _ (10 ^ 330)); [done|].
    assert (E : 10 ^ 16 * 10 ^ (- (17 - (D - 330))) * 10 ^ 330 = 10 ^ (D - 1)).
    { rewrite <- !Z.pow_add_r by lia. f_equal. lia. }
    nia.
Qed.

(** The numeral of 17 digits nearest to a float reads back as it. *)
Lemma seventeen_digits m k : is_float (m, k) -> (k < 0 \/ m * 2 ^ k < 2 ^ 1024) ->
  let '(n, d) := power 2 m k in
  let point := decimal_point n d in
  let '(u, v) := power 10 1 (17 - point) in
  float_of (round_ratio (n * u) (d * v)) (point - 17) = Some (m, k).
Proof.
  intros Hf Hfin. pose proof Hf as (Hm & Hk & Hnorm).
  destruct (power_pos 2 m k ltac:(lia) ltac:(lia)) as [Hn Hd]. destruct (power 2 m k) as [n d] eqn:Ep. simpl in Hn, Hd.
  set (point := decimal_point n d). cbv zeta.
  assert (Hbig : d <= n * 10 ^ 330).
  { assert (d <= 2 ^ 1074); [|assert (2 ^ 1074 <= 10 ^ 330) by (vm_compute; discriminate); nia].
    unfold power in Ep. destruct (Z.leb_spec 0 k); simplify_eq; [vm_compute; discriminate|].
    apply Z.pow_le_mono_r; lia. }
  pose proof (decimal_point_low n d Hn Hd Hbig) as Hlow. fold point in Hlow.
  destruct (power_pos 10 1 (17 - point) ltac:(lia) ltac:(lia)) as [Hu Hv].
  destruct (power 10 1 (17 - point)) as [u v] eqn:Eu. simpl in Hu, Hv.
  set (c := round_ratio (n * u) (d * v)).
  pose proof (round_error (n * u) (d * v) ltac:(nia)) as Herr. fold c in Herr.
  assert (Hc : 0 < c) by (enough (1 <= c) by lia; apply round_ge; nia).
  assert (Ec : power 10 c (point - 17) = (c * v, u)).
  { clear -Eu. unfold power in *. destruct (Z.leb_spec 0 (17 - point)), (Z.leb_spec 0 (point - 17)); simplify_eq; try lia.
    - replace (point - 17) with 0 by lia. by replace (17 - point) with 0 by lia.
    - f_equal; [lia|]. rewrite Z.mul_1_l. f_equal. lia.
    - do 2 f_equal. f_equal. lia. }
  unfold float_of. rewrite Ec.
  assert (Es : exists a b, scaled (c * v) u k = (a, b) /\ 0 < b /\ a - m * b = c * v * d - n * u /\ m * b = n * u).
  { clear -Ep Hu Hm. unfold scaled, power in *. destruct (Z.leb_spec 0 k); simplify_eq; eexists _, _; (split; [done|]).
    - assert (0 < 2 ^ k) by (apply Z.pow_pos_nonneg; lia). split; [nia|]. split; [ring|ring].
    - split; [done|]. split; ring. }
  destruct Es as (a & b & Es & Hb & Ea & Emb).
  pose proof (binary64_near (c * v) u m k ltac:(nia) Hu Hf) as Hnear. rewrite Es in Hnear.
  assert (Hvd : 10 ^ 16 * (v * d) <= m * b) by nia.
  assert (Hvb : v * d < b) by nia.
  rewrite Hnear.
  - destruct Hfin as [Hneg|Hfin]; [by rewrite (proj2 (Z.leb_gt 0 k)) by lia|].
    by rewrite (proj2 (Z.leb_gt _ (m * 2 ^ k))), andb_false_r by lia.
  - nia.
  - destruct Hnorm as [->|Hm52]; [by left|right].
    destruct (Z.eq_dec m (2 ^ 52)) as [Em|]; [|nia]. subst m. nia.
Qed.

Lemma shortest_finds x n d point q fuel : forall p, p <= q < p + Z.of_nat fuel ->
  numeral_at x n d point q <> None -> shortest x n d point fuel p <> None.
Proof.
  induction fuel as [|f IH]; intros p Hp Hq; [lia|]. simpl.
  destruct (numeral_at x n d point p) eqn:E; [done|]. apply IH; [|done].
  destruct (Z.eq_dec p q) as [->|]; [congruence|lia].
Qed.

(** Every float has a numeral of at most 17 digits, and it reads back. *)
Lemma float_numeral_total c e x : 0 < c -> float_of c e = Some x -> x.1 <> 0 ->
  exists c' e', float_numeral x = Some (c', e') /\ float_of c' e' = Some x.
Proof.
  intros Hc Hx Hnz. destruct x as [m k].
  assert (Hf : is_float (m, k) /\ (k < 0 \/ m * 2 ^ k < 2 ^ 1024)).
  { unfold float_of in Hx. destruct (power_pos 10 c e ltac:(lia) Hc) as [Hn Hd].
    destruct (power 10 c e) as [n d]. pose proof (binary64_float n d Hn Hd) as Hb.
    destruct (binary64 n d) as [m' k']. destruct (_ && _) eqn:Ho; simplify_eq. split; [by apply Hb|].
    apply andb_false_iff in Ho as [Ho%Z.leb_gt|Ho%Z.leb_gt]; auto. }
  destruct Hf as [Hf Hfin]. pose proof (seventeen_digits m k Hf Hfin) as H17.
  destruct (float_numeral (m, k)) as [[c' e']|] eqn:E; [eauto using float_numeral_reads|]. exfalso. revert E.
  unfold float_numeral. cbn [fst snd]. destruct (power 2 m k) as [n d]. apply (shortest_finds _ _ _ _ 17); [lia|].
  unfold numeral_at. cbv zeta in H17. destruct (power 10 1 _) as [u v]. by rewrite bool_decide_true by done.
Qed.
