(* ===== verification/Sha256.v ===== *)
(** * Sha256: [hashlib.sha256]

    FIPS 180-4 over bytes, 32-bit words as [Z] with their wrap-around written out. *)

From S2P Require Import Prelude Contracts.
From stdpp Require Import base strings list.
From Stdlib Require Import ZArith Lia.
Open Scope Z_scope.

Definition w32 (x : Z) : Z := x mod 2 ^ 32.
Definition add32 (x y : Z) : Z := w32 (x + y).
Definition rotr (n x : Z) : Z := Z.lor (Z.shiftr x n) (w32 (Z.shiftl x (32 - n))).
Definition not32 (x : Z) : Z := 2 ^ 32 - 1 - x.

Definition Ch (x y z : Z) : Z := Z.lxor (Z.land x y) (Z.land (not32 x) z).
Definition Maj (x y z : Z) : Z := Z.lxor (Z.lxor (Z.land x y) (Z.land x z)) (Z.land y z).
Definition Sigma0 (x : Z) : Z := Z.lxor (Z.lxor (rotr 2 x) (rotr 13 x)) (rotr 22 x).
Definition Sigma1 (x : Z) : Z := Z.lxor (Z.lxor (rotr 6 x) (rotr 11 x)) (rotr 25 x).
Definition sigma0 (x : Z) : Z := Z.lxor (Z.lxor (rotr 7 x) (rotr 18 x)) (Z.shiftr x 3).
Definition sigma1 (x : Z) : Z := Z.lxor (Z.lxor (rotr 17 x) (rotr 19 x)) (Z.shiftr x 10).

(** The constants are the first 32 bits of the fractions of roots of the first primes:
    cube roots for the rounds, square roots for the initial hash. *)
Definition divides_none (n : Z) (ps : list Z) : bool := forallb (fun p => negb (n mod p =? 0)) ps.
Fixpoint primes_from (fuel : nat) (n : Z) (found : list Z) : list Z :=
  match fuel with
  | O => found
  | S f => primes_from f (n + 1) (if divides_none n found then found ++ [n] else found)
  end.
(** The primes up to 311, which are 64. *)
Definition primes : list Z := primes_from 310 2 [].
(** The largest [r] below [lo + 2 ^ steps] with [r ^ 3 <= n], by bisection. *)
Fixpoint cube_root (steps : nat) (lo n : Z) : Z :=
  match steps with
  | O => lo
  | S m => let mid := lo + 2 ^ Z.of_nat m in cube_root m (if mid * mid * mid <=? n then mid else lo) n
  end.

Definition K256 : list Z := Eval vm_compute in map (fun p => w32 (cube_root 36 0 (Z.shiftl p 96))) primes.

Record Hash := { h0 : Z; h1 : Z; h2 : Z; h3 : Z; h4 : Z; h5 : Z; h6 : Z; h7 : Z }.
Definition hash_of (l : list Z) : Hash :=
  {| h0 := nth 0 l 0; h1 := nth 1 l 0; h2 := nth 2 l 0; h3 := nth 3 l 0;
     h4 := nth 4 l 0; h5 := nth 5 l 0; h6 := nth 6 l 0; h7 := nth 7 l 0 |}.
Definition H256 : Hash := Eval vm_compute in hash_of (map (fun p => w32 (Z.sqrt (Z.shiftl p 64))) (take 8 primes)).

Example K256_length : length K256 = 64%nat /\ nth 63 K256 0 = 0xc67178f2.
Proof. done. Qed.

(** One round; [w] is the schedule's window of the next sixteen words. *)
Definition round (k w : Z) (s : Hash) : Hash :=
  let t1 := w32 (h7 s + Sigma1 (h4 s) + Ch (h4 s) (h5 s) (h6 s) + k + w) in
  let t2 := add32 (Sigma0 (h0 s)) (Maj (h0 s) (h1 s) (h2 s)) in
  {| h0 := add32 t1 t2; h1 := h0 s; h2 := h1 s; h3 := h2 s; h4 := add32 (h3 s) t1;
     h5 := h4 s; h6 := h5 s; h7 := h6 s |}.

Definition next_word (w : list Z) : Z :=
  w32 (sigma1 (nth 14 w 0) + nth 9 w 0 + sigma0 (nth 1 w 0) + nth 0 w 0).

Fixpoint rounds (ks : list Z) (w : list Z) (s : Hash) : Hash :=
  match ks with
  | [] => s
  | k :: ks' => rounds ks' (tail w ++ [next_word w]) (round k (nth 0 w 0) s)
  end.

Definition add_hash (a b : Hash) : Hash :=
  {| h0 := add32 (h0 a) (h0 b); h1 := add32 (h1 a) (h1 b); h2 := add32 (h2 a) (h2 b);
     h3 := add32 (h3 a) (h3 b); h4 := add32 (h4 a) (h4 b); h5 := add32 (h5 a) (h5 b);
     h6 := add32 (h6 a) (h6 b); h7 := add32 (h7 a) (h7 b) |}.

(** Big-endian words of bytes, four at a time. *)
Fixpoint words (bytes : list Z) : list Z :=
  match bytes with
  | a :: b :: c :: d :: bytes' => (a * 2 ^ 24 + b * 2 ^ 16 + c * 2 ^ 8 + d) :: words bytes'
  | _ => []
  end.

Fixpoint blocks (n : nat) (ws : list Z) (s : Hash) : Hash :=
  match n with
  | O => s
  | S n' => blocks n' (drop 16 ws) (add_hash s (rounds K256 (take 16 ws) s))
  end.

Definition be_bytes (n : nat) (x : Z) : list Z :=
  map (fun i => (x / 2 ^ (8 * Z.of_nat i)) mod 256) (rev (seq 0 n)).

(** The message, 0x80, zeros up to 56 mod 64, and the length in bits. *)
Definition padding (msg : list Z) : list Z :=
  let n := Z.of_nat (length msg) in
  msg ++ 128 :: repeat 0 (Z.to_nat ((55 - n) mod 64)) ++ be_bytes 8 (8 * n).

Definition sha256 (msg : list Z) : list Z :=
  let p := padding msg in
  let s := blocks (length p / 64) (words p) H256 in
  concat (map (be_bytes 4) [h0 s; h1 s; h2 s; h3 s; h4 s; h5 s; h6 s; h7 s]).

(** The bytes of a UTF-8 string. *)
Definition utf8 (s : string) : list Z := map char_code (String.list_ascii_of_string s).

Definition hex_of_byte (b : Z) : list Ascii.ascii :=
  let nibble n := Ascii.ascii_of_nat (Z.to_nat (if n <? 10 then 48 + n else 87 + n)) in
  [nibble (b / 16); nibble (b mod 16)].
(** [.hexdigest()] *)
Definition hex (bytes : list Z) : string := String.string_of_list_ascii (concat (map hex_of_byte bytes)).

(** [hashlib.sha256(s.encode()).hexdigest()] *)
Definition sha256_hex (s : string) : string := hex (sha256 (utf8 s)).

Example sha256_abc : hex (sha256 (utf8 "abc")) =
  "ba7816bf8f01cfea414140de5dae2223b00361a396177a9cb410ff61f20015ad"%string.
Proof. vm_compute. reflexivity. Qed.
Example sha256_empty : hex (sha256 []) =
  "e3b0c44298fc1c149afbf4c8996fb92427ae41e4649b934ca495991b7852b855"%string.
Proof. vm_compute. reflexivity. Qed.
Example sha256_two_blocks :
  hex (sha256 (utf8 "abcdbcdecdefdefgefghfghighijhijkijkljklmklmnlmnomnopnopq")) =
  "248d6a61d20638b8e5c026930c3e6039a33ce45964ff2167f6ecedd419db06c1"%string.
Proof. vm_compute. reflexivity. Qed.

(** ** The shape of a digest *)

Definition byte (b : Z) : Prop := 0 <= b < 256.

Lemma be_bytes_bytes n x : Forall byte (be_bytes n x) /\ length (be_bytes n x) = n.
Proof.
  unfold be_bytes. rewrite length_map, length_rev, length_seq. split; [|done].
  apply Forall_fmap, Forall_true. intros i. unfold byte. simpl. apply Z.mod_pos_bound. lia.
Qed.

Lemma sha256_digest msg : length (sha256 msg) = 32%nat /\ Forall byte (sha256 msg).
Proof.
  unfold sha256. set (s := blocks _ _ _). split; [reflexivity|].
  apply Forall_concat, Forall_fmap, Forall_true. intros x. apply be_bytes_bytes.
Qed.
