(* ===== verification/Json.v ===== *)
(** * Json: [json.dumps] and [json.loads]

    Text is a list of character codes; a string of the model is UTF-8.  [dumps] has
    the defaults the code uses: [", "] and [": "], everything but printable ASCII
    escaped.  [loads] reads standard JSON and Python's [NaN] and
    [Infinity] literals; a float is kept by its [repr].  The limits of the
    interpreter (4300 digits, the recursion depth) are not modelled. *)

From S2P Require Import Prelude Decimals Contracts Digits FloatRepr.
From stdpp Require Import base strings list.
From Stdlib Require Import ZArith Lia.
Open Scope Z_scope.

Definition codes (s : string) : list Z := map char_code (String.list_ascii_of_string s).
Definition of_codes (l : list Z) : string :=
  String.string_of_list_ascii (map (fun c => Ascii.ascii_of_nat (Z.to_nat c)) l).

(** ** UTF-8 *)

Definition utf8_enc (c : Z) : list Z :=
  if c <? 0x80 then [c]
  else if c <? 0x800 then [0xC0 + c / 64; 0x80 + c mod 64]
  else if c <? 0x10000 then [0xE0 + c / 4096; 0x80 + c / 64 mod 64; 0x80 + c mod 64]
  else [0xF0 + c / 262144; 0x80 + c / 4096 mod 64; 0x80 + c / 64 mod 64; 0x80 + c mod 64].

(** Of well-formed text; the bytes of a truncated character are dropped. *)
Fixpoint utf8_dec (l : list Z) : list Z :=
  match l with
  | [] => []
  | a :: l1 =>
      if a <? 0x80 then a :: utf8_dec l1
      else match l1 with
      | [] => []
      | b :: l2 =>
          if a <? 0xE0 then (a - 0xC0) * 64 + (b - 0x80) :: utf8_dec l2
          else match l2 with
          | [] => []
          | c :: l3 =>
              if a <? 0xF0 then (a - 0xE0) * 4096 + (b - 0x80) * 64 + (c - 0x80) :: utf8_dec l3
              else match l3 with
              | [] => []
              | d :: l4 => (a - 0xF0) * 262144 + (b - 0x80) * 4096 + (c - 0x80) * 64 + (d - 0x80)
                             :: utf8_dec l4
              end
          end
      end
  end.

(** ** Printing *)

Definition hex_code (n : Z) : Z := if n <? 10 then 48 + n else 87 + n.
(** ["\\u{0:04x}"] *)
Definition u_escape (c : Z) : list Z :=
  [92; 117; hex_code (c / 4096 mod 16); hex_code (c / 256 mod 16); hex_code (c / 16 mod 16); hex_code (c mod 16)].

Definition escape (c : Z) : list Z :=
  if c =? 34 then [92; 34] else if c =? 92 then [92; 92]
  else if c =? 10 then [92; 110] else if c =? 13 then [92; 114] else if c =? 9 then [92; 116]
  else if c =? 12 then [92; 102] else if c =? 8 then [92; 98]
  else if (32 <=? c) && (c <=? 126) then [c]
  else if c <? 0x10000 then u_escape c
  else u_escape (0xD800 + (c - 0x10000) / 0x400) ++ u_escape (0xDC00 + (c - 0x10000) mod 0x400).

Definition dump_string (s : string) : list Z := 34 :: concat (map escape (utf8_dec (codes s))) ++ [34].

(** [sep.join(parts)] *)
Fixpoint join_codes (sep : list Z) (parts : list (list Z)) : list Z :=
  match parts with
  | [] => []
  | [p] => p
  | p :: parts' => p ++ sep ++ join_codes sep parts'
  end.

(** A float is printed by its [repr], but for the values JSON lacks. *)
Definition float_text (repr : string) : string :=
  if String.eqb repr "nan" then "NaN"
  else if String.eqb repr "inf" then "Infinity"
  else if String.eqb repr "-inf" then "-Infinity"
  else repr.

Fixpoint dump (j : json) : list Z :=
  match j with
  | JNull => codes "null"
  | JBool true => codes "true"
  | JBool false => codes "false"
  | JInt z => codes (int_str z)
  | JFloat repr => codes (float_text repr)
  | JStr s => dump_string s
  | JList l => 91 :: join_codes [44; 32] (map dump l) ++ [93]
  | JObj kvs => 123 :: join_codes [44; 32] (map (fun kv => dump_string kv.1 ++ [58; 32] ++ dump kv.2) kvs) ++ [125]
  end.

Definition json_dumps (j : json) : string := of_codes (dump j).

Example dumps_1 :
  json_dumps (JObj [("a", JList [JInt (-1); JNull; JStr "é🔴"]); ("b", JObj [])]%string) =
  ("{" +:+ String (Ascii.ascii_of_nat 34) "a" +:+ String (Ascii.ascii_of_nat 34) ": [-1, null, " +:+
   String (Ascii.ascii_of_nat 34) "\u00e9\ud83d\udd34" +:+ String (Ascii.ascii_of_nat 34) "], " +:+
   String (Ascii.ascii_of_nat 34) "b" +:+ String (Ascii.ascii_of_nat 34) ": {}}")%string.
Proof. vm_compute. reflexivity. Qed.

(** ** Reading *)

Fixpoint skip_ws (l : list Z) : list Z :=
  match l with
  | c :: l' => if memb c [32; 9; 10; 13] then skip_ws l' else l
  | [] => []
  end.

Definition hex_val (c : Z) : option Z :=
  if (48 <=? c) && (c <=? 57) then Some (c - 48)
  else if (97 <=? c) && (c <=? 102) then Some (c - 87)
  else if (65 <=? c) && (c <=? 70) then Some (c - 55)
  else None.

Definition hex4 (a b c d : Z) : option Z :=
  a ← hex_val a; b ← hex_val b; c ← hex_val c; d ← hex_val d;
  Some (4096 * a + 256 * b + 16 * c + d).

Definition simple_escape (c : Z) : option Z :=
  if c =? 34 then Some 34 else if c =? 92 then Some 92 else if c =? 47 then Some 47
  else if c =? 98 then Some 8 else if c =? 102 then Some 12 else if c =? 110 then Some 10
  else if c =? 114 then Some 13 else if c =? 116 then Some 9 else None.

(** The code units of a string, up to its closing quote. *)
Fixpoint read_units (l : list Z) : option (list Z * list Z) :=
  match l with
  | [] => None
  | c :: l1 =>
      if c =? 34 then Some ([], l1)
      else if c =? 92 then
        match l1 with
        | [] => None
        | e :: l2 =>
            if e =? 117 then
              match l2 with
              | h1 :: h2 :: h3 :: h4 :: l3 =>
                  match hex4 h1 h2 h3 h4 with
                  | Some u => (fun p => (u :: p.1, p.2)) <$> read_units l3
                  | None => None
                  end
              | _ => None
              end
            else match simple_escape e with
                 | Some u => (fun p => (u :: p.1, p.2)) <$> read_units l2
                 | None => None
                 end
        end
      else if c <? 32 then None
      else (fun p => (c :: p.1, p.2)) <$> read_units l1
  end.

(** Surrogate pairs become one character. *)
Fixpoint pair_up (l : list Z) : list Z :=
  match l with
  | hi :: l1 =>
      match l1 with
      | lo :: l2 =>
          if (0xD800 <=? hi) && (hi <? 0xDC00) && ((0xDC00 <=? lo) && (lo <? 0xE000))
          then 0x10000 + (hi - 0xD800) * 0x400 + (lo - 0xDC00) :: pair_up l2
          else hi :: pair_up l1
      | [] => [hi]
      end
  | [] => []
  end.

Definition read_string (l : list Z) : option (string * list Z) :=
  (fun p => (of_codes (concat (map utf8_enc (pair_up p.1))), p.2)) <$> read_units l.

Definition is_dig (c : Z) : bool := (48 <=? c) && (c <=? 57).
Fixpoint span_num (l : list Z) : list Z * list Z :=
  match l with
  | c :: l' => if is_dig c || memb c [43; 45; 46; 69; 101] then let '(t, r) := span_num l' in (c :: t, r) else ([], l)
  | [] => ([], [])
  end.

Fixpoint span_dig (l : list Z) : list Z * list Z :=
  match l with
  | c :: l' => if is_dig c then let '(t, r) := span_dig l' in (c :: t, r) else ([], l)
  | [] => ([], [])
  end.

(** The rest of a float after its whole part: a fraction, an exponent, at least one. *)
Definition exponent_ok (l : list Z) : bool :=
  match l with
  | [] => true
  | c :: r =>
      let r := match r with s :: r' => if memb s [43; 45] then r' else r | [] => [] end in
      memb c [69; 101] && match span_dig r with (_ :: _, []) => true | _ => false end
  end.
Definition fraction_ok (l : list Z) : bool :=
  match l with
  | c :: r => if c =? 46 then match span_dig r with (_ :: _, r') => exponent_ok r' | _ => false end
              else exponent_ok l
  | [] => false
  end.

Definition digits_value (ds : list Z) : Z := fold_left (fun v c => 10 * v + (c - 48)) ds 0.

(** [float(literal)], by its [repr]: the whole part's digits, then what
    [fraction_ok] accepts. *)
Definition float_literal (neg : bool) (ds rest : list Z) : json :=
  let '(fs, r) := match rest with
                  | c :: r => if c =? 46 then span_dig r else ([], rest)
                  | [] => ([], [])
                  end in
  let e := match r with
           | _ :: s :: r' => if s =? 45 then - digits_value r'
                             else digits_value (if s =? 43 then r' else s :: r')
           | _ => 0
           end in
  JFloat (float_repr neg (digits_value (ds ++ fs)) (e - Z.of_nat (length fs))).

(** No leading zeros; a whole number, or a float. *)
Definition number (t : list Z) : option json :=
  let '(neg, l) := match t with c :: t' => if c =? 45 then (true, t') else (false, t) | [] => (false, []) end in
  let '(ds, rest) := span_dig l in
  match ds with
  | [] => None
  | d :: ds' =>
      if (d =? 48) && negb (bool_decide (ds' = [])) then None
      else match rest with
           | [] => let v := digits_value ds in Some (JInt (if neg : bool then - v else v))
           | _ => if fraction_ok rest then Some (float_literal neg ds rest) else None
           end
  end.

Example number_1 : map (fun s => number (codes s))
    ["-0"; "10"; "01"; "1.50"; "1."; "2e-7"; "-"; "1-2"; "-0.0"; "12.5E+3"; "1e999"; "0.1"]%string =
  [Some (JInt 0); Some (JInt 10); None; Some (JFloat "1.5"); None; Some (JFloat "2e-07"); None; None;
   Some (JFloat "-0.0"); Some (JFloat "12500.0"); Some (JFloat "inf"); Some (JFloat "0.1")].
Proof. vm_compute. reflexivity. Qed.

(** [dict(pairs)]: a later value of a key takes the place of the earlier. *)
Fixpoint dict_set (k : string) (v : json) (d : list (string * json)) : list (string * json) :=
  match d with
  | [] => [(k, v)]
  | (k', v') :: d' => if String.eqb k k' then (k', v) :: d' else (k', v') :: dict_set k v d'
  end.
Definition dict_of (pairs : list (string * json)) : list (string * json) :=
  fold_left (fun d kv => dict_set kv.1 kv.2 d) pairs [].

Fixpoint literal (p l : list Z) : option (list Z) :=
  match p, l with
  | [], _ => Some l
  | a :: p', b :: l' => if a =? b then literal p' l' else None
  | _ :: _, [] => None
  end.

(** The three literals that are not JSON. *)
Definition constant (l : list Z) : option (json * list Z) :=
  match literal (codes "NaN") l, literal (codes "Infinity") l, literal (codes "-Infinity") l with
  | Some r, _, _ => Some (JFloat "nan", r)
  | _, Some r, _ => Some (JFloat "inf", r)
  | _, _, Some r => Some (JFloat "-inf", r)
  | _, _, _ => None
  end.

Fixpoint read_value (fuel : nat) (l : list Z) : option (json * list Z) :=
  match fuel with
  | O => None
  | S f =>
      match skip_ws l with
      | [] => None
      | c :: r =>
          if c =? 34 then (fun p => (JStr p.1, p.2)) <$> read_string r
          else if c =? 91 then
            match skip_ws r with
            | 93 :: r' => Some (JList [], r')
            | _ => (fun p => (JList p.1, p.2)) <$> read_items f r
            end
          else if c =? 123 then
            match skip_ws r with
            | 125 :: r' => Some (JObj [], r')
            | _ => (fun p => (JObj (dict_of p.1), p.2)) <$> read_members f r
            end
          else match literal (codes "null") (c :: r), literal (codes "true") (c :: r),
                     literal (codes "false") (c :: r) with
               | Some r', _, _ => Some (JNull, r')
               | _, Some r', _ => Some (JBool true, r')
               | _, _, Some r' => Some (JBool false, r')
               | _, _, _ => let '(t, r') := span_num (c :: r) in
                            match number t with Some j => Some (j, r') | None => constant (c :: r) end
               end
      end
  end
with read_items (fuel : nat) (l : list Z) : option (list json * list Z) :=
  match fuel with
  | O => None
  | S f =>
      match read_value f l with
      | None => None
      | Some (j, r) =>
          match skip_ws r with
          | c :: r' => if c =? 44 then (fun p => (j :: p.1, p.2)) <$> read_items f r'
                       else if c =? 93 then Some ([j], r') else None
          | [] => None
          end
      end
  end
with read_members (fuel : nat) (l : list Z) : option (list (string * json) * list Z) :=
  match fuel with
  | O => None
  | S f =>
      match skip_ws l with
      | 34 :: r =>
          match read_string r with
          | None => None
          | Some (k, r1) =>
              match skip_ws r1 with
              | 58 :: r2 =>
                  match read_value f r2 with
                  | None => None
                  | Some (j, r3) =>
                      match skip_ws r3 with
                      | c :: r' => if c =? 44 then (fun p => ((k, j) :: p.1, p.2)) <$> read_members f r'
                                   else if c =? 125 then Some ([(k, j)], r') else None
                      | [] => None
                      end
                  end
              | _ => None
              end
          end
      | _ => None
      end
  end.

Definition json_loads (s : string) : option json :=
  let l := codes s in
  match read_value (S (length l)) l with
  | Some (j, r) => if bool_decide (skip_ws r = []) then Some j else None
  | None => None
  end.

Example loads_1 : json_loads " [1, {}, -2.50 ,true, -Infinity] "%string =
  Some (JList [JInt 1; JObj []; JFloat "-2.5"; JBool true; JFloat "-inf"]).
Proof. vm_compute. reflexivity. Qed.
