(* ===== verification/SyntheticId.v ===== *)
(** * SyntheticId: the client order id of a venue row without one
    ([adapters/liberator/mapping.py], [adapters/streaming_pro/mapping.py])

    A digest of the venue's order number with the version and variant bits of a
    UUIDv4 set, printed as a UUID; it always passes the order contract's check. *)

From S2P Require Import Prelude Decimals Contracts Sha256.
From stdpp Require Import base strings list sets.
From Stdlib Require Import ZArith Lia.
Open Scope Z_scope.

(** [digest[6] = ...; digest[8] = ...] of the first sixteen bytes. *)
Definition stamp_v4 (digest : list Z) : list Z :=
  alter (fun b => Z.lor (Z.land b 0x3F) 0x80) 8%nat
    (alter (fun b => Z.lor (Z.land b 0x0F) 0x40) 6%nat (take 16 digest)).

Definition dash : Ascii.ascii := Ascii.ascii_of_nat 45.

(** [str(uuid.UUID(bytes=...))]: 8-4-4-4-12 *)
Definition uuid_chars (bytes : list Z) : list Ascii.ascii :=
  let h := concat (map hex_of_byte bytes) in
  take 8 h ++ dash :: take 4 (drop 8 h) ++ dash :: take 4 (drop 12 h) ++ dash ::
  take 4 (drop 16 h) ++ dash :: drop 20 h.
Definition uuid_str (bytes : list Z) : string := String.string_of_list_ascii (uuid_chars bytes).

Definition lib_synthetic_client_order_id (order_no : string) : string :=
  uuid_str (stamp_v4 (sha256 (utf8 ("liberator:" +:+ order_no)))).
Definition sp_synthetic_client_order_id (order_no : string) : string :=
  uuid_str (stamp_v4 (sha256 (utf8 ("streaming_pro:" +:+ order_no)))).

Example lib_synthetic_1 : lib_synthetic_client_order_id "12345" =
  "992df968-0811-45e5-b565-955e318f6a37"%string.
Proof. vm_compute. reflexivity. Qed.

(** ** Reading a printed UUID *)

(** What a hexadecimal digit is not. *)
Definition hex_char_ok (a : Ascii.ascii) : bool :=
  negb (Ascii.eqb (Ascii.ascii_of_nat 117) a) && negb (Ascii.eqb dash a) && negb (is_brace a) &&
  negb (is_space a) && negb (memb (char_code a) [45; 43; 120; 88]).
Definition byte_ok (b : Z) : bool :=
  forallb hex_char_ok (hex_of_byte b) &&
  bool_decide (map hex_digit (hex_of_byte b) = [Some (b / 16); Some (b mod 16)]).

Lemma all_bytes (P : Z -> bool) : forallb P (map Z.of_nat (seq 0 256)) = true -> forall b, byte b -> P b = true.
Proof.
  intros H b Hb. rewrite forallb_forall in H. apply H. apply in_map_iff. exists (Z.to_nat b).
  rewrite Z2Nat.id by (destruct Hb; lia). split; [done|]. apply in_seq. destruct Hb. lia.
Qed.

Lemma byte_chars b : byte b -> byte_ok b = true.
Proof. apply all_bytes. vm_compute. reflexivity. Qed.

Lemma stamp_version b : byte b -> 64 <= Z.lor (Z.land b 0x0F) 0x40 < 80.
Proof.
  intros Hb. pose proof (all_bytes (fun b => (64 <=? Z.lor (Z.land b 0x0F) 0x40) && (Z.lor (Z.land b 0x0F) 0x40 <? 80))
    ltac:(vm_compute; reflexivity) b Hb) as H.
  apply andb_true_iff in H as [H1%Z.leb_le H2%Z.ltb_lt]. by split.
Qed.
Lemma stamp_variant b : byte b -> 128 <= Z.lor (Z.land b 0x3F) 0x80 < 192.
Proof.
  intros Hb. pose proof (all_bytes (fun b => (128 <=? Z.lor (Z.land b 0x3F) 0x80) && (Z.lor (Z.land b 0x3F) 0x80 <? 192))
    ltac:(vm_compute; reflexivity) b Hb) as H.
  apply andb_true_iff in H as [H1%Z.leb_le H2%Z.ltb_lt]. by split.
Qed.

(** The characters of printed bytes, and the number they read as. *)
Lemma bytes_hex bytes : Forall byte bytes -> Forall (fun a => hex_char_ok a = true) (concat (map hex_of_byte bytes)).
Proof.
  intros H. apply Forall_concat, Forall_fmap. eapply Forall_impl; [exact H|]. intros b Hb. simpl.
  apply byte_chars, andb_true_iff in Hb as [Hb _]. apply Forall_forall. rewrite forallb_forall in Hb.
  intros a Ha. apply Hb. by apply list_elem_of_In.
Qed.

Lemma hex_value_bytes bytes : Forall byte bytes -> bytes <> [] -> forall acc flag,
  hex_value (concat (map hex_of_byte bytes)) acc flag = Some (fold_left (fun v b => 256 * v + b) bytes acc).
Proof.
  intros H Hne. destruct H as [|b bytes Hb H]; [done|]. clear Hne.
  assert (Hstep : forall b l acc flag, byte b ->
    hex_value (hex_of_byte b ++ l) acc flag = hex_value l (256 * acc + b) true).
  { intros c l acc flag Hc. apply byte_chars, andb_true_iff in Hc as [_ Hc%bool_decide_eq_true].
    unfold hex_of_byte in *. simpl in Hc. injection Hc as H1 H2. cbn [app hex_value]. rewrite H1, H2.
    f_equal. pose proof (Z.div_mod c 16). lia. }
  intros acc flag. cbn [map concat fold_left]. rewrite Hstep by done. clear flag.
  generalize (256 * acc + b). clear Hb b acc. induction H as [|c bytes Hc _ IH]; intros acc; [done|].
  cbn [map concat fold_left]. by rewrite Hstep.
Qed.

Lemma remove_absent n a p l : Forall (fun x => Ascii.eqb a x = false) l -> Contracts.drop_all n (a :: p) l = l.
Proof.
  revert l. induction n as [|n IH]; intros l H; [by destruct l|]. destruct H as [|x l Hx H]; [done|].
  cbn [Contracts.drop_all starts_with]. rewrite Hx. cbn [andb]. by rewrite IH.
Qed.

Lemma remove_char n a l : (length l <= n)%nat ->
  Contracts.drop_all n [a] l = List.filter (fun x => negb (Ascii.eqb a x)) l.
Proof.
  revert l. induction n as [|n IH]; intros l Hn; [by destruct l; [|simpl in Hn; lia]|].
  destruct l as [|x l]; [done|]. simpl in Hn. cbn [Contracts.drop_all starts_with List.filter].
  destruct (Ascii.eqb a x); cbn [andb negb length drop]; [rewrite drop_0|]; rewrite IH by lia; done.
Qed.

Lemma strip_none f l : Forall (fun a => f a = false) l -> strip_with f l = l.
Proof.
  assert (Hl : forall l, Forall (fun a => f a = false) l -> lstrip_with f l = l).
  { intros k [|a k' Ha _]; simpl; [done|]. by rewrite Ha. }
  intros H. unfold strip_with. rewrite (Hl l H), Hl by (by apply Forall_rev). apply rev_involutive.
Qed.

(** What the checks of [hex_char_ok] say, one by one. *)
Lemma hex_not a : hex_char_ok a = true ->
  Ascii.eqb (Ascii.ascii_of_nat 117) a = false /\ Ascii.eqb dash a = false /\ is_brace a = false /\
  is_space a = false /\ memb (char_code a) [45; 43; 120; 88] = false.
Proof. unfold hex_char_ok. rewrite !andb_true_iff, !negb_true_iff. tauto. Qed.

Lemma int16_bytes bytes : Forall byte bytes -> bytes <> [] ->
  int16 (concat (map hex_of_byte bytes)) = Some (fold_left (fun v b => 256 * v + b) bytes 0).
Proof.
  intros H Hne. pose proof (bytes_hex _ H) as Hh. unfold int16. rewrite strip_none.
  2:{ eapply Forall_impl; [exact Hh|]. intros a Ha. by apply hex_not in Ha as (_ & _ & _ & ? & _). }
  pose proof (hex_value_bytes bytes H Hne 0 false) as Hv.
  assert (Hl : (2 <= length (concat (map hex_of_byte bytes)))%nat) by (destruct bytes; [done|simpl; lia]).
  destruct (concat (map hex_of_byte bytes)) as [|a [|b l]]; simpl in Hl; [lia..|].
  apply Forall_cons in Hh as [Ha Hh]. apply Forall_cons in Hh as [Hb _].
  apply hex_not in Ha as (_ & _ & _ & _ & Ha). apply hex_not in Hb as (_ & _ & _ & _ & Hb).
  rewrite <- not_true_iff_false, memb_spec in Ha, Hb.
  destruct (Z.eqb_spec (char_code a) 45) as [E|_]; [destruct Ha; rewrite E; apply list_elem_of_In; simpl; tauto|].
  destruct (Z.eqb_spec (char_code a) 43) as [E|_]; [destruct Ha; rewrite E; apply list_elem_of_In; simpl; tauto|].
  assert (memb (char_code b) [120; 88] = false) as ->.
  { apply not_true_iff_false. rewrite memb_spec. intros Hin. apply Hb. do 2 apply list_elem_of_further. exact Hin. }
  rewrite andb_false_r. by rewrite Hv.
Qed.

Lemma filter_hex l : Forall (fun a => hex_char_ok a = true) l ->
  List.filter (fun x => negb (Ascii.eqb dash x)) l = l.
Proof.
  induction 1 as [|a l Ha _ IH]; [done|]. cbn [List.filter].
  apply hex_not in Ha as (_ & -> & _). cbn [negb]. by rewrite IH.
Qed.

Lemma uuid_chars_ok bytes : Forall byte bytes ->
  Forall (fun a => hex_char_ok a = true \/ a = dash) (uuid_chars bytes) /\
  List.filter (fun x => negb (Ascii.eqb dash x)) (uuid_chars bytes) = concat (map hex_of_byte bytes).
Proof.
  intros H%bytes_hex. unfold uuid_chars. set (h := concat (map hex_of_byte bytes)) in *. split.
  - assert (Hp : forall l, Forall (fun a => hex_char_ok a = true) l ->
      Forall (fun a => hex_char_ok a = true \/ a = dash) l).
    { intros l Hl. eapply Forall_impl; [exact Hl|]. by left. }
    repeat first [apply Forall_app_2; [apply Hp; auto using Forall_take, Forall_drop|]|apply Forall_cons_2; [by right|]].
    apply Hp. by apply Forall_drop.
  - rewrite !List.filter_app. cbn [List.filter]. rewrite Ascii.eqb_refl. cbn [negb].
    rewrite !List.filter_app. cbn [List.filter]. rewrite Ascii.eqb_refl. cbn [negb].
    rewrite !List.filter_app. cbn [List.filter]. rewrite Ascii.eqb_refl. cbn [negb].
    rewrite !List.filter_app. cbn [List.filter]. rewrite Ascii.eqb_refl. cbn [negb].
    rewrite !filter_hex by (auto using Forall_take, Forall_drop).
    change 20%nat with (16 + 4)%nat. rewrite <- (drop_drop h 4 16), take_drop.
    change 16%nat with (12 + 4)%nat. rewrite <- (drop_drop h 4 12), take_drop.
    change 12%nat with (8 + 4)%nat. rewrite <- (drop_drop h 4 8), take_drop. apply take_drop.
Qed.

(** Taking the dashes out of a printed UUID leaves its digits. *)
Lemma uuid_digits bytes : Forall byte bytes ->
  let h := concat (map hex_of_byte bytes) in
  uuid_parse (uuid_str bytes) =
    if (length h =? 32)%nat then v ← int16 h; if (0 <=? v) && (v <? 2 ^ 128) then Some v else None
    else None.
Proof.
  intros H h. destruct (uuid_chars_ok _ H) as [Hall Hf]. fold h in Hf.
  unfold uuid_parse, uuid_str. rewrite String.list_ascii_of_string_of_list_ascii. unfold remove_sub.
  set (u := Ascii.ascii_of_nat 117).
  assert (Hu : Forall (fun x => Ascii.eqb u x = false) (uuid_chars bytes)).
  { eapply Forall_impl; [exact Hall|]. intros x [Hx| ->]; [|reflexivity]. by apply hex_not in Hx as (? & _). }
  change (String.list_ascii_of_string "urn:") with (u :: map Ascii.ascii_of_nat [114; 110; 58]%nat).
  rewrite (remove_absent _ u) by done.
  change (String.list_ascii_of_string "uuid:") with (u :: map Ascii.ascii_of_nat [117; 105; 100; 58]%nat).
  rewrite (remove_absent _ u) by done. rewrite strip_none.
  2:{ eapply Forall_impl; [exact Hall|]. intros x [Hx| ->]; [|reflexivity]. by apply hex_not in Hx as (_ & _ & ? & _). }
  change (String.list_ascii_of_string "-") with [dash]. rewrite remove_char by lia. by rewrite Hf.
Qed.

(** ** The bits *)

Lemma stamp_v4_bytes digest : (16 <= length digest)%nat -> Forall byte digest ->
  exists b0 b1 b2 b3 b4 b5 b6 b7 b8 b9 b10 b11 b12 b13 b14 b15,
    stamp_v4 digest = [b0; b1; b2; b3; b4; b5; b6; b7; b8; b9; b10; b11; b12; b13; b14; b15] /\
    Forall byte (stamp_v4 digest) /\ 64 <= b6 < 80 /\ 128 <= b8 < 192.
Proof.
  intros Hl H. do 16 (destruct digest as [|? digest]; [simpl in Hl; lia|]).
  repeat match goal with H : Forall byte (_ :: _) |- _ => apply Forall_cons in H as [? H] end.
  do 16 eexists. split; [reflexivity|]. split; [|split; [by apply stamp_version|by apply stamp_variant]].
  unfold stamp_v4. cbn [take alter list_alter].
  repeat (apply Forall_cons_2; [first [done
    |match goal with |- byte (Z.lor (Z.land ?b 15) 64) => pose proof (stamp_version b ltac:(done)); unfold byte; lia end
    |match goal with |- byte (Z.lor (Z.land ?b 63) 128) => pose proof (stamp_variant b ltac:(done)); unfold byte; lia end]|]).
  constructor.
Qed.

Lemma uuid4_bits b0 b1 b2 b3 b4 b5 b6 b7 b8 b9 b10 b11 b12 b13 b14 b15 v :
  Forall byte [b0; b1; b2; b3; b4; b5; b6; b7; b8; b9; b10; b11; b12; b13; b14; b15] ->
  64 <= b6 < 80 -> 128 <= b8 < 192 ->
  v = fold_left (fun v b => 256 * v + b)
        [b0; b1; b2; b3; b4; b5; b6; b7; b8; b9; b10; b11; b12; b13; b14; b15] 0 ->
  0 <= v < 2 ^ 128 /\ uuid_version v = Some 4.
Proof.
  intros H H6 H8 Hv. rewrite !Forall_cons in H. unfold byte in H. cbn [fold_left] in Hv.
  set (hi := 256 * (256 * (256 * (256 * (256 * b0 + b1) + b2) + b3) + b4) + b5).
  set (lo := 256 * (256 * (256 * (256 * (256 * (256 * b9 + b10) + b11) + b12) + b13) + b14) + b15).
  assert (Hhi : 0 <= hi < 2 ^ 48) by (unfold hi; lia). assert (Hlo : 0 <= lo < 2 ^ 56) by (unfold lo; lia).
  assert (E : v = hi * 2 ^ 80 + b6 * 2 ^ 72 + b7 * 2 ^ 64 + b8 * 2 ^ 56 + lo) by (subst v; unfold hi, lo; lia).
  clearbody hi lo. clear Hv. split; [lia|]. unfold uuid_version.
  assert (H63 : v / 2 ^ 62 = hi * 2 ^ 18 + b6 * 2 ^ 10 + b7 * 4 + 2).
  { symmetry. apply (Z.div_unique _ _ _ ((b8 - 128) * 2 ^ 56 + lo)); lia. }
  assert (H76 : v / 2 ^ 76 = hi * 16 + 4).
  { symmetry. apply (Z.div_unique _ _ _ ((b6 - 64) * 2 ^ 72 + b7 * 2 ^ 64 + b8 * 2 ^ 56 + lo)); lia. }
  assert (T63 : Z.testbit v 63 = true).
  { replace 63 with (1 + 62) by lia. rewrite <- Z.div_pow2_bits, H63 by lia. rewrite Z.testbit_true by lia.
    Z.div_mod_to_equations. lia. }
  assert (T62 : Z.testbit v 62 = false).
  { replace 62 with (0 + 62) by lia. rewrite <- Z.div_pow2_bits, H63 by lia. rewrite Z.testbit_false by lia.
    Z.div_mod_to_equations. lia. }
  rewrite T63, T62. cbn [andb negb]. rewrite Z.shiftr_div_pow2, H76 by lia.
  change 15 with (Z.ones 4). rewrite Z.land_ones by lia. f_equal. Z.div_mod_to_equations. lia.
Qed.

Lemma uuid_str_v4 digest : (16 <= length digest)%nat -> Forall byte digest ->
  _uuid4_at_the_boundary (uuid_str (stamp_v4 digest)) = Ok (uuid_str (stamp_v4 digest)).
Proof.
  intros Hl H. destruct (stamp_v4_bytes digest Hl H) as
    (b0 & b1 & b2 & b3 & b4 & b5 & b6 & b7 & b8 & b9 & b10 & b11 & b12 & b13 & b14 & b15 & E & Hb & H6 & H8).
  rewrite E in *. unfold _uuid4_at_the_boundary. rewrite uuid_digits by done. cbv zeta.
  rewrite int16_bytes by done.
  destruct (uuid4_bits _ _ _ _ _ _ _ _ _ _ _ _ _ _ _ _ _ Hb H6 H8 eq_refl) as [Hr Hv].
  set (v := fold_left _ _ 0) in *. set (h := concat (map hex_of_byte _)).
  change (length h =? 32)%nat with true. cbn [mbind option_bind].
  rewrite (proj2 (andb_true_iff _ _)) by lia. by rewrite decide_True.
Qed.

(** an order read from a venue always has an acceptable id.  Whatever the venue's
    order number, the id both bridges derive from it passes the order contract's
    UUIDv4 check unchanged. *)
Theorem synthetic_ids_accepted order_no :
  _uuid4_at_the_boundary (lib_synthetic_client_order_id order_no) = Ok (lib_synthetic_client_order_id order_no) /\
  _uuid4_at_the_boundary (sp_synthetic_client_order_id order_no) = Ok (sp_synthetic_client_order_id order_no).
Proof.
  split; apply uuid_str_v4; try apply sha256_digest;
    match goal with |- (16 <= length (sha256 ?m))%nat => destruct (sha256_digest m) as [-> _]; lia end.
Qed.
