(* ===== verification/PyTime.v ===== *)
(** * PyTime: datetimes, dates and the calendar

    An aware datetime is an instant (microseconds UTC) and the offset it is shown
    at, a naive one a wall-clock reading without an offset; [strptime] for the one
    format the code parses; dates as days, with their year, month and day. *)

From S2P Require Import Prelude Decimals Contracts Digits.
From stdpp Require Import base strings list.
From Stdlib Require Import ZArith Lia.
Open Scope Z_scope.

Inductive PyDatetime :=
  | Aware (utc offset : Z)
  | Naive (wall : Z).

(** The instant, a naive time read as UTC. *)
Definition as_utc (t : PyDatetime) : Z := match t with Aware u _ => u | Naive w => w end.

(** [a - b]; subtracting across naive and aware raises [TypeError]. *)
Definition dt_sub (a b : PyDatetime) : result exn Z :=
  match a, b with
  | Aware x _, Aware y _ | Naive x, Naive y => Ok (x - y)
  | _, _ => Err (OtherError "TypeError")
  end.

(** ** The proleptic Gregorian calendar *)

Definition is_leap (y : Z) : bool :=
  (y mod 4 =? 0) && (negb (y mod 100 =? 0) || (y mod 400 =? 0)).

Definition days_in_month (y m : Z) : Z :=
  if m =? 2 then (if is_leap y then 29 else 28)
  else if memb m [4; 6; 9; 11] then 30 else 31.

(** Days before 1 January of year [y], counted from 1 January of year 1. *)
Definition days_before_year (y : Z) : Z :=
  let y := y - 1 in y * 365 + y / 4 - y / 100 + y / 400.

(** Days of year [y] before month [m]: the first [m - 1] months. *)
Fixpoint days_before_month (y : Z) (months : nat) : Z :=
  match months with
  | O => 0
  | S n => days_before_month y n + days_in_month y (Z.of_nat (S n))
  end.

(** Days since 1970-01-01 of a valid date. *)
Definition days_from_civil (y m d : Z) : Z :=
  days_before_year y + days_before_month y (Z.to_nat (m - 1)) + d - 719163.

Example days_epoch : days_from_civil 1970 1 1 = 0.
Proof. reflexivity. Qed.
Example days_2026_08_31 : days_from_civil 2026 8 31 = 20696.
Proof. reflexivity. Qed.
Example days_leap : days_from_civil 2024 3 1 - days_from_civil 2024 2 28 = 2.
Proof. reflexivity. Qed.

(** ** [strptime(s, "%Y-%m-%d %H:%M:%S")] *)

(** One or two digits, not followed by a third. *)
Definition two_digits (l : list Ascii.ascii) : option (Z * list Ascii.ascii) :=
  match l with
  | a :: b :: l' =>
      if is_digit a then
        if is_digit b then Some (10 * (char_code a - 48) + (char_code b - 48), l')
        else Some (char_code a - 48, b :: l')
      else None
  | [a] => if is_digit a then Some (char_code a - 48, []) else None
  | [] => None
  end.

Definition four_digits (l : list Ascii.ascii) : option (Z * list Ascii.ascii) :=
  match l with
  | a :: b :: c :: d :: l' =>
      if forallb is_digit [a; b; c; d]
      then Some (1000 * (char_code a - 48) + 100 * (char_code b - 48) + 10 * (char_code c - 48)
                 + (char_code d - 48), l')
      else None
  | _ => None
  end.

Definition expect (code : Z) (l : list Ascii.ascii) : option (list Ascii.ascii) :=
  match l with a :: l' => if char_code a =? code then Some l' else None | [] => None end.

(** A day of the month may also be a space and one digit. *)
Definition day_digits (l : list Ascii.ascii) : option (Z * list Ascii.ascii) :=
  match l with
  | a :: b :: l' =>
      if char_code a =? 32 then
        if is_digit b && negb (char_code b =? 48) then Some (char_code b - 48, l') else None
      else two_digits l
  | _ => two_digits l
  end.

(** [\s+] *)
Definition spaces (l : list Ascii.ascii) : option (list Ascii.ascii) :=
  match l with a :: l' => if is_space a then Some (lstrip_with is_space l') else None | [] => None end.

(** The naive wall-clock instant; [None] is [ValueError]. *)
Definition strptime (s : string) : option Z :=
  '(y, l) ← four_digits (String.list_ascii_of_string s); l ← expect 45 l;
  '(m, l) ← two_digits l; l ← expect 45 l;
  '(d, l) ← day_digits l; l ← spaces l;
  '(hh, l) ← two_digits l; l ← expect 58 l;
  '(mm, l) ← two_digits l; l ← expect 58 l;
  '(ss, l) ← two_digits l;
  if bool_decide (l = []) && (1 <=? y) && (1 <=? m) && (m <=? 12) && (1 <=? d) &&
     (d <=? days_in_month y m) && (hh <=? 23) && (mm <=? 59) && (ss <=? 59)
  then Some ((((days_from_civil y m d * 24 + hh) * 60 + mm) * 60 + ss) * 1000000)
  else None.

Example strptime_1 : strptime "1970-01-02 00:00:01" = Some 86401000000.
Proof. reflexivity. Qed.
Example strptime_2 : strptime "2026-02-29 11:37:02" = None.
Proof. reflexivity. Qed.
Example strptime_3 : strptime " 11:37:02" = None.
Proof. reflexivity. Qed.
Example strptime_4 : strptime "2026-8- 5  7:03:02" = strptime "2026-08-05 07:03:02".
Proof. reflexivity. Qed.

(** Asia/Bangkok is UTC+7 all year: the aware instant of a wall-clock reading
    there ([naive.replace(tzinfo=_VENUE_TZ)]). *)
Definition _VENUE_TZ_OFFSET : Z := 7 * 3600 * 1000000.
Definition in_venue_tz (wall : Z) : PyDatetime := Aware (wall - _VENUE_TZ_OFFSET) _VENUE_TZ_OFFSET.

(** A UTC datetime, and the wall-clock reading of any. *)
Definition utc (t : Z) : PyDatetime := Aware t 0.
Definition wall_of (t : PyDatetime) : Z := match t with Aware u o => u + o | Naive w => w end.

Definition date : Type := Z.

(** The year of the [n]-th day counted from 1 January of year 1: the mean year
    length gives it or the year before. *)
Definition year_of (n : Z) : Z :=
  let y := 400 * n / 146097 + 1 in
  if days_before_year (y + 1) <=? n then y + 1 else y.

(** The month and day of the [n]-th day from the first of month [m]. *)
Fixpoint month_day (y : Z) (fuel : nat) (m n : Z) : Z * Z :=
  match fuel with
  | O => (m, n + 1)
  | S f => if n <? days_in_month y m then (m, n + 1)
           else month_day y f (m + 1) (n - days_in_month y m)
  end.

Definition date_ymd (d : date) : Z * Z * Z :=
  let n := d + 719162 in
  let y := year_of n in
  let '(m, day) := month_day y 11 1 (n - days_before_year y) in
  (y, m, day).

Definition replace_day (k : Z) (d : date) : date :=
  let '(y, m, _) := date_ymd d in days_from_civil y m k.

Definition valid_ymd (y m d : Z) : Prop := 1 <= m <= 12 /\ 1 <= d <= days_in_month y m.

Example date_ymd_1 : date_ymd 20696 = (2026, 8, 31).
Proof. reflexivity. Qed.
Example date_ymd_2 : date_ymd (days_from_civil 2024 2 29) = (2024, 2, 29).
Proof. reflexivity. Qed.
Example date_ymd_3 : date_ymd (days_from_civil 2000 12 31) = (2000, 12, 31).
Proof. reflexivity. Qed.

(** ** Years *)

Definition year_len (y : Z) : Z := if is_leap y then 366 else 365.

Lemma days_before_year_succ y : days_before_year (y + 1) = days_before_year y + year_len y.
Proof.
  unfold days_before_year, year_len, is_leap. cbv zeta. replace (y + 1 - 1) with y by lia.
  destruct (Z.eqb_spec (y mod 4) 0), (Z.eqb_spec (y mod 100) 0), (Z.eqb_spec (y mod 400) 0);
    simpl; Z.div_mod_to_equations; lia.
Qed.

Lemma year_len_pos y : 365 <= year_len y <= 366.
Proof. unfold year_len. destruct (is_leap y); lia. Qed.

Lemma days_before_year_mono y z : y <= z -> days_before_year y <= days_before_year z.
Proof.
  intros Hle. replace z with (y + Z.of_nat (Z.to_nat (z - y))) by lia.
  induction (Z.to_nat (z - y)) as [|k IH]; [rewrite Z.add_0_r; lia|].
  rewrite Nat2Z.inj_succ, <- Z.add_1_r, Z.add_assoc, days_before_year_succ.
  pose proof (year_len_pos (y + Z.of_nat k)). lia.
Qed.

Lemma year_of_spec n :
  days_before_year (year_of n) <= n < days_before_year (year_of n + 1).
Proof.
  unfold year_of. cbv zeta. set (y := 400 * n / 146097 + 1).
  assert (Hlo : days_before_year y <= n).
  { unfold days_before_year, y. Z.div_mod_to_equations. lia. }
  assert (Hhi : n < days_before_year (y + 2)).
  { unfold days_before_year, y. cbv zeta. Z.div_mod_to_equations. lia. }
  replace (y + 2) with (y + 1 + 1) in Hhi by lia.
  destruct (Z.leb_spec (days_before_year (y + 1)) n); lia.
Qed.

Lemma year_of_unique y n : days_before_year y <= n < days_before_year (y + 1) -> year_of n = y.
Proof.
  intros Hy. pose proof (year_of_spec n) as Hs.
  destruct (Z.lt_trichotomy (year_of n) y) as [Hl|[->|Hl]]; [|done|].
  - pose proof (days_before_year_mono (year_of n + 1) y). lia.
  - pose proof (days_before_year_mono (y + 1) (year_of n)). lia.
Qed.

(** ** Months *)

Lemma days_in_month_range y m : 28 <= days_in_month y m <= 31.
Proof.
  unfold days_in_month. repeat case_match; lia.
Qed.

Lemma year_months y : days_before_month y 12 = year_len y.
Proof.
  unfold year_len. cbn [days_before_month]. unfold days_in_month. simpl. destruct (is_leap y); done.
Qed.

(** [days_before_month] by month number. *)
Definition dbm (y m : Z) : Z := days_before_month y (Z.to_nat (m - 1)).

Lemma dbm_succ y m : 1 <= m -> dbm y (m + 1) = dbm y m + days_in_month y m.
Proof.
  intros Hm. unfold dbm. replace (Z.to_nat (m + 1 - 1)) with (S (Z.to_nat (m - 1))) by lia.
  cbn [days_before_month]. do 2 f_equal. lia.
Qed.

Lemma dbm_mono y m k : 1 <= m -> m <= k -> dbm y m <= dbm y k.
Proof.
  intros Hm Hk. replace k with (m + Z.of_nat (Z.to_nat (k - m))) by lia.
  induction (Z.to_nat (k - m)) as [|j IH]; [rewrite Z.add_0_r; lia|].
  rewrite Nat2Z.inj_succ, <- Z.add_1_r, Z.add_assoc, dbm_succ by lia.
  pose proof (days_in_month_range y (m + Z.of_nat j)). lia.
Qed.

Lemma month_day_spec y fuel m n : 1 <= m -> m + Z.of_nat fuel = 12 ->
  0 <= n -> dbm y m + n < year_len y ->
  let '(m', d) := month_day y fuel m n in
  valid_ymd y m' d /\ dbm y m' + d = dbm y m + n + 1.
Proof.
  revert m n. induction fuel as [|fuel IH]; intros m n Hm Hf Hn Hlen; simpl.
  - assert (m = 12) as -> by lia. pose proof (dbm_succ y 12 ltac:(lia)) as Hd.
    change (dbm y (12 + 1)) with (days_before_month y 12) in Hd. rewrite year_months in Hd.
    unfold valid_ymd. lia.
  - destruct (Z.ltb_spec n (days_in_month y m)); [unfold valid_ymd; lia|].
    pose proof (dbm_succ y m Hm) as Hd.
    specialize (IH (m + 1) (n - days_in_month y m) ltac:(lia) ltac:(lia) ltac:(lia) ltac:(lia)).
    destruct (month_day y fuel (m + 1) (n - days_in_month y m)) as [m' d]. destruct IH. split; [done|lia].
Qed.

(** ** The two directions *)

Lemma date_ymd_spec d : let '(y, m, k) := date_ymd d in
  valid_ymd y m k /\ days_from_civil y m k = d.
Proof.
  unfold date_ymd. cbv zeta. set (n := d + 719162).
  pose proof (year_of_spec n) as Hy. rewrite days_before_year_succ in Hy.
  pose proof (month_day_spec (year_of n) 11 1 (n - days_before_year (year_of n)) ltac:(lia)
    ltac:(lia) ltac:(lia) ltac:(change (dbm _ 1) with 0; lia)) as Hm.
  destruct (month_day _ _ _ _) as [m k]. destruct Hm as [Hv Hd]. split; [done|].
  change (dbm _ 1) with 0 in Hd. unfold days_from_civil. fold (dbm (year_of n) m). lia.
Qed.

(** A calendar date's day number lies in its year, at its place. *)
Lemma civil_in_year y m d : valid_ymd y m d ->
  0 <= dbm y m + d - 1 < year_len y.
Proof.
  intros [Hm Hd]. pose proof (dbm_mono y 1 m ltac:(lia) ltac:(lia)) as H1.
  change (dbm y 1) with 0 in H1. pose proof (dbm_succ y m ltac:(lia)).
  pose proof (dbm_mono y (m + 1) 13 ltac:(lia) ltac:(lia)) as H2.
  change (dbm y 13) with (days_before_month y 12) in H2. rewrite year_months in H2. lia.
Qed.

Lemma days_from_civil_inj y m d y' m' d' : valid_ymd y m d -> valid_ymd y' m' d' ->
  days_from_civil y m d = days_from_civil y' m' d' -> (y, m, d) = (y', m', d').
Proof.
  intros Hv Hv' E. unfold days_from_civil in E. fold (dbm y m) (dbm y' m') in E.
  pose proof (civil_in_year _ _ _ Hv) as H1. pose proof (civil_in_year _ _ _ Hv') as H2.
  assert (y = y') as <-.
  { rewrite <- (year_of_unique y (days_before_year y + dbm y m + d - 1))
      by (rewrite days_before_year_succ; lia).
    apply year_of_unique. rewrite days_before_year_succ. lia. }
  destruct Hv as [Hm Hd], Hv' as [Hm' Hd'].
  assert (m = m') as <-.
  { pose proof (dbm_succ y m ltac:(lia)). pose proof (dbm_succ y m' ltac:(lia)).
    destruct (Z.lt_trichotomy m m') as [Hl|[->|Hl]]; [|done|].
    - pose proof (dbm_mono y (m + 1) m' ltac:(lia) ltac:(lia)). lia.
    - pose proof (dbm_mono y (m' + 1) m ltac:(lia) ltac:(lia)). lia. }
  repeat f_equal. lia.
Qed.

Lemma date_ymd_civil y m d : valid_ymd y m d -> date_ymd (days_from_civil y m d) = (y, m, d).
Proof.
  intros Hv. pose proof (date_ymd_spec (days_from_civil y m d)) as Hs.
  destruct (date_ymd (days_from_civil y m d)) as [[y' m'] d'] eqn:E. destruct Hs as [Hv' He].
  by apply days_from_civil_inj.
Qed.

(** ** Months as periods *)

(** [d.replace(day=1)] *)
Definition month_start (d : date) : date := replace_day 1 d.

(** [(d.replace(day=28) + timedelta(days=4)).replace(day=1)] *)
Definition next_month (d : date) : date := replace_day 1 (replace_day 28 d + 4).

(** The first day of a month's successor. *)
Definition succ_month (y m : Z) : Z * Z := if m =? 12 then (y + 1, 1) else (y, m + 1).

Lemma days_next_month y m : 1 <= m <= 12 ->
  let '(y', m') := succ_month y m in
  days_from_civil y m (days_in_month y m + 1) = days_from_civil y' m' 1.
Proof.
  intros Hm. unfold succ_month, days_from_civil. fold (dbm y m).
  destruct (Z.eqb_spec m 12) as [->|].
  - pose proof (dbm_succ y 12 ltac:(lia)) as Hd.
    change (dbm y (12 + 1)) with (days_before_month y 12) in Hd. rewrite year_months in Hd.
    rewrite days_before_year_succ. change (days_before_month (y + 1) (Z.to_nat (1 - 1))) with 0. lia.
  - fold (dbm y (m + 1)). rewrite dbm_succ by lia. lia.
Qed.

Lemma next_month_civil y m k : valid_ymd y m k ->
  let '(y', m') := succ_month y m in
  next_month (days_from_civil y m k) = days_from_civil y' m' 1.
Proof.
  intros Hv. assert (Hm : 1 <= m <= 12) by (by destruct Hv).
  pose proof (days_next_month y m Hm) as Hn. destruct (succ_month y m) as [y' m'] eqn:Hs.
  unfold next_month, replace_day. rewrite (date_ymd_civil y m k Hv).
  pose proof (days_in_month_range y m). pose proof (days_in_month_range y' m').
  replace (days_from_civil y m 28 + 4) with (days_from_civil y' m' (32 - days_in_month y m))
    by (unfold days_from_civil in *; lia).
  rewrite date_ymd_civil; [done|]. unfold valid_ymd, succ_month in *.
  destruct (Z.eqb_spec m 12); simplify_eq; lia.
Qed.

Lemma month_start_civil y m k : valid_ymd y m k ->
  month_start (days_from_civil y m k) = days_from_civil y m 1.
Proof. intros Hv. unfold month_start, replace_day. by rewrite date_ymd_civil. Qed.

(** Every date is a calendar date. *)
Lemma date_cases d : exists y m k, valid_ymd y m k /\ d = days_from_civil y m k.
Proof.
  pose proof (date_ymd_spec d) as Hs. destruct (date_ymd d) as [[y m] k]. destruct Hs as [? ?].
  by exists y, m, k.
Qed.

(** A date lies in its month and in no other. *)
Lemma month_contains d : month_start d <= d < next_month (month_start d).
Proof.
  destruct (date_cases d) as (y & m & k & Hv & ->). rewrite month_start_civil by done.
  assert (Hm : 1 <= m <= 12) by (by destruct Hv). pose proof (days_in_month_range y m).
  assert (Hv1 : valid_ymd y m 1) by (unfold valid_ymd; lia).
  pose proof (next_month_civil y m 1 Hv1) as Hn. pose proof (days_next_month y m Hm) as Hd.
  destruct (succ_month y m) as [y' m']. rewrite Hn, <- Hd. destruct Hv as [_ Hk].
  unfold days_from_civil. lia.
Qed.

Lemma month_unique f d : month_start f = f -> f <= d < next_month f <-> month_start d = f.
Proof.
  intros Hf. split; [|intros <-; apply month_contains]. intros Hin.
  destruct (date_cases f) as (y & m & k & Hv & ->). rewrite month_start_civil in Hf by done.
  assert (k = 1) as -> by (unfold days_from_civil in Hf; lia).
  assert (Hm : 1 <= m <= 12) by (by destruct Hv).
  pose proof (next_month_civil y m 1 Hv) as Hn. pose proof (days_next_month y m Hm) as Hd.
  destruct (succ_month y m) as [y' m']. rewrite Hn, <- Hd in Hin.
  assert (d = days_from_civil y m (d - days_from_civil y m 1 + 1)) as ->
    by (unfold days_from_civil; lia).
  apply month_start_civil. unfold valid_ymd, days_from_civil in *. lia.
Qed.
