(* ===== verification/PyIso.v ===== *)
(** * PyIso: ISO dates and times, printed and read

    [isoformat] and [fromisoformat] of dates and datetimes, with fractions and
    offsets; a datetime Python can hold reads back as itself. *)

From S2P Require Import Prelude Decimals Contracts Digits PyTime.
From stdpp Require Import base strings list sets.
From Stdlib Require Import ZArith Lia.
Open Scope Z_scope.

Definition DAY_US : Z := 86400000000.

(** ** Printing *)

(** [d.isoformat()] *)
Definition iso_date (d : date) : string :=
  let '(y, m, day) := date_ymd d in (pad 4 y +:+ "-" +:+ pad 2 m +:+ "-" +:+ pad 2 day)%string.

(** [f"{now:%Y-%m-%dT%H:%M:%SZ}"] of a UTC time. *)
Definition utc_stamp (now : Z) : string :=
  let s := now / 1000000 in
  let t := s mod 86400 in
  (iso_date (s / 86400) +:+ "T" +:+ pad 2 (t / 3600) +:+ ":" +:+ pad 2 (t / 60 mod 60) +:+ ":" +:+
   pad 2 (t mod 60) +:+ "Z")%string.

Example iso_date_1 : iso_date 20696 = "2026-08-31"%string.
Proof. reflexivity. Qed.
Example utc_stamp_1 : utc_stamp (20696 * 86400000000 + 3661000001) = "2026-08-31T01:01:01Z"%string.
Proof. reflexivity. Qed.

(** [HH:MM:SS[.ffffff]] of the microseconds of a day. *)
Definition iso_time (us : Z) : string :=
  let t := us / 1000000 in
  let f := us mod 1000000 in
  (pad 2 (t / 3600) +:+ ":" +:+ pad 2 (t / 60 mod 60) +:+ ":" +:+ pad 2 (t mod 60) +:+
   (if (f =? 0)%Z then "" else "." +:+ pad 6 f))%string.

(** [+HH:MM[:SS[.ffffff]]] *)
Definition iso_offset (o : Z) : string :=
  let a := Z.abs o in
  let m := a / 60000000 in
  ((if (o <? 0)%Z then "-" else "+") +:+
   if (a mod 60000000 =? 0)%Z then pad 2 (m / 60) +:+ ":" +:+ pad 2 (m mod 60) else iso_time a)%string.

(** [f"{t:%Y-%m-%d}"] *)
Definition strftime_day (t : PyDatetime) : string :=
  let '(y, m, d) := date_ymd (wall_of t / DAY_US) in (nat_str y +:+ "-" +:+ pad 2 m +:+ "-" +:+ pad 2 d)%string.

Definition iso_wall (w : Z) : string := (iso_date (w / DAY_US) +:+ "T" +:+ iso_time (w mod DAY_US))%string.

(** [t.isoformat()] *)
Definition isoformat (t : PyDatetime) : string :=
  match t with
  | Naive w => iso_wall w
  | Aware u o => (iso_wall (u + o) +:+ iso_offset o)%string
  end.

Example isoformat_1 : map isoformat
    [utc 0; Aware (20696 * DAY_US + 3661000001) (7 * 3600000000); Aware (DAY_US - 1) (-1000000); Naive (-1)] =
  ["1970-01-01T00:00:00+00:00"; "2026-08-31T08:01:01.000001+07:00"; "1970-01-01T23:59:58.999999-00:00:01";
   "1969-12-31T23:59:59.999999"]%string.
Proof. vm_compute. reflexivity. Qed.

(** ** Reading *)

(** Exactly [n] digits. *)
Fixpoint digits_n (n : nat) (v : Z) (l : list Ascii.ascii) : option (Z * list Ascii.ascii) :=
  match n with
  | O => Some (v, l)
  | S n' => match l with
            | a :: l' => if is_digit a then digits_n n' (10 * v + (char_code a - 48)) l' else None
            | [] => None
            end
  end.

Definition code_at (i : nat) (l : list Ascii.ascii) : option Z := char_code <$> l !! i.
Definition at_is (i : nat) (c : Z) (l : list Ascii.ascii) : bool := bool_decide (code_at i l = Some c).
Definition digit_at (i : nat) (l : list Ascii.ascii) : bool :=
  match l !! i with Some a => is_digit a | None => false end.

(** The day of a calendar date, and of day [d] of ISO week [w]. *)
Definition civil (y m d : Z) : option date :=
  if (1 <=? y) && (1 <=? m) && (m <=? 12) && (1 <=? d) && (d <=? days_in_month y m)
  then Some (days_from_civil y m d) else None.

(** Monday is 0; 1970-01-01 was a Thursday. *)
Definition weekday (d : date) : Z := (d + 3) mod 7.
Definition iso_week1_monday (y : Z) : date :=
  let first := days_from_civil y 1 1 in
  let wd := weekday first in
  if 3 <? wd then first - wd + 7 else first - wd.
Definition weeks_in (y : Z) : Z := (iso_week1_monday (y + 1) - iso_week1_monday y) / 7.
Definition week_date (y w d : Z) : option date :=
  if (1 <=? y) && (1 <=? w) && (w <=? weeks_in y) && (1 <=? d) && (d <=? 7) then
    let day := iso_week1_monday y + (w - 1) * 7 + (d - 1) in
    let '(y', _, _) := date_ymd day in
    if (1 <=? y') && (y' <=? 9999) then Some day else None
  else None.

(** A dash where the format has dashes. *)
Definition dash (sep : bool) (l : list Ascii.ascii) : option (list Ascii.ascii) :=
  if sep then expect 45 l else Some l.

Definition read_date (l : list Ascii.ascii) : option date :=
  '(y, l) ← digits_n 4 0 l;
  let sep := at_is 0 45 l in
  let l := if sep then tail l else l in
  if at_is 0 87 l then
    '(w, l) ← digits_n 2 0 (tail l);
    match l with
    | [] => week_date y w 1
    | _ => l ← dash sep l; '(d, l) ← digits_n 1 0 l;
           match l with [] => week_date y w d | _ => None end
    end
  else
    '(m, l) ← digits_n 2 0 l; l ← dash sep l; '(d, l) ← digits_n 2 0 l;
    match l with [] => civil y m d | _ => None end.

(** [date.fromisoformat(s)]; [None] is [ValueError]. *)
Definition date_fromisoformat (s : string) : option date := read_date (chars s).

Example date_fromisoformat_1 : map date_fromisoformat
    ["2026-08-31"; "20260831"; "2026-W36-1"; "2026W36"; "2026-W53-7"; "2025-W53-1"; "2026-02-29"; "2026-8-31"; ""]%string =
  [Some 20696; Some 20696; Some 20696; Some 20696; Some 20821; None; None; None; None].
Proof. vm_compute. reflexivity. Qed.

(** The run of digits from position [i]. *)
Fixpoint digit_run (fuel i : nat) (l : list Ascii.ascii) : nat :=
  match fuel with
  | O => i
  | S f => if digit_at i l then digit_run f (S i) l else i
  end.

(** Where the date ends. *)
Definition separator_location (l : list Ascii.ascii) : nat :=
  if (length l =? 7)%nat then 7
  else if at_is 4 45 l then
    if at_is 5 87 l then
      if at_is 8 45 l then (if digit_at 10 l then 8 else 10)%nat else 8
    else 10
  else if at_is 4 87 l then
    let idx := digit_run (length l) 7 l in
    if (idx <? 9)%nat then idx else if Nat.even idx then 7 else 8
  else 8.

(** The first six digits, as microseconds; the rest are digits too. *)
Definition read_fraction (l : list Ascii.ascii) : option Z :=
  let n := Nat.min 6 (length l) in
  if bool_decide (l = []) || negb (forallb is_digit l) then None
  else '(v, _) ← digits_n n 0 l; Some (v * 10 ^ (6 - Z.of_nat n)).

(** [HH[:?MM[:?SS[{.,}f+]]]], as hours, minutes, seconds and microseconds. *)
Definition read_hms (l : list Ascii.ascii) : option (Z * Z * Z * Z) :=
  '(hh, l) ← digits_n 2 0 l;
  match l with
  | [] => Some (hh, 0, 0, 0)
  | _ =>
      let sep := at_is 0 58 l in
      '(mm, l) ← digits_n 2 0 (if sep then tail l else l);
      match l with
      | [] => Some (hh, mm, 0, 0)
      | _ =>
          l ← (if sep then expect 58 l else Some l);
          '(ss, l) ← digits_n 2 0 l;
          match l with
          | [] => Some (hh, mm, ss, 0)
          | a :: l => if memb (char_code a) [46; 44]
                      then f ← read_fraction l; Some (hh, mm, ss, f) else None
          end
      end
  end.

Definition hms_us (t : Z * Z * Z * Z) : Z :=
  let '(hh, mm, ss, f) := t in ((hh * 60 + mm) * 60 + ss) * 1000000 + f.

(** The time of day, and the zone from its sign or [Z] on. *)
Fixpoint split_zone (l : list Ascii.ascii) : list Ascii.ascii * list Ascii.ascii :=
  match l with
  | [] => ([], [])
  | a :: l' => if memb (char_code a) [43; 45; 90] then ([], l)
               else let '(t, z) := split_zone l' in (a :: t, z)
  end.

Definition read_zone (l : list Ascii.ascii) : option Z :=
  match l with
  | [] => None
  | a :: l' =>
      if char_code a =? 90 then match l' with [] => Some 0 | _ => None end
      else t ← read_hms l';
           if hms_us t <? DAY_US then Some (if char_code a =? 45 then - hms_us t else hms_us t) else None
  end.

Definition read_time (d : date) (l : list Ascii.ascii) : option PyDatetime :=
  let '(t, z) := split_zone l in
  '(hh, mm, ss, f) ← read_hms t;
  if (hh <=? 23) && (mm <=? 59) && (ss <=? 59) then
    let wall := d * DAY_US + hms_us (hh, mm, ss, f) in
    match z with
    | [] => Some (Naive wall)
    | _ => o ← read_zone z; Some (Aware (wall - o) o)
    end
  else None.

(** [datetime.fromisoformat(s)]; [None] is [ValueError]. *)
Definition fromisoformat (s : string) : option PyDatetime :=
  let l := chars s in
  let pos := separator_location l in
  d ← read_date (take pos l);
  match drop pos l with
  | [] | [_] => Some (Naive (d * DAY_US))
  | _ :: t => read_time d t
  end.

Example fromisoformat_1 : map fromisoformat
    ["2026-08-31T08:01:01.000001+07:00"; "2025-09-04T03:38:51.000Z"; "20260831"; "2026-W36-1 010101,5";
     "2026-08-31T24:00:00"; "2026-08-31T01:01:01+24:00"; "2026-08-31T01:0:01"; "2026W361T01"; "now"]%string =
  [Some (Aware (20696 * DAY_US + 3661000001) (7 * 3600000000));
   Some (utc 1756957131000000); Some (Naive (20696 * DAY_US)); Some (Naive (20696 * DAY_US + 3661500000));
   None; None; None; Some (Naive (20696 * DAY_US + 3600000000)); None].
Proof. vm_compute. reflexivity. Qed.

Lemma digits_n_all l v r : all_digits l -> digits_n (length l) v (l ++ r) = Some (digits_from v l, r).
Proof.
  intros H. revert v. induction H as [|a l Ha _ IH]; intros v; [done|]. cbn [length app digits_n].
  rewrite Ha, IH. done.
Qed.

Lemma digits_n_pad k n r : (1 <= k)%nat -> 0 <= n < 10 ^ Z.of_nat k ->
  digits_n k 0 (chars (pad k n) ++ r) = Some (n, r).
Proof.
  intros Hk Hn. destruct (pad_digits k n Hk Hn) as (Hd & Hl & Hv).
  rewrite <- Hl at 1. rewrite digits_n_all by done. by rewrite Hv.
Qed.

(** Characters of a printed time: digits, colons and points. *)
Definition time_char (a : Ascii.ascii) : Prop := is_digit a = true \/ memb (char_code a) [58; 46] = true.

Lemma digit_not_in a l : is_digit a = true -> forallb (fun c => negb ((48 <=? c) && (c <=? 57))) l = true ->
  memb (char_code a) l = false.
Proof.
  intros Ha Hl. apply not_true_is_false. rewrite memb_spec, list_elem_of_In. intros Hin.
  rewrite forallb_forall in Hl. specialize (Hl _ Hin). unfold is_digit in Ha. by rewrite Ha in Hl.
Qed.

Lemma split_zone_app t z : Forall time_char t ->
  match z with a :: _ => memb (char_code a) [43; 45; 90] = true | [] => True end -> split_zone (t ++ z) = (t, z).
Proof.
  intros Ht Hz. induction Ht as [|a t Ha _ IH]; cbn [app split_zone].
  - destruct z as [|a z]; [done|]. cbn [split_zone]. by rewrite Hz.
  - assert (memb (char_code a) [43; 45; 90] = false) as ->; [|by rewrite IH].
    destruct Ha as [Ha|Ha]; [by apply digit_not_in|]. rewrite memb_spec in Ha. apply not_true_is_false.
    rewrite memb_spec. rewrite list_elem_of_In in *. simpl in *. lia.
Qed.

Lemma at_is_digit a l c : is_digit a = true -> ((48 <=? c) && (c <=? 57)) = false -> at_is 0 c (a :: l) = false.
Proof.
  intros Ha Hc. unfold at_is, code_at. apply bool_decide_eq_false. simpl. intros [= <-].
  unfold is_digit in Ha. by rewrite Ha in Hc.
Qed.

Lemma pad_head k n r : (1 <= k)%nat -> 0 <= n < 10 ^ Z.of_nat k ->
  exists a l, chars (pad k n) ++ r = a :: l /\ is_digit a = true.
Proof.
  intros Hk Hn. destruct (pad_digits k n Hk Hn) as (Hd & Hl & _).
  destruct (chars (pad k n)) as [|a l]; [simpl in Hl; lia|]. apply Forall_cons in Hd as [Hd _].
  exists a, (l ++ r). done.
Qed.

(** ** Dates *)

Definition year_ok (d : date) : Prop := let '(y, _, _) := date_ymd d in 1 <= y <= 9999.

Lemma date_fields d : year_ok d -> exists y m k, date_ymd d = (y, m, k) /\ 1 <= y <= 9999 /\ 1 <= m <= 12 /\
  1 <= k <= days_in_month y m /\ k < 100 /\ days_from_civil y m k = d.
Proof.
  unfold year_ok. pose proof (date_ymd_spec d) as Hs. destruct (date_ymd d) as [[y m] k]. destruct Hs as [[Hm Hk] Hd].
  pose proof (days_in_month_range y m). intros Hy. exists y, m, k. split_and!; try done; lia.
Qed.

Lemma chars_dash s : chars ("-" +:+ s) = Ascii.ascii_of_nat 45 :: chars s.
Proof. by rewrite chars_app. Qed.

Lemma iso_date_chars d : year_ok d -> exists y m k, date_ymd d = (y, m, k) /\
  chars (iso_date d) = chars (pad 4 y) ++ Ascii.ascii_of_nat 45 :: chars (pad 2 m) ++ Ascii.ascii_of_nat 45 :: chars (pad 2 k).
Proof.
  intros H. destruct (date_fields d H) as (y & m & k & E & _). exists y, m, k. split; [done|].
  unfold iso_date. rewrite E. by rewrite chars_app, chars_dash, chars_app, chars_dash.
Qed.

Lemma read_iso_date d : year_ok d -> read_date (chars (iso_date d)) = Some d.
Proof.
  intros H. destruct (date_fields d H) as (y & m & k & E & Hy & Hm & Hk & Hk2 & Hd).
  destruct (iso_date_chars d H) as (y' & m' & k' & E' & ->). rewrite E in E'. injection E' as <- <- <-.
  unfold read_date. rewrite digits_n_pad by (simpl; lia). cbn [mbind option_bind].
  change (at_is 0 45 (_ :: _)) with true. cbv iota zeta. cbn [tail].
  destruct (pad_head 2 m (Ascii.ascii_of_nat 45 :: chars (pad 2 k))) as (a & l & Ea & Ha); [lia|simpl; lia|].
  rewrite Ea, (at_is_digit a l 87 Ha eq_refl), <- Ea. cbv iota.
  rewrite digits_n_pad by (simpl; lia). cbn [mbind option_bind]. change (dash true (_ :: _)) with (Some (chars (pad 2 k))).
  cbn [mbind option_bind]. rewrite <- (app_nil_r (chars (pad 2 k))), digits_n_pad by (simpl; lia).
  cbn [mbind option_bind]. unfold civil.
  rewrite (proj2 (Z.leb_le 1 y)), (proj2 (Z.leb_le 1 m)), (proj2 (Z.leb_le m 12)), (proj2 (Z.leb_le 1 k)),
    (proj2 (Z.leb_le k _)) by lia. simpl. by rewrite Hd.
Qed.

(** The reader finds the end of a printed date. *)
Lemma iso_date_located d r : year_ok d -> r <> [] ->
  length (chars (iso_date d)) = 10%nat /\ separator_location (chars (iso_date d) ++ r) = 10%nat.
Proof.
  intros H Hr. destruct (date_fields d H) as (y & m & k & E & Hy & Hm & Hk & Hk2 & Hd).
  destruct (iso_date_chars d H) as (y' & m' & k' & E' & ->). rewrite E in E'. injection E' as <- <- <-.
  destruct (pad_digits 4 y) as (_ & Hl4 & _); [lia|simpl; lia|].
  destruct (pad_digits 2 m) as (Hdm & Hlm & _); [lia|simpl; lia|].
  destruct (pad_digits 2 k) as (_ & Hlk & _); [lia|simpl; lia|].
  destruct (chars (pad 4 y)) as [|y1 [|y2 [|y3 [|y4 []]]]]; try (simpl in Hl4; lia).
  destruct (chars (pad 2 m)) as [|m1 [|m2 []]]; try (simpl in Hlm; lia).
  destruct (chars (pad 2 k)) as [|k1 [|k2 []]]; try (simpl in Hlk; lia).
  split; [done|]. unfold separator_location. cbn [app length Nat.eqb].
  apply Forall_cons in Hdm as [Hm1 _].
  change (at_is 4 45 _) with true. change (at_is 5 87 (_ :: ?a :: ?b :: ?c :: ?d :: ?l)) with (at_is 0 87 l).
  cbv iota. by rewrite (at_is_digit m1 _ 87 Hm1 eq_refl).
Qed.

(** ** Times *)

Lemma time_fields us : 0 <= us < DAY_US ->
  let t := us / 1000000 in
  0 <= t / 3600 <= 23 /\ 0 <= t / 60 mod 60 <= 59 /\ 0 <= t mod 60 <= 59 /\ 0 <= us mod 1000000 < 1000000 /\
  hms_us (t / 3600, t / 60 mod 60, t mod 60, us mod 1000000) = us.
Proof. intros H t. unfold hms_us, t, DAY_US in *. split_and!; Z.div_mod_to_equations; lia. Qed.

Definition colon : Ascii.ascii := Ascii.ascii_of_nat 58.
Definition iso_time_tail (f : Z) : list Ascii.ascii :=
  if f =? 0 then [] else Ascii.ascii_of_nat 46 :: chars (pad 6 f).

Lemma iso_time_chars us : chars (iso_time us) =
  let t := us / 1000000 in
  chars (pad 2 (t / 3600)) ++ colon :: chars (pad 2 (t / 60 mod 60)) ++ colon :: chars (pad 2 (t mod 60)) ++
  iso_time_tail (us mod 1000000).
Proof.
  unfold iso_time, iso_time_tail. cbv zeta. rewrite !chars_app. do 5 f_equal. by destruct (_ =? 0).
Qed.

Lemma read_fraction_pad f : 0 <= f < 1000000 -> read_fraction (chars (pad 6 f)) = Some f.
Proof.
  intros Hf. destruct (pad_digits 6 f) as (Hd & Hl & _); [lia|simpl; lia|]. unfold read_fraction. rewrite Hl.
  rewrite bool_decide_false by (by destruct (chars (pad 6 f))).
  assert (forallb is_digit (chars (pad 6 f)) = true) as ->.
  { apply forallb_forall. intros a Ha. rewrite <- list_elem_of_In in Ha. unfold all_digits in Hd.
    rewrite Forall_forall in Hd. auto. }
  simpl negb. cbv iota. change (Nat.min 6 6) with 6%nat. rewrite <- (app_nil_r (chars (pad 6 f))).
  rewrite digits_n_pad by (simpl; lia). cbn [orb mbind option_bind]. f_equal. simpl. lia.
Qed.

Lemma read_iso_time us : 0 <= us < DAY_US -> exists hh mm ss f,
  read_hms (chars (iso_time us)) = Some (hh, mm, ss, f) /\ hms_us (hh, mm, ss, f) = us /\
  0 <= hh <= 23 /\ 0 <= mm <= 59 /\ 0 <= ss <= 59.
Proof.
  intros H. destruct (time_fields us H) as (Hh & Hm & Hs & Hf & E). cbv zeta in *.
  eexists _, _, _, _. split; [|by split_and!; try apply E; lia].
  rewrite iso_time_chars. cbv zeta. unfold read_hms. rewrite digits_n_pad by (simpl; lia).
  cbn [mbind option_bind]. change (at_is 0 58 (colon :: _)) with true. cbv iota zeta. cbn [tail].
  rewrite digits_n_pad by (simpl; lia). cbn [mbind option_bind]. change (expect 58 (colon :: ?l)) with (Some l).
  cbn [mbind option_bind]. rewrite digits_n_pad by (simpl; lia). cbn [mbind option_bind].
  unfold iso_time_tail. destruct (Z.eqb_spec (us mod 1000000) 0) as [E0|E0]; [by rewrite E0|].
  change (memb (char_code _) [46; 44]) with true. cbv iota. by rewrite read_fraction_pad.
Qed.

Lemma pad_time_chars k n : (1 <= k)%nat -> 0 <= n < 10 ^ Z.of_nat k -> Forall time_char (chars (pad k n)).
Proof.
  intros Hk Hn. destruct (pad_digits k n Hk Hn) as (Hd & _). eapply Forall_impl; [exact Hd|]. by left.
Qed.

Lemma iso_time_safe us : 0 <= us < DAY_US -> Forall time_char (chars (iso_time us)).
Proof.
  intros H. destruct (time_fields us H) as (Hh & Hm & Hs & Hf & _). cbv zeta in *. rewrite iso_time_chars. cbv zeta.
  repeat (first [apply Forall_app_2 | apply Forall_cons_2]); try (by right); try (apply pad_time_chars; simpl; lia).
  unfold iso_time_tail. destruct (_ =? 0); [constructor|]. apply Forall_cons_2; [by right|]. apply pad_time_chars; simpl; lia.
Qed.

(** ** Offsets and datetimes *)

Lemma iso_offset_head o : exists a l, chars (iso_offset o) = a :: l /\ memb (char_code a) [43; 45; 90] = true /\
  (char_code a =? 90) = false /\ (char_code a =? 45) = (o <? 0) /\
  l = chars (let m := Z.abs o / 60000000 in
             if (Z.abs o mod 60000000 =? 0)%Z then pad 2 (m / 60) +:+ ":" +:+ pad 2 (m mod 60) else iso_time (Z.abs o)).
Proof.
  unfold iso_offset. rewrite chars_app. destruct (o <? 0); eexists _, _; (split; [reflexivity|]); done.
Qed.

Lemma read_iso_offset o : - DAY_US < o < DAY_US -> read_zone (chars (iso_offset o)) = Some o.
Proof.
  intros Ho. destruct (iso_offset_head o) as (a & l & -> & _ & Hz & Hs & ->). unfold read_zone. rewrite Hz, Hs. cbv zeta.
  assert (Hr : forall hms, hms_us hms = Z.abs o ->
    (if hms_us hms <? DAY_US then Some (if o <? 0 then - hms_us hms else hms_us hms) else None) = Some o).
  { intros hms ->. rewrite (proj2 (Z.ltb_lt _ _)) by lia. f_equal. destruct (Z.ltb_spec o 0); lia. }
  destruct (Z.eqb_spec (Z.abs o mod 60000000) 0) as [E|E].
  - unfold DAY_US in *. rewrite chars_app, chars_app. unfold read_hms.
    rewrite digits_n_pad by (simpl; Z.div_mod_to_equations; lia). cbn [mbind option_bind chars app].
    change (at_is 0 58 (_ :: _)) with true. cbv iota zeta. cbn [tail]. rewrite <- (app_nil_r (chars (pad 2 _))).
    rewrite digits_n_pad by (simpl; Z.div_mod_to_equations; lia). cbn [mbind option_bind]. apply Hr.
    unfold hms_us. Z.div_mod_to_equations. lia.
  - destruct (read_iso_time (Z.abs o)) as (hh & mm & ss & f & -> & Hu & _); [unfold DAY_US in *; lia|].
    cbn [mbind option_bind]. by apply Hr.
Qed.

(** A datetime Python can hold. *)
Definition datetime_ok (t : PyDatetime) : Prop :=
  year_ok (wall_of t / DAY_US) /\ match t with Aware _ o => - DAY_US < o < DAY_US | Naive _ => True end.

Lemma read_iso_wall w z : year_ok (w / DAY_US) ->
  match z with a :: _ => memb (char_code a) [43; 45; 90] = true | [] => True end ->
  fromisoformat (iso_wall w +:+ String.string_of_list_ascii z) =
  match z with [] => Some (Naive w) | _ => o ← read_zone z; Some (Aware (w - o) o) end.
Proof.
  intros Hy Hz. unfold fromisoformat, iso_wall. rewrite !chars_app, String.list_ascii_of_string_of_list_ascii.
  rewrite <- !app_assoc. cbn [chars app].
  destruct (iso_date_located (w / DAY_US) (Ascii.Ascii false false true false true false true false ::
    chars (iso_time (w mod DAY_US)) ++ z) Hy ltac:(done)) as [Hl ->].
  rewrite take_app_length', drop_app_length' by (by rewrite Hl). rewrite read_iso_date by done. cbn [mbind option_bind].
  assert (Hr : 0 <= w mod DAY_US < DAY_US) by (apply Z.mod_pos_bound; done).
  destruct (read_iso_time (w mod DAY_US) Hr) as (hh & mm & ss & f & Hh & Hu & Hb).
  destruct (chars (iso_time (w mod DAY_US)) ++ z) as [|a l] eqn:E.
  { apply app_nil in E as [E _]. by rewrite E in Hh. }
  rewrite <- E. unfold read_time. rewrite split_zone_app by (done || by apply iso_time_safe). rewrite Hh.
  cbn [mbind option_bind]. rewrite !(proj2 (Z.leb_le _ _)) by lia. cbn [andb]. rewrite Hu. cbv zeta.
  replace (w / DAY_US * DAY_US + w mod DAY_US) with w; [done|]. rewrite (Z.div_mod w DAY_US) at 1 by done. lia.
Qed.

(** [datetime.fromisoformat(t.isoformat()) == t]. *)
Lemma fromisoformat_isoformat t : datetime_ok t -> fromisoformat (isoformat t) = Some t.
Proof.
  intros [Hy Ho]. destruct t as [u o|w]; cbn [isoformat wall_of] in *.
  - rewrite <- (String.string_of_list_ascii_of_string (iso_offset o)), read_iso_wall by
      (try done; by destruct (iso_offset_head o) as (a & l & -> & Ha & _)).
    rewrite read_iso_offset by done. destruct (iso_offset_head o) as (a & l & -> & _). cbn [mbind option_bind].
    do 2 f_equal. lia.
  - pose proof (read_iso_wall w [] Hy I) as H. rewrite <- H. f_equal.
    rewrite <- (String.string_of_list_ascii_of_string (_ +:+ _)), chars_app, app_nil_r.
    by rewrite String.string_of_list_ascii_of_string.
Qed.

Lemma date_fromisoformat_iso d : year_ok d -> date_fromisoformat (iso_date d) = Some d.
Proof. apply read_iso_date. Qed.

(** ** What the text is made of *)

(** ASCII, no bar and no [Z]. *)
Definition safe_char (a : Ascii.ascii) : bool :=
  (char_code a <? 128) && negb (char_code a =? 124) && negb (char_code a =? 90).
Definition safe_text (s : string) : Prop := Forall (fun a => safe_char a = true) (chars s).

Lemma safe_app s t : safe_text s -> safe_text t -> safe_text (s +:+ t).
Proof. unfold safe_text. rewrite chars_app. apply Forall_app_2. Qed.

Lemma safe_pad k n : safe_text (pad k n).
Proof.
  assert (H : all_digits (chars (pad k n))).
  { unfold pad. cbv zeta. rewrite chars_app. apply Forall_app_2; [apply zeros_digits|apply nat_str_digits]. }
  eapply Forall_impl; [exact H|]. intros a Ha. unfold is_digit in Ha. unfold safe_char. simpl in *. lia.
Qed.

Lemma safe_literal s : forallb safe_char (chars s) = true -> safe_text s.
Proof.
  intros H. apply Forall_forall. intros a Ha. rewrite list_elem_of_In in Ha. rewrite forallb_forall in H. auto.
Qed.

Ltac safe := repeat first [apply safe_pad | apply safe_literal; reflexivity | apply safe_app | case_match].

Lemma safe_iso_date d : safe_text (iso_date d).
Proof. unfold iso_date. safe. Qed.
Lemma safe_iso_time us : safe_text (iso_time us).
Proof. unfold iso_time. cbv zeta. safe. Qed.
Lemma safe_iso_wall w : safe_text (iso_wall w).
Proof. unfold iso_wall. apply safe_app; [apply safe_iso_date|]. apply safe_app; [by apply safe_literal|apply safe_iso_time]. Qed.
Lemma safe_isoformat t : safe_text (isoformat t).
Proof.
  unfold isoformat, iso_offset. cbv zeta.
  repeat first [apply safe_iso_wall | apply safe_iso_time | apply safe_iso_date | progress safe].
Qed.

Lemma string_chars_inj s t : chars s = chars t -> s = t.
Proof.
  intros E. by rewrite <- (String.string_of_list_ascii_of_string s), E, String.string_of_list_ascii_of_string.
Qed.
