(* ===== verification/StateMachine.v ===== *)
(** * StateMachine: the frozen 9-state order machine ([core/state_machine.py])

    The executable guard the repositories call, the lifecycle it induces as a
    reflexive-transitive closure, and the facts the store's evolution is
    stated with. *)

From S2P Require Import Prelude Contracts.
From stdpp Require Import base gmap strings list relations.
Import OrderState.

Definition ENTRY_STATE : OrderState.t := PENDING_NEW.

Definition TERMINAL_STATES : list OrderState.t := [FILLED; CANCELLED; REJECTED; EXPIRED].

Definition LEGAL_EDGES : list (OrderState.t * OrderState.t) :=
  [ (PENDING_NEW, NEW);
    (PENDING_NEW, REJECTED);
    (NEW, PARTIALLY_FILLED);
    (NEW, FILLED);
    (NEW, EXPIRED);
    (NEW, PENDING_CANCEL);
    (NEW, PENDING_REPLACE);
    (PARTIALLY_FILLED, FILLED);
    (PARTIALLY_FILLED, EXPIRED);
    (PARTIALLY_FILLED, PENDING_CANCEL);
    (PARTIALLY_FILLED, PENDING_REPLACE);
    (PENDING_CANCEL, CANCELLED);
    (PENDING_REPLACE, NEW) ].

Definition is_terminal (state : OrderState.t) : bool := memb state TERMINAL_STATES.

Definition is_legal (from_state to_state : OrderState.t) : bool :=
  if decide (from_state = to_state) then true
  else memb (from_state, to_state) LEGAL_EDGES.

Definition assert_legal (from_state to_state : OrderState.t) (client_order_id : option string)
    : result exn unit :=
  if negb (is_legal from_state to_state) then Err (IllegalTransition client_order_id) else Ok tt.

(** ** The lifecycle *)

(** One move of an order: the guard accepts it and it changes the state. *)
Definition edge (s t : OrderState.t) : Prop := (s, t) ∈ LEGAL_EDGES.

(** Zero or more moves. *)
Definition reaches : relation OrderState.t := rtc edge.

#[export] Instance reaches_preorder : PreOrder reaches.
Proof. unfold reaches. apply _. Qed.

#[export] Instance edge_dec s t : Decision (edge s t).
Proof. unfold edge. apply _. Defined.

Lemma is_legal_spec s t : is_legal s t = true <-> s = t \/ edge s t.
Proof.
  unfold is_legal, edge. case_decide.
  - split; [by left | done].
  - rewrite memb_spec. split; [by right | intros [?|?]; done].
Qed.

Lemma is_legal_refl s : is_legal s s = true.
Proof. apply is_legal_spec. by left. Qed.

Lemma is_legal_reaches s t : is_legal s t = true -> reaches s t.
Proof.
  rewrite is_legal_spec. intros [->|H]; [reflexivity|]. by apply rtc_once.
Qed.

Lemma is_terminal_spec s : is_terminal s = true <-> s ∈ TERMINAL_STATES.
Proof. apply memb_spec. Qed.

Lemma terminal_no_edge s t : is_terminal s = true -> ~ edge s t.
Proof. unfold edge. rewrite <- memb_spec. by destruct s, t. Qed.

Lemma terminal_reaches s t : is_terminal s = true -> reaches s t -> t = s.
Proof.
  intros Ht H. destruct H as [|s u t He _]; [done|].
  exfalso. by eapply terminal_no_edge.
Qed.

Lemma edge_not_to_entry s : ~ edge s PENDING_NEW.
Proof. unfold edge. rewrite <- memb_spec. by destruct s. Qed.

Lemma reaches_entry s : reaches s PENDING_NEW -> s = PENDING_NEW.
Proof.
  intros H. apply rtc_inv_r in H as [?|(u & _ & He)]; [done|].
  exfalso. by eapply edge_not_to_entry.
Qed.

Lemma terminal_legal_same s t : is_terminal s = true -> is_legal s t = true -> t = s.
Proof.
  intros Ht H. apply is_legal_spec in H as [?|H]; [done|]. exfalso. by eapply terminal_no_edge.
Qed.

Lemma assert_legal_ok s t c : assert_legal s t c = Ok tt <-> is_legal s t = true.
Proof. unfold assert_legal. by destruct (is_legal s t). Qed.

Lemma edge_in s t : memb (s, t) LEGAL_EDGES = true -> edge s t.
Proof. apply memb_spec. Qed.

#[export] Hint Resolve is_legal_reaches is_legal_refl : engine.

(** the terminal set is exactly the set of absorbing states of the guard:
    a state is terminal iff the only legal move out of it is the no-op. *)
Theorem terminal_iff_absorbing s :
  is_terminal s = true <-> (forall t, is_legal s t = true -> t = s).
Proof.
  split.
  - intros Ht t. by apply terminal_legal_same.
  - destruct s; try reflexivity; intros H.
    all: first [ discriminate (H NEW eq_refl) | discriminate (H CANCELLED eq_refl)
               | discriminate (H FILLED eq_refl) ].
Qed.

(** liveness of the frozen graph: from the entry state every state is
    reachable, from every state some terminal state is reachable (no order can
    be stranded by the graph itself), and no path ever returns to the entry
    state. *)
Theorem lifecycle_reachability s :
  reaches ENTRY_STATE s /\
  (exists t, reaches s t /\ is_terminal t = true) /\
  (reaches s ENTRY_STATE -> s = ENTRY_STATE).
Proof.
  assert (E : forall a b, memb (a, b) LEGAL_EDGES = true -> reaches a b)
    by (intros; by apply rtc_once, edge_in).
  assert (N : reaches PENDING_NEW NEW) by by apply E.
  split; [|split; [|apply reaches_entry]].
  - unfold ENTRY_STATE. destruct s; try (by apply E); try (etrans; [exact N|]; by apply E).
    + reflexivity.
    + etrans; [exact N|]. etrans; [apply (E NEW PENDING_CANCEL)|apply E]; done.
  - destruct s; first
      [ by exists FILLED; split; [first [reflexivity | by apply E] | ]
      | by exists CANCELLED; split; [first [reflexivity | by apply E] | ]
      | by exists REJECTED; split; [first [reflexivity | by apply E] | ]
      | by exists EXPIRED; split; [reflexivity | ]
      | exists FILLED; split; [etrans; [apply (E PENDING_REPLACE NEW); done | by apply E] | done] ].
Qed.
