(* ===== verification/Events.v ===== *)
(** * Events: the order-update hub ([events/models.py], [events/hub.py])

    The process-local ring buffer with its monotonic [seq], the bounded
    per-subscriber queues with their gap accounting, and the bounded
    cid-to-strategy attribution map. *)

From S2P Require Import Prelude Decimals Contracts.
From stdpp Require Import base gmap strings list.
From Stdlib Require Import ZArith Lia.
Open Scope Z_scope.

(** ** Event schema *)

Record FillEvent := {
  fe_broker_fill_id : string;
  fe_price : Decimal;
  fe_quantity : Z;
  fe_exec_ts : Z;
}.

Record OrderUpdateEvent := {
  ev_seq : Z;
  ev_client_order_id : string;
  ev_strategy_id : option string;
  ev_engine_state : OrderState.t;
  ev_status : option PublicOrderStatus.t;
  ev_broker_order_id : option string;
  ev_price : option Decimal;
  ev_quantity : option Z;
  ev_fill : option FillEvent;
  ev_ts : Z;
}.

(** [_Item = OrderUpdateEvent | GapMarker] *)
Inductive Item :=
  | IEvent (e : OrderUpdateEvent)
  | IGapMarker (dropped : Z).

Definition derive_status (engine_state : OrderState.t) : option PublicOrderStatus.t :=
  to_public_status engine_state 0.

(** ** Subscription: one bounded [asyncio.Queue] *)

Record Subscription := {
  sub_id : nat;                 (* object identity *)
  sub_maxsize : Z;
  sub_queue : list Item;        (* head = oldest *)
  sub_dropped : Z;
  sub_gap_pending : bool;
}.

Definition sub_set (s : Subscription) (q : list Item) (d : Z) (g : bool) : Subscription :=
  {| sub_id := sub_id s; sub_maxsize := sub_maxsize s;
     sub_queue := q; sub_dropped := d; sub_gap_pending := g |}.

(** [asyncio.Queue.full]: a non-positive [maxsize] is unbounded. *)
Definition sub_full (s : Subscription) : bool :=
  (0 <? sub_maxsize s) && (sub_maxsize s <=? Z.of_nat (length (sub_queue s))).

(** [queue.put_nowait(item)] under [suppress(QueueFull)]: the second component
    says whether it was enqueued. *)
Definition put_nowait (s : Subscription) (i : Item) : Subscription * bool :=
  if sub_full s then (s, false)
  else (sub_set s (sub_queue s ++ [i]) (sub_dropped s) (sub_gap_pending s), true).

Definition _drop_oldest (s : Subscription) : Subscription :=
  match sub_queue s with
  | [] => s
  | IGapMarker _ :: q => sub_set s q (sub_dropped s) false
  | IEvent _ :: q => sub_set s q (sub_dropped s) (sub_gap_pending s)
  end.

Definition _ensure_gap_marker (s : Subscription) : Subscription :=
  if sub_gap_pending s then s
  else (put_nowait (sub_set s (sub_queue s) (sub_dropped s) true) (IGapMarker 0)).1.

Definition offer (s : Subscription) (event : OrderUpdateEvent) : Subscription :=
  match put_nowait s (IEvent event) with
  | (s', true) => s'
  | (_, false) =>
      let s1 := _drop_oldest s in
      let s2 := sub_set s1 (sub_queue s1) (sub_dropped s1 + 1) (sub_gap_pending s1) in
      let s3 := _ensure_gap_marker s2 in
      (put_nowait s3 (IEvent event)).1
  end.

Definition take_dropped (s : Subscription) : Z * Subscription :=
  (sub_dropped s, sub_set s (sub_queue s) 0 false).

(** ** EventHub *)

Record EventHub := {
  hub_ring : list OrderUpdateEvent;      (* head = oldest *)
  hub_ring_size : nat;                   (* [deque(maxlen=...)] *)
  hub_queue_size : Z;
  hub_seq : Z;                           (* the next value of [itertools.count(1)] *)
  hub_subs : list Subscription;
  hub_strategies : list (string * string);   (* [OrderedDict], oldest first *)
  hub_next_id : nat;
}.

Definition EventHub_new (ring_buffer_size : nat) (subscriber_queue_size : Z) : EventHub :=
  {| hub_ring := []; hub_ring_size := ring_buffer_size;
     hub_queue_size := subscriber_queue_size; hub_seq := 1; hub_subs := [];
     hub_strategies := []; hub_next_id := 0 |}.

Definition _STRATEGY_MAP_CAP : nat := Z.to_nat 4096.

(** [while len(d) > cap: d.popitem(last=False)] *)
Definition pop_oldest {A} (cap : nat) (l : list A) : list A := drop (length l - cap) l.

Definition register_strategy (h : EventHub) (client_order_id strategy_id : string) : EventHub :=
  let others := List.filter (fun kv => negb (String.eqb kv.1 client_order_id)) (hub_strategies h) in
  {| hub_ring := hub_ring h; hub_ring_size := hub_ring_size h;
     hub_queue_size := hub_queue_size h; hub_seq := hub_seq h; hub_subs := hub_subs h;
     hub_strategies := pop_oldest _STRATEGY_MAP_CAP (others ++ [(client_order_id, strategy_id)]);
     hub_next_id := hub_next_id h |}.

Definition _resolve_strategy (h : EventHub) (client_order_id : string)
    (strategy_id : option string) : option string :=
  match strategy_id with
  | Some s => Some s
  | None =>
      match List.find (fun kv => String.eqb kv.1 client_order_id) (hub_strategies h) with
      | Some kv => Some kv.2
      | None => None
      end
  end.

(** [deque(maxlen=n).append(x)] *)
Definition deque_append {A} (n : nat) (l : list A) (x : A) : list A := pop_oldest n (l ++ [x]).

(** The event [publish] stamps. *)
Definition publish_event (h : EventHub) (now : Z) (client_order_id : string)
    (engine_state : OrderState.t) (strategy_id broker_order_id : option string)
    (price : option Decimal) (quantity : option Z) (fill : option FillEvent) : OrderUpdateEvent :=
  {| ev_seq := hub_seq h;
     ev_client_order_id := client_order_id;
     ev_strategy_id := _resolve_strategy h client_order_id strategy_id;
     ev_engine_state := engine_state;
     ev_status := derive_status engine_state;
     ev_broker_order_id := broker_order_id;
     ev_price := price;
     ev_quantity := quantity;
     ev_fill := fill;
     ev_ts := now |}.

Definition publish (h : EventHub) (now : Z) (client_order_id : string)
    (engine_state : OrderState.t) (strategy_id broker_order_id : option string)
    (price : option Decimal) (quantity : option Z) (fill : option FillEvent) : EventHub :=
  let event := publish_event h now client_order_id engine_state strategy_id
                 broker_order_id price quantity fill in
  {| hub_ring := deque_append (hub_ring_size h) (hub_ring h) event;
     hub_ring_size := hub_ring_size h;
     hub_queue_size := hub_queue_size h;
     hub_seq := hub_seq h + 1;
     hub_subs := map (fun s => offer s event) (hub_subs h);
     hub_strategies := hub_strategies h;
     hub_next_id := hub_next_id h |}.

Definition replay (h : EventHub) (after_seq : Z) : list OrderUpdateEvent * bool :=
  if after_seq <=? 0 then ([], false)
  else
    let events := List.filter (fun e => after_seq <? ev_seq e) (hub_ring h) in
    let gap := match hub_ring h with
               | [] => false
               | oldest :: _ => after_seq <? ev_seq oldest - 1
               end in
    (events, gap).

Definition subscribe (h : EventHub) : nat * EventHub :=
  let s := {| sub_id := hub_next_id h; sub_maxsize := hub_queue_size h; sub_queue := [];
              sub_dropped := 0; sub_gap_pending := false |} in
  (hub_next_id h,
   {| hub_ring := hub_ring h; hub_ring_size := hub_ring_size h;
      hub_queue_size := hub_queue_size h; hub_seq := hub_seq h;
      hub_subs := hub_subs h ++ [s]; hub_strategies := hub_strategies h;
      hub_next_id := S (hub_next_id h) |}).

(** The [finally] of [subscribe]: [list.remove(subscription)] by identity. *)
Definition unsubscribe (h : EventHub) (id : nat) : EventHub :=
  {| hub_ring := hub_ring h; hub_ring_size := hub_ring_size h;
     hub_queue_size := hub_queue_size h; hub_seq := hub_seq h;
     hub_subs := List.filter (fun s => negb (Nat.eqb (sub_id s) id)) (hub_subs h);
     hub_strategies := hub_strategies h; hub_next_id := hub_next_id h |}.

(** ** Queues: bounded, one marker, and what [dropped] counts *)

Definition is_event (i : Item) : bool := match i with IEvent _ => true | _ => false end.
Definition n_events (q : list Item) : Z := Z.of_nat (length (List.filter is_event q)).
Definition n_markers (q : list Item) : Z :=
  Z.of_nat (length (List.filter (fun i => negb (is_event i)) q)).

(** The queue is within its bound and holds a marker exactly while a gap is
    pending. *)
Record sub_wf (s : Subscription) : Prop := {
  sw_max : 0 < sub_maxsize s;
  sw_len : Z.of_nat (length (sub_queue s)) <= sub_maxsize s;
  sw_mark : n_markers (sub_queue s) = if sub_gap_pending s then 1 else 0;
}.

Lemma n_events_app q k : n_events (q ++ k) = n_events q + n_events k.
Proof. unfold n_events. rewrite List.filter_app, List.length_app. lia. Qed.
Lemma n_markers_app q k : n_markers (q ++ k) = n_markers q + n_markers k.
Proof. unfold n_markers. rewrite List.filter_app, List.length_app. lia. Qed.
Lemma n_events_cons i q : n_events (i :: q) = (if is_event i then 1 else 0) + n_events q.
Proof. unfold n_events. simpl. destruct (is_event i); simpl; lia. Qed.
Lemma n_markers_cons i q : n_markers (i :: q) = (if is_event i then 0 else 1) + n_markers q.
Proof. unfold n_markers. simpl. destruct (is_event i); simpl; lia. Qed.

Lemma n_events_nil : n_events [] = 0.
Proof. done. Qed.
Lemma n_markers_nil : n_markers [] = 0.
Proof. done. Qed.

Ltac sub_norm :=
  repeat rewrite ?n_events_nil, ?n_markers_nil,
    ?n_events_app, ?n_markers_app, ?n_events_cons, ?n_markers_cons,
    ?length_app in *; simpl in *.

(** The four ways an [offer] ends. *)
Lemma offer_cases s e : sub_wf s ->
  (sub_full s = false /\ offer s e =
     sub_set s (sub_queue s ++ [IEvent e]) (sub_dropped s) (sub_gap_pending s)) \/
  (exists x q, sub_full s = true /\ sub_gap_pending s = false /\ sub_queue s = IEvent x :: q /\
     offer s e = sub_set s (q ++ [IGapMarker 0]) (sub_dropped s + 1) true) \/
  (exists x q, sub_full s = true /\ sub_gap_pending s = true /\ sub_queue s = IEvent x :: q /\
     offer s e = sub_set s (q ++ [IEvent e]) (sub_dropped s + 1) true) \/
  (exists d q, sub_full s = true /\ sub_gap_pending s = true /\ sub_queue s = IGapMarker d :: q /\
     offer s e = sub_set s (q ++ [IGapMarker 0]) (sub_dropped s + 1) true).
Proof.
  intros [Hmax Hlen Hmark]. destruct s as [id mx q d g]; simpl in *.
  unfold offer, put_nowait. destruct (sub_full _) eqn:Hfull; [|by left].
  right. unfold sub_full in Hfull; simpl in Hfull.
  rewrite andb_true_iff, Z.ltb_lt, Z.leb_le in Hfull. destruct Hfull as [_ Hle].
  destruct q as [|i q]; simpl in *; [lia|].
  assert (Hnf : forall g', sub_full (sub_set {| sub_id := id; sub_maxsize := mx;
      sub_queue := i :: q; sub_dropped := d; sub_gap_pending := g |} q (d + 1) g') = false).
  { intros g'. unfold sub_full; simpl. apply andb_false_iff; right. apply Z.leb_gt. lia. }
  assert (Hf2 : forall g' j, sub_full (sub_set {| sub_id := id; sub_maxsize := mx;
      sub_queue := i :: q; sub_dropped := d; sub_gap_pending := g |} (q ++ [j]) (d + 1) g') = true).
  { intros g' j. unfold sub_full; simpl. rewrite length_app; simpl.
    rewrite andb_true_iff, Z.ltb_lt, Z.leb_le. lia. }
  unfold sub_set, _ensure_gap_marker, _drop_oldest in *; simpl in *.
  destruct i as [x|m]; simpl in *.
  - destruct g; simpl.
    + right; left. exists x, q. unfold put_nowait. rewrite Hnf. done.
    + left. exists x, q. unfold put_nowait, sub_set. simpl. rewrite Hnf. simpl.
      rewrite Hf2. done.
  - destruct g; [|rewrite n_markers_cons in Hmark; simpl in Hmark; unfold n_markers in Hmark; lia].
    right; right. exists m, q. unfold put_nowait, sub_set; simpl. rewrite Hnf; simpl.
    rewrite Hf2. done.
Qed.

Lemma offer_wf s e : sub_wf s -> sub_wf (offer s e).
Proof.
  intros Hwf. pose proof Hwf as [Hmax Hlen Hmark].
  destruct (offer_cases s e Hwf) as
    [(Hf & ->)|[(x & q & Hf & Hg & Hq & ->)|[(x & q & Hf & Hg & Hq & ->)|(x & q & Hf & Hg & Hq & ->)]]];
    destruct s as [id mx q0 d g]; simpl in *; subst; clear Hwf; split; simpl; sub_norm; try lia.
  unfold sub_full in Hf; simpl in Hf. apply andb_false_iff in Hf as [Hf|Hf];
    [apply Z.ltb_ge in Hf | apply Z.leb_gt in Hf]; lia.
Qed.

(** what the [dropped] counter of a lagging subscriber really counts.  Every
    [offer] keeps the queue within its bound with one gap marker exactly while a
    gap is pending, and the number of events it loses (offered plus queued
    before, minus queued after) is the increase of [dropped] PLUS ONE whenever
    the offer opens a gap: opening a gap discards both the oldest event and the
    event being offered, but counts only one. *)
Theorem offer_accounting s e :
  sub_wf s ->
  sub_wf (offer s e) /\
  n_events (sub_queue s) + 1 - n_events (sub_queue (offer s e)) =
    sub_dropped (offer s e) - sub_dropped s +
    (if sub_full s && negb (sub_gap_pending s) then 1 else 0).
Proof.
  intros Hwf. split; [by apply offer_wf|].
  destruct (offer_cases s e Hwf) as
    [(Hf & ->)|[(x & q & Hf & Hg & Hq & ->)|[(x & q & Hf & Hg & Hq & ->)|(x & q & Hf & Hg & Hq & ->)]]];
    rewrite Hf; try rewrite Hg; try rewrite Hq; simpl; sub_norm; lia.
Qed.

Definition ex_event (n : Z) : OrderUpdateEvent :=
  {| ev_seq := n; ev_client_order_id := "A"; ev_strategy_id := None;
     ev_engine_state := OrderState.NEW; ev_status := Some PublicOrderStatus.NEW;
     ev_broker_order_id := None; ev_price := None; ev_quantity := None; ev_fill := None;
     ev_ts := 0 |}.
Definition ex_sub : Subscription :=
  {| sub_id := 0; sub_maxsize := 2; sub_queue := [IEvent (ex_event 1); IEvent (ex_event 2)];
     sub_dropped := 0; sub_gap_pending := false |}.

Lemma ex_sub_wf : sub_wf ex_sub.
Proof. split; simpl; [lia | lia | reflexivity]. Qed.

(** The first overflow of a two-slot queue: two events are lost (1 and 3), the
    consumer is told one was. *)
Lemma offer_accounting_witness :
  n_events (sub_queue ex_sub) + 1 - n_events (sub_queue (offer ex_sub (ex_event 3))) = 2 /\
  sub_dropped (offer ex_sub (ex_event 3)) = 1.
Proof.
  destruct (offer_accounting ex_sub (ex_event 3) ex_sub_wf) as [_ H].
  split; [rewrite H; reflexivity | reflexivity].
Defined.

(** ** The ring against the history of publications *)

(** [hub_hist h hist]: [hist] is everything ever published on [h], oldest
    first; the ring is its suffix of at most [ring_size] events. *)
Record hub_hist (h : EventHub) (hist : list OrderUpdateEvent) : Prop := {
  hh_seq : forall i e, hist !! i = Some e -> ev_seq e = Z.of_nat i + 1;
  hh_next : hub_seq h = Z.of_nat (length hist) + 1;
  hh_ring : hub_ring h = drop (length hist - hub_ring_size h) hist;
}.

Lemma hub_hist_new n q : hub_hist (EventHub_new n q) [].
Proof. split; simpl; [intros i e; by rewrite lookup_nil | done | done]. Qed.

Lemma deque_append_suffix {A} n (l : list A) x :
  deque_append n (drop (length l - n) l) x = drop (length (l ++ [x]) - n) (l ++ [x]).
Proof.
  unfold deque_append, pop_oldest. rewrite <- drop_app_le by lia.
  rewrite drop_drop, length_drop, !length_app. f_equal. simpl. lia.
Qed.

Lemma hub_hist_publish h hist now cid st strat bid px qty fill :
  hub_hist h hist ->
  hub_hist (publish h now cid st strat bid px qty fill)
    (hist ++ [publish_event h now cid st strat bid px qty fill]).
Proof.
  intros [Hs Hn Hr]. split; simpl.
  - intros i e. destruct (decide (i < length hist)%nat) as [Hi|Hi].
    + rewrite lookup_app_l by lia. apply Hs.
    + rewrite lookup_app_r by lia. intros H.
      apply list_lookup_singleton_Some in H as [Hi' <-]. simpl. rewrite Hn. lia.
  - rewrite Hn, length_app. simpl. lia.
  - rewrite Hr. apply deque_append_suffix.
Qed.

Lemma filter_none {A} (f : A -> bool) l :
  (forall x, x ∈ l -> f x = false) -> List.filter f l = [].
Proof.
  induction l as [|x l IH]; intros H; simpl; [done|].
  rewrite (H x) by set_solver. apply IH. set_solver.
Qed.

Lemma filter_after_suffix hist k after :
  (forall i e, hist !! i = Some e -> ev_seq e = Z.of_nat i + 1) ->
  Z.of_nat k <= after ->
  List.filter (fun e => after <? ev_seq e) hist =
  List.filter (fun e => after <? ev_seq e) (drop k hist).
Proof.
  intros Hs Hk. rewrite <- (take_drop k hist) at 1. rewrite List.filter_app.
  replace (List.filter _ (take k hist)) with (@nil OrderUpdateEvent); [done|].
  symmetry. apply filter_none. intros e He.
  apply list_elem_of_lookup in He as [i Hi]. apply lookup_take_Some in Hi as [Hi Hlt].
  rewrite (Hs _ _ Hi). apply Z.ltb_ge. lia.
Qed.

(** The first event of the ring, when some event was published. *)
Lemma hub_hist_oldest h hist e l :
  hub_hist h hist -> hub_ring h = e :: l ->
  ev_seq e = Z.of_nat (length hist - hub_ring_size h) + 1.
Proof.
  intros [Hs _ Hr] H. rewrite Hr in H.
  assert (Hl : drop (length hist - hub_ring_size h) hist !! 0%nat = Some e) by by rewrite H.
  rewrite lookup_drop, Nat.add_0_r in Hl. by apply Hs.
Qed.

(** replay is complete or says so.  For a hub with a non-empty ring
    capacity and the history of everything published on it, [replay] after a
    positive cursor either reports no gap and returns EVERY published event past
    the cursor in publication order, or reports a gap and some published event
    past the cursor is indeed missing from what it returns. *)
Theorem replay_complete h hist after evs gap :
  hub_hist h hist -> (0 < hub_ring_size h)%nat -> 0 < after ->
  replay h after = (evs, gap) ->
  if gap then exists e, e ∈ hist /\ after < ev_seq e /\ e ∉ evs
  else evs = List.filter (fun e => after <? ev_seq e) hist.
Proof.
  intros Hh Hsz Hafter. unfold replay. rewrite (proj2 (Z.leb_gt _ _)) by done.
  pose proof Hh as [Hs Hn Hr]. set (k := (length hist - hub_ring_size h)%nat) in *.
  destruct (hub_ring h) as [|e l] eqn:Hring; intros H; apply pair_equal_spec in H as [<- <-].
  - assert (length hist = 0%nat) as Hl.
    { pose proof (f_equal length Hr) as HL. rewrite length_drop in HL. simpl in HL. lia. }
    apply nil_length_inv in Hl. by rewrite Hl.
  - pose proof (hub_hist_oldest h hist e l Hh Hring) as Ho. fold k in Ho.
    rewrite Hr. destruct (Z.ltb_spec after (ev_seq e - 1)) as [Hlt|Hge].
    + destruct (lookup_lt_is_Some_2 hist (k - 1)%nat) as [x Hx]; [lia|].
      exists x. pose proof (Hs _ _ Hx) as Hxs. split; [by eapply list_elem_of_lookup_2|].
      split; [lia|]. intros Hin. apply list_elem_of_In, List.filter_In in Hin as [Hin _].
      apply list_elem_of_In, list_elem_of_lookup in Hin as [i Hi].
      rewrite lookup_drop in Hi. apply Hs in Hi. lia.
    + symmetry. apply filter_after_suffix; [done|lia].
Qed.

Definition ex_hub (n : nat) : EventHub :=
  Nat.iter n (fun h => publish h 0 "A" OrderState.NEW None None None None None)
    (EventHub_new 2 4).

Lemma replay_complete_witness :
  (exists hist, hub_hist (ex_hub 3) hist) /\
  exists evs, replay (ex_hub 3) 1 = (evs, false) /\ length evs = 2%nat.
Proof.
  assert (H : hub_hist (ex_hub 3) [ex_event 1; ex_event 2; ex_event 3]).
  { apply (hub_hist_publish (ex_hub 2) [ex_event 1; ex_event 2]).
    apply (hub_hist_publish (ex_hub 1) [ex_event 1]).
    apply (hub_hist_publish (ex_hub 0) []), hub_hist_new. }
  split; [by eexists|]. eexists. split; [reflexivity|].
  rewrite (replay_complete (ex_hub 3) _ 1 _ false H ltac:(simpl; lia) ltac:(lia) eq_refl).
  reflexivity.
Defined.

(** ** The hub's own bounds, kept by every operation *)

Record hub_wf (h : EventHub) : Prop := {
  hw_ring : (length (hub_ring h) <= hub_ring_size h)%nat;
  hw_strat : (length (hub_strategies h) <= _STRATEGY_MAP_CAP)%nat;
  hw_keys : List.NoDup (map fst (hub_strategies h));
  hw_subs : 0 < hub_queue_size h -> Forall sub_wf (hub_subs h);
}.

Lemma length_pop_oldest {A} n (l : list A) : (length (pop_oldest n l) <= n)%nat.
Proof. unfold pop_oldest. rewrite length_drop. lia. Qed.

Lemma NoDup_skipn {A} n (l : list A) : List.NoDup l -> List.NoDup (drop n l).
Proof.
  intros H. rewrite <- (take_drop n l) in H. apply List.NoDup_app_remove_l in H. done.
Qed.

Lemma NoDup_map_filter {A B} (g : A -> B) (f : A -> bool) l :
  List.NoDup (map g l) -> List.NoDup (map g (List.filter f l)).
Proof.
  induction l as [|x l IH]; simpl; intros H; [done|]. inversion H as [|? ? Hn Hl]; subst.
  destruct (f x); simpl; [|by apply IH]. constructor; [|by apply IH].
  intros Hin. apply Hn. apply in_map_iff in Hin as (y & <- & Hy).
  apply List.filter_In in Hy as [Hy _]. by apply in_map.
Qed.

Lemma hub_wf_new n q : hub_wf (EventHub_new n q).
Proof. split; simpl; try lia; constructor. Qed.

Lemma hub_wf_register h c s : hub_wf h -> hub_wf (register_strategy h c s).
Proof.
  intros [Hr Hs Hk Hq]. split; simpl; try done.
  - apply length_pop_oldest.
  - unfold pop_oldest. rewrite <- skipn_map. apply NoDup_skipn. rewrite map_app.
    apply List.NoDup_app; [by apply NoDup_map_filter | repeat constructor; auto |].
    intros x Hx Hx'. simpl in Hx'. destruct Hx' as [<-|[]].
    apply in_map_iff in Hx as ((k & v) & Hkv & Hin). apply List.filter_In in Hin as [_ Hin].
    simpl in *. subst. by rewrite String.eqb_refl in Hin.
Qed.

Lemma hub_wf_publish h now c st a b p q f :
  hub_wf h -> hub_wf (publish h now c st a b p q f).
Proof.
  intros [Hr Hs Hk Hq]. split; simpl; try done.
  - apply length_pop_oldest.
  - intros H. apply Forall_map. eapply Forall_impl; [by apply Hq|].
    intros s Hw. by apply offer_wf.
Qed.

Lemma hub_wf_subscribe h : hub_wf h -> hub_wf (subscribe h).2.
Proof.
  intros [Hr Hs Hk Hq]. split; simpl; try done. intros H.
  apply Forall_app. split; [by apply Hq|]. constructor; [|constructor].
  split; simpl; try done; lia.
Qed.

Lemma hub_wf_unsubscribe h i : hub_wf h -> hub_wf (unsubscribe h i).
Proof.
  intros [Hr Hs Hk Hq]. split; simpl; try done. intros H. apply Hq in H.
  rewrite List.Forall_forall in *. intros x Hx. apply List.filter_In in Hx as [Hx _]. auto.
Qed.

(** The hub's operations as steps. *)
Inductive hub_step : EventHub -> EventHub -> Prop :=
  | hs_register h c s : hub_step h (register_strategy h c s)
  | hs_publish h now c st a b p q f : hub_step h (publish h now c st a b p q f)
  | hs_subscribe h : hub_step h (subscribe h).2
  | hs_unsubscribe h i : hub_step h (unsubscribe h i).

(** however long the process runs, the hub stays within its memory bounds:
    in every hub reachable from a fresh one by publishing, registering,
    subscribing and unsubscribing, the ring never exceeds its capacity, the
    attribution map never exceeds 4096 entries with one entry per order, and
    every subscriber queue stays within its bound. *)
Theorem hub_reachable_bounded n q h :
  rtc hub_step (EventHub_new n q) h -> hub_wf h.
Proof.
  intros H. remember (EventHub_new n q) as h0 eqn:E.
  assert (hub_wf h0) as H0 by (subst; apply hub_wf_new). clear E. revert H0.
  induction H as [|? ? ? [] _ IH]; intros Hw; [done|..]; apply IH.
  - by apply hub_wf_register.
  - by apply hub_wf_publish.
  - by apply hub_wf_subscribe.
  - by apply hub_wf_unsubscribe.
Qed.

Lemma hub_reachable_bounded_witness :
  hub_wf (ex_hub 1) /\ length (hub_ring (ex_hub 1)) = 1%nat.
Proof.
  split; [|reflexivity]. apply (hub_reachable_bounded 2 4).
  eapply rtc_l; [apply hs_publish|]. apply rtc_refl.
Defined.
