(* ===== verification/Store.v ===== *)
(** * Store: the [execution] schema and its repositories

    [db/models.py] and [db/repositories.py].  The tables are state; the SQL
    statements of the module are written out; what lives in the database's own
    schema (the [orders_guard] and [orders_append_event] triggers, the CHECK
    constraints, the NUMERIC(18,6) column type) is a parameter, [OrdersSchema],
    with its documented behaviour ([docs/data/execution-schema.md]) as the laws
    of [OrdersSchemaSpec]. *)

From S2P Require Import Prelude Decimals Contracts StateMachine Events.
From stdpp Require Import base gmap strings list sorting relations.
From Stdlib Require Import ZArith Lia.
Open Scope Z_scope.

(** ** Rows *)

Record OrderRow := {
  or_client_order_id : string;
  or_broker : Broker;
  or_broker_order_id : option string;
  or_account : string;
  or_symbol : string;
  or_market : Market;
  or_side : Side;
  or_order_type : OrderType;
  or_price : option Decimal;
  or_stop_price : option Decimal;
  or_quantity : Z;
  or_display_qty : option Z;
  or_tif : Tif;
  or_position_effect : option PositionEffect;
  or_status : OrderState.t;
  or_reject_reason : option string;
  or_strategy_id : option string;
  or_created_at : Z;
  or_updated_at : Z;
}.

(** [OrderResultRow(OrderRow)]: the row joined with its fill aggregate. *)
Record OrderResultRow := {
  rr_row : OrderRow;
  rr_filled_qty : Z;
  rr_fill_notional : option Decimal;
}.

Definition avg_fill_price (r : OrderResultRow) : option Decimal :=
  if rr_filled_qty r <=? 0 then None
  else match rr_fill_notional r with
       | None => None
       | Some n => dec_div n (dec_of_Z (rr_filled_qty r))
       end.

Record FillRow := {
  fr_fill_id : Z;
  fr_client_order_id : string;
  fr_broker_fill_id : option string;
  fr_price : Decimal;
  fr_quantity : Z;
  fr_exec_ts : Z;
  fr_created_at : Z;
}.

Record OrderEventRow := {
  oe_event_id : Z;
  oe_client_order_id : string;
  oe_from_status : option OrderState.t;
  oe_to_status : OrderState.t;
  oe_event : list (string * json);
  oe_created_at : Z;
}.

Record db := {
  db_orders : gmap string OrderRow;
  db_fills : list FillRow;
  db_events : list OrderEventRow;
  db_next_fill : Z;
}.

Definition db_empty : db :=
  {| db_orders := ∅; db_fills := []; db_events := []; db_next_fill := 1 |}.

(** ** The world the handlers run in

    [R] is the Redis server's state and [V] the broker side (adapter sessions
    and venues); both are opaque to the store. *)
Record world {R V : Type} := {
  w_db : db;
  w_hub : option EventHub;
  w_redis : R;
  w_venue : V;
  w_now : Z;          (* wall clock, microseconds UTC *)
  w_entropy : nat;    (* how many random tokens were drawn *)
}.
Arguments world : clear implicits.

Definition set_db {R V} (d : db) (w : world R V) : world R V :=
  {| w_db := d; w_hub := w_hub w; w_redis := w_redis w; w_venue := w_venue w;
     w_now := w_now w; w_entropy := w_entropy w |}.
Definition set_hub {R V} (h : option EventHub) (w : world R V) : world R V :=
  {| w_db := w_db w; w_hub := h; w_redis := w_redis w; w_venue := w_venue w;
     w_now := w_now w; w_entropy := w_entropy w |}.
Definition set_redis {R V} (r : R) (w : world R V) : world R V :=
  {| w_db := w_db w; w_hub := w_hub w; w_redis := r; w_venue := w_venue w;
     w_now := w_now w; w_entropy := w_entropy w |}.
Definition set_venue {R V} (v : V) (w : world R V) : world R V :=
  {| w_db := w_db w; w_hub := w_hub w; w_redis := w_redis w; w_venue := v;
     w_now := w_now w; w_entropy := w_entropy w |}.
Definition set_now {R V} (t : Z) (w : world R V) : world R V :=
  {| w_db := w_db w; w_hub := w_hub w; w_redis := w_redis w; w_venue := w_venue w;
     w_now := t; w_entropy := w_entropy w |}.
Definition bump_entropy {R V} (w : world R V) : world R V :=
  {| w_db := w_db w; w_hub := w_hub w; w_redis := w_redis w; w_venue := w_venue w;
     w_now := w_now w; w_entropy := S (w_entropy w) |}.

(** ** The database's own schema *)

Class OrdersSchema := {
  (* trg_orders_guard: may a status change from the first state to the second? *)
  orders_guard : OrderState.t -> OrderState.t -> bool;
  (* the column and cross-field CHECKs *)
  orders_check : OrderRow -> bool;
  fills_check : Decimal -> Z -> bool;
  (* the value a NUMERIC(18,6) column stores *)
  pg_numeric : Decimal -> Decimal;
  (* trg_orders_append_event: old status (NULL on INSERT), new row, now *)
  orders_append_event :
    option OrderState.t -> OrderRow -> Z -> list OrderEventRow -> list OrderEventRow;
}.

(** ** SQL statements *)

Definition row_set (r : OrderRow) (bid : option string) (price : option Decimal)
    (qty : Z) (st : OrderState.t) (reason : option string) : OrderRow :=
  {| or_client_order_id := or_client_order_id r; or_broker := or_broker r;
     or_broker_order_id := bid; or_account := or_account r; or_symbol := or_symbol r;
     or_market := or_market r; or_side := or_side r; or_order_type := or_order_type r;
     or_price := price; or_stop_price := or_stop_price r; or_quantity := qty;
     or_display_qty := or_display_qty r; or_tif := or_tif r;
     or_position_effect := or_position_effect r; or_status := st; or_reject_reason := reason;
     or_strategy_id := or_strategy_id r; or_created_at := or_created_at r;
     or_updated_at := or_updated_at r |}.

Definition row_touch (now : Z) (r : OrderRow) : OrderRow :=
  {| or_client_order_id := or_client_order_id r; or_broker := or_broker r;
     or_broker_order_id := or_broker_order_id r; or_account := or_account r;
     or_symbol := or_symbol r; or_market := or_market r; or_side := or_side r;
     or_order_type := or_order_type r; or_price := or_price r;
     or_stop_price := or_stop_price r; or_quantity := or_quantity r;
     or_display_qty := or_display_qty r; or_tif := or_tif r;
     or_position_effect := or_position_effect r; or_status := or_status r;
     or_reject_reason := or_reject_reason r; or_strategy_id := or_strategy_id r;
     or_created_at := or_created_at r; or_updated_at := now |}.

Definition row_status (st : OrderState.t) (r : OrderRow) : OrderRow :=
  row_set r (or_broker_order_id r) (or_price r) (or_quantity r) st (or_reject_reason r).
Definition row_ack (bid : string) (r : OrderRow) : OrderRow :=
  row_set r (Some bid) (or_price r) (or_quantity r) OrderState.NEW (or_reject_reason r).
Definition row_reason (reason : string) (r : OrderRow) : OrderRow :=
  row_set r (or_broker_order_id r) (or_price r) (or_quantity r) (or_status r) (Some reason).

(** The documented behaviour of the triggers: the guard accepts exactly the
    same-status no-op and the frozen edges; the audit trigger appends one row
    per INSERT and per status change, carrying the order id and the two
    statuses, and nothing otherwise; the CHECKs constrain the order's terms,
    not how far it has progressed (status, venue handle, reject reason,
    [updated_at]). *)
Class OrdersSchemaSpec `{OrdersSchema} := {
  orders_guard_frozen s t : orders_guard s t = is_legal s t;
  append_event_one from row now evs :
    from ≠ Some (or_status row) ->
    exists e, orders_append_event from row now evs = evs ++ [e] /\
      oe_client_order_id e = or_client_order_id row /\
      oe_from_status e = from /\ oe_to_status e = or_status row;
  append_event_none row now evs :
    orders_append_event (Some (or_status row)) row now evs = evs;
  orders_check_progress r bid st reason now :
    orders_check r = true ->
    orders_check (row_touch now (row_set r bid (or_price r) (or_quantity r) st reason)) = true;
}.

Section sql.
Context `{OrdersSchema}.

Definition row_replace (price : option Decimal) (qty : option Z) (r : OrderRow) : OrderRow :=
  row_set r (or_broker_order_id r)
    (match price with Some p => Some (pg_numeric p) | None => or_price r end)
    (default (or_quantity r) qty) OrderState.NEW (or_reject_reason r).

(** [UPDATE execution.orders SET f WHERE client_order_id = cid AND cond]: the
    row count and the new database, or [check_violation]. *)
Definition sql_update (now : Z) (cid : string) (cond : OrderRow -> bool)
    (f : OrderRow -> OrderRow) (d : db) : result exn (Z * db) :=
  match db_orders d !! cid with
  | None => Ok (0, d)
  | Some r =>
      if cond r then
        let r' := row_touch now (f r) in
        if orders_guard (or_status r) (or_status r') && orders_check r' then
          Ok (1, {| db_orders := <[cid := r']> (db_orders d);
                    db_fills := db_fills d;
                    db_events := orders_append_event (Some (or_status r)) r' now (db_events d);
                    db_next_fill := db_next_fill d |})
        else Err CheckViolationError
      else Ok (0, d)
  end.

(** [_INSERT_ORDER]: status, reject_reason and the timestamps by DEFAULT. *)
Definition new_row (now : Z) (o : NormalizedOrder) (strategy_id : option string) : OrderRow :=
  {| or_client_order_id := no_client_order_id o; or_broker := no_broker o;
     or_broker_order_id := None; or_account := no_account o; or_symbol := no_symbol o;
     or_market := no_market o; or_side := no_side o; or_order_type := no_order_type o;
     or_price := pg_numeric <$> no_price o; or_stop_price := pg_numeric <$> no_stop_price o;
     or_quantity := no_quantity o; or_display_qty := no_display_qty o; or_tif := no_tif o;
     or_position_effect := no_position_effect o; or_status := OrderState.PENDING_NEW;
     or_reject_reason := None; or_strategy_id := strategy_id;
     or_created_at := now; or_updated_at := now |}.

Definition sql_insert_order (now : Z) (o : NormalizedOrder) (strategy_id : option string)
    (d : db) : result exn db :=
  let r := new_row now o strategy_id in
  if negb (orders_check r) then Err CheckViolationError
  else match db_orders d !! no_client_order_id o with
       | Some _ => Err UniqueViolationError
       | None =>
           Ok {| db_orders := <[no_client_order_id o := r]> (db_orders d);
                 db_fills := db_fills d;
                 db_events := orders_append_event None r now (db_events d);
                 db_next_fill := db_next_fill d |}
       end.

(** [_INSERT_FILL ... ON CONFLICT (client_order_id, broker_fill_id) DO NOTHING]:
    the row count and the new database. *)
Definition sql_insert_fill (now : Z) (cid bfid : string) (price : Decimal) (qty exec_ts : Z)
    (d : db) : result exn (Z * db) :=
  let f := {| fr_fill_id := db_next_fill d; fr_client_order_id := cid;
              fr_broker_fill_id := Some bfid; fr_price := pg_numeric price;
              fr_quantity := qty; fr_exec_ts := exec_ts; fr_created_at := now |} in
  if negb (fills_check (fr_price f) qty) then Err CheckViolationError
  else if List.existsb (fun g => String.eqb (fr_client_order_id g) cid &&
                                 bool_decide (fr_broker_fill_id g = Some bfid)) (db_fills d)
  then Ok (0, d)
  else match db_orders d !! cid with
       | None => Err (OtherError "ForeignKeyViolationError")
       | Some _ =>
           Ok (1, {| db_orders := db_orders d; db_fills := db_fills d ++ [f];
                     db_events := db_events d; db_next_fill := db_next_fill d + 1 |})
       end.
End sql.

Definition fills_of (cid : string) (d : db) : list FillRow :=
  List.filter (fun f => String.eqb (fr_client_order_id f) cid) (db_fills d).

(** [_SUM_FILLS] *)
Definition filled_qty (cid : string) (d : db) : Z := zsum (map fr_quantity (fills_of cid d)).

(** [SUM(f.price * f.quantity)]: NULL over no rows; NUMERIC sums are exact. *)
Definition fill_notional (cid : string) (d : db) : option Decimal :=
  match fills_of cid d with
  | [] => None
  | fs =>
      Some (foldr (fun f acc =>
        let p := Dec (d_coeff (fr_price f) * fr_quantity f) (d_exp (fr_price f)) in
        let e := Z.min (d_exp p) (d_exp acc) in
        Dec (dec_scale e p + dec_scale e acc) e) dec_zero fs)
  end.

(** [_SELECT_ORDER_RESULT] *)
Definition order_result (cid : string) (d : db) : option OrderResultRow :=
  match db_orders d !! cid with
  | None => None
  | Some r => Some {| rr_row := r; rr_filled_qty := filled_qty cid d;
                      rr_fill_notional := fill_notional cid d |}
  end.

Definition created_le (a b : OrderRow) : Prop := or_created_at a <= or_created_at b.
#[export] Instance created_le_dec a b : Decision (created_le a b).
Proof. unfold created_le. apply _. Defined.

(** [SELECT * FROM execution.orders WHERE p ORDER BY created_at] *)
Definition select_orders (p : OrderRow -> bool) (d : db) : list OrderRow :=
  merge_sort created_le (List.filter p (map snd (map_to_list (db_orders d)))).

Definition _RECONCILE_STATES : list OrderState.t :=
  [OrderState.PENDING_NEW; OrderState.NEW; OrderState.PARTIALLY_FILLED; OrderState.PENDING_CANCEL].

(** ** Repository functions *)

Section repositories.
Context {R V : Type} `{OrdersSchema}.
Abbreviation W := (world R V).
Abbreviation M := (M exn W).

(** [await pool.execute(UPDATE ...)]: the row count of the command tag. *)
Definition pool_update (cid : string) (cond : OrderRow -> bool) (f : OrderRow -> OrderRow) : M Z :=
  fun w => match sql_update (w_now w) cid cond f (w_db w) with
           | Ok (n, d) => (Ok n, set_db d w)
           | Err e => (Err e, w)
           end.

(** [hub = get_event_hub(); if hub is not None: hub.publish(...)] *)
Definition hub_publish (cid : string) (st : OrderState.t) (strategy bid : option string)
    (price : option Decimal) (qty : option Z) (fill : option FillEvent) : M unit :=
  modify (fun w =>
    match w_hub w with
    | None => w
    | Some h => set_hub (Some (publish h (w_now w) cid st strategy bid price qty fill)) w
    end).

Definition hub_register (cid : string) (strategy : option string) : M unit :=
  modify (fun w =>
    match w_hub w, strategy with
    | Some h, Some s => set_hub (Some (register_strategy h cid s)) w
    | _, _ => w
    end).

Definition insert_order (order : NormalizedOrder) (strategy_id : option string) : M unit :=
  catch
    (fun w => match sql_insert_order (w_now w) order strategy_id (w_db w) with
              | Ok d => (Ok tt, set_db d w)
              | Err e => (Err e, w)
              end)
    (fun e => match e with
              | UniqueViolationError => raise (DuplicateOrderSignal (no_client_order_id order))
              | CheckViolationError =>
                  raise (StoreConstraintViolated (Some (no_client_order_id order)))
              | e => raise e
              end) ;;;
  hub_register (no_client_order_id order) strategy_id ;;;
  hub_publish (no_client_order_id order) OrderState.PENDING_NEW strategy_id None None None None.

Definition fetch_order (cid : string) : M (option OrderRow) :=
  gets (fun w => db_orders (w_db w) !! cid).

Definition fetch_order_result (cid : string) : M (option OrderResultRow) :=
  gets (fun w => order_result cid (w_db w)).

Definition ack_order (cid broker_order_id : string) : M unit :=
  let* n := pool_update cid (fun r => bool_decide (or_status r = OrderState.PENDING_NEW))
              (row_ack broker_order_id) in
  if n =? 0 then raise (IllegalTransition (Some cid))
  else hub_publish cid OrderState.NEW None (Some broker_order_id) None None None.

Definition replace_order (cid : string) (new_price : option Decimal) (new_qty : option Z)
    : M unit :=
  let* n := pool_update cid (fun r => bool_decide (or_status r = OrderState.PENDING_REPLACE))
              (row_replace new_price new_qty) in
  if n =? 0 then raise (IllegalTransition (Some cid))
  else hub_publish cid OrderState.NEW None None new_price new_qty None.

Definition update_status (cid : string) (new_status : OrderState.t) : M unit :=
  let* row := fetch_order cid in
  match row with
  | None => raise (IllegalTransition (Some cid))
  | Some row =>
      if decide (or_status row = new_status) then ret tt
      else
        lift_result (assert_legal (or_status row) new_status (Some cid)) ;;;
        catch (pool_update cid (fun _ => true) (row_status new_status))
          (fun e => match e with
                    | CheckViolationError => raise (IllegalTransition (Some cid))
                    | e => raise e
                    end) ;;;
        hub_publish cid new_status (or_strategy_id row) (or_broker_order_id row) None None None
  end.

Definition set_reject_reason (cid reason : string) : M unit :=
  pool_update cid (fun _ => true) (row_reason reason) ;;; ret tt.

(** The body of [apply_fill]'s transaction: the insert row count and the
    target state. *)
Definition apply_fill_tx (cid bfid : string) (price : Decimal) (quantity exec_ts total : Z)
    : M (Z * OrderState.t) :=
  let* n := (fun w => match sql_insert_fill (w_now w) cid bfid price quantity exec_ts (w_db w) with
                      | Ok (n, d) => (Ok n, set_db d w)
                      | Err e => (Err e, w)
                      end) in
  let* filled := gets (fun w => filled_qty cid (w_db w)) in
  let target := if total <=? filled then OrderState.FILLED else OrderState.PARTIALLY_FILLED in
  let* current := gets (fun w => or_status <$> db_orders (w_db w) !! cid) in
  (if decide (current = Some target) then ret tt
   else
     catch (pool_update cid (fun _ => true) (row_status target) ;;; ret tt)
       (fun e => match e with
                 | CheckViolationError => raise (IllegalTransition (Some cid))
                 | e => raise e
                 end)) ;;;
  ret (n, target).

Definition apply_fill (cid broker_fill_id : string) (price : Decimal)
    (quantity exec_ts total_quantity : Z) : M OrderState.t :=
  let* (n, target) :=
    transaction w_db set_db
      (apply_fill_tx cid broker_fill_id price quantity exec_ts total_quantity) in
  (if 0 <? n
   then hub_publish cid target None None None None
          (Some {| fe_broker_fill_id := broker_fill_id; fe_price := price;
                   fe_quantity := quantity; fe_exec_ts := exec_ts |})
   else ret tt) ;;;
  ret target.

Definition fetch_open_orders : M (list OrderRow) :=
  gets (fun w => select_orders
    (fun r => memb (or_status r) [OrderState.NEW; OrderState.PARTIALLY_FILLED]) (w_db w)).

Definition fetch_orders_for_reconcile (broker : Broker) (include_pending_replace : bool)
    : M (list OrderRow) :=
  let states := if include_pending_replace
                then _RECONCILE_STATES ++ [OrderState.PENDING_REPLACE]
                else _RECONCILE_STATES in
  gets (fun w => select_orders
    (fun r => bool_decide (or_broker r = broker) && memb (or_status r) states) (w_db w)).

Definition fetch_client_order_ids_for_strategy (strategy_id : string) : M (gset string) :=
  gets (fun w => list_to_set (map fst (List.filter
    (fun kv => bool_decide (or_strategy_id kv.2 = Some strategy_id))
    (map_to_list (db_orders (w_db w)))))).

Definition fetch_order_events (cid : string) : M (list OrderEventRow) :=
  gets (fun w => List.filter (fun e => String.eqb (oe_client_order_id e) cid)
                   (db_events (w_db w))).
End repositories.
