(* ===== verification/StoreInv.v ===== *)
(** * StoreInv: what every run of the engine does to the durable store

    [db_wf] is the store's invariant (keys, handle and fill discipline, the
    audit chain) and [evolves] the preorder every repository function follows:
    orders only move along legal edges, identities and handles never change,
    fills and audit rows are append-only.  Handlers inherit it through
    [respects]. *)

From S2P Require Import Prelude Decimals Contracts StateMachine Events Store.
From stdpp Require Import base gmap strings list relations.
From Stdlib Require Import ZArith Lia.
Import OrderState.

(** ** The audit trail as a path of the state machine *)

Definition events_of (c : string) (evs : list OrderEventRow) : list OrderEventRow :=
  List.filter (fun e => String.eqb (oe_client_order_id e) c) evs.

(** [audit_path l s]: [l] starts with the birth row and follows legal edges, one
    per row, to [s]. *)
Inductive audit_path : list OrderEventRow -> OrderState.t -> Prop :=
  | ap_birth e : oe_from_status e = None -> oe_to_status e = ENTRY_STATE ->
      audit_path [e] ENTRY_STATE
  | ap_step l s e : audit_path l s -> oe_from_status e = Some s -> edge s (oe_to_status e) ->
      audit_path (l ++ [e]) (oe_to_status e).

Lemma events_of_app c l k : events_of c (l ++ k) = events_of c l ++ events_of c k.
Proof. apply List.filter_app. Qed.

Lemma events_of_one c e :
  events_of c [e] = if decide (oe_client_order_id e = c) then [e] else [].
Proof.
  unfold events_of; simpl. case_decide as Hd.
  - by rewrite Hd, String.eqb_refl.
  - by rewrite (proj2 (String.eqb_neq _ _)).
Qed.

(** ** Rows *)

(** The part of an order row no statement of the engine ever changes. *)
Definition row_ident (r : OrderRow) :=
  (or_client_order_id r, or_broker r, or_account r, or_symbol r, or_market r, or_side r,
   or_order_type r, or_stop_price r, or_display_qty r, or_tif r, or_position_effect r,
   or_strategy_id r, or_created_at r).

Definition pre_ack (s : OrderState.t) : bool := memb s [PENDING_NEW; REJECTED].

Record row_evo (r r' : OrderRow) : Prop := {
  re_ident : row_ident r' = row_ident r;
  re_status : reaches (or_status r) (or_status r');
  re_handle : forall b, or_broker_order_id r = Some b -> or_broker_order_id r' = Some b;
  re_terminal : is_terminal (or_status r) = true ->
    or_status r' = or_status r /\ or_price r' = or_price r /\
    or_quantity r' = or_quantity r /\ or_broker_order_id r' = or_broker_order_id r;
}.

#[export] Instance row_evo_preorder : PreOrder row_evo.
Proof.
  split.
  - intros r. split; auto. reflexivity.
  - intros r1 r2 r3 [I1 S1 H1 T1] [I2 S2 H2 T2]. split.
    + congruence.
    + by etrans.
    + eauto.
    + intros Ht. destruct (T1 Ht) as (E1 & ? & ? & ?).
      destruct T2 as (? & ? & ? & ?); [by rewrite E1|]. repeat split; congruence.
Qed.

(** ** The store invariant; [X] exempts the fills clause for the order a
    transaction is in the middle of filling. *)

Record db_wf_ex `{OrdersSchema} (X : string -> Prop) (d : db) : Prop := {
  dw_key : forall c r, db_orders d !! c = Some r -> or_client_order_id r = c;
  dw_check : forall c r, db_orders d !! c = Some r -> orders_check r = true;
  dw_handle : forall c r, db_orders d !! c = Some r -> pre_ack (or_status r) = true ->
    or_broker_order_id r = None;
  dw_nofill : forall c r, ~ X c -> db_orders d !! c = Some r -> pre_ack (or_status r) = true ->
    fills_of c d = [];
  dw_fk : forall f, In f (db_fills d) -> is_Some (db_orders d !! fr_client_order_id f);
  dw_fill_key :
    List.NoDup (map (fun f => (fr_client_order_id f, fr_broker_fill_id f)) (db_fills d));
  dw_audit : forall c r, db_orders d !! c = Some r ->
    audit_path (events_of c (db_events d)) (or_status r);
  dw_audit_none : forall c, db_orders d !! c = None -> events_of c (db_events d) = [];
}.

Definition db_wf `{OrdersSchema} : db -> Prop := db_wf_ex (fun _ => False).

Record evo (d d' : db) : Prop := {
  evo_orders : forall c r, db_orders d !! c = Some r ->
    exists r', db_orders d' !! c = Some r' /\ row_evo r r';
  evo_fills : db_fills d `prefix_of` db_fills d';
  evo_events : db_events d `prefix_of` db_events d';
}.

#[export] Instance evo_preorder : PreOrder evo.
Proof.
  split.
  - intros d. split; [|done|done]. intros c r H. exists r. split; [done|reflexivity].
  - intros d1 d2 d3 [O1 F1 E1] [O2 F2 E2]. split; [|by etrans|by etrans].
    intros c r H. destruct (O1 _ _ H) as (r2 & H2 & Hr2).
    destruct (O2 _ _ H2) as (r3 & H3 & Hr3). exists r3. split; [done|by etrans].
Qed.

(** The preorder every handler follows: from a well-formed store it leaves a
    well-formed store that evolved legally. *)
Definition evolves `{OrdersSchema} (d d' : db) : Prop := db_wf d -> db_wf d' /\ evo d d'.

#[export] Instance evolves_preorder `{OrdersSchema} : PreOrder evolves.
Proof.
  split.
  - intros d Hd. split; [done|reflexivity].
  - intros d1 d2 d3 H1 H2 Hd. destruct (H1 Hd) as [Hd2 He2].
    destruct (H2 Hd2) as [Hd3 He3]. split; [done|by etrans].
Qed.

Definition on_db {R V} (Q : relation db) : relation (world R V) :=
  fun w w' => Q (w_db w) (w_db w').

#[export] Instance on_db_preorder {R V} (Q : relation db) :
  PreOrder Q -> PreOrder (on_db (R := R) (V := V) Q).
Proof.
  intros HQ. split.
  - intros w. unfold on_db. reflexivity.
  - intros w1 w2 w3 ??. unfold on_db in *. by etrans.
Qed.

(** ** SQL statements evolve the store *)

Lemma legal_to_pre_ack s t : is_legal s t = true -> pre_ack t = true -> pre_ack s = true.
Proof. by destruct s, t. Qed.

(** What an UPDATE may do to the row it matches. *)
Record row_step (r r' : OrderRow) : Prop := {
  rs_ident : row_ident r' = row_ident r;
  rs_handle : forall b, or_broker_order_id r = Some b -> or_broker_order_id r' = Some b;
  rs_pre : pre_ack (or_status r') = true -> or_broker_order_id r' = or_broker_order_id r;
  rs_terminal : is_terminal (or_status r) = true ->
    or_price r' = or_price r /\ or_quantity r' = or_quantity r /\
    or_broker_order_id r' = or_broker_order_id r;
}.

Lemma row_ident_cid r r' : row_ident r' = row_ident r ->
  or_client_order_id r' = or_client_order_id r.
Proof. unfold row_ident. congruence. Qed.

Lemma row_step_touch now r r' : row_step r r' -> row_step r (row_touch now r').
Proof. intros [? ? ? ?]. by split. Qed.

Lemma row_step_evo r r' : row_step r r' -> is_legal (or_status r) (or_status r') = true ->
  row_evo r r'.
Proof.
  intros [Hi Hh Hp Ht] Hl. split; [done|by apply is_legal_reaches|done|].
  intros Htm. destruct (Ht Htm) as (? & ? & ?). repeat split; try done.
  by apply terminal_legal_same.
Qed.

(** Look [c] up in a map just written at [k]. *)
Ltac at_key k c :=
  destruct (decide (k = c)) as [<-|?];
  [rewrite ?lookup_insert_eq | rewrite ?lookup_insert_ne by done].

Section sql_facts.
Context `{OrdersSchemaSpec}.

Lemma audit_path_transition c r r' now evs :
  or_client_order_id r' = or_client_order_id r ->
  is_legal (or_status r) (or_status r') = true ->
  (or_client_order_id r = c -> audit_path (events_of c evs) (or_status r)) ->
  evs `prefix_of` orders_append_event (Some (or_status r)) r' now evs /\
  (or_client_order_id r = c ->
     audit_path (events_of c (orders_append_event (Some (or_status r)) r' now evs)) (or_status r')) /\
  (or_client_order_id r ≠ c ->
     events_of c (orders_append_event (Some (or_status r)) r' now evs) = events_of c evs).
Proof.
  intros Hcid Hl Hp. destruct (decide (or_status r = or_status r')) as [Hs|Hs].
  - rewrite Hs, append_event_none. rewrite <- Hs. done.
  - destruct (append_event_one (Some (or_status r)) r' now evs) as (e & -> & Ec & Ef & Et);
      [congruence|].
    rewrite events_of_app, events_of_one, Ec, Hcid.
    split; [by eexists|]. split; intros Hc.
    + rewrite decide_True by done. rewrite <- Et. eapply ap_step; [by apply Hp|done|].
      rewrite Et. apply is_legal_spec in Hl as [?|?]; [by destruct Hs|done].
    + rewrite decide_False by done. by rewrite app_nil_r.
Qed.

Lemma sql_update_wf X now cid cond f d n d' :
  db_wf_ex X d ->
  (forall r, cond r = true -> (or_status r = PENDING_NEW -> or_broker_order_id r = None) ->
     row_step r (f r)) ->
  sql_update now cid cond f d = Ok (n, d') ->
  db_wf_ex X d' /\ evo d d'.
Proof.
  intros Hw Hf. unfold sql_update.
  destruct (db_orders d !! cid) as [r|] eqn:Hr; [|intros [= <- <-]; split; [done|reflexivity]].
  destruct (cond r) eqn:Hcond; [|intros [= <- <-]; split; [done|reflexivity]].
  destruct (orders_guard _ _ && _) eqn:Hg; [|discriminate]. intros [= <- <-].
  apply andb_true_iff in Hg as [Hg Hck]. rewrite orders_guard_frozen in Hg.
  assert (Hpn : or_status r = PENDING_NEW -> or_broker_order_id r = None).
  { intros Hs. eapply dw_handle; [done..|]. by rewrite Hs. }
  pose proof (row_step_touch now _ _ (Hf r Hcond Hpn)) as Hstep.
  set (r' := row_touch now (f r)) in *.
  pose proof (row_ident_cid _ _ (rs_ident _ _ Hstep)) as Hcid.
  pose proof (dw_key _ _ Hw _ _ Hr) as Hkey.
  pose proof (fun c Hc => audit_path_transition c r r' now (db_events d) Hcid Hg Hc) as Haudit.
  assert (Hother : forall c, cid ≠ c ->
    events_of c (orders_append_event (Some (or_status r)) r' now (db_events d)) =
    events_of c (db_events d)).
  { intros c Hc. apply Haudit; [intros; exfalso|]; congruence. }
  destruct Hw as [K CK HD NF FK FU AU AN]. split; [split; simpl|split; simpl].
  - intros c x. at_key cid c; [intros [= <-]; congruence | apply K].
  - intros c x. at_key cid c; [by intros [= <-] | apply CK].
  - intros c x. at_key cid c; [|apply HD]. intros [= <-] Hp.
    rewrite (rs_pre _ _ Hstep Hp). eapply HD; [done|]. by eapply legal_to_pre_ack.
  - intros c x HX. unfold fills_of; simpl. at_key cid c; [|by apply NF]. intros [= <-] Hp.
    eapply NF; [done|done|]. by eapply legal_to_pre_ack.
  - intros x Hx. apply lookup_insert_is_Some'. right. by apply FK.
  - done.
  - intros c x. at_key cid c.
    + intros [= <-]. by apply Haudit; [intros; apply AU|].
    + intros Hx. rewrite Hother by done. by apply AU.
  - intros c. at_key cid c; [done|]. intros Hx. rewrite Hother by done. by apply AN.
  - intros c x. at_key cid c.
    + rewrite Hr. intros [= <-]. exists r'. split; [done|]. by apply row_step_evo.
    + intros Hx. exists x. split; [done|reflexivity].
  - done.
  - destruct (Haudit cid) as (Hp & _ & _); [intros; by apply AU|done].
Qed.

(** The four UPDATE statements of the module. *)
Lemma row_step_status st r : is_terminal (or_status r) = true -> row_step r (row_status st r).
Proof. intros. by split. Qed.

Lemma row_status_step st r : row_step r (row_status st r).
Proof. by split. Qed.
Lemma row_reason_step m r : row_step r (row_reason m r).
Proof. by split. Qed.
Lemma row_ack_step b r :
  or_status r = PENDING_NEW -> or_broker_order_id r = None -> row_step r (row_ack b r).
Proof. intros Hs Hb. split; simpl; try done; rewrite ?Hs, ?Hb; done. Qed.
Lemma row_replace_step p q r : or_status r = PENDING_REPLACE -> row_step r (row_replace p q r).
Proof. intros Hs. split; simpl; try done; by rewrite Hs. Qed.

Lemma sql_insert_order_wf now o s d d' :
  db_wf d -> sql_insert_order now o s d = Ok d' -> db_wf d' /\ evo d d'.
Proof.
  intros Hw. unfold sql_insert_order. destruct (orders_check _) eqn:Hck; simpl; [|discriminate].
  destruct (db_orders d !! no_client_order_id o) eqn:Hn; [discriminate|]. intros [= <-].
  set (cid := no_client_order_id o) in *. set (r := new_row now o s).
  destruct (append_event_one None r now (db_events d)) as (e & He & Ec & Ef & Et); [done|].
  destruct Hw as [K CK HD NF FK FU AU AN].
  split; [split; simpl|split; simpl]; rewrite ?He.
  - intros c x. destruct (decide (cid = c)) as [<-|Hc].
    + rewrite lookup_insert_eq. by intros [= <-].
    + rewrite lookup_insert_ne by done. apply K.
  - intros c x. destruct (decide (cid = c)) as [<-|Hc].
    + rewrite lookup_insert_eq. by intros [= <-].
    + rewrite lookup_insert_ne by done. apply CK.
  - intros c x. destruct (decide (cid = c)) as [<-|Hc].
    + rewrite lookup_insert_eq. by intros [= <-].
    + rewrite lookup_insert_ne by done. apply HD.
  - intros c x HX. unfold fills_of; simpl. destruct (decide (cid = c)) as [<-|Hc].
    + intros _ _. apply filter_none. intros f Hf. apply list_elem_of_In, FK in Hf.
      apply String.eqb_neq. intros E. rewrite E, Hn in Hf. by destruct Hf.
    + rewrite lookup_insert_ne by done. by apply NF.
  - intros x Hx. apply lookup_insert_is_Some'. right. by apply FK.
  - done.
  - intros c x. rewrite events_of_app, events_of_one, Ec. simpl.
    destruct (decide (cid = c)) as [<-|Hc].
    + rewrite lookup_insert_eq. intros [= <-]. rewrite AN by done.
      rewrite decide_True by done. by apply (ap_birth e).
    + rewrite lookup_insert_ne by done. intros Hx.
      rewrite decide_False by done. rewrite app_nil_r. by apply AU.
  - intros c. rewrite events_of_app, events_of_one, Ec. simpl.
    destruct (decide (cid = c)) as [<-|Hc].
    + by rewrite lookup_insert_eq.
    + rewrite lookup_insert_ne by done. intros Hx.
      rewrite decide_False by done. rewrite app_nil_r. by apply AN.
  - intros c x Hx. exists x. split; [|reflexivity].
    rewrite lookup_insert_ne; [done|]. intros <-. congruence.
  - done.
  - by eexists.
Qed.

Lemma sql_insert_fill_wf now cid b p q ts d n d' :
  db_wf d -> sql_insert_fill now cid b p q ts d = Ok (n, d') ->
  db_wf_ex (eq cid) d' /\ evo d d' /\ db_orders d' = db_orders d.
Proof.
  intros Hw. unfold sql_insert_fill. destruct (fills_check _ _); simpl; [|discriminate].
  assert (Hsame : db_wf_ex (eq cid) d /\ evo d d /\ db_orders d = db_orders d).
  { split; [|split; [reflexivity|done]]. destruct Hw as [? ? ? NF ? ? ? ?]. split; try done.
    intros c x _ Hx Hp. eapply NF; [auto|done|done]. }
  destruct (List.existsb _ _) eqn:Hex; [intros [= <- <-]; exact Hsame|].
  destruct (db_orders d !! cid) as [r|] eqn:Hr; [|discriminate]. intros [= <- <-].
  destruct Hw as [K CK HD NF FK FU AU AN].
  split; [split; simpl|split; [split; simpl|done]]; try done.
  - intros c x HX Hx Hp. unfold fills_of; simpl. rewrite List.filter_app; simpl.
    rewrite (proj2 (String.eqb_neq _ _)) by done. rewrite app_nil_r.
    eapply NF; [auto|done|done].
  - intros f Hf. apply in_app_or in Hf as [Hf|[<-|[]]]; [by apply FK|]. simpl. by eexists.
  - rewrite map_app; simpl. apply List.NoDup_app; [done|repeat constructor; auto|].
    intros k Hk [<-|[]]. apply in_map_iff in Hk as (f & Hk & Hf).
    apply not_true_iff_false in Hex. apply Hex, existsb_exists. exists f. split; [done|].
    injection Hk as Hk1 Hk2. rewrite Hk1, String.eqb_refl. simpl.
    by apply bool_decide_eq_true.
  - intros c x Hx. exists x. split; [done|reflexivity].
  - by eexists.
Qed.

Lemma db_wf_unexempt cid r d :
  db_wf_ex (eq cid) d -> db_orders d !! cid = Some r -> pre_ack (or_status r) = false ->
  db_wf d.
Proof.
  intros [K CK HD NF FK FU AU AN] Hr Hp. split; try done.
  intros c x _ Hx Hpx. destruct (decide (cid = c)) as [<-|Hc]; [congruence|by eapply NF].
Qed.
End sql_facts.

(** ** Repository functions respect [evolves] *)

Section repo_facts.
Context {R V : Type} `{OrdersSchemaSpec}.
Abbreviation W := (world R V).
Abbreviation ev := (on_db (R := R) (V := V) evolves).

Lemma pool_update_respects cid cond f :
  (forall r, cond r = true -> (or_status r = PENDING_NEW -> or_broker_order_id r = None) ->
     row_step r (f r)) ->
  respects ev (pool_update cid cond f).
Proof.
  intros Hf w Hw. unfold pool_update.
  destruct (sql_update _ _ _ _ _) as [[n d]|e] eqn:E; simpl; [|split; [done|reflexivity]].
  by eapply sql_update_wf.
Qed.

Lemma hub_publish_respects c st a b p q f : respects ev (hub_publish (R := R) (V := V) c st a b p q f).
Proof.
  apply respects_modify. intros w. unfold on_db. by destruct (w_hub w).
Qed.

Lemma hub_register_respects c s : respects ev (hub_register (R := R) (V := V) c s).
Proof.
  apply respects_modify. intros w. unfold on_db. by destruct (w_hub w), s.
Qed.

Hint Resolve hub_publish_respects hub_register_respects pool_update_respects : engine.
Hint Resolve row_status_step row_reason_step : engine.

Lemma insert_order_respects o s : respects ev (insert_order (R := R) (V := V) o s).
Proof.
  unfold insert_order. respects_tac. intros w Hw.
  destruct (sql_insert_order _ _ _ _) as [d|e] eqn:E; simpl; [|split; [done|reflexivity]].
  by eapply sql_insert_order_wf.
Qed.

Lemma ack_order_respects c b : respects ev (ack_order (R := R) (V := V) c b).
Proof.
  unfold ack_order. respects_tac. apply pool_update_respects. intros r Hc Hb.
  apply bool_decide_eq_true in Hc. apply row_ack_step; auto.
Qed.

Lemma replace_order_respects c p q : respects ev (replace_order (R := R) (V := V) c p q).
Proof.
  unfold replace_order. respects_tac. apply pool_update_respects. intros r Hc Hb.
  apply bool_decide_eq_true in Hc. by apply row_replace_step.
Qed.

Lemma update_status_respects c st : respects ev (update_status (R := R) (V := V) c st).
Proof.
  unfold update_status, fetch_order. respects_tac.
  all: apply pool_update_respects; auto using row_status_step.
Qed.

Lemma apply_fill_tx_ok c b p q ts tot (w : W) n t w' :
  db_wf (w_db w) ->
  apply_fill_tx c b p q ts tot w = (Ok (n, t), w') ->
  db_wf (w_db w') /\ evo (w_db w) (w_db w').
Proof.
  intros Hw. unfold apply_fill_tx, bind at 1.
  destruct (sql_insert_fill _ _ _ _ _ _ _) as [[k d1]|e] eqn:E1; [|discriminate].
  destruct (sql_insert_fill_wf _ _ _ _ _ _ _ _ _ Hw E1) as (Hw1 & He1 & Ho1).
  unfold bind at 1, gets at 1; simpl. unfold bind at 1, gets at 1; simpl.
  set (target := if _ : bool then FILLED else PARTIALLY_FILLED).
  assert (Htp : pre_ack target = false) by (unfold target; by destruct (tot <=? _)%Z).
  destruct (db_orders d1 !! c) as [r|] eqn:Hr; simpl.
  - case_decide as Hd.
    + intros [= <- <- <-]; simpl. split; [|done]. injection Hd as Hd.
      eapply db_wf_unexempt; [done..|]. by rewrite Hd.
    + unfold bind at 1, catch, bind at 1, pool_update; simpl.
      destruct (sql_update _ _ _ _ d1) as [[m d2]|e] eqn:E2.
      2: { by destruct e. }
      intros [= <- <- <-]; simpl.
      destruct (sql_update_wf _ _ _ _ _ _ _ _ Hw1 (fun r _ _ => row_status_step target r) E2)
        as [Hw2 He2].
      split; [|by etrans]. unfold sql_update in E2. rewrite Hr in E2. simpl in E2.
      destruct (orders_guard _ _ && _); [|discriminate]. injection E2 as <- <-.
      eapply db_wf_unexempt; [done|apply lookup_insert_eq|done].
  - unfold bind at 1, catch, bind at 1, pool_update; simpl.
    unfold sql_update. rewrite Hr. intros [= <- <- <-]; simpl. exfalso.
    unfold sql_insert_fill in E1. rewrite <- Ho1, Hr in E1.
    destruct (negb _); [done|]. destruct (List.existsb _ _) eqn:Hex; [|done].
    apply existsb_exists in Hex as (f & Hf & Hb). apply andb_true_iff in Hb as [Hb _].
    apply String.eqb_eq in Hb. destruct (dw_fk _ _ Hw f Hf) as [x Hx]. rewrite Hb in Hx.
    injection E1 as _ <-. congruence.
Qed.

Lemma apply_fill_respects c b p q ts tot : respects ev (apply_fill (R := R) (V := V) c b p q ts tot).
Proof.
  unfold apply_fill. respects_tac. intros w Hw. unfold transaction.
  destruct (apply_fill_tx _ _ _ _ _ _ w) as [[[n t]|e] w'] eqn:E; simpl.
  - by eapply apply_fill_tx_ok.
  - split; [done|reflexivity].
Qed.

Lemma set_reject_reason_respects c m : respects ev (set_reject_reason (R := R) (V := V) c m).
Proof.
  unfold set_reject_reason. respects_tac.
Qed.
End repo_facts.

#[export] Hint Resolve hub_publish_respects insert_order_respects ack_order_respects
  replace_order_respects update_status_respects set_reject_reason_respects apply_fill_respects : engine.
