(* ===== verification/StoreProps.v ===== *)
(** * StoreProps: the functional behaviour of the repositories and the
    store-level theorems over every interleaving of SQL statements. *)

From S2P Require Import Prelude Decimals Contracts StateMachine Events Store StoreInv.
From stdpp Require Import base gmap strings list relations.
From Stdlib Require Import ZArith Lia.
Import OrderState.

(** ** A concrete schema: the documented one, used to evaluate examples *)

Definition ex_append_event (from : option OrderState.t) (row : OrderRow) (now : Z)
    (evs : list OrderEventRow) : list OrderEventRow :=
  if decide (from = Some (or_status row)) then evs
  else evs ++ [{| oe_event_id := Z.of_nat (length evs) + 1;
                  oe_client_order_id := or_client_order_id row;
                  oe_from_status := from; oe_to_status := or_status row;
                  oe_event := []; oe_created_at := now |}].

#[export] Instance ExSchema : OrdersSchema := {|
  orders_guard := is_legal;
  orders_check r := (0 <? or_quantity r)%Z;
  fills_check p q := (0 <? q)%Z;
  pg_numeric p := p;
  orders_append_event := ex_append_event;
|}.

#[export] Instance ExSchemaSpec : OrdersSchemaSpec.
Proof.
  split.
  - done.
  - intros from row now evs Hne. simpl. unfold ex_append_event.
    rewrite decide_False by done. by eexists.
  - intros row now evs. simpl. unfold ex_append_event. by rewrite decide_True.
  - intros r bid st reason now. simpl. done.
Qed.

(** ** Every interleaving of statements

    Concurrent handlers (submits, cancels, the reconcilers) interleave only
    between the statements they await, so a run of the whole engine acts on the
    store as a sequence of these steps. *)

Section interleavings.
Context `{OrdersSchema}.

Inductive sql_step : db -> db -> Prop :=
  | st_insert now o s d d' :
      sql_insert_order now o s d = Ok d' -> sql_step d d'
  | st_ack now c b d n d' :
      sql_update now c (fun r => bool_decide (or_status r = PENDING_NEW)) (row_ack b) d
        = Ok (n, d') -> sql_step d d'
  | st_replace now c p q d n d' :
      sql_update now c (fun r => bool_decide (or_status r = PENDING_REPLACE)) (row_replace p q) d
        = Ok (n, d') -> sql_step d d'
  | st_status now c st d n d' :
      sql_update now c (fun _ => true) (row_status st) d = Ok (n, d') -> sql_step d d'
  | st_reason now c m d n d' :
      sql_update now c (fun _ => true) (row_reason m) d = Ok (n, d') -> sql_step d d'
  | st_fill (w : world unit unit) c b p q ts tot :
      sql_step (w_db w) (w_db (apply_fill c b p q ts tot w).2).

Context `{!OrdersSchemaSpec}.

Lemma sql_step_evolves d d' : sql_step d d' -> evolves d d'.
Proof.
  intros Hs Hw. destruct Hs.
  - by eapply sql_insert_order_wf.
  - eapply sql_update_wf; [done| |done]. intros r Hc Hb.
    apply bool_decide_eq_true in Hc. apply row_ack_step; auto.
  - eapply sql_update_wf; [done| |done]. intros r Hc Hb.
    apply bool_decide_eq_true in Hc. by apply row_replace_step.
  - eapply sql_update_wf; [done| |done]. intros; apply row_status_step.
  - eapply sql_update_wf; [done| |done]. intros; apply row_reason_step.
  - by apply apply_fill_respects.
Qed.

Lemma sql_steps_evolve d d' : rtc sql_step d d' -> evolves d d'.
Proof.
  induction 1 as [|d1 d2 d3 Hs _ IH]; [reflexivity|].
  etrans; [by apply sql_step_evolves|done].
Qed.

Lemma db_wf_empty : db_wf db_empty.
Proof.
  split; simpl; try done; try (intros c r; by rewrite lookup_empty).
  - constructor.
Qed.

(** the audit trail is complete and legal.  In every store reachable from
    the empty one by ANY interleaving of the repositories' statements, each
    order's audit rows start with the birth row and then follow frozen edges
    one by one to exactly the order's current status; an order that was never
    acknowledged (PENDING_NEW or REJECTED) has no venue handle and no fills;
    fills belong to stored orders and no (order, broker fill id) is stored
    twice. *)
Theorem store_audit_chain d c r :
  rtc sql_step db_empty d -> db_orders d !! c = Some r ->
  audit_path (events_of c (db_events d)) (or_status r) /\
  or_client_order_id r = c /\
  (pre_ack (or_status r) = true -> or_broker_order_id r = None /\ fills_of c d = []) /\
  List.NoDup (map (fun f => (fr_client_order_id f, fr_broker_fill_id f)) (db_fills d)).
Proof.
  intros Hs Hr. destruct (sql_steps_evolve _ _ Hs db_wf_empty) as [Hw _].
  split; [by eapply dw_audit|]. split; [by eapply dw_key|].
  split; [|by eapply dw_fill_key]. intros Hp.
  split; [by eapply dw_handle|]. eapply dw_nofill; [exact Hw|auto|done|done].
Qed.

(** the store is append-only where it must be.  From any reachable store,
    whatever statements run next in whatever interleaving: every order is
    still there under the same identity, its status only moved along frozen
    edges, its venue handle never changed once set, a terminal order kept its
    status, price, quantity and handle for ever, and the fills and the audit
    trail only grew at the end. *)
Theorem store_append_only d d' :
  rtc sql_step db_empty d -> rtc sql_step d d' -> evo d d'.
Proof.
  intros H1 H2. destruct (sql_steps_evolve _ _ H1 db_wf_empty) as [Hw _].
  by apply (sql_steps_evolve _ _ H2 Hw).
Qed.
End interleavings.

(** ** Functional behaviour of the statements *)

(** The store after an UPDATE replaced row [r] of [c] by [r']. *)
Definition db_put `{OrdersSchema} (now : Z) (c : string) (r r' : OrderRow) (d : db) : db :=
  {| db_orders := <[c := r']> (db_orders d); db_fills := db_fills d;
     db_events := orders_append_event (Some (or_status r)) r' now (db_events d);
     db_next_fill := db_next_fill d |}.

(** The world after [hub.publish]. *)
Definition pub {R V} (c : string) (st : OrderState.t) (strategy bid : option string)
    (price : option Decimal) (qty : option Z) (fill : option FillEvent)
    (w : world R V) : world R V :=
  match w_hub w with
  | None => w
  | Some h => set_hub (Some (publish h (w_now w) c st strategy bid price qty fill)) w
  end.

Lemma pub_db {R V} c st s b p q f (w : world R V) : w_db (pub c st s b p q f w) = w_db w.
Proof. unfold pub. by destruct (w_hub w). Qed.
Lemma pub_now {R V} c st s b p q f (w : world R V) : w_now (pub c st s b p q f w) = w_now w.
Proof. unfold pub. by destruct (w_hub w). Qed.

Section functional.
Context {R V : Type} `{OrdersSchemaSpec}.
Abbreviation W := (world R V).

Lemma pool_update_hit c cond f (w : W) r :
  db_orders (w_db w) !! c = Some r -> cond r = true ->
  is_legal (or_status r) (or_status (f r)) = true ->
  orders_check (row_touch (w_now w) (f r)) = true ->
  pool_update c cond f w =
    (Ok 1%Z, set_db (db_put (w_now w) c r (row_touch (w_now w) (f r)) (w_db w)) w).
Proof.
  intros Hr Hc Hl Hck. unfold pool_update, sql_update. rewrite Hr, Hc.
  rewrite orders_guard_frozen. simpl. by rewrite Hl, Hck.
Qed.

Lemma update_status_ok c st (w : W) r :
  db_wf (w_db w) -> db_orders (w_db w) !! c = Some r ->
  or_status r ≠ st -> is_legal (or_status r) st = true ->
  update_status c st w =
    (Ok tt, pub c st (or_strategy_id r) (or_broker_order_id r) None None None
       (set_db (db_put (w_now w) c r (row_touch (w_now w) (row_status st r)) (w_db w)) w)).
Proof.
  intros Hw Hr Hne Hl. unfold update_status, fetch_order, bind, gets. rewrite Hr. simpl.
  rewrite decide_False by done. unfold assert_legal. rewrite Hl; simpl. unfold catch.
  erewrite pool_update_hit; [|done|done|done|].
  - reflexivity.
  - apply orders_check_progress. by eapply dw_check.
Qed.

Lemma update_status_same c (w : W) r :
  db_orders (w_db w) !! c = Some r -> update_status c (or_status r) w = (Ok tt, w).
Proof.
  intros Hr. unfold update_status, fetch_order, bind, gets. rewrite Hr. simpl.
  by rewrite decide_True.
Qed.

(** [update_status] is exactly the app-side guard.  On a stored order it
    succeeds iff the frozen machine allows the move; when it refuses (or the
    order is unknown) it raises [IllegalTransition] and leaves the whole world
    (store, audit trail, event stream) untouched; when it succeeds the order
    is in the new state. *)
Theorem update_status_guard c st (w : W) :
  db_wf (w_db w) ->
  match db_orders (w_db w) !! c with
  | Some r =>
      if is_legal (or_status r) st
      then exists w', update_status c st w = (Ok tt, w') /\
             or_status <$> (db_orders (w_db w') !! c) = Some st
      else update_status c st w = (Err (IllegalTransition (Some c)), w)
  | None => update_status c st w = (Err (IllegalTransition (Some c)), w)
  end.
Proof.
  intros Hw. destruct (db_orders (w_db w) !! c) as [r|] eqn:Hr.
  - destruct (decide (or_status r = st)) as [<-|Hne].
    + rewrite is_legal_refl. exists w. rewrite Hr. split; [by apply update_status_same|done].
    + destruct (is_legal (or_status r) st) eqn:Hl.
      * erewrite update_status_ok by done. eexists. split; [reflexivity|].
        rewrite pub_db; simpl. by rewrite lookup_insert_eq.
      * unfold update_status, fetch_order, bind, gets. rewrite Hr; simpl.
        rewrite decide_False by done. unfold assert_legal. by rewrite Hl.
  - unfold update_status, fetch_order, bind, gets. by rewrite Hr.
Qed.

Lemma ack_order_ok c b (w : W) r :
  db_wf (w_db w) -> db_orders (w_db w) !! c = Some r -> or_status r = PENDING_NEW ->
  ack_order c b w =
    (Ok tt, pub c NEW None (Some b) None None None
       (set_db (db_put (w_now w) c r (row_touch (w_now w) (row_ack b r)) (w_db w)) w)).
Proof.
  intros Hw Hr Hs. unfold ack_order, bind. erewrite pool_update_hit; [reflexivity|done|..].
  - by apply bool_decide_eq_true.
  - by rewrite Hs.
  - apply orders_check_progress. by eapply dw_check.
Qed.

(** *** Fills *)

Definition fill_target (tot filled : Z) : OrderState.t :=
  if (tot <=? filled)%Z then FILLED else PARTIALLY_FILLED.

Definition fill_row (d : db) (now : Z) (c b : string) (p : Decimal) (q ts : Z) : FillRow :=
  {| fr_fill_id := db_next_fill d; fr_client_order_id := c; fr_broker_fill_id := Some b;
     fr_price := pg_numeric p; fr_quantity := q; fr_exec_ts := ts; fr_created_at := now |}.

Definition db_add_fill (f : FillRow) (d : db) : db :=
  {| db_orders := db_orders d; db_fills := db_fills d ++ [f]; db_events := db_events d;
     db_next_fill := (db_next_fill d + 1)%Z |}.

Definition fill_known (c b : string) (d : db) : bool :=
  List.existsb (fun g => String.eqb (fr_client_order_id g) c &&
                         bool_decide (fr_broker_fill_id g = Some b)) (db_fills d).

Lemma filled_qty_add f c d : fr_client_order_id f = c ->
  filled_qty c (db_add_fill f d) = (filled_qty c d + fr_quantity f)%Z.
Proof.
  intros Hc. unfold filled_qty, fills_of; simpl. rewrite List.filter_app; simpl.
  rewrite Hc, String.eqb_refl, map_app, zsum_app. simpl. lia.
Qed.

(** The transaction body once the INSERT answered. *)
Lemma apply_fill_tx_run c b p q ts tot (w : W) n d1 r :
  sql_insert_fill (w_now w) c b p q ts (w_db w) = Ok (n, d1) ->
  db_orders d1 !! c = Some r ->
  let t := fill_target tot (filled_qty c d1) in
  apply_fill_tx c b p q ts tot w =
    if decide (or_status r = t) then (Ok (n, t), set_db d1 w)
    else match sql_update (w_now w) c (fun _ => true) (row_status t) d1 with
         | Ok (_, d2) => (Ok (n, t), set_db d2 w)
         | Err CheckViolationError => (Err (IllegalTransition (Some c)), set_db d1 w)
         | Err e => (Err e, set_db d1 w)
         end.
Proof.
  intros Hins Hr. cbv zeta. unfold apply_fill_tx.
  erewrite bind_ok by (rewrite Hins; reflexivity).
  erewrite bind_ok by reflexivity. cbv zeta. simpl w_db.
  fold (fill_target tot (filled_qty c d1)). set (t := fill_target _ _).
  erewrite bind_ok by reflexivity. simpl w_db. rewrite Hr. simpl fmap.
  destruct (decide (or_status r = t)) as [Ht|Ht].
  - rewrite decide_True by congruence. reflexivity.
  - rewrite decide_False by congruence. unfold bind, catch, pool_update; simpl.
    destruct (sql_update _ _ _ _ _) as [[m d2]|e]; [done|by destruct e].
Qed.

Lemma apply_fill_run c b p q ts tot (w : W) :
  apply_fill c b p q ts tot w =
    match apply_fill_tx c b p q ts tot w with
    | (Ok (n, t), w1) =>
        (Ok t, if (0 <? n)%Z
               then pub c t None None None None
                      (Some {| fe_broker_fill_id := b; fe_price := p; fe_quantity := q;
                               fe_exec_ts := ts |}) w1
               else w1)
    | (Err e, w1) => (Err e, set_db (w_db w) w1)
    end.
Proof.
  unfold apply_fill, bind, transaction.
  destruct (apply_fill_tx c b p q ts tot w) as [[[n t]|e] w1]; [|done].
  by destruct (0 <? n)%Z.
Qed.

Lemma apply_fill_fresh c b p q ts tot (w : W) r :
  db_wf (w_db w) -> db_orders (w_db w) !! c = Some r ->
  fills_check (pg_numeric p) q = true -> fill_known c b (w_db w) = false ->
  let t := fill_target tot (filled_qty c (w_db w) + q)%Z in
  let d1 := db_add_fill (fill_row (w_db w) (w_now w) c b p q ts) (w_db w) in
  let fe := Some {| fe_broker_fill_id := b; fe_price := p; fe_quantity := q; fe_exec_ts := ts |} in
  let d2 := if decide (or_status r = t) then d1
            else db_put (w_now w) c r (row_touch (w_now w) (row_status t r)) d1 in
  apply_fill c b p q ts tot w =
    if is_legal (or_status r) t
    then (Ok t, pub c t None None None None fe (set_db d2 w))
    else (Err (IllegalTransition (Some c)), w).
Proof.
  intros Hw Hr Hck Hk. cbv zeta. set (d1 := db_add_fill _ _).
  assert (Hins : sql_insert_fill (w_now w) c b p q ts (w_db w) = Ok (1%Z, d1)).
  { unfold sql_insert_fill; simpl. rewrite Hck; simpl. unfold fill_known in Hk.
    by rewrite Hk, Hr. }
  assert (Hsum : filled_qty c d1 = (filled_qty c (w_db w) + q)%Z) by by apply filled_qty_add.
  assert (Hr1 : db_orders d1 !! c = Some r) by done.
  rewrite apply_fill_run, (apply_fill_tx_run _ _ _ _ _ _ _ _ _ _ Hins Hr1), Hsum.
  set (t := fill_target _ _). destruct (decide (or_status r = t)) as [Ht|Ht].
  - by rewrite Ht, is_legal_refl.
  - unfold sql_update. rewrite Hr1. simpl. rewrite orders_guard_frozen.
    destruct (is_legal (or_status r) t); simpl; [|by destruct w].
    assert (Hc : orders_check (row_touch (w_now w) (row_status t r)) = true)
      by (apply orders_check_progress; by eapply dw_check).
    by rewrite Hc.
Qed.

(** C21: one fill, settled atomically.  For a stored order and a fill not seen
    before, [apply_fill] either records the fill, moves the order to FILLED
    exactly when the fills now cover the ordered quantity (PARTIALLY_FILLED
    otherwise) and returns that state, or (when the frozen machine has no such
    edge, e.g. a fill while PENDING_CANCEL) raises [IllegalTransition] with the
    fill row rolled back and the whole world unchanged. *)
Theorem apply_fill_settles c b p q ts tot (w : W) r :
  db_wf (w_db w) -> db_orders (w_db w) !! c = Some r ->
  fills_check (pg_numeric p) q = true -> fill_known c b (w_db w) = false ->
  let t := fill_target tot (filled_qty c (w_db w) + q)%Z in
  if is_legal (or_status r) t
  then exists w', apply_fill c b p q ts tot w = (Ok t, w') /\
       or_status <$> (db_orders (w_db w') !! c) = Some t /\
       filled_qty c (w_db w') = (filled_qty c (w_db w) + q)%Z
  else apply_fill c b p q ts tot w = (Err (IllegalTransition (Some c)), w).
Proof.
  intros Hw Hr Hck Hk. rewrite (apply_fill_fresh c b p q ts tot w r Hw Hr Hck Hk).
  cbv zeta. destruct (is_legal _ _); [|done]. eexists. split; [reflexivity|]. rewrite pub_db.
  pose proof (filled_qty_add (fill_row (w_db w) (w_now w) c b p q ts) c
    (w_db w) eq_refl) as Hq. simpl in Hq.
  case_decide as Hdec; simpl.
  - rewrite Hr. simpl. rewrite Hdec. done.
  - rewrite lookup_insert_eq. done.
Qed.

Lemma fill_known_insert c b p q ts (w : W) :
  fills_check (pg_numeric p) q = true -> fill_known c b (w_db w) = true ->
  sql_insert_fill (w_now w) c b p q ts (w_db w) = Ok (0%Z, w_db w).
Proof.
  intros Hck Hk. unfold sql_insert_fill; simpl. rewrite Hck; simpl.
  unfold fill_known in Hk. by rewrite Hk.
Qed.

Lemma fill_known_after c b p q ts tot (w w' : W) t :
  db_wf (w_db w) -> apply_fill c b p q ts tot w = (Ok t, w') ->
  fills_check (pg_numeric p) q = true /\
  fill_known c b (w_db w') = true /\ t = fill_target tot (filled_qty c (w_db w')) /\
  or_status <$> (db_orders (w_db w') !! c) = Some t.
Proof.
  intros Hw Ha.
  assert (Hck : fills_check (pg_numeric p) q = true).
  { rewrite apply_fill_run in Ha. unfold apply_fill_tx, bind at 1, sql_insert_fill in Ha.
    simpl in Ha. destruct (fills_check _ _); [done|discriminate]. }
  split; [done|].
  destruct (fill_known c b (w_db w)) eqn:Hk.
  - assert (Hr : is_Some (db_orders (w_db w) !! c)).
    { unfold fill_known in Hk. apply existsb_exists in Hk as (f & Hf & Hb).
      apply andb_true_iff in Hb as [Hb _]. apply String.eqb_eq in Hb. rewrite <- Hb.
      by eapply dw_fk. }
    destruct Hr as [r Hr]. rewrite apply_fill_run in Ha.
    rewrite (apply_fill_tx_run _ _ _ _ _ _ _ _ _ _ (fill_known_insert _ _ _ _ _ _ Hck Hk) Hr) in Ha.
    cbv zeta in Ha. case_decide as Ht.
    + injection Ha as <- <-. simpl. rewrite Hr; simpl. by rewrite Ht.
    + unfold sql_update in Ha. rewrite Hr in Ha. simpl in Ha.
      destruct (orders_guard _ _ && _); [|discriminate].
      injection Ha as <- <-. simpl. rewrite lookup_insert_eq. done.
  - destruct (db_orders (w_db w) !! c) as [r|] eqn:Hr.
    + rewrite (apply_fill_fresh c b p q ts tot w r Hw Hr Hck Hk) in Ha. cbv zeta in Ha.
      destruct (is_legal _ _); [|discriminate]. injection Ha as <- <-.
      rewrite pub_db. pose proof (filled_qty_add (fill_row (w_db w) (w_now w) c b p q ts) c
        (w_db w) eq_refl) as Hq. simpl in Hq.
      assert (Hkn : fill_known c b (db_add_fill (fill_row (w_db w) (w_now w) c b p q ts) (w_db w))
                    = true).
      { unfold fill_known. simpl. rewrite existsb_app. simpl. rewrite String.eqb_refl.
        rewrite (proj2 (bool_decide_eq_true _)) by done. by rewrite orb_true_r. }
      case_decide as Hdec; simpl.
      * rewrite Hr, Hq; simpl. split; [exact Hkn|]. by rewrite Hdec.
      * rewrite lookup_insert_eq; simpl. split; [exact Hkn|].
        split; [|done]. unfold filled_qty, fills_of in *; simpl in *. by rewrite Hq.
    + exfalso. rewrite apply_fill_run in Ha. revert Ha. unfold apply_fill_tx, bind at 1.
      unfold sql_insert_fill; simpl. rewrite Hck; simpl. unfold fill_known in Hk.
      by rewrite Hk, Hr.
Qed.

(** C22: at-least-once delivery is safe.  After a fill was applied, applying the
    same broker fill again (whatever timestamp the redelivery carries) returns
    the same state and changes nothing: no second fill row, no transition, no
    audit row, no stream event. *)
Theorem apply_fill_redelivery c b p q ts ts' tot (w w' : W) t :
  db_wf (w_db w) -> apply_fill c b p q ts tot w = (Ok t, w') ->
  apply_fill c b p q ts' tot w' = (Ok t, w').
Proof.
  intros Hw Ha. destruct (fill_known_after _ _ _ _ _ _ _ _ _ Hw Ha) as (Hck & Hk & Ht & Hs).
  destruct (db_orders (w_db w') !! c) as [r|] eqn:Hr; [|discriminate]. injection Hs as Hs.
  rewrite apply_fill_run.
  rewrite (apply_fill_tx_run _ _ _ _ _ _ _ _ _ _ (fill_known_insert _ _ _ _ _ _ Hck Hk) Hr).
  cbv zeta. rewrite <- Ht, decide_True by done. simpl. by destruct w'.
Qed.
End functional.

(** ** Witnesses *)

Definition ex_order : NormalizedOrder :=
  {| no_client_order_id := "12345678-1234-4234-8234-123456789abc"; no_broker := SIM;
     no_account := "acct"; no_market := SET_; no_symbol := "AOT"; no_side := BUY;
     no_order_type := LIMIT; no_price := Some (Dec 605 (-1)); no_stop_price := None;
     no_quantity := 100; no_display_qty := None; no_tif := DAY; no_position_effect := None;
     no_metadata := [] |}.

Definition ex_cid : string := no_client_order_id ex_order.

Definition ex_world : world unit unit :=
  {| w_db := db_empty; w_hub := Some (EventHub_new 8 8); w_redis := tt; w_venue := tt;
     w_now := 1000; w_entropy := 0 |}.

(** The world after the insert and the ack. *)
Definition ex_resting : world unit unit :=
  (ack_order ex_cid "V-1" (insert_order ex_order (Some "strat") ex_world).2).2.

Lemma ex_resting_steps : rtc sql_step db_empty (w_db ex_resting).
Proof.
  eapply rtc_l; [by apply (st_insert 1000 ex_order (Some "strat"))|].
  eapply rtc_l; [|apply rtc_refl]. eapply (st_ack 1000 ex_cid "V-1"). reflexivity.
Qed.

Lemma ex_resting_wf : db_wf (w_db ex_resting).
Proof. apply (sql_steps_evolve _ _ ex_resting_steps), db_wf_empty. Qed.

Lemma ex_resting_row : exists r, db_orders (w_db ex_resting) !! ex_cid = Some r /\
  or_status r = NEW.
Proof. eexists. split; reflexivity. Qed.

Lemma store_audit_chain_witness :
  exists r, db_orders (w_db ex_resting) !! ex_cid = Some r /\
    audit_path (events_of ex_cid (db_events (w_db ex_resting))) (or_status r).
Proof.
  destruct ex_resting_row as (r & Hr & _). exists r. split; [done|].
  exact (proj1 (store_audit_chain _ _ _ ex_resting_steps Hr)).
Defined.

Lemma store_append_only_witness : evo db_empty (w_db ex_resting).
Proof. apply (store_append_only _ _ (rtc_refl _ _) ex_resting_steps). Defined.

Lemma update_status_guard_witness :
  exists w', update_status ex_cid PENDING_CANCEL ex_resting = (Ok tt, w') /\
    or_status <$> (db_orders (w_db w') !! ex_cid) = Some PENDING_CANCEL.
Proof.
  pose proof (update_status_guard ex_cid PENDING_CANCEL ex_resting ex_resting_wf) as H.
  exact H.
Defined.

Lemma apply_fill_settles_witness :
  exists w', apply_fill ex_cid "F-1" (Dec 605 (-1)) 40 5 100 ex_resting = (Ok PARTIALLY_FILLED, w')
    /\ filled_qty ex_cid (w_db w') = 40%Z.
Proof.
  destruct ex_resting_row as (r & Hr & Hs).
  assert (Hk : fill_known ex_cid "F-1" (w_db ex_resting) = false) by (vm_compute; reflexivity).
  assert (Hf : filled_qty ex_cid (w_db ex_resting) = 0%Z) by (vm_compute; reflexivity).
  pose proof (apply_fill_settles ex_cid "F-1" (Dec 605 (-1)) 40 5 100 ex_resting r
    ex_resting_wf Hr eq_refl Hk) as H.
  cbv zeta in H. rewrite Hs, Hf in H. destruct H as (w' & H1 & _ & H3).
  exists w'. split; [exact H1|exact H3].
Defined.

Lemma apply_fill_redelivery_witness :
  let w' := (apply_fill ex_cid "F-1" (Dec 605 (-1)) 100 5 100 ex_resting).2 in
  apply_fill ex_cid "F-1" (Dec 605 (-1)) 100 5 100 ex_resting = (Ok FILLED, w') /\
    apply_fill ex_cid "F-1" (Dec 605 (-1)) 100 9 100 w' = (Ok FILLED, w').
Proof.
  intros w'.
  assert (H1 : apply_fill ex_cid "F-1" (Dec 605 (-1)) 100 5 100 ex_resting = (Ok FILLED, w'))
    by (vm_compute; reflexivity).
  split; [exact H1|].
  exact (apply_fill_redelivery ex_cid "F-1" (Dec 605 (-1)) 100 5 9 100 ex_resting w' FILLED
    ex_resting_wf H1).
Defined.
