(* ===== verification/Cache.v ===== *)
(** * Cache: the Redis sidecar ([cache/counters.py], [cache/single_flight.py])
    and the kill switch ([core/kill_switch.py])

    The Redis server is a parameter: its state [R], its commands ([RedisOps],
    each of which may raise, as any network call may) and, for the theorems that
    rely on what a command does when it answers, its documented behaviour
    ([RedisSpec]). *)

From S2P Require Import Prelude Decimals Contracts StateMachine Events Store StoreInv Config.
From stdpp Require Import base gmap strings list relations.
From Stdlib Require Import ZArith Lia.
Open Scope Z_scope.

(** What a key holds. *)
Inductive rvalue := RStr (s : string) | RInt (n : Z).
#[export] Instance rvalue_eq_dec : EqDecision rvalue.
Proof. solve_decision. Defined.

(** The commands the engine issues; the [Z] is the server's clock
    (microseconds). *)
Class RedisOps (R : Type) := {
  redis_get : Z -> string -> R -> result exn (option rvalue) * R;
  redis_set : Z -> string -> string -> R -> result exn unit * R;
  redis_set_nx_ex : Z -> string -> string -> Z -> R -> result exn bool * R;
  redis_incr : Z -> string -> R -> result exn Z * R;
  redis_expire : Z -> string -> Z -> R -> result exn unit * R;
  redis_delete : Z -> string -> R -> result exn Z * R;
}.

(** Redis' documented behaviour: [redis_live r t k] is what [GET k] would see at
    time [t] if nothing else ran. *)
Class RedisSpec (R : Type) `{RedisOps R} := {
  redis_live : R -> Z -> string -> option rvalue;
  redis_get_ok now k r v r' : redis_get now k r = (Ok v, r') ->
    v = redis_live r now k /\ r' = r;
  redis_set_ok now k s r r' : redis_set now k s r = (Ok tt, r') ->
    forall t, now <= t -> redis_live r' t k = Some (RStr s);
  redis_set_nx_ok now k s ttl r b r' : redis_set_nx_ex now k s ttl r = (Ok b, r') ->
    (b = false /\ is_Some (redis_live r now k) /\ r' = r) \/
    (b = true /\ redis_live r now k = None /\
     forall t, now <= t < now + ttl * 1000000 -> redis_live r' t k = Some (RStr s));
  redis_incr_ok now k r n r' : redis_incr now k r = (Ok n, r') ->
    n = 1 + match redis_live r now k with Some (RInt m) => m | _ => 0 end /\
    redis_live r' now k = Some (RInt n);
  redis_incr_frame now k r x r' : redis_incr now k r = (x, r') ->
    forall t k', k' ≠ k -> redis_live r' t k' = redis_live r t k';
  redis_expire_frame now k ttl r x r' : redis_expire now k ttl r = (x, r') ->
    forall t k', k' ≠ k -> redis_live r' t k' = redis_live r t k';
  redis_expire_ok now k ttl r r' : redis_expire now k ttl r = (Ok tt, r') ->
    forall t, now <= t < now + ttl * 1000000 -> redis_live r' t k = redis_live r now k;
  redis_delete_ok now k r n r' : redis_delete now k r = (Ok n, r') ->
    forall t, now <= t -> redis_live r' t k = None;
}.

Section cache.
Context {R V : Type} `{RedisOps R}.
Abbreviation W := (world R V).
Abbreviation M := (M exn W).

(** One round trip to the server. *)
Definition redis_call {A} (op : Z -> R -> result exn A * R) : M A :=
  fun w => let '(x, r) := op (w_now w) (w_redis w) in (x, set_redis r w).

(** *** counters.py *)
Definition incr_with_ttl (key : string) (ttl_seconds : Z) : M Z :=
  let* count := redis_call (fun now => redis_incr now key) in
  (if count =? 1 then redis_call (fun now => redis_expire now key ttl_seconds)
   else ret tt) ;;;
  ret count.

(** *** single_flight.py *)

(** [uuid.uuid4().hex], drawn from the process's entropy. *)
Context (uuid4_hex : nat -> string).

Definition uuid4 : M string :=
  fun w => (Ok (uuid4_hex (w_entropy w)), bump_entropy w).

(** The server runs a script atomically: compare, then delete. *)
Definition _RELEASE_LUA (key token : string) (now : Z) (r : R) : result exn Z * R :=
  match redis_get now key r with
  | (Ok v, r') => if decide (v = Some (RStr token)) then redis_delete now key r' else (Ok 0, r')
  | (Err e, r') => (Err e, r')
  end.

(** [async with single_flight(client, key) as acquired: body]. *)
Definition single_flight {A} (client : bool) (key : string) (ttl_seconds : Z)
    (body : bool -> M A) : M A :=
  let* token := uuid4 in
  let* acquired :=
    (if client
     then catch (redis_call (fun now => redis_set_nx_ex now key token ttl_seconds))
            (fun _ => ret true)
     else ret true) in
  finally (body acquired)
    (if acquired && client
     then catch (redis_call (_RELEASE_LUA key token) ;;; ret tt) (fun _ => ret tt)
     else ret tt).

(** *** kill_switch.py *)

Definition KILL_SWITCH_KEY : string := "exe:kill_switch".

Inductive KillSource := EnvSource | RedisSource.

Definition ks_status (settings : Settings) (redis : bool) : M (bool * option KillSource) :=
  if s_kill_switch_engaged settings then ret (true, Some EnvSource)
  else
    let* tripped :=
      (if redis
       then catch (let* v := redis_call (fun now => redis_get now KILL_SWITCH_KEY) in
                   ret (bool_decide (is_Some v)))
              (fun _ => ret false)
       else ret false) in
    if tripped : bool then ret (true, Some RedisSource) else ret (false, None).

Definition assert_disengaged (settings : Settings) (redis : bool) : M unit :=
  let* (engaged, source) := ks_status settings redis in
  if engaged : bool then raise KillSwitchEngagedError else ret tt.

Definition engage (redis : bool) : M unit :=
  if negb redis then raise CacheError
  else redis_call (fun now => redis_set now KILL_SWITCH_KEY "engaged").

Definition disengage (settings : Settings) (redis : bool) : M unit :=
  if s_kill_switch_engaged settings then raise KillSwitchPinnedError
  else if negb redis then raise CacheError
  else redis_call (fun now => redis_delete now KILL_SWITCH_KEY) ;;; ret tt.
End cache.

(** ** The sidecar never touches the durable store *)

Section cache_respects.
Context {R V : Type} `{RedisOps R} (Q : relation db) `{!PreOrder Q}.
Abbreviation ev := (on_db (R := R) (V := V) Q).

Lemma redis_call_respects {A} (op : Z -> R -> result exn A * R) :
  respects ev (redis_call (V := V) op).
Proof. intros w. unfold redis_call, on_db. by destruct (op _ _). Qed.

Lemma uuid4_respects u : respects ev (uuid4 (R := R) (V := V) u).
Proof. intros w. unfold on_db. reflexivity. Qed.

Hint Resolve redis_call_respects uuid4_respects : engine.

Lemma incr_with_ttl_respects k t : respects ev (incr_with_ttl (V := V) k t).
Proof. unfold incr_with_ttl. respects_tac. Qed.

Lemma single_flight_respects {A} u c k t (body : bool -> M exn (world R V) A) :
  (forall b, respects ev (body b)) -> respects ev (single_flight u c k t body).
Proof. intros Hb. unfold single_flight. respects_tac. Qed.

Lemma ks_status_respects s r : respects ev (ks_status (V := V) s r).
Proof. unfold ks_status. respects_tac. Qed.

Lemma assert_disengaged_respects s r : respects ev (assert_disengaged (V := V) s r).
Proof.
  unfold assert_disengaged. apply respects_bind; [apply _|apply ks_status_respects|].
  intros [b src]. respects_tac.
Qed.
End cache_respects.

#[export] Hint Resolve redis_call_respects uuid4_respects incr_with_ttl_respects
  assert_disengaged_respects : engine.

(** ** What the sidecar guarantees when Redis answers *)

Section cache_facts.
Context {R V : Type} `{RedisSpec R}.
Abbreviation W := (world R V).

Lemma redis_call_ok {A} (op : Z -> R -> result exn A * R) (w w' : W) a :
  redis_call op w = (Ok a, w') ->
  op (w_now w) (w_redis w) = (Ok a, w_redis w') /\ w_now w' = w_now w /\ w_db w' = w_db w.
Proof.
  unfold redis_call. destruct (op _ _) as [x r]. by intros [= -> <-].
Qed.

(** The first increment of a counter opens its window. *)
Lemma incr_with_ttl_window k ttl (w w' : W) :
  incr_with_ttl k ttl w = (Ok 1, w') ->
  forall t, w_now w <= t < w_now w + ttl * 1000000 ->
    redis_live (w_redis w') t k = Some (RInt 1).
Proof.
  intros Hi t Ht. unfold incr_with_ttl in Hi. inv_ok Hi.
  apply redis_call_ok in Hm as (Hop & Hnow & _).
  destruct (a =? 1) eqn:Ha; inv_ok Hi; unfold ret in Hi; injection Hi as E1 E2; subst; [|done].
  apply redis_call_ok in Hm as (Hex & Hnow2 & _). destruct a0.
  apply redis_incr_ok in Hop as [_ Hlive]. rewrite Hnow in Hex.
  erewrite redis_expire_ok; [exact Hlive|exact Hex|done].
Qed.

Lemma incr_with_ttl_frame k ttl (w w' : W) x :
  incr_with_ttl k ttl w = (x, w') ->
  (forall t k', k' ≠ k -> redis_live (w_redis w') t k' = redis_live (w_redis w) t k') /\
  w_now w' = w_now w.
Proof.
  unfold incr_with_ttl, bind, redis_call.
  destruct (redis_incr _ _ _) as [[n|e] r] eqn:Hi; simpl.
  2: { intros [= <- <-]. split; [|done]. simpl. by eapply redis_incr_frame. }
  destruct (n =? 1); unfold ret; simpl.
  2: { intros [= <- <-]. split; [|done]. simpl. by eapply redis_incr_frame. }
  destruct (redis_expire _ _ _ _) as [[u|e] r2] eqn:He; intros [= <- <-]; (split; [|done]);
    intros t k' Hk; simpl; rewrite (redis_expire_frame _ _ _ _ _ _ He t k' Hk);
    by eapply redis_incr_frame.
Qed.

Lemma incr_with_ttl_count k ttl (w w' : W) n :
  incr_with_ttl k ttl w = (Ok n, w') ->
  n = 1 + match redis_live (w_redis w) (w_now w) k with Some (RInt m) => m | _ => 0 end.
Proof.
  intros Hi. unfold incr_with_ttl in Hi. inv_ok Hi.
  apply redis_call_ok in Hm as (Hop & _). apply redis_incr_ok in Hop as [-> _].
  inv_ok Hi. by injection Hi.
Qed.

(** A trip is seen by every later guard that can read Redis. *)
Lemma engaged_blocks s (w w' : W) t v r :
  engage true w = (Ok tt, w') -> w_now w <= t ->
  redis_get t KILL_SWITCH_KEY (w_redis w') = (Ok v, r) ->
  (assert_disengaged s true (set_now t w')).1 = Err KillSwitchEngagedError.
Proof.
  intros He Ht Hg. unfold engage in He; simpl in He. apply redis_call_ok in He as (He & _).
  pose proof (redis_set_ok _ _ _ _ _ He t Ht) as Hl.
  destruct (redis_get_ok _ _ _ _ _ Hg) as [-> ->].
  unfold assert_disengaged, ks_status. destruct (s_kill_switch_engaged s); [done|].
  unfold bind, catch, redis_call, ret; simpl. rewrite Hg, Hl. done.
Qed.

(** the kill switch.  The environment flag wins over everything: the
    switch reads engaged without consulting Redis and cannot be disengaged at
    runtime.  Otherwise a runtime trip has no expiry: once [engage] returned,
    every submit guard at any later time, with nothing else run in between,
    refuses with [KillSwitchEngagedError] as long as Redis answers the read;
    and after [disengage] returned it passes again. *)
Theorem kill_switch_trip_holds s (w : W) :
  (s_kill_switch_engaged s = true ->
     (forall redis, ks_status s redis w = (Ok (true, Some EnvSource), w)) /\
     (forall redis, assert_disengaged s redis w = (Err KillSwitchEngagedError, w)) /\
     (forall redis, disengage s redis w = (Err KillSwitchPinnedError, w))) /\
  (forall w' t v r, engage true w = (Ok tt, w') -> w_now w <= t ->
     redis_get t KILL_SWITCH_KEY (w_redis w') = (Ok v, r) ->
     (assert_disengaged s true (set_now t w')).1 = Err KillSwitchEngagedError) /\
  (forall w' t, s_kill_switch_engaged s = false ->
     disengage s true w = (Ok tt, w') -> w_now w <= t ->
     (assert_disengaged s true (set_now t w')).1 = Ok tt).
Proof.
  split; [|split].
  - intros Hs. unfold assert_disengaged, ks_status, disengage, bind. by rewrite Hs.
  - intros w' t v r. apply engaged_blocks.
  - intros w' t Hs Hd Ht. unfold disengage in Hd. rewrite Hs in Hd; simpl in Hd.
    inv_ok Hd. unfold ret in Hd. injection Hd as <-.
    apply redis_call_ok in Hm as (Hm & _).
    pose proof (redis_delete_ok _ _ _ _ _ Hm t Ht) as Hl.
    unfold assert_disengaged, ks_status. rewrite Hs.
    unfold bind, catch, redis_call, ret; simpl.
    destruct (redis_get t KILL_SWITCH_KEY (w_redis w0)) as [[v|e] r] eqn:Hg; [|done].
    destruct (redis_get_ok _ _ _ _ _ Hg) as [-> _]. by rewrite Hl.
Qed.

(** C35: the single-flight lock.  While the key is live (some submit of the same
    order holds it) a second caller's body runs with [acquired = false] and
    the caller leaves Redis exactly as its body did: it never releases a lock
    it does not hold.  A caller that did acquire it and finds, after its body,
    that the key no longer carries its own token (the lock expired and was
    taken over) does not delete it. *)
Theorem single_flight_discipline {A} u k ttl (body : bool -> M exn W A) (w : W) :
  (forall v b r, redis_live (w_redis w) (w_now w) k = Some v ->
     redis_set_nx_ex (w_now w) k (u (w_entropy w)) ttl (w_redis w) = (Ok b, r) ->
     single_flight u true k ttl body w = body false (bump_entropy w)) /\
  (forall r x w2, redis_live (w_redis w) (w_now w) k = None ->
     redis_set_nx_ex (w_now w) k (u (w_entropy w)) ttl (w_redis w) = (Ok true, r) ->
     body true (set_redis r (bump_entropy w)) = (x, w2) ->
     redis_live (w_redis w2) (w_now w2) k ≠ Some (RStr (u (w_entropy w))) ->
     (exists v r2, redis_get (w_now w2) k (w_redis w2) = (Ok v, r2)) ->
     single_flight u true k ttl body w = (x, w2)).
Proof.
  split.
  - intros v b r Hl Hs. unfold single_flight, uuid4, bind, catch, redis_call; simpl.
    rewrite Hs. destruct (redis_set_nx_ok _ _ _ _ _ _ _ Hs) as [(-> & _ & ->)|(_ & Hn & _)];
      [|congruence].
    unfold finally, ret; simpl.
    replace (set_redis (w_redis w) (bump_entropy w)) with (bump_entropy w) by by destruct w.
    by destruct (body false (bump_entropy w)).
  - intros r x w2 Hl Hs Hb Hne (v & r2 & Hg).
    unfold single_flight, uuid4, bind, catch, redis_call; simpl. rewrite Hs.
    unfold finally; simpl. rewrite Hb. unfold _RELEASE_LUA. rewrite Hg.
    destruct (redis_get_ok _ _ _ _ _ Hg) as [-> ->]. rewrite decide_False by done.
    unfold ret. destruct w2; done.
Qed.
End cache_facts.

(** ** A concrete Redis, used to evaluate examples *)

Record ExRedis := { er_up : bool; er_keys : gmap string (rvalue * option Z) }.

Definition er_live (r : ExRedis) (t : Z) (k : string) : option rvalue :=
  match er_keys r !! k with
  | Some (v, None) => Some v
  | Some (v, Some e) => if t <? e then Some v else None
  | None => None
  end.

Definition er_put (r : ExRedis) k v : ExRedis :=
  {| er_up := er_up r; er_keys := <[k := v]> (er_keys r) |}.

Definition er_guard {A} (r : ExRedis) (x : result exn A * ExRedis) : result exn A * ExRedis :=
  if er_up r then x else (Err RedisError, r).

#[export] Instance ExRedisOps : RedisOps ExRedis := {|
  redis_get t k r := er_guard r (Ok (er_live r t k), r);
  redis_set t k s r := er_guard r (Ok tt, er_put r k (RStr s, None));
  redis_set_nx_ex t k s ttl r := er_guard r
    match er_live r t k with
    | Some _ => (Ok false, r)
    | None => (Ok true, er_put r k (RStr s, Some (t + ttl * 1000000)))
    end;
  redis_incr t k r := er_guard r
    (let n := 1 + match er_live r t k with Some (RInt m) => m | _ => 0 end in
     let e := match er_live r t k, er_keys r !! k with
              | Some _, Some (_, e) => e | _, _ => None end in
     (Ok n, er_put r k (RInt n, e)));
  redis_expire t k ttl r := er_guard r
    (Ok tt, match er_live r t k with
            | Some v => er_put r k (v, Some (t + ttl * 1000000))
            | None => {| er_up := er_up r; er_keys := base.delete k (er_keys r) |} end);
  redis_delete t k r := er_guard r
    (Ok 1, {| er_up := er_up r; er_keys := base.delete k (er_keys r) |});
|}.

#[export] Instance ExRedisSpec : RedisSpec ExRedis.
Proof.
  refine {| redis_live := er_live |}; simpl; unfold er_guard; intros *;
    destruct (er_up r) eqn:Hu; try discriminate.
  - by intros [= <- <-].
  - intros [= <-] t _. unfold er_live; simpl. by rewrite lookup_insert_eq.
  - destruct (er_live r now k) eqn:Hl; intros [= <- <-].
    + left. by eauto.
    + right. split; [done|]. split; [done|]. intros t Ht. unfold er_live; simpl.
      rewrite lookup_insert_eq. by rewrite (proj2 (Z.ltb_lt _ _)) by lia.
  - intros [= <- <-]. split; [done|].
    unfold er_live at 1; simpl. rewrite lookup_insert_eq.
    unfold er_live; simpl. destruct (er_keys r !! k) as [[v [e|]]|]; simpl; [|done|done].
    destruct (now <? e) eqn:He; [|done]. by rewrite He.
  - intros [= <- <-] t k' Hk. unfold er_live at 1; simpl. by rewrite lookup_insert_ne.
  - by intros [= <- <-].
  - intros [= <- <-] t k' Hk. unfold er_live at 1.
    destruct (er_live r now k); simpl; [by rewrite lookup_insert_ne|by rewrite lookup_delete_ne].
  - by intros [= <- <-].
  - intros [= <-] t Ht. destruct (er_live r now k) eqn:Hl; unfold er_live at 1; simpl.
    + rewrite lookup_insert_eq. by rewrite (proj2 (Z.ltb_lt _ _)) by lia.
    + by rewrite lookup_delete_eq.
  - intros [= <- <-] t _. unfold er_live; simpl. by rewrite lookup_delete_eq.
Defined.

Definition ex_redis : ExRedis := {| er_up := true; er_keys := ∅ |}.

Definition ex_rworld : world ExRedis unit :=
  {| w_db := db_empty; w_hub := None; w_redis := ex_redis; w_venue := tt;
     w_now := 1000; w_entropy := 0 |}.

Lemma kill_switch_trip_holds_witness :
  exists w', engage true ex_rworld = (Ok tt, w') /\
    (assert_disengaged Settings_default true (set_now 99000000 w')).1 = Err KillSwitchEngagedError.
Proof.
  eexists. split; [reflexivity|].
  eapply (proj1 (proj2 (kill_switch_trip_holds Settings_default ex_rworld)));
    [reflexivity | done | reflexivity].
Defined.

Lemma single_flight_discipline_witness :
  let w1 := set_redis (er_put ex_redis "k" (RStr "other", Some 5000000)) ex_rworld in
  single_flight (fun _ => "tok"%string) true "k" 10 (fun b => ret b) w1
    = (Ok false, bump_entropy w1).
Proof.
  intros w1.
  rewrite (proj1 (single_flight_discipline (fun _ => "tok"%string) "k" 10
    (fun b => ret b) w1) (RStr "other") false (w_redis w1)); reflexivity.
Defined.
