(* ===== verification/RateLimit.v ===== *)
(** * RateLimit: the venue-facing token bucket ([adapters/rate_limit.py])

    Times are seconds and tokens are counts, both exact rationals here (floats in
    the code).  The lock serialises [acquire], so a run of the bucket is a
    sequence of acquires with time passing in between. *)

From S2P Require Import Prelude.
From stdpp Require Import base list relations.
From Stdlib Require Import ZArith QArith Qminmax Lqa Lia.
Open Scope Q_scope.

Record TokenBucket := {
  tb_rate : Q;
  tb_capacity : Q;
  tb_tokens : Q;
  tb_updated : Q;
}.

(** [TokenBucket(rate_per_second)] created at [now]. *)
Definition TokenBucket_new (rate_per_second now : Q) : TokenBucket :=
  {| tb_rate := rate_per_second; tb_capacity := rate_per_second; tb_tokens := rate_per_second;
     tb_updated := now |}.

Definition enabled (b : TokenBucket) : bool := negb (Qle_bool (tb_rate b) 0).

Definition tb_set (tokens updated : Q) (b : TokenBucket) : TokenBucket :=
  {| tb_rate := tb_rate b; tb_capacity := tb_capacity b; tb_tokens := tokens;
     tb_updated := updated |}.

Definition _refill_locked (timestamp : Q) (b : TokenBucket) : TokenBucket :=
  let elapsed := timestamp - tb_updated b in
  if negb (Qle_bool elapsed 0)
  then tb_set (Qmin (tb_capacity b) (tb_tokens b + elapsed * tb_rate b)) timestamp b
  else tb_set (tb_tokens b) timestamp b.

(** [acquire] on the bucket and the monotonic clock: the bucket, the clock when
    it returns and the wait it enforced, if any.  [sleep t d] is the clock after
    [asyncio.sleep(d)] started at [t]. *)
Definition acquire (sleep : Q -> Q -> Q) (now : Q) (b : TokenBucket)
    : TokenBucket * Q * option Q :=
  if negb (enabled b) then (b, now, None)
  else
    let b1 := _refill_locked now b in
    if Qle_bool 1 (tb_tokens b1) then (tb_set (tb_tokens b1 - 1) (tb_updated b1) b1, now, None)
    else
      let wait := (1 - tb_tokens b1) / tb_rate b1 in
      let now' := sleep now wait in
      let b2 := _refill_locked now' b1 in
      (tb_set (Qmax 0 (tb_tokens b2 - 1)) (tb_updated b2) b2, now', Some wait).

Section limiter.
Context (sleep : Q -> Q -> Q).
(* asyncio.sleep wakes no earlier than asked *)
Hypothesis sleep_advances : forall t d, t + d <= sleep t d.

(** A run: acquires, and time passing between them; indexed by the number of
    acquires and the clock at the end. *)
Inductive run : TokenBucket -> Q -> nat -> TokenBucket -> Q -> Prop :=
  | run_nil b t : run b t 0 b t
  | run_idle b t t' n b2 t2 : t <= t' -> run b t' n b2 t2 -> run b t n b2 t2
  | run_acquire b t b1 t1 w n b2 t2 :
      acquire sleep t b = (b1, t1, w) -> run b1 t1 n b2 t2 -> run b t (S n) b2 t2.

(** The bucket's invariant at clock [t]. *)
Record bucket_ok (b : TokenBucket) (t : Q) : Prop := {
  bo_rate : 0 < tb_rate b;
  bo_capacity : tb_capacity b = tb_rate b;
  bo_tokens : 0 <= tb_tokens b <= tb_rate b;
  bo_updated : tb_updated b <= t;
}.

(** The tokens a refill at clock [t] would find. *)
Definition credit (b : TokenBucket) (t : Q) : Q :=
  Qmin (tb_rate b) (tb_tokens b + tb_rate b * (t - tb_updated b)).

Lemma Qle_bool_false x y : Qle_bool x y = false -> y < x.
Proof. intros H. apply Qnot_le_lt. rewrite <- Qle_bool_iff. by rewrite H. Qed.

Ltac proj := cbn [tb_set tb_rate tb_capacity tb_tokens tb_updated].

Lemma refill_facts t b : bucket_ok b t ->
  let b' := _refill_locked t b in
  bucket_ok b' t /\ tb_rate b' = tb_rate b /\ tb_updated b' = t /\ tb_tokens b' == credit b t.
Proof.
  intros [Hr Hc [Ht0 Ht1] Hu]. unfold _refill_locked, credit.
  assert (Hp : 0 <= tb_rate b * (t - tb_updated b)) by (apply Qmult_le_0_compat; lra).
  assert (E : (t - tb_updated b) * tb_rate b == tb_rate b * (t - tb_updated b)) by ring.
  destruct (Qle_bool (t - tb_updated b) 0) eqn:He; simpl.
  - apply Qle_bool_iff in He. assert (Hz : t - tb_updated b == 0) by lra. rewrite Hz in *.
    split; [split; simpl; auto; lra|]. split; [done|]. split; [done|].
    destruct (Q.min_spec (tb_rate b) (tb_tokens b + tb_rate b * 0)) as [[Hm ->]|[Hm ->]]; lra.
  - rewrite Hc.
    destruct (Q.min_spec (tb_rate b) (tb_tokens b + (t - tb_updated b) * tb_rate b)) as [[Hm Em]|[Hm Em]];
    destruct (Q.min_spec (tb_rate b) (tb_tokens b + tb_rate b * (t - tb_updated b))) as [[Hm' Em']|[Hm' Em']];
    (split; [split; proj; auto; lra|]);
      (split; [done|]; split; [done|]); proj; lra.
Qed.

Lemma credit_le b t : credit b t <= tb_rate b.
Proof. apply Q.le_min_l. Qed.

Lemma credit_later b t t' : 0 < tb_rate b -> t <= t' ->
  credit b t' <= credit b t + tb_rate b * (t' - t).
Proof.
  intros Hr Ht. unfold credit.
  assert (0 <= tb_rate b * (t' - t)) by (apply Qmult_le_0_compat; lra).
  assert (tb_rate b * (t' - tb_updated b) == tb_rate b * (t - tb_updated b) + tb_rate b * (t' - t)) by ring.
  destruct (Q.min_spec (tb_rate b) (tb_tokens b + tb_rate b * (t' - tb_updated b))) as [[? E]|[? E]];
  destruct (Q.min_spec (tb_rate b) (tb_tokens b + tb_rate b * (t - tb_updated b))) as [[? E']|[? E']];
  rewrite E, E'; lra.
Qed.

(** A bucket refilled at [t] holds its credit. *)
Lemma credit_now b t : tb_updated b = t -> tb_tokens b <= tb_rate b -> credit b t == tb_tokens b.
Proof.
  intros <- Ht. unfold credit. assert (tb_rate b * (tb_updated b - tb_updated b) == 0) by ring.
  destruct (Q.min_spec (tb_rate b) (tb_tokens b + tb_rate b * (tb_updated b - tb_updated b)))
    as [[? E]|[? E]]; rewrite E; lra.
Qed.

(** One acquire spends one unit of credit, and returns no earlier than it was
    called. *)
Lemma acquire_credit t b b1 t1 w : bucket_ok b t -> acquire sleep t b = (b1, t1, w) ->
  bucket_ok b1 t1 /\ tb_rate b1 = tb_rate b /\ t <= t1 /\
  credit b1 t1 + 1 <= credit b t + tb_rate b * (t1 - t).
Proof.
  intros Hok. pose proof (refill_facts t b Hok) as (Hok1 & Hr1 & Hu1 & Hc).
  pose proof (bo_rate _ _ Hok) as Hrate. unfold acquire, enabled.
  destruct (Qle_bool (tb_rate b) 0) eqn:He; [apply Qle_bool_iff in He; lra|]. simpl.
  set (r := _refill_locked t b) in *. pose proof Hok1 as [Hrp Hc1 [Hn1 Hx1] Hup].
  destruct (Qle_bool 1 (tb_tokens r)) eqn:Hfast; intros [= <- <- _].
  - apply Qle_bool_iff in Hfast. split; [split; proj; auto; lra|]. split; [done|]. split; [lra|].
    rewrite credit_now by (proj; auto; lra). proj. assert (tb_rate b * (t - t) == 0) by ring. lra.
  - apply Qle_bool_false in Hfast. set (wait := (1 - tb_tokens r) / tb_rate r).
    assert (Hw : tb_rate r * wait == 1 - tb_tokens r) by (unfold wait; field; lra).
    assert (Hw0 : 0 <= wait) by (unfold wait; apply Qle_shift_div_l; lra).
    pose proof (sleep_advances t wait) as Hs. set (t1' := sleep t wait) in *.
    assert (Hok1' : bucket_ok r t1') by (destruct Hok1; split; try done; lra).
    pose proof (refill_facts t1' r Hok1') as (Hok2 & Hr2 & Hu2 & Hc2).
    set (r2 := _refill_locked t1' r) in *. pose proof Hok2 as [Hrp2 Hcap2 [Hn2 Hx2] Hup2].
    assert (Hmax : 0 <= Qmax 0 (tb_tokens r2 - 1) /\ Qmax 0 (tb_tokens r2 - 1) <= tb_rate r2)
      by (destruct (Q.max_spec 0 (tb_tokens r2 - 1)) as [[? E]|[? E]]; rewrite E; lra).
    split; [split; proj; auto; lra|]. split; [proj; congruence|]. split; [lra|].
    rewrite credit_now by (proj; auto; lra). proj. rewrite <- Hr1, <- Hc.
    assert (Hmul : tb_rate r * wait <= tb_rate r * (t1' - t))
      by (apply Qmult_le_l; lra).
    pose proof (credit_later r t t1' ltac:(lra) ltac:(lra)) as Hl.
    rewrite (credit_now r t) in Hl by done.
    destruct (Q.max_spec 0 (tb_tokens r2 - 1)) as [[? E]|[? E]]; rewrite E; lra.
Qed.

Lemma run_credit b t n b2 t2 : run b t n b2 t2 -> bucket_ok b t ->
  bucket_ok b2 t2 /\ tb_rate b2 = tb_rate b /\ t <= t2 /\
  credit b2 t2 + inject_Z (Z.of_nat n) <= credit b t + tb_rate b * (t2 - t).
Proof.
  induction 1 as [b t|b t t' n b2 t2 Hle _ IH|b t b1 t1 w n b2 t2 Ha _ IH]; intros Hok.
  - split; [done|]. split; [done|]. split; [lra|].
    assert (tb_rate b * (t - t) == 0) by ring. change (inject_Z (Z.of_nat 0)) with 0. lra.
  - destruct IH as (H1 & H2 & H3 & H4); [destruct Hok; split; auto; lra|].
    split; [done|]. split; [done|]. split; [lra|].
    pose proof (credit_later b t t' (bo_rate _ _ Hok) Hle).
    assert (tb_rate b * (t2 - t) == tb_rate b * (t2 - t') + tb_rate b * (t' - t)) by ring. lra.
  - destruct (acquire_credit t b b1 t1 w Hok Ha) as (Hok1 & Hr & Ht & Hc).
    destruct (IH Hok1) as (H1 & H2 & H3 & H4). split; [done|]. split; [congruence|]. split; [lra|].
    rewrite Nat2Z.inj_succ, <- Z.add_1_r, inject_Z_plus. change (inject_Z 1) with 1.
    rewrite Hr in H4.
    assert (tb_rate b * (t2 - t) == tb_rate b * (t2 - t1) + tb_rate b * (t1 - t)) by ring. lra.
Qed.

Lemma run_snoc b t n b2 t2 : run b t n b2 t2 -> forall t' b3 t3 w, t2 <= t' ->
  acquire sleep t' b2 = (b3, t3, w) -> run b t (S n) b3 t3.
Proof.
  induction 1 as [b t|b t t1 n b2 t2 Hle _ IH|b t b1 t1 w1 n b2 t2 Ha _ IH]; intros t' b3 t3 w Ht Hac.
  - eapply run_idle; [exact Ht|]. eapply run_acquire; [exact Hac | apply run_nil].
  - eapply run_idle; [exact Hle|]. by eapply IH.
  - eapply run_acquire; [exact Ha|]. by eapply IH.
Qed.

(** C37: the bucket paces the venue and never drops a request.  From any point of
    an enabled bucket's life, in any interleaving of acquires and idle time, the
    number of placements it lets through in a window is at most one second's
    burst plus the rate times the window's length; the bucket stays within its
    capacity; and a further acquire always goes through, after a wait of at most
    one token's time. *)
Theorem rate_limit_bound b t n b2 t2 :
  bucket_ok b t -> run b t n b2 t2 ->
  inject_Z (Z.of_nat n) <= tb_rate b + tb_rate b * (t2 - t) /\
  bucket_ok b2 t2 /\
  (forall t', t2 <= t' -> exists b3 t3 w, acquire sleep t' b2 = (b3, t3, w) /\
     run b t (S n) b3 t3 /\ match w with Some d => 0 < d <= / tb_rate b | None => t3 = t' end).
Proof.
  intros Hok Hrun. destruct (run_credit _ _ _ _ _ Hrun Hok) as (Hok2 & Hr & Ht & Hc).
  pose proof (credit_le b t) as Hle.
  assert (Hpos : 0 <= credit b2 t2).
  { destruct (refill_facts t2 b2 Hok2) as ([_ _ [? _] _] & _ & _ & E). lra. }
  split; [lra|]. split; [done|]. intros t' Ht'.
  destruct (acquire sleep t' b2) as [[b3 t3] w] eqn:Ha. exists b3, t3, w. split; [done|].
  split; [by eapply run_snoc|]. revert Ha. unfold acquire, enabled.
  assert (Hok' : bucket_ok b2 t') by (destruct Hok2; split; auto; lra).
  destruct (refill_facts t' b2 Hok') as ([Hrp _ [Hn _] _] & Hr' & _ & _).
  rewrite <- Hr, <- Hr'. set (r := _refill_locked t' b2) in *.
  destruct (negb (negb _)); [by intros [= _ <- <-]|].
  destruct (Qle_bool 1 (tb_tokens r)) eqn:Hf; intros [= _ <- <-]; [done|].
  apply Qle_bool_false in Hf. split.
  - apply Qlt_shift_div_l; lra.
  - apply Qle_shift_div_r; [lra|]. assert (/ tb_rate r * tb_rate r == 1) by (field; lra). lra.
Qed.
End limiter.

(** Five requests a second, a sleep that takes exactly as long as asked: six
    acquires at one instant, and the sixth waits a fifth of a second. *)
Definition ex_bucket : TokenBucket := TokenBucket_new 5 0.

Lemma rate_limit_bound_witness :
  exists b2 t2, run (fun t d => t + d) ex_bucket 0 6 b2 t2 /\ inject_Z 6 <= 5 + 5 * (t2 - 0) /\
    t2 == 1 # 5.
Proof.
  assert (Hex : exists b2 t2, run (fun t d => t + d) ex_bucket 0 6 b2 t2 /\ t2 == 1 # 5).
  { eexists _, _. split; [|].
    - do 6 (eapply run_acquire; [vm_compute; reflexivity|]). apply run_nil.
    - vm_compute. reflexivity. }
  destruct Hex as (b2 & t2 & Hrun & Ht). exists b2, t2. split; [exact Hrun|]. split; [|exact Ht].
  apply (rate_limit_bound (fun t d => t + d) (fun t d => Qle_refl _) ex_bucket 0 6 b2 t2); [|exact Hrun].
  split; vm_compute; try split; try reflexivity; try discriminate.
Defined.
