(* ===== verification/OrderBook.v ===== *)
(** * OrderBook: the normalized L2 book ([order_book/models.py]) *)

From S2P Require Import Prelude Decimals Contracts.
From stdpp Require Import base gmap strings list.
From Stdlib Require Import ZArith Lia.
Open Scope Z_scope.

Record OrderBookLevel := { obl_price : Decimal; obl_volume : Z }.

Record OrderBook := {
  ob_symbol : string;
  ob_market : Market;
  ob_bid_levels : list OrderBookLevel;
  ob_ask_levels : list OrderBookLevel;
  ob_sequence : Z;
  ob_received_at : Z;
}.

Definition best_bid (b : OrderBook) : option OrderBookLevel := head (ob_bid_levels b).
Definition best_ask (b : OrderBook) : option OrderBookLevel := head (ob_ask_levels b).
