(* ===== verification/BookService.v ===== *)
(** * BookService: the order-book cache, its fan-out and the provider router
    ([order_book/service.py], [order_book/router.py])

    One state for the service and the router it owns.  [Source] is the provider
    enum; the feed is what the providers were last asked for, through the
    [OrderBookProvider] interface.  Time is in microseconds. *)

From S2P Require Import Prelude Decimals Contracts OrderBook.
From stdpp Require Import base gmap strings list relations.
From Stdlib Require Import ZArith Lia.
Open Scope Z_scope.

(** [_Key] *)
Abbreviation Key := (string * Market)%type.

#[export] Instance Market_countable : Countable Market.
Proof.
  refine (inj_countable' (fun m => match m with SET_ => true | TFEX => false end)
    (fun b : bool => if b then SET_ else TFEX) _).
  by intros [].
Defined.

Definition book_key (b : OrderBook) : Key := (ob_symbol b, ob_market b).

(** A bounded queue; [q_id] is the object's identity. *)
Record Queue := { q_id : nat; q_items : list OrderBook }.

Section service.
Context {Source : Type} `{Countable Source}.

Record ServiceConfig := {
  sc_max_symbols : Z;
  sc_max_age : Z;
  sc_subscriber_queue_size : Z;
  sc_providers : list Source;               (* insertion order of the dict *)
  sc_overrides : gmap string Source;
  sc_error_threshold : Z;
  sc_window : Z;
}.

Record ServiceState := {
  sv_cache : list (Key * OrderBook);        (* OrderedDict, least recently used first *)
  sv_subscribers : gmap Key (list Queue);
  sv_refcounts : gmap Key Z;
  pr_active : Source;
  pr_subscriptions : list (Key * Source);   (* insertion order of the dict *)
  pr_error_times : gmap Source (list Z);
  pv_feed : gset (Source * Key);            (* what the providers are subscribed to *)
}.

Context (cfg : ServiceConfig).

Definition set_cache (c : list (Key * OrderBook)) (s : ServiceState) : ServiceState :=
  {| sv_cache := c; sv_subscribers := sv_subscribers s; sv_refcounts := sv_refcounts s;
     pr_active := pr_active s; pr_subscriptions := pr_subscriptions s;
     pr_error_times := pr_error_times s; pv_feed := pv_feed s |}.
Definition set_subscribers (q : gmap Key (list Queue)) (r : gmap Key Z) (s : ServiceState)
    : ServiceState :=
  {| sv_cache := sv_cache s; sv_subscribers := q; sv_refcounts := r;
     pr_active := pr_active s; pr_subscriptions := pr_subscriptions s;
     pr_error_times := pr_error_times s; pv_feed := pv_feed s |}.
Definition set_router (a : Source) (subs : list (Key * Source)) (feed : gset (Source * Key))
    (s : ServiceState) : ServiceState :=
  {| sv_cache := sv_cache s; sv_subscribers := sv_subscribers s; sv_refcounts := sv_refcounts s;
     pr_active := a; pr_subscriptions := subs; pr_error_times := pr_error_times s;
     pv_feed := feed |}.
Definition set_errors (e : gmap Source (list Z)) (s : ServiceState) : ServiceState :=
  {| sv_cache := sv_cache s; sv_subscribers := sv_subscribers s; sv_refcounts := sv_refcounts s;
     pr_active := pr_active s; pr_subscriptions := pr_subscriptions s;
     pr_error_times := e; pv_feed := pv_feed s |}.

(** ** dict and OrderedDict *)

Fixpoint dict_get {A} (k : Key) (d : list (Key * A)) : option A :=
  match d with
  | [] => None
  | (k', v) :: d' => if decide (k = k') then Some v else dict_get k d'
  end.
Definition dict_del {A} (k : Key) (d : list (Key * A)) : list (Key * A) :=
  filter (fun kv => kv.1 ≠ k) d.
(** [d[k] = v] keeps the position of an existing key. *)
Fixpoint dict_set {A} (k : Key) (v : A) (d : list (Key * A)) : list (Key * A) :=
  match d with
  | [] => [(k, v)]
  | (k', v') :: d' => if decide (k = k') then (k, v) :: d' else (k', v') :: dict_set k v d'
  end.
(** [d[k] = v; d.move_to_end(k)] *)
Definition dict_set_end {A} (k : Key) (v : A) (d : list (Key * A)) : list (Key * A) :=
  dict_del k d ++ [(k, v)].

(** ** The cache *)

(** [while len(cache) > max_symbols: popitem(last=False)]; a negative bound, which
    would pop an empty dict, counts as 0. *)
Definition _evict (c : list (Key * OrderBook)) : list (Key * OrderBook) :=
  drop (Z.to_nat (Z.of_nat (length c) - Z.max 0 (sc_max_symbols cfg))) c.

(** [put_nowait], dropping the oldest book of a full queue; a size of 0 or less
    is unbounded. *)
Definition offer_book (b : OrderBook) (q : Queue) : Queue :=
  let n := sc_subscriber_queue_size cfg in
  if (0 <? n) && (n <=? Z.of_nat (length (q_items q)))
  then {| q_id := q_id q; q_items := tail (q_items q) ++ [b] |}
  else {| q_id := q_id q; q_items := q_items q ++ [b] |}.

Definition publish_book (b : OrderBook) (s : ServiceState) : ServiceState :=
  let k := book_key b in
  let s1 := set_cache (_evict (dict_set_end k b (sv_cache s))) s in
  match sv_subscribers s1 !! k with
  | None => s1
  | Some qs => set_subscribers (<[k := map (offer_book b) qs]> (sv_subscribers s1)) (sv_refcounts s1) s1
  end.

Definition get_book (now : Z) (k : Key) (s : ServiceState) : option OrderBook * ServiceState :=
  match dict_get k (sv_cache s) with
  | None => (None, s)
  | Some b =>
      if sc_max_age cfg <? now - ob_received_at b then (None, s)
      else (Some b, set_cache (dict_set_end k b (sv_cache s)) s)
  end.

(** ** The provider router *)

Definition _route_for (symbol : string) (s : ServiceState) : Source :=
  match sc_overrides cfg !! symbol with
  | Some o => if decide (o ∈ sc_providers cfg) then o else pr_active s
  | None => pr_active s
  end.

Definition router_subscribe (k : Key) (s : ServiceState) : ServiceState :=
  let source := _route_for k.1 s in
  set_router (pr_active s) (dict_set k source (pr_subscriptions s)) ({[(source, k)]} ∪ pv_feed s) s.

Definition router_unsubscribe (k : Key) (s : ServiceState) : ServiceState :=
  match dict_get k (pr_subscriptions s) with
  | None => s
  | Some source =>
      set_router (pr_active s) (dict_del k (pr_subscriptions s)) (pv_feed s ∖ {[(source, k)]}) s
  end.

(** Any configured provider other than the active one, in dict order. *)
Definition _secondary (s : ServiceState) : option Source :=
  List.find (fun src => bool_decide (src ≠ pr_active s)) (sc_providers cfg).

Definition move_one (previous secondary : Source) (s : ServiceState) (k : Key) : ServiceState :=
  set_router (pr_active s) (dict_set k secondary (pr_subscriptions s))
    ({[(secondary, k)]} ∪ (pv_feed s ∖ {[(previous, k)]})) s.

Definition _failover (s : ServiceState) : ServiceState :=
  match _secondary s with
  | None => s
  | Some secondary =>
      let previous := pr_active s in
      let moving := map fst (filter (fun kv => kv.2 = previous /\ sc_overrides cfg !! kv.1.1 = None)
                               (pr_subscriptions s)) in
      let s1 := set_errors (<[previous := []]> (pr_error_times s))
                  (set_router secondary (pr_subscriptions s) (pv_feed s) s) in
      fold_left (move_one previous secondary) moving s1
  end.

Definition on_error (source : Source) (now : Z) (s : ServiceState) : ServiceState :=
  let window := filter (fun t => now - sc_window cfg <= t)
                  (default [] (pr_error_times s !! source) ++ [now]) in
  let s1 := set_errors (<[source := window]> (pr_error_times s)) s in
  if decide (source ≠ pr_active s) then s1
  else if Z.of_nat (length window) <? sc_error_threshold cfg then s1
  else _failover s1.

(** ** Subscriptions *)

Definition _acquire (k : Key) (id : nat) (s : ServiceState) : ServiceState :=
  let qs := default [] (sv_subscribers s !! k) ++ [{| q_id := id; q_items := [] |}] in
  let count := default 0 (sv_refcounts s !! k) + 1 in
  let s1 := set_subscribers (<[k := qs]> (sv_subscribers s)) (<[k := count]> (sv_refcounts s)) s in
  if count =? 1 then router_subscribe k s1 else s1.

(** [if queue in subs.queues: subs.queues.remove(queue)] *)
Fixpoint remove_queue (id : nat) (qs : list Queue) : list Queue :=
  match qs with
  | [] => []
  | q :: qs' => if Nat.eqb (q_id q) id then qs' else q :: remove_queue id qs'
  end.

Definition _release (k : Key) (id : nat) (s : ServiceState) : ServiceState :=
  let subs := match sv_subscribers s !! k with
              | Some qs => <[k := remove_queue id qs]> (sv_subscribers s)
              | None => sv_subscribers s
              end in
  let count := Z.max (default 0 (sv_refcounts s !! k) - 1) 0 in
  if count =? 0
  then router_unsubscribe k (set_subscribers (delete k subs) (delete k (sv_refcounts s)) s)
  else set_subscribers subs (<[k := count]> (sv_refcounts s)) s.

(** The consumer of queue [id] takes the oldest book ([queue.get()]). *)
Definition take_queue (id : nat) (q : Queue) : Queue :=
  if Nat.eqb (q_id q) id then {| q_id := q_id q; q_items := tail (q_items q) |} else q.
Definition take_book (k : Key) (id : nat) (s : ServiceState) : ServiceState :=
  set_subscribers (alter (map (take_queue id)) k (sv_subscribers s)) (sv_refcounts s) s.

(** ** Facts about the dicts *)

Lemma dict_get_set {A} k k' (v : A) d :
  dict_get k' (dict_set k v d) = if decide (k' = k) then Some v else dict_get k' d.
Proof.
  induction d as [|[k0 v0] d IH]; simpl; [done|].
  destruct (decide (k = k0)) as [->|Hk]; simpl; repeat case_decide; simplify_eq; auto.
Qed.

Lemma dict_get_del {A} k k' (d : list (Key * A)) :
  dict_get k' (dict_del k d) = if decide (k' = k) then None else dict_get k' d.
Proof.
  unfold dict_del. induction d as [|[k0 v0] d IH]; [by case_decide|].
  rewrite filter_cons. simpl. repeat case_decide; simplify_eq/=; try done; repeat case_decide; done.
Qed.

Lemma dict_get_in {A} k (v : A) d : dict_get k d = Some v -> (k, v) ∈ d.
Proof.
  induction d as [|[k0 v0] d IH]; simpl; [done|]. case_decide; intros; simplify_eq; set_solver.
Qed.

Lemma dict_get_nodup {A} k (v : A) d : NoDup d.*1 -> (k, v) ∈ d -> dict_get k d = Some v.
Proof.
  induction d as [|[k0 v0] d IH]; simpl; [by intros _ ?%not_elem_of_nil|].
  intros [Hn Hd]%NoDup_cons [E|Hin]%elem_of_cons; simplify_eq; [by rewrite decide_True|].
  case_decide; simplify_eq; [|auto]. destruct Hn. by apply (list_elem_of_fmap_2 fst) in Hin.
Qed.

Lemma dict_set_keys {A} k (v : A) d : NoDup d.*1 -> NoDup (dict_set k v d).*1 /\
  (forall k', k' ∈ (dict_set k v d).*1 -> k' = k \/ k' ∈ d.*1).
Proof.
  induction d as [|[k0 v0] d IH]; simpl; intros Hn.
  - split; [apply NoDup_singleton | set_solver].
  - apply NoDup_cons in Hn as [H1 H2]. destruct (IH H2) as [H3 H4].
    case_decide as Hk; [subst|]; rewrite fmap_cons; simpl.
    + split; [by apply NoDup_cons | set_solver].
    + split; [|set_solver]. apply NoDup_cons. split; [|exact H3].
      intros Hin. destruct (H4 _ Hin); [by subst | done].
Qed.

Lemma dict_del_keys {A} k (d : list (Key * A)) : NoDup d.*1 -> NoDup (dict_del k d).*1 /\
  k ∉ (dict_del k d).*1 /\ (forall k', k' ∈ (dict_del k d).*1 -> k' ∈ d.*1).
Proof.
  unfold dict_del. induction d as [|[k0 v0] d IH]; [intros _; cbn; split; [constructor | set_solver]|].
  rewrite fmap_cons. simpl.
  intros [H1 H2]%NoDup_cons. destruct (IH H2) as (H3 & H4 & H5).
  rewrite filter_cons. case_decide; simpl; [|set_solver].
  split; [apply NoDup_cons; set_solver | set_solver].
Qed.
End service.
Arguments ServiceConfig : clear implicits.
Arguments ServiceState Source {_ _}.
