(* ===== verification/BookServiceProps.v ===== *)
(** * BookServiceProps: no leaks, no growth, no stale book *)

From S2P Require Import Prelude Decimals Contracts OrderBook BookService.
From stdpp Require Import base gmap strings list relations.
From Stdlib Require Import ZArith Lia.
Open Scope Z_scope.

Section props.
Context {Source : Type} `{Countable Source}.
Context (cfg : ServiceConfig Source).
Abbreviation State := (ServiceState Source).

Definition queues_of (k : Key) (s : State) : list Queue := default [] (sv_subscribers s !! k).

(** Who is subscribed, to whom, on whose behalf. *)
Record wiring_ok (s : State) : Prop := {
  wo_refs : forall k n, sv_refcounts s !! k = Some n ->
    0 < n /\ n = Z.of_nat (length (queues_of k s));
  wo_none : forall k, sv_refcounts s !! k = None -> sv_subscribers s !! k = None;
  wo_ids : forall k, NoDup (map q_id (queues_of k s));
  wo_subs : forall k, is_Some (dict_get k (pr_subscriptions s)) <-> is_Some (sv_refcounts s !! k);
  wo_keys : NoDup (pr_subscriptions s).*1;
  wo_feed : forall src k, (src, k) ∈ pv_feed s <-> dict_get k (pr_subscriptions s) = Some src;
  wo_route : forall k src, dict_get k (pr_subscriptions s) = Some src ->
    sc_overrides cfg !! k.1 = None -> src = pr_active s;
}.

Record cache_ok (s : State) : Prop := {
  co_bound : Z.of_nat (length (sv_cache s)) <= Z.max 0 (sc_max_symbols cfg);
  co_keys : NoDup (sv_cache s).*1;
  co_entry : forall k b, (k, b) ∈ sv_cache s -> book_key b = k;
}.

Record queues_ok (s : State) : Prop := {
  qo_bound : forall k q, q ∈ queues_of k s -> 0 < sc_subscriber_queue_size cfg ->
    Z.of_nat (length (q_items q)) <= sc_subscriber_queue_size cfg;
}.

(** ** The cache *)

Lemma dict_set_end_keys {A} k (v : A) d : NoDup d.*1 -> NoDup (dict_set_end k v d).*1.
Proof.
  intros Hd. unfold dict_set_end. destruct (dict_del_keys k d Hd) as (H1 & H2 & _).
  rewrite fmap_app. apply NoDup_app. split; [done|]. split; [|apply NoDup_singleton]. set_solver.
Qed.

Lemma NoDup_drop {A} n (l : list A) : NoDup l -> NoDup (drop n l).
Proof. intros Hl. rewrite <- (take_drop n l) in Hl. by apply NoDup_app in Hl as (_ & _ & ?). Qed.

Lemma evict_ok c : NoDup c.*1 -> NoDup (_evict cfg c).*1 /\
  Z.of_nat (length (_evict cfg c)) <= Z.max 0 (sc_max_symbols cfg) /\
  (forall x, x ∈ _evict cfg c -> x ∈ c).
Proof.
  intros Hc. unfold _evict. split; [rewrite fmap_drop; by apply NoDup_drop|].
  split; [rewrite length_drop; lia|]. intros x Hx. by eapply subseteq_drop.
Qed.

Lemma publish_cache_ok b s : cache_ok s -> cache_ok (publish_book cfg b s).
Proof.
  intros [Hb Hk He].
  assert (Hc : cache_ok (set_cache (_evict cfg (dict_set_end (book_key b) b (sv_cache s))) s)).
  { destruct (evict_ok _ (dict_set_end_keys (book_key b) b _ Hk)) as (H1 & H2 & H3).
    split; simpl; try done. intros k x Hx. apply H3 in Hx. unfold dict_set_end in Hx.
    apply elem_of_app in Hx as [Hx|Hx%list_elem_of_singleton]; [|by simplify_eq].
    unfold dict_del in Hx. apply list_elem_of_filter in Hx as [_ Hx]. by apply He. }
  unfold publish_book. destruct Hc. simpl in *. by destruct (sv_subscribers s !! _); split.
Qed.

Lemma dict_set_end_length {A} k (v : A) d : is_Some (dict_get k d) -> NoDup d.*1 ->
  (length (dict_set_end k v d) <= length d)%nat.
Proof.
  intros [x Hx] _. unfold dict_set_end. rewrite length_app. simpl.
  enough (length (dict_del k d) < length d)%nat by lia. clear v. unfold dict_del. revert Hx.
  induction d as [|[k0 v0] d IH]; simpl; [done|]. rewrite filter_cons. simpl.
  pose proof (length_filter (fun kv : Key * A => kv.1 ≠ k) d) as Hle.
  repeat case_decide; simplify_eq; intros; simpl; try lia. specialize (IH Hx). lia.
Qed.

Lemma get_cache_ok now k s : cache_ok s -> cache_ok (get_book cfg now k s).2.
Proof.
  intros [Hb Hk He]. unfold get_book. destruct (dict_get k (sv_cache s)) as [b|] eqn:Hg; [|done].
  destruct (_ <? _); [done|]. simpl.
  pose proof (dict_set_end_length k b (sv_cache s) ltac:(by eexists) Hk).
  split; simpl; [lia | by apply dict_set_end_keys|].
  intros k' b' Hin. unfold dict_set_end in Hin.
  apply elem_of_app in Hin as [Hx|Hx%list_elem_of_singleton].
  - unfold dict_del in Hx. apply list_elem_of_filter in Hx as [_ Hx]. by apply He.
  - simplify_eq. apply He. by apply dict_get_in.
Qed.

(** ** The wiring *)

(** Writing only the contents of queues keeps the wiring. *)
Lemma wiring_queues (s : State) subs :
  (forall k, map q_id <$> subs !! k = map q_id <$> sv_subscribers s !! k) ->
  wiring_ok s -> wiring_ok (set_subscribers subs (sv_refcounts s) s).
Proof.
  intros Hq [W1 W2 W3 W4 W5 W6 W7].
  assert (Hids : forall k, map q_id (default [] (subs !! k)) = map q_id (queues_of k s)).
  { intros k. specialize (Hq k). unfold queues_of.
    destruct (subs !! k), (sv_subscribers s !! k); simplify_eq/=; done. }
  split; simpl; try done.
  - intros k n Hn. destruct (W1 k n Hn) as [? ->]. split; [done|].
    pose proof (f_equal length (Hids k)) as E. rewrite !length_map in E.
    unfold queues_of in *. simpl. by rewrite E.
  - intros k Hk. specialize (Hq k). rewrite (W2 k Hk) in Hq. by destruct (subs !! k).
  - intros k. unfold queues_of. simpl. rewrite Hids. apply W3.
Qed.

Lemma publish_wiring b s : wiring_ok s -> wiring_ok (publish_book cfg b s).
Proof.
  intros Hw. unfold publish_book. set (s1 := set_cache _ s).
  assert (Hw1 : wiring_ok s1) by (destruct Hw; by split).
  destruct (sv_subscribers s1 !! book_key b) as [qs|] eqn:Hqs; [|done].
  apply wiring_queues; [|done]. intros k. destruct (decide (book_key b = k)) as [<-|Hk].
  - rewrite lookup_insert_eq, Hqs. simpl. f_equal. rewrite map_map. apply map_ext.
    intros q. unfold offer_book. by case_match.
  - by rewrite lookup_insert_ne.
Qed.

Lemma take_wiring k id s : wiring_ok s -> wiring_ok (take_book k id s).
Proof.
  intros Hw. apply wiring_queues; [|done]. intros k'.
  destruct (decide (k = k')) as [<-|Hk].
  - rewrite lookup_alter_eq. destruct (sv_subscribers s !! k) as [qs|]; simpl; [|done]. f_equal.
    rewrite map_map. apply map_ext. intros q. unfold take_queue. by case_match.
  - by rewrite lookup_alter_ne.
Qed.

Lemma get_wiring now k s : wiring_ok s -> wiring_ok (get_book cfg now k s).2.
Proof. intros Hw. unfold get_book. repeat case_match; try done; destruct Hw; by split. Qed.

(** The first consumer of a key. *)
Lemma subscribe_wiring k (s s1 : State) qs :
  wiring_ok s -> sv_refcounts s !! k = None -> length qs = 1%nat ->
  s1 = set_subscribers (<[k := qs]> (sv_subscribers s)) (<[k := 1]> (sv_refcounts s)) s ->
  wiring_ok (router_subscribe cfg k s1).
Proof.
  intros [W1 W2 W3 W4 W5 W6 W7] Hnone Hlen ->.
  assert (Hsub : dict_get k (pr_subscriptions s) = None).
  { specialize (W4 k). rewrite Hnone in W4. destruct (dict_get k (pr_subscriptions s)); [|done].
    destruct W4 as [[? ?] _]; [by eexists | done]. }
  set (src := _route_for cfg k.1 s).
  split; simpl; unfold queues_of; simpl.
  - intros k' n. destruct (decide (k = k')) as [<-|Hk].
    + rewrite !lookup_insert_eq. intros [= <-]. simpl. by rewrite Hlen.
    + rewrite !lookup_insert_ne by done. apply W1.
  - intros k'. destruct (decide (k = k')) as [<-|Hk]; [by rewrite lookup_insert_eq|].
    rewrite !lookup_insert_ne by done. apply W2.
  - intros k'. destruct (decide (k = k')) as [<-|Hk].
    + rewrite lookup_insert_eq. destruct qs as [|q [|]]; try done. apply NoDup_singleton.
    + rewrite lookup_insert_ne by done. apply W3.
  - intros k'. rewrite dict_get_set. destruct (decide (k' = k)) as [->|Hk].
    + rewrite lookup_insert_eq. split; intros _; by eexists.
    + rewrite lookup_insert_ne by done. apply W4.
  - apply dict_set_keys, W5.
  - intros src' k'. rewrite dict_get_set, elem_of_union, elem_of_singleton, W6.
    case_decide as Hk; [subst k'; rewrite Hsub|].
    + split; [by intros [[= ->]|?] | intros [= ->]; by left].
    + split; [intros [[= ? ?]|?]; done | by right].
  - intros k' src'. rewrite dict_get_set. case_decide as Hk; [|apply W7].
    intros [= <-] Ho. subst k'. unfold _route_for. simpl. by rewrite Ho.
Qed.

Lemma acquire_wiring k id s :
  wiring_ok s -> id ∉ map q_id (queues_of k s) -> wiring_ok (_acquire cfg k id s).
Proof.
  intros Hw Hid. unfold _acquire. destruct (sv_refcounts s !! k) as [n|] eqn:Hn; simpl.
  - pose proof Hw as [W1 W2 W3 W4 W5 W6 W7]. destruct (W1 k n Hn) as [Hpos Hlen].
    rewrite (proj2 (Z.eqb_neq (n + 1) 1)) by lia.
    split; simpl; unfold queues_of in *; simpl; try done.
    + intros k' m. destruct (decide (k = k')) as [<-|Hk].
      * rewrite !lookup_insert_eq. intros [= <-]. simpl. rewrite length_app. simpl. lia.
      * rewrite !lookup_insert_ne by done. apply W1.
    + intros k'. destruct (decide (k = k')) as [<-|Hk]; [by rewrite lookup_insert_eq|].
      rewrite !lookup_insert_ne by done. apply W2.
    + intros k'. destruct (decide (k = k')) as [<-|Hk].
      * rewrite lookup_insert_eq. simpl. rewrite map_app. apply NoDup_app.
        split; [apply W3|]. split; [simpl; set_solver | apply NoDup_singleton].
      * rewrite lookup_insert_ne by done. apply W3.
    + intros k'. rewrite W4. destruct (decide (k = k')) as [<-|Hk].
      * rewrite lookup_insert_eq, Hn. split; intros _; by eexists.
      * by rewrite lookup_insert_ne.
  - eapply subscribe_wiring; [exact Hw | exact Hn | | reflexivity].
    unfold queues_of in *. by rewrite (wo_none _ Hw k Hn).
Qed.

Lemma remove_queue_ids id qs : NoDup (map q_id qs) -> id ∈ map q_id qs ->
  NoDup (map q_id (remove_queue id qs)) /\ S (length (remove_queue id qs)) = length qs /\
  (forall q, q ∈ remove_queue id qs -> q ∈ qs).
Proof.
  induction qs as [|q qs IH]; simpl; [by intros _ ?%not_elem_of_nil|].
  intros [Hn Hd]%NoDup_cons Hin. destruct (Nat.eqb_spec (q_id q) id) as [E|E].
  { split; [done|]. split; [done | set_solver]. }
  apply elem_of_cons in Hin as [?|Hin]; [done|]. destruct (IH Hd Hin) as (H1 & H2 & H3).
  simpl. split; [|split; [lia | set_solver]]. apply NoDup_cons. split; [|done].
  intros Hx. apply Hn. apply list_elem_of_fmap in Hx as (y & -> & Hy). by apply list_elem_of_fmap_2, H3.
Qed.

(** The last consumer of a key. *)
Lemma unsubscribe_wiring k (s s1 : State) :
  wiring_ok s -> is_Some (sv_refcounts s !! k) ->
  s1 = set_subscribers (delete k (sv_subscribers s)) (delete k (sv_refcounts s)) s ->
  wiring_ok (router_unsubscribe k s1).
Proof.
  intros [W1 W2 W3 W4 W5 W6 W7] Hsome ->. unfold router_unsubscribe. simpl.
  destruct (proj2 (W4 k) Hsome) as [src Hsrc]. rewrite Hsrc.
  split; simpl; unfold queues_of; simpl.
  - intros k' n. destruct (decide (k = k')) as [<-|Hk]; [by rewrite lookup_delete_eq|].
    rewrite !lookup_delete_ne by done. apply W1.
  - intros k'. destruct (decide (k = k')) as [<-|Hk]; [by rewrite !lookup_delete_eq|].
    rewrite !lookup_delete_ne by done. apply W2.
  - intros k'. destruct (decide (k = k')) as [<-|Hk]; [rewrite lookup_delete_eq; constructor|].
    rewrite !lookup_delete_ne by done. apply W3.
  - intros k'. rewrite dict_get_del. case_decide as Hk.
    + subst k'. rewrite lookup_delete_eq. by split; intros [? ?].
    + rewrite lookup_delete_ne by done. apply W4.
  - by apply dict_del_keys.
  - intros src' k'. rewrite dict_get_del, elem_of_difference, elem_of_singleton, W6.
    case_decide as Hk; [subst k'|].
    + split; [|done]. intros [E Hne]. destruct Hne. by simplify_eq.
    + split; [by intros [? _] | intros ?; split; [done | congruence]].
  - intros k' src'. rewrite dict_get_del. case_decide; [done | apply W7].
Qed.

Lemma release_wiring k id s :
  wiring_ok s -> id ∈ map q_id (queues_of k s) -> wiring_ok (_release k id s).
Proof.
  intros Hw Hid. pose proof Hw as [W1 W2 W3 W4 W5 W6 W7]. unfold _release, queues_of in *.
  destruct (sv_subscribers s !! k) as [qs|] eqn:Hqs; [|by apply not_elem_of_nil in Hid]. simpl in Hid.
  destruct (sv_refcounts s !! k) as [n|] eqn:Hn; [|by rewrite (W2 k Hn) in Hqs]. simpl.
  destruct (W1 k n Hn) as [Hpos Hlen]. rewrite Hqs in Hlen. simpl in Hlen.
  specialize (W3 k) as Hnd. rewrite Hqs in Hnd. simpl in Hnd.
  destruct (remove_queue_ids id qs Hnd Hid) as (H1 & H2 & _).
  destruct (Z.eqb_spec (n - 1) 0) as [Hz|Hz].
  - rewrite Z.max_l, (proj2 (Z.eqb_eq _ _) Hz) by lia.
    rewrite delete_insert_eq. eapply unsubscribe_wiring; [exact Hw | by eexists | done].
  - rewrite Z.max_l, (proj2 (Z.eqb_neq _ _) Hz) by lia.
    split; simpl; unfold queues_of; simpl; try done.
    + intros k' m. destruct (decide (k = k')) as [<-|Hk].
      * rewrite !lookup_insert_eq. intros [= <-]. simpl. lia.
      * rewrite !lookup_insert_ne by done. apply W1.
    + intros k'. destruct (decide (k = k')) as [<-|Hk]; [by rewrite lookup_insert_eq|].
      rewrite !lookup_insert_ne by done. apply W2.
    + intros k'. destruct (decide (k = k')) as [<-|Hk]; [by rewrite lookup_insert_eq|].
      rewrite lookup_insert_ne by done. apply W3.
    + intros k'. rewrite W4. destruct (decide (k = k')) as [<-|Hk].
      * rewrite lookup_insert_eq, Hn. split; intros _; by eexists.
      * by rewrite lookup_insert_ne.
Qed.

(** Moving a list of keys from one provider to another. *)
Lemma move_all prev sec moving : forall (s : State),
  NoDup (pr_subscriptions s).*1 -> prev ≠ sec ->
  (forall src k, (src, k) ∈ pv_feed s <-> dict_get k (pr_subscriptions s) = Some src) ->
  NoDup moving -> (forall k, k ∈ moving -> dict_get k (pr_subscriptions s) = Some prev) ->
  let s' := fold_left (move_one prev sec) moving s in
  NoDup (pr_subscriptions s').*1 /\
  (forall src k, (src, k) ∈ pv_feed s' <-> dict_get k (pr_subscriptions s') = Some src) /\
  (forall k, dict_get k (pr_subscriptions s') =
     if decide (k ∈ moving) then Some sec else dict_get k (pr_subscriptions s)) /\
  pr_active s' = pr_active s /\ sv_subscribers s' = sv_subscribers s /\
  sv_refcounts s' = sv_refcounts s /\ sv_cache s' = sv_cache s.
Proof.
  induction moving as [|k0 moving IH]; intros s Hk Hne Hf Hnd Hm; cbn [fold_left].
  { split; [done|]. split; [done|]. split; [|done]. intros k.
    by destruct (decide (k ∈ [])) as [?%not_elem_of_nil|]. }
  apply NoDup_cons in Hnd as [Hk0 Hnd].
  destruct (IH (move_one prev sec s k0)) as (I1 & I2 & I3 & I4).
  - simpl. by apply dict_set_keys.
  - done.
  - intros src k. simpl. rewrite dict_get_set, elem_of_union, elem_of_difference, !elem_of_singleton, Hf.
    case_decide as E; [subst k|].
    + rewrite (Hm k0) by set_solver. split; [|intros [= ->]; by left].
      intros [[= ->]|[[= ->] Hx]]; [done | by destruct Hx].
    + split; [intros [[= ? ?]|[? _]]; done | intros ?; right; split; [done | congruence]].
  - done.
  - intros k Hin. simpl. rewrite dict_get_set. case_decide; [by subst | apply Hm; set_solver].
  - split; [done|]. split; [done|]. split; [|done]. intros k. rewrite I3. simpl. rewrite dict_get_set.
    repeat case_decide; try done; set_solver.
Qed.

Lemma failover_wiring s : wiring_ok s -> wiring_ok (_failover cfg s).
Proof.
  intros [W1 W2 W3 W4 W5 W6 W7]. unfold _failover.
  destruct (_secondary cfg s) as [sec|] eqn:Hsec; [|by split].
  assert (Hne : pr_active s ≠ sec).
  { unfold _secondary in Hsec. apply find_some in Hsec as [_ Hs]. apply bool_decide_eq_true in Hs. congruence. }
  set (moving := map fst _). set (s1 := set_errors _ _).
  assert (Hmove : forall k, k ∈ moving <->
    dict_get k (pr_subscriptions s) = Some (pr_active s) /\ sc_overrides cfg !! k.1 = None).
  { intros k. unfold moving. rewrite list_elem_of_fmap. split.
    - intros ([k' src] & -> & [[Hsrc Ho] Hin]%list_elem_of_filter). simpl in *. subst src.
      split; [by apply dict_get_nodup | done].
    - intros [Hg Ho]. exists (k, pr_active s). split; [done|]. apply list_elem_of_filter.
      split; [done | by apply dict_get_in]. }
  destruct (move_all (pr_active s) sec moving s1) as (M1 & M2 & M3 & M4 & M5 & M6 & M7); try done.
  { unfold moving. eapply sublist_NoDup; [exact W5|]. apply fmap_sublist, sublist_filter. }
  { intros k Hk. by apply Hmove. }
  split; unfold queues_of; rewrite ?M4, ?M5, ?M6; try done.
  - intros k. rewrite M3. case_decide as Hk; [|apply W4].
    apply Hmove in Hk as [Hk _]. split; intros _; [apply W4; rewrite Hk|]; by eexists.
  - intros k src. rewrite M3. case_decide as Hk; [by intros [= <-]|].
    intros Hg Ho. exfalso. apply Hk, Hmove. split; [|done]. simpl in Hg.
    by rewrite (W7 k src Hg Ho) in Hg.
Qed.

Lemma on_error_wiring src now s : wiring_ok s -> wiring_ok (on_error cfg src now s).
Proof.
  intros Hw. unfold on_error. set (s1 := set_errors _ s).
  assert (wiring_ok s1) by (destruct Hw; by split).
  case_decide; [done|]. case_match; [done | by apply failover_wiring].
Qed.

(** ** Queues *)

Lemma failover_frame s : sv_subscribers (_failover cfg s) = sv_subscribers s /\
  sv_cache (_failover cfg s) = sv_cache s.
Proof.
  unfold _failover. destruct (_secondary cfg s) as [sec|]; [|done].
  set (moving := map fst _). set (s1 := set_errors _ _).
  change (sv_subscribers s) with (sv_subscribers s1). change (sv_cache s) with (sv_cache s1).
  generalize moving, s1. intros l. induction l as [|k l IH]; intros s2; [done|].
  cbn [fold_left]. destruct (IH (move_one (pr_active s) sec s2 k)) as [-> ->]. done.
Qed.

Lemma on_error_frame src now s : sv_subscribers (on_error cfg src now s) = sv_subscribers s /\
  sv_cache (on_error cfg src now s) = sv_cache s.
Proof.
  unfold on_error. case_decide; [done|]. case_match; [done|].
  match goal with |- context [_failover cfg ?s1] => destruct (failover_frame s1) as [-> ->] end. done.
Qed.

Lemma unsubscribe_frame k (s : State) : sv_subscribers (router_unsubscribe k s) = sv_subscribers s /\
  sv_cache (router_unsubscribe k s) = sv_cache s.
Proof. unfold router_unsubscribe. by destruct (dict_get k _). Qed.

Lemma offer_bound b q : 0 < sc_subscriber_queue_size cfg ->
  Z.of_nat (length (q_items q)) <= sc_subscriber_queue_size cfg ->
  Z.of_nat (length (q_items (offer_book cfg b q))) <= sc_subscriber_queue_size cfg.
Proof.
  intros Hn Hq. unfold offer_book. rewrite (proj2 (Z.ltb_lt _ _)) by done. simpl.
  destruct (Z.leb_spec (sc_subscriber_queue_size cfg) (Z.of_nat (length (q_items q)))); simpl;
    rewrite length_app; simpl; [destruct (q_items q); simpl in *; lia | lia].
Qed.

Lemma queues_of_put k qs r k' (s : State) :
  queues_of k' (set_subscribers (<[k := qs]> (sv_subscribers s)) r s) =
    if decide (k = k') then qs else queues_of k' s.
Proof.
  unfold queues_of. simpl. case_decide; [subst; by rewrite lookup_insert_eq|].
  by rewrite lookup_insert_ne.
Qed.

(** ** Every run of the service *)

(** A queue is new when it is acquired and released once, by its holder's
    [finally]. *)
Inductive service_step : State -> State -> Prop :=
  | ss_publish b s : service_step s (publish_book cfg b s)
  | ss_get now k s : service_step s (get_book cfg now k s).2
  | ss_acquire k id s : id ∉ map q_id (queues_of k s) -> service_step s (_acquire cfg k id s)
  | ss_release k id s : id ∈ map q_id (queues_of k s) -> service_step s (_release k id s)
  | ss_take k id s : service_step s (take_book k id s)
  | ss_error src now s : service_step s (on_error cfg src now s).

Definition service_new (primary : Source) : State :=
  {| sv_cache := []; sv_subscribers := ∅; sv_refcounts := ∅; pr_active := primary;
     pr_subscriptions := []; pr_error_times := ∅; pv_feed := ∅ |}.

Lemma service_new_ok primary :
  let s := service_new primary in wiring_ok s /\ cache_ok s /\ queues_ok s.
Proof.
  split_and!.
  - split; simpl; unfold queues_of; simpl.
    + intros k n. by rewrite lookup_empty.
    + done.
    + intros k. rewrite lookup_empty. constructor.
    + intros k. rewrite lookup_empty. by split; intros [? ?].
    + constructor.
    + intros src k. set_solver.
    + done.
  - split; simpl; [lia | constructor | by intros k b ?%not_elem_of_nil].
  - split. intros k q. unfold queues_of. simpl. rewrite lookup_empty. by intros ?%not_elem_of_nil.
Qed.

Lemma step_wiring s s' : service_step s s' -> wiring_ok s -> wiring_ok s'.
Proof.
  destruct 1; auto using publish_wiring, get_wiring, acquire_wiring, release_wiring, take_wiring,
    on_error_wiring.
Qed.

Lemma acquire_frame k id s : sv_cache (_acquire cfg k id s) = sv_cache s /\
  sv_subscribers (_acquire cfg k id s) =
    <[k := queues_of k s ++ [{| q_id := id; q_items := [] |}]]> (sv_subscribers s).
Proof. unfold _acquire. by case_match. Qed.

Lemma release_frame k id s : sv_cache (_release k id s) = sv_cache s /\
  forall k' q, q ∈ queues_of k' (_release k id s) -> q ∈ queues_of k' s.
Proof.
  assert (Hr : forall qs q, q ∈ remove_queue id qs -> q ∈ qs).
  { induction qs as [|x qs IH]; simpl; [auto|]. intros q. case_match; set_solver. }
  assert (Hs : forall k' q, q ∈ default [] (match sv_subscribers s !! k with
      | Some qs => <[k := remove_queue id qs]> (sv_subscribers s)
      | None => sv_subscribers s end !! k') -> q ∈ queues_of k' s).
  { intros k' q. unfold queues_of. destruct (sv_subscribers s !! k) as [qs|] eqn:Hqs; [|done].
    destruct (decide (k = k')) as [<-|]; [rewrite lookup_insert_eq, Hqs; simpl; apply Hr|].
    by rewrite lookup_insert_ne. }
  unfold _release. destruct (_ =? 0); [|split; [done | exact Hs]].
  match goal with |- context [router_unsubscribe k ?s1] => destruct (unsubscribe_frame k s1) as [E ->] end.
  split; [done|]. intros k' q. unfold queues_of at 1. rewrite E. simpl.
  destruct (decide (k = k')) as [<-|]; [by rewrite lookup_delete_eq; intros ?%not_elem_of_nil|].
  rewrite lookup_delete_ne by done. apply Hs.
Qed.

Lemma step_cache s s' : service_step s s' -> cache_ok s -> cache_ok s'.
Proof.
  destruct 1 as [b s|now k s|k id s Hid|k id s Hid|k id s|src now s]; intros Hc;
    auto using publish_cache_ok, get_cache_ok.
  - destruct Hc, (acquire_frame k id s) as [E _]. split; by rewrite E.
  - destruct Hc, (release_frame k id s) as [E _]. split; by rewrite E.
  - destruct Hc. by split.
  - destruct Hc, (on_error_frame src now s) as [_ E]. split; by rewrite E.
Qed.

Lemma step_queues s s' : service_step s s' -> queues_ok s -> queues_ok s'.
Proof.
  intros Hst [Hq]. split. intros k' q Hin Hn. revert Hin.
  destruct Hst as [b s|now k s|k id s Hid|k id s Hid|k id s|src now s].
  - unfold publish_book. destruct (sv_subscribers _ !! book_key b) as [qs|] eqn:Hqs; [|by eauto].
    unfold queues_of. simpl. destruct (decide (book_key b = k')) as [<-|Hk].
    + rewrite lookup_insert_eq. simpl. intros (q0 & -> & Hin)%list_elem_of_fmap.
      apply offer_bound; [done|]. apply (Hq (book_key b)); [|done]. unfold queues_of. simpl in Hqs.
      by rewrite Hqs.
    + rewrite lookup_insert_ne by done. intros Hin. by apply (Hq k').
  - unfold get_book. repeat case_match; intros Hin; by apply (Hq k').
  - unfold queues_of. rewrite (proj2 (acquire_frame k id s)). destruct (decide (k = k')) as [<-|Hk].
    + rewrite lookup_insert_eq. simpl. intros [Hin|Hin%list_elem_of_singleton]%elem_of_app;
        [by apply (Hq k)|]. subst q. simpl. lia.
    + rewrite lookup_insert_ne by done. intros Hin. by apply (Hq k').
  - intros Hin. apply (Hq k'); [|done]. by apply (release_frame k id s).
  - unfold take_book, queues_of. simpl. destruct (decide (k = k')) as [<-|Hk].
    + rewrite lookup_alter_eq. destruct (sv_subscribers s !! k) as [qs|] eqn:Hqs; simpl;
        [|by intros ?%not_elem_of_nil].
      intros (q0 & -> & Hin)%list_elem_of_fmap.
      assert (Z.of_nat (length (q_items q0)) <= sc_subscriber_queue_size cfg)
        by (apply (Hq k); [unfold queues_of; by rewrite Hqs | done]).
      unfold take_queue. case_match; simpl; [destruct (q_items q0); simpl in *; lia | done].
    + rewrite lookup_alter_ne by done. intros Hin. by apply (Hq k').
  - unfold queues_of. rewrite (proj1 (on_error_frame src now s)). intros Hin. by apply (Hq k').
Qed.

(** the order-book service neither leaks nor grows.  In every state reached
    by any interleaving of published books, reads, consumers arriving and
    leaving, and provider errors (failovers included): a key's reference count is
    the number of its live consumers; the router holds a subscription, and
    exactly one provider feeds the key, exactly while it has a consumer; a key
    without an override is served by the active provider; the cache holds at most
    [max_symbols] books, one per key; and no consumer's queue exceeds its
    bound. *)
Theorem book_service_bounded primary s k :
  rtc service_step (service_new primary) s ->
  default 0 (sv_refcounts s !! k) = Z.of_nat (length (queues_of k s)) /\
  (match dict_get k (pr_subscriptions s) with
   | Some src => queues_of k s ≠ [] /\ (forall src', (src', k) ∈ pv_feed s <-> src' = src) /\
       (sc_overrides cfg !! k.1 = None -> src = pr_active s)
   | None => queues_of k s = [] /\ forall src', (src', k) ∉ pv_feed s
   end) /\
  Z.of_nat (length (sv_cache s)) <= Z.max 0 (sc_max_symbols cfg) /\ NoDup (sv_cache s).*1 /\
  (forall q, q ∈ queues_of k s -> 0 < sc_subscriber_queue_size cfg ->
     Z.of_nat (length (q_items q)) <= sc_subscriber_queue_size cfg).
Proof.
  intros Hrun.
  assert (Hinv : wiring_ok s /\ cache_ok s /\ queues_ok s).
  { assert (Hrtc : forall a b, rtc service_step a b -> wiring_ok a /\ cache_ok a /\ queues_ok a ->
      wiring_ok b /\ cache_ok b /\ queues_ok b).
    { induction 1 as [|a b c Hst _ IH]; [done|]. intros (H1 & H2 & H3). apply IH.
      split_and!; [by eapply step_wiring | by eapply step_cache | by eapply step_queues]. }
    exact (Hrtc _ _ Hrun (service_new_ok primary)). }
  destruct Hinv as ([W1 W2 W3 W4 W5 W6 W7] & [C1 C2 C3] & [Q1]).
  specialize (W4 k). split; [|split; [|by eauto]].
  - destruct (sv_refcounts s !! k) as [n|] eqn:Hn; simpl; [by apply W1|].
    unfold queues_of. by rewrite (W2 k Hn).
  - destruct (dict_get k (pr_subscriptions s)) as [src|] eqn:Hg.
    + destruct (proj1 W4) as [n Hn]; [by eexists|]. destruct (W1 k n Hn) as [Hpos Hlen].
      split; [intros E; rewrite E in Hlen; simpl in Hlen; lia|]. split; [|by apply W7].
      intros src'. rewrite W6, Hg. split; congruence.
    + split.
      * destruct (sv_refcounts s !! k) as [n|] eqn:Hn; [destruct (proj2 W4); [by eexists | done]|].
        unfold queues_of. by rewrite (W2 k Hn).
      * intros src'. by rewrite W6, Hg.
Qed.
End props.

(** ** What a read returns *)

Section reads.
Context {Source : Type} `{Countable Source}.
Context (cfg : ServiceConfig Source).
Abbreviation State := (ServiceState Source).

Lemma dict_get_app {A} k (d e : list (Key * A)) :
  dict_get k (d ++ e) = match dict_get k d with Some v => Some v | None => dict_get k e end.
Proof. induction d as [|[k0 v0] d IH]; simpl; [done|]. by case_decide. Qed.

Lemma dict_get_set_end {A} k k' (v : A) d :
  dict_get k' (dict_set_end k v d) = if decide (k' = k) then Some v else dict_get k' d.
Proof.
  unfold dict_set_end. rewrite dict_get_app, dict_get_del. simpl.
  case_decide; [done|]. by destruct (dict_get k' d).
Qed.

Lemma publish_cache b (s : State) :
  sv_cache (publish_book cfg b s) = _evict cfg (dict_set_end (book_key b) b (sv_cache s)).
Proof. unfold publish_book. simpl. by destruct (sv_subscribers s !! book_key b). Qed.

Lemma publish_cached b (s : State) :
  NoDup (sv_cache s).*1 -> 0 < sc_max_symbols cfg ->
  dict_get (book_key b) (sv_cache (publish_book cfg b s)) = Some b.
Proof.
  intros Hnd Hmax. rewrite publish_cache. apply dict_get_nodup.
  - by apply evict_ok, dict_set_end_keys.
  - unfold _evict, dict_set_end. rewrite drop_app_le.
    + apply elem_of_app. right. by apply list_elem_of_singleton.
    + rewrite length_app. simpl. lia.
Qed.

(** a read returns the newest fresh book, or nothing.  Whatever was cached
    before, right after a book is published a read of its key returns exactly
    that book while it is no older than the configured age and nothing once it is
    older; reading never changes what another key's read returns, and a publish
    evicts another key only when the cache is full. *)
Theorem publish_then_get b now (s : State) k :
  NoDup (sv_cache s).*1 -> 0 < sc_max_symbols cfg ->
  let s' := publish_book cfg b s in
  (get_book cfg now (book_key b) s').1 =
    (if sc_max_age cfg <? now - ob_received_at b then None else Some b) /\
  (forall k' now', k' ≠ k ->
     (get_book cfg now' k' (get_book cfg now k s').2).1 = (get_book cfg now' k' s').1) /\
  (k ≠ book_key b ->
     Z.of_nat (length (dict_set_end (book_key b) b (sv_cache s))) <= sc_max_symbols cfg ->
     (get_book cfg now k s').1 = (get_book cfg now k s).1).
Proof.
  intros Hnd Hmax s'. pose proof (publish_cache b s) as Hc. change (publish_book cfg b s) with s' in Hc.
  pose proof (publish_cached b s Hnd Hmax) as Hnew. change (publish_book cfg b s) with s' in Hnew.
  split; [unfold get_book; rewrite Hnew; by case_match|]. split.
  - intros k' now' Hk. unfold get_book at 2. destruct (dict_get k (sv_cache s')) as [x|]; [|done].
    destruct (_ <? _); [done|]. simpl. unfold get_book. simpl.
    rewrite dict_get_set_end, decide_False by done. by repeat case_match.
  - intros Hk Hroom. unfold get_book. rewrite Hc. unfold _evict.
    replace (Z.to_nat _) with 0%nat by lia. rewrite drop_0, dict_get_set_end, decide_False by done.
    by repeat case_match.
Qed.
End reads.

(** ** Witnesses *)

Definition ex_cfg : ServiceConfig bool :=
  {| sc_max_symbols := 1; sc_max_age := 5000000; sc_subscriber_queue_size := 1;
     sc_providers := [true; false]; sc_overrides := ∅; sc_error_threshold := 1; sc_window := 10 |}.

Definition ex_book1 (sym : string) (seq : Z) : OrderBook :=
  {| ob_symbol := sym; ob_market := SET_; ob_bid_levels := []; ob_ask_levels := [];
     ob_sequence := seq; ob_received_at := 0 |}.

(** A consumer arrives, two books are published to its one-slot queue, and the
    primary provider fails over. *)
Definition ex_service : ServiceState bool :=
  on_error ex_cfg true 3
    (publish_book ex_cfg (ex_book1 "PTT" 2) (publish_book ex_cfg (ex_book1 "AOT" 1)
      (_acquire ex_cfg ("PTT"%string, SET_) 7 (service_new true)))).

Lemma book_service_bounded_witness :
  Z.of_nat (length (sv_cache ex_service)) <= 1 /\
  (false, ("PTT"%string, SET_)) ∈ pv_feed ex_service /\
  (true, ("PTT"%string, SET_)) ∉ pv_feed ex_service.
Proof.
  destruct (book_service_bounded ex_cfg true ex_service ("PTT"%string, SET_)) as (_ & Hm & Hc & _).
  { eapply rtc_l; [apply (ss_acquire ex_cfg ("PTT"%string, SET_) 7); vm_compute; by intros ?%not_elem_of_nil|].
    eapply rtc_l; [apply (ss_publish ex_cfg (ex_book1 "AOT" 1))|].
    eapply rtc_l; [apply (ss_publish ex_cfg (ex_book1 "PTT" 2))|].
    eapply rtc_l; [apply (ss_error ex_cfg true 3)|]. apply rtc_refl. }
  split; [exact Hc|].
  assert (Hg : dict_get ("PTT"%string, SET_) (pr_subscriptions ex_service) = Some false)
    by (vm_compute; reflexivity).
  rewrite Hg in Hm. destruct Hm as (_ & Hm & _). split; [by apply Hm|]. intros E. by apply Hm in E.
Defined.

Lemma publish_then_get_witness :
  (get_book ex_cfg 1000 ("PTT"%string, SET_) (publish_book ex_cfg (ex_book1 "PTT" 9) ex_service)).1
    = Some (ex_book1 "PTT" 9).
Proof.
  destruct (publish_then_get ex_cfg (ex_book1 "PTT" 9) 1000 ex_service ("PTT"%string, SET_)) as [E _].
  - vm_compute. apply NoDup_singleton.
  - vm_compute. reflexivity.
  - exact E.
Defined.
