(* ===== verification/Adapters.v ===== *)
(** * Adapters: the broker side's shared parts

    [adapters/base.py] (the reports, the snapshots and the frozen seven-method
    interface), [adapters/session.py] (the circuit breaker),
    [adapters/*/heartbeat.py], [adapters/sim.py] and [adapters/sim_pricing.py]
    (the deterministic paper venue and its price chain). *)

From S2P Require Import Prelude Decimals Contracts StateMachine Events Store StoreInv Config OrderBook.
From stdpp Require Import base gmap strings list relations.
From Stdlib Require Import ZArith Lia.
Open Scope Z_scope.

(** ** Reports *)

Record FillReport := {
  fp_broker_fill_id : string;
  fp_price : Decimal;
  fp_quantity : Z;
  fp_exec_ts : Z;
}.

Record PlaceAck := {
  pa_rejected : bool;
  pa_reject_reason : option string;
  pa_broker_order_id : option string;
  pa_fills : list FillReport;
  pa_remainder_cancelled : bool;
}.

Record CancelAck := { ca_ok : bool; ca_reason : option string }.
Record AmendAck := { aa_ok : bool; aa_semantics : string; aa_reason : option string }.

Record Position := {
  ps_account : string;
  ps_market : Market;
  ps_symbol : string;
  ps_net_qty : Z;
  ps_side : option Side;
  ps_cost_amount : option Decimal;
  ps_avg_price : option Decimal;
  ps_market_price : option Decimal;
  ps_market_value : option Decimal;
  ps_unrealized_pl : option Decimal;
}.

Module AccountType.
Inductive t := CASH | DERIVATIVE | UNKNOWN.
End AccountType.
#[export] Instance AccountType_eq_dec : EqDecision AccountType.t.
Proof. solve_decision. Defined.

Record AccountInfo := {
  ai_account : string;
  ai_account_type : AccountType.t;
  ai_buying_power : Decimal;
  ai_cash_balance : option Decimal;
  ai_credit_limit : option Decimal;
  ai_withdrawable : option Decimal;
  ai_equity : option Decimal;
  ai_excess_equity : option Decimal;
  ai_initial_margin : option Decimal;
  ai_maintenance_margin : option Decimal;
}.

Definition _margin_block_belongs_to_derivatives (a : AccountInfo) : result exn AccountInfo :=
  if decide (ai_account_type a = AccountType.DERIVATIVE) then Ok a
  else
    let named := List.filter (fun x => negb (bool_decide (x = None)))
      [ai_equity a; ai_excess_equity a; ai_initial_margin a; ai_maintenance_margin a] in
    match named with
    | [] => Ok a
    | _ :: _ => Err (ValueError "margin block is only valid on a DERIVATIVE account")
    end.

Module VenueDisplayState.
Inductive t := RESTING | PARTIALLY_FILLED | FILLED | CANCELLED | REJECTED | EXPIRED | UNKNOWN.
End VenueDisplayState.

Definition display_state (classified : string) (quantity matched remaining : Z)
    : VenueDisplayState.t :=
  if String.eqb classified "cancelled" then VenueDisplayState.CANCELLED
  else if String.eqb classified "rejected" then VenueDisplayState.REJECTED
  else if String.eqb classified "expired" then VenueDisplayState.EXPIRED
  else if (0 <? matched) && (remaining <=? 0) && (0 <? quantity) && (quantity <=? matched)
  then VenueDisplayState.FILLED
  else if (0 <? matched) && (0 <? remaining) then VenueDisplayState.PARTIALLY_FILLED
  else if 0 <? remaining then VenueDisplayState.RESTING
  else VenueDisplayState.UNKNOWN.

Record VenueOrderView := {
  vv_venue_order_id : string;
  vv_market : option Market;
  vv_symbol : string;
  vv_side : option Side;
  vv_quantity : Z;
  vv_price : option Decimal;
  vv_matched_qty : Z;
  vv_remaining_qty : Z;
  vv_cancelled_qty : Z;
  vv_state : VenueDisplayState.t;
  vv_venue_status : string;
  vv_venue_status_code : string;
  vv_placed_at : option string;
}.

(** ** The circuit breaker *)

Module BreakerState.
Inductive t := CLOSED | OPEN | HALF_OPEN.
End BreakerState.
#[export] Instance BreakerState_eq_dec : EqDecision BreakerState.t.
Proof. solve_decision. Defined.

Record SessionCircuitBreaker := {
  cb_failure_threshold : Z;
  cb_consecutive_failures : Z;
  cb_state : BreakerState.t;
}.

Definition SessionCircuitBreaker_new (failure_threshold : Z) : SessionCircuitBreaker :=
  {| cb_failure_threshold := failure_threshold; cb_consecutive_failures := 0;
     cb_state := BreakerState.CLOSED |}.

Definition record_success (b : SessionCircuitBreaker) : SessionCircuitBreaker :=
  {| cb_failure_threshold := cb_failure_threshold b; cb_consecutive_failures := 0;
     cb_state := BreakerState.CLOSED |}.

Definition record_failure (b : SessionCircuitBreaker) : SessionCircuitBreaker :=
  let n := cb_consecutive_failures b + 1 in
  {| cb_failure_threshold := cb_failure_threshold b; cb_consecutive_failures := n;
     cb_state := if cb_failure_threshold b <=? n then BreakerState.OPEN else cb_state b |}.

Definition guard (b : SessionCircuitBreaker) : result exn unit :=
  if decide (cb_state b = BreakerState.OPEN) then Err CircuitOpenError else Ok tt.

(** ** The frozen interface

    An adapter is an object: [ba_oid] is its identity ([adapter is
    sim_adapter]); its session state and breaker live in the venue component
    [V] of the world. *)

Section interface.
Context (R V : Type).
Abbreviation W := (world R V).
Abbreviation M := (M exn W).

Record BrokerAdapter := {
  ba_oid : nat;
  ba_broker : Broker;
  ba_breaker : V -> SessionCircuitBreaker;
  ba_place : NormalizedOrder -> M PlaceAck;
  ba_cancel : string -> M CancelAck;
  ba_amend : string -> option Decimal -> option Z -> M AmendAck;
  ba_get_open_orders : string -> M (list NormalizedOrder);
  ba_get_positions : string -> M (list Position);
  ba_get_venue_orders : string -> M (list VenueOrderView);
  ba_get_account : string -> M AccountInfo;
  ba_capabilities : list CapabilitySet;
}.

(** What the engine may assume of any adapter call.  An adapter talks to a
    venue and only reads the durable store; but while its call is awaited other
    tasks of the process run, so the store it leaves is not the one it found:
    it is related to it by whatever relation [Q] every task follows. *)
Record adapter_ok (Q : relation db) (a : BrokerAdapter) : Prop := {
  ao_place o : respects (on_db Q) (ba_place a o);
  ao_cancel c : respects (on_db Q) (ba_cancel a c);
  ao_amend c p q : respects (on_db Q) (ba_amend a c p q);
}.
End interface.
Arguments ba_oid {R V}.
Arguments ba_broker {R V}.
Arguments ba_breaker {R V}.
Arguments ba_place {R V}.
Arguments ba_cancel {R V}.
Arguments ba_amend {R V}.
Arguments ba_get_open_orders {R V}.
Arguments ba_get_positions {R V}.
Arguments ba_get_venue_orders {R V}.
Arguments ba_get_account {R V}.
Arguments ba_capabilities {R V}.
Arguments adapter_ok {R V}.

Section breaker_ops.
Context {R V : Type}.
Abbreviation M := (M exn (world R V)).

(** [adapter.breaker.guard()] *)
Definition breaker_guard (a : BrokerAdapter R V) : M unit :=
  fun w => (guard (ba_breaker a (w_venue w)), w).

(** [heartbeat_pass(adapter, on_trip)]; [set_breaker] writes the adapter's
    breaker back into its session state, [heartbeat] is the adapter's probe. *)
Definition heartbeat_pass (get : V -> SessionCircuitBreaker)
    (put : SessionCircuitBreaker -> V -> V) (heartbeat : M bool) (on_trip : M unit) : M bool :=
  let* was_open := gets (fun w => bool_decide (cb_state (get (w_venue w)) = BreakerState.OPEN)) in
  let* ok := heartbeat in
  if ok : bool then
    modify (fun w => set_venue (put (record_success (get (w_venue w))) (w_venue w)) w) ;;;
    ret true
  else
    modify (fun w => set_venue (put (record_failure (get (w_venue w))) (w_venue w)) w) ;;;
    let* is_open := gets (fun w => bool_decide (cb_state (get (w_venue w)) = BreakerState.OPEN)) in
    (if is_open && negb was_open then catch on_trip (fun _ => ret tt) else ret tt) ;;;
    ret false.
End breaker_ops.

(** ** Python's [str] on the JSON values a metadata field can hold *)

Definition quote_char : Ascii.ascii := Ascii.ascii_of_nat 39.
Definition dquote_char : Ascii.ascii := Ascii.ascii_of_nat 34.
Definition backslash_char : Ascii.ascii := Ascii.ascii_of_nat 92.

Definition hex_char (n : Z) : Ascii.ascii :=
  Ascii.ascii_of_nat (Z.to_nat (if n <? 10 then 48 + n else 87 + n)).

Definition py_escape (q a : Ascii.ascii) : list Ascii.ascii :=
  let c := char_code a in
  if Ascii.eqb a q || Ascii.eqb a backslash_char then [backslash_char; a]
  else if c =? 10 then [backslash_char; Ascii.ascii_of_nat 110]
  else if c =? 13 then [backslash_char; Ascii.ascii_of_nat 114]
  else if c =? 9 then [backslash_char; Ascii.ascii_of_nat 116]
  else if (c <? 32) || (c =? 127)
  then [backslash_char; Ascii.ascii_of_nat 120; hex_char (c / 16); hex_char (c mod 16)]
  else [a].

(** [repr] of a string: double quotes only when it holds a single quote and no
    double quote. *)
Definition py_repr_str (s : string) : string :=
  let l := String.list_ascii_of_string s in
  let q := if List.existsb (Ascii.eqb quote_char) l && negb (List.existsb (Ascii.eqb dquote_char) l)
           then dquote_char else quote_char in
  String.string_of_list_ascii ([q] ++ concat (map (py_escape q) l) ++ [q]).

Fixpoint py_join (sep : string) (l : list string) : string :=
  match l with
  | [] => ""
  | [x] => x
  | x :: l' => (x +:+ sep +:+ py_join sep l')%string
  end.

Fixpoint py_repr (j : json) : string :=
  match j with
  | JNull => "None"
  | JBool b => if b then "True" else "False"
  | JInt z => int_str z
  | JFloat r => r
  | JStr s => py_repr_str s
  | JList l => ("[" +:+ py_join ", " (map py_repr l) +:+ "]")%string
  | JObj kvs =>
      ("{" +:+ py_join ", " (map (fun kv => py_repr_str kv.1 +:+ ": " +:+ py_repr kv.2)%string kvs)
           +:+ "}")%string
  end.

Definition py_str (j : json) : string :=
  match j with JStr s => s | _ => py_repr j end.

Example py_repr_1 : py_repr (JList [JInt 4; JStr "a'b"; JObj [("k"%string, JNull)]])
  = String.concat "" ["[4, "; String dquote_char "a'b"; String dquote_char ", {'k': None}]"]%string.
Proof. reflexivity. Qed.

(** ** SimAdapter *)

Section sim.
Context {R V : Type}.
Abbreviation M := (M exn (world R V)).

(** [FillPriceSource.fill_price] *)
Context (default_fill_price : Decimal) (price_source : option (NormalizedOrder -> M (option Decimal))).

Definition _reference_price (order : NormalizedOrder) : result exn Decimal :=
  if memb (no_order_type order) [LIMIT; STOP_LIMIT]
  then match no_price order with Some p => Ok p | None => Err AssertionError end
  else if decide (no_order_type order = STOP)
  then match no_stop_price order with Some p => Ok p | None => Err AssertionError end
  else match no_price order with
       | Some p => Ok p
       | None => match no_stop_price order with
                 | Some p => Ok p
                 | None => Ok default_fill_price
                 end
       end.

(** [isinstance(q, int) and not isinstance(q, bool) and q > 0] for every
    element, and the list itself. *)
Fixpoint positive_ints (l : list json) : option (list Z) :=
  match l with
  | [] => Some []
  | JInt q :: l' => if 0 <? q then (qs ← positive_ints l'; Some (q :: qs)) else None
  | _ :: _ => None
  end.

(** The fill quantities, or a rejection reason. *)
Definition _fill_plan (order : NormalizedOrder) : list Z + string :=
  match jget "sim_reject" (no_metadata order) with
  | JNull =>
      let plan :=
        match jget "sim_fills" (no_metadata order) with
        | JNull => inl [no_quantity order]
        | JList raw =>
            match positive_ints raw with
            | None => inr "invalid sim_fills: must be a list of positive integers"%string
            | Some plan => if no_quantity order <? zsum plan
                           then inr "invalid sim_fills: sum exceeds order quantity"%string
                           else inl plan
            end
        | _ => inr "invalid sim_fills: must be a list of positive integers"%string
        end in
      match plan with
      | inr e => inr e
      | inl plan =>
          if bool_decide (no_tif order = FOK) && negb (bool_decide (plan = [no_quantity order]))
          then inr "FOK requires a single full fill"%string
          else inl plan
      end
  | reject => inr (py_str reject)
  end.

(** [FillReport(...) for i, qty in enumerate(plan, start=i)]; [Field(gt=0)] on
    the quantity. *)
Fixpoint sim_fills (prefix : string) (price : Decimal) (exec_ts : Z) (i : Z) (plan : list Z)
    : result exn (list FillReport) :=
  match plan with
  | [] => Ok []
  | qty :: plan' =>
      if qty <=? 0 then Err (ValueError "quantity must be greater than 0")
      else match sim_fills prefix price exec_ts (i + 1) plan' with
           | Err e => Err e
           | Ok fs =>
               Ok ({| fp_broker_fill_id := ("SIMF-" +:+ prefix +:+ "-" +:+ int_str i)%string;
                      fp_price := price; fp_quantity := qty; fp_exec_ts := exec_ts |} :: fs)
           end
  end.

Definition sim_place (order : NormalizedOrder) : M PlaceAck :=
  match _fill_plan order with
  | inr reason => ret {| pa_rejected := true; pa_reject_reason := Some reason;
                         pa_broker_order_id := None; pa_fills := [];
                         pa_remainder_cancelled := false |}
  | inl plan =>
      let prefix := String.substring 0 8 (no_client_order_id order) in
      let* quoted := match price_source with
                     | Some source => source order
                     | None => ret None
                     end in
      let* price := match quoted with
                    | Some p => ret p
                    | None => lift_result (_reference_price order)
                    end in
      let* exec_ts := gets w_now in
      let* fills := lift_result (sim_fills prefix price exec_ts 1 plan) in
      ret {| pa_rejected := false; pa_reject_reason := None;
             pa_broker_order_id := Some ("SIM-" +:+ prefix)%string;
             pa_fills := fills;
             pa_remainder_cancelled :=
               bool_decide (no_tif order = IOC) && (zsum plan <? no_quantity order) |}
  end.

Definition sim_account (account : string) : AccountInfo :=
  {| ai_account := account; ai_account_type := AccountType.UNKNOWN;
     ai_buying_power := Dec 1000000000 0; ai_cash_balance := None; ai_credit_limit := None;
     ai_withdrawable := None; ai_equity := None; ai_excess_equity := None;
     ai_initial_margin := None; ai_maintenance_margin := None |}.

(** The whole adapter; its breaker is its own fresh one, which nothing feeds. *)
Definition SimAdapter (oid : nat) : BrokerAdapter R V := {|
  ba_oid := oid;
  ba_broker := SIM;
  ba_breaker := fun _ => SessionCircuitBreaker_new 3;
  ba_place := sim_place;
  ba_cancel := fun _ => ret {| ca_ok := true; ca_reason := None |};
  ba_amend := fun _ _ _ => ret {| aa_ok := true; aa_semantics := "native"; aa_reason := None |};
  ba_get_open_orders := fun _ => ret [];
  ba_get_positions := fun _ => ret [];
  ba_get_venue_orders := fun _ => ret [];
  ba_get_account := fun account => lift_result
    (_margin_block_belongs_to_derivatives (sim_account account));
  ba_capabilities := List.filter (fun e => bool_decide (cap_broker e = SIM)) CAPABILITY_MATRIX;
|}.
End sim.

(** ** The sim price chain *)

Definition _bound_by_limit (price : Decimal) (order : NormalizedOrder) : Decimal :=
  match no_price order with
  | None => price
  | Some limit => if decide (no_side order = BUY) then dec_min price limit else dec_max price limit
  end.

Section pricing.
Context {R V : Type}.
Abbreviation M := (M exn (world R V)).

(** [OrderBookService.get] and [MarketDataClient.last_close], when configured. *)
Context (order_book : option (string -> Market -> M (option OrderBook)))
        (last_close : option (string -> Market -> M (option Decimal))).

Definition _from_book (order : NormalizedOrder) : M (option Decimal) :=
  match order_book with
  | None => ret None
  | Some get =>
      let* book := get (no_symbol order) (no_market order) in
      match book with
      | None => ret None
      | Some book =>
          match (if decide (no_side order = BUY) then best_ask book else best_bid book) with
          | None => ret None
          | Some level => ret (Some (_bound_by_limit (obl_price level) order))
          end
      end
  end.

Definition _from_market_data (fetch : string -> Market -> M (option Decimal))
    (order : NormalizedOrder) : M (option Decimal) :=
  let* close := fetch (no_symbol order) (no_market order) in
  match close with
  | None => ret None
  | Some c => ret (Some (_bound_by_limit c order))
  end.

Definition fill_price (order : NormalizedOrder) : M (option Decimal) :=
  let* book_price := _from_book order in
  match book_price with
  | Some p => ret (Some p)
  | None =>
      match last_close with
      | None => ret None
      | Some fetch =>
          let* md_price := _from_market_data fetch order in
          match md_price with
          | Some p => ret (Some p)
          | None => ret None
          end
      end
  end.
End pricing.

(** ** Facts: the circuit breaker *)

(** Feeding the breaker a run of probe results. *)
Definition breaker_feed (b : SessionCircuitBreaker) (ok : bool) : SessionCircuitBreaker :=
  if ok then record_success b else record_failure b.

(** Length of the current run of failures. *)
Definition failures_in_a_row (n : Z) (oks : list bool) : Z :=
  fold_left (fun n ok => if ok : bool then 0 else n + 1) oks n.

Lemma breaker_run_inv oks : forall b,
  1 <= cb_failure_threshold b -> 0 <= cb_consecutive_failures b ->
  (cb_state b = BreakerState.OPEN <-> cb_failure_threshold b <= cb_consecutive_failures b) ->
  let b' := fold_left breaker_feed oks b in
  cb_consecutive_failures b' = failures_in_a_row (cb_consecutive_failures b) oks /\
  cb_failure_threshold b' = cb_failure_threshold b /\
  (cb_state b' = BreakerState.OPEN <-> cb_failure_threshold b' <= cb_consecutive_failures b').
Proof.
  induction oks as [|ok oks IH]; intros b Ht Hc Hs; simpl; [done|].
  assert (Hf : cb_failure_threshold (breaker_feed b ok) = cb_failure_threshold b) by by destruct ok.
  destruct (IH (breaker_feed b ok)) as (H1 & H2 & H3).
  - by rewrite Hf.
  - destruct ok; simpl; lia.
  - rewrite Hf. destruct ok; simpl.
    + split; [done|lia].
    + destruct (Z.leb_spec (cb_failure_threshold b) (cb_consecutive_failures b + 1)); [done|].
      rewrite Hs. lia.
  - split; [rewrite H1; by destruct ok|]. split; [by rewrite H2, Hf|exact H3].
Qed.

Section heartbeat_facts.
Context {R V : Type} (get : V -> SessionCircuitBreaker) (put : SessionCircuitBreaker -> V -> V)
        (get_put : forall b v, get (put b v) = b).
Abbreviation W := (world R V).

(** the session breaker.  After any sequence of probe results a fresh
    breaker is OPEN (and then refuses routing) exactly when the current run of
    consecutive failures has reached the threshold; and one heartbeat pass
    runs the trip hook exactly on the pass that moves the breaker to OPEN,
    never on a later failing pass and never on a healthy one, and survives a
    hook that raises. *)
Theorem breaker_trips_on_threshold threshold oks :
  1 <= threshold ->
  let b := fold_left breaker_feed oks (SessionCircuitBreaker_new threshold) in
  (guard b = Err CircuitOpenError <-> threshold <= failures_in_a_row 0 oks) /\
  (forall ok (w w1 : W) (heartbeat : M exn W bool) (on_trip : M exn W unit),
     get (w_venue w1) = b -> get (w_venue w) = b -> heartbeat w = (Ok ok, w1) ->
     let w2 := set_venue (put (breaker_feed b ok) (w_venue w1)) w1 in
     heartbeat_pass get put heartbeat on_trip w =
       (Ok ok,
        if negb ok && (failures_in_a_row 0 (oks ++ [ok]) =? threshold)
        then (on_trip w2).2 else w2)).
Proof.
  intros Ht. cbv zeta.
  destruct (breaker_run_inv oks (SessionCircuitBreaker_new threshold)) as (Hn & Hf & Hs);
    [done|simpl; lia|simpl; split; [done|lia]|].
  simpl in Hn, Hf. set (b := fold_left _ _ _) in *. split.
  - unfold guard. rewrite <- Hn, <- Hf, <- Hs. case_decide; done.
  - intros ok w w1 hb trip Hg1 Hg Hhb.
    assert (Hrun : failures_in_a_row 0 (oks ++ [ok]) =
              if ok then 0 else cb_consecutive_failures b + 1).
    { unfold failures_in_a_row. rewrite fold_left_app. simpl.
      fold (failures_in_a_row 0 oks). by rewrite <- Hn. }
    rewrite Hrun. unfold heartbeat_pass, bind, gets, modify, ret. rewrite Hhb.
    destruct ok; simpl; rewrite Hg1; [done|]. rewrite Hg, get_put. simpl.
    destruct (Z.leb_spec (cb_failure_threshold b) (cb_consecutive_failures b + 1)) as [Hle|Hlt].
    + destruct (decide (cb_state b = BreakerState.OPEN)) as [Ho|Ho].
      * rewrite (bool_decide_true (cb_state b = _)) by done. simpl.
        apply Hs in Ho. rewrite (proj2 (Z.eqb_neq _ _)) by lia. done.
      * rewrite (bool_decide_false (cb_state b = _)) by done. simpl.
        assert (~ cb_failure_threshold b <= cb_consecutive_failures b) by by rewrite <- Hs.
        rewrite (proj2 (Z.eqb_eq _ _)) by lia. unfold catch.
        by destruct (trip _) as [[[]|e] w3].
    + assert (Ho : cb_state b ≠ BreakerState.OPEN) by (rewrite Hs; lia).
      rewrite (bool_decide_false (cb_state b = _)) by done. simpl.
      rewrite (proj2 (Z.eqb_neq _ _)) by lia. done.
Qed.
End heartbeat_facts.

Lemma breaker_trips_on_threshold_witness :
  guard (fold_left breaker_feed [true; false; false; false] (SessionCircuitBreaker_new 3))
    = Err CircuitOpenError.
Proof.
  apply (proj1 (breaker_trips_on_threshold (R := unit) (fun b => b) (fun b _ => b)
    (fun b v => eq_refl) 3 [true; false; false; false] ltac:(lia))).
  vm_compute. congruence.
Defined.

(** ** Facts: the paper venue *)

Lemma positive_ints_pos raw : forall plan,
  positive_ints raw = Some plan -> Forall (fun q => 0 < q) plan.
Proof.
  induction raw as [|j raw IH]; intros plan; simpl; [intros [= <-]; constructor|].
  destruct j; try discriminate. destruct (Z.ltb_spec 0 z); [|discriminate].
  destruct (positive_ints raw) as [qs|]; [|discriminate]. intros [= <-].
  constructor; [done|by apply IH].
Qed.

(** Every plan the paper venue accepts. *)
Lemma fill_plan_sound o plan : 0 < no_quantity o -> _fill_plan o = inl plan ->
  Forall (fun q => 0 < q) plan /\ zsum plan <= no_quantity o /\
  (no_tif o = FOK -> plan = [no_quantity o]).
Proof.
  intros Hq. unfold _fill_plan.
  destruct (jget "sim_reject" _); try discriminate.
  assert (Htail : forall p, Forall (fun q => 0 < q) p -> zsum p <= no_quantity o ->
    (if bool_decide (no_tif o = FOK) && negb (bool_decide (p = [no_quantity o]))
     then inr "FOK requires a single full fill"%string else inl p) = inl plan ->
    Forall (fun q => 0 < q) plan /\ zsum plan <= no_quantity o /\
    (no_tif o = FOK -> plan = [no_quantity o])).
  { intros p Hp Hs. destruct (_ && _) eqn:Hb; [discriminate|]. intros [= <-].
    split; [done|]. split; [done|]. intros Hf.
    rewrite bool_decide_true in Hb by done. simpl in Hb. apply negb_false_iff in Hb.
    by apply bool_decide_eq_true in Hb. }
  destruct (jget "sim_fills" _) as [| | | | |l|]; try discriminate.
  - apply Htail; [by repeat constructor|simpl; lia].
  - destruct (positive_ints l) as [p|] eqn:Hp; [|discriminate].
    destruct (Z.ltb_spec (no_quantity o) (zsum p)); [discriminate|].
    apply Htail; [by eapply positive_ints_pos|lia].
Qed.

Lemma sim_fills_ok prefix price ts plan : forall i,
  Forall (fun q => 0 < q) plan ->
  exists fs, sim_fills prefix price ts i plan = Ok fs /\ map fp_quantity fs = plan /\
    Forall (fun f => fp_price f = price /\ fp_exec_ts f = ts) fs.
Proof.
  induction plan as [|q plan IH]; intros i Hp; simpl; [by exists []|].
  apply Forall_cons in Hp as [Hq Hp]. destruct (Z.leb_spec q 0); [lia|].
  destruct (IH (i + 1) Hp) as (fs & -> & Hm & Hf). eexists. split; [reflexivity|].
  simpl. by rewrite Hm, Forall_cons.
Qed.

(** [p] does not cross the limit of the order, when it has one. *)
Definition within_limit (o : NormalizedOrder) (p : Decimal) : Prop :=
  forall limit, no_price o = Some limit ->
    if decide (no_side o = BUY) then dec_leb p limit = true else dec_leb limit p = true.

Lemma dec_leb_refl d : dec_leb d d = true.
Proof. apply dec_leb_spec, QArith_base.Qle_refl. Qed.

Lemma bound_by_limit_within o p : within_limit o (_bound_by_limit p o).
Proof.
  intros limit Hl. unfold _bound_by_limit. rewrite Hl. case_decide.
  - apply dec_min_le_r.
  - apply dec_max_ge_r.
Qed.

Section sim_facts.
Context {R V : Type}.
Abbreviation W := (world R V).

Lemma fill_price_within ob lc o (w w' : W) p :
  fill_price ob lc o w = (Ok (Some p), w') -> within_limit o p.
Proof.
  unfold fill_price. intros Hf. inv_ok Hf. destruct a as [bp|].
  - injection Hf as <- <-. unfold _from_book in Hm. destruct ob as [g|]; [|discriminate].
    inv_ok Hm. destruct a as [book|]; [|discriminate].
    destruct (if decide (no_side o = BUY) then _ else _); [|discriminate].
    injection Hm as <- <-. apply bound_by_limit_within.
  - destruct lc as [fetch|]; [|discriminate]. inv_ok Hf. destruct a as [mp|]; [|discriminate].
    injection Hf as <- <-. unfold _from_market_data in Hm0. inv_ok Hm0.
    destruct a as [c|]; [|discriminate]. injection Hm0 as <- <-. apply bound_by_limit_within.
Qed.

Lemma reference_price_within dflt o p :
  no_order_type o ≠ STOP -> _reference_price dflt o = Ok p -> within_limit o p.
Proof.
  intros Hs Hp limit Hl. enough (p = limit) as -> by (case_decide; apply dec_leb_refl).
  unfold _reference_price in Hp. rewrite Hl in Hp. destruct (memb _ _); [congruence|].
  rewrite decide_False in Hp by done. congruence.
Qed.

(** the paper venue never invents size and never crosses a limit.  On a
    contract-valid order whose price comes from the D21 chain (book, market
    data, reference), [place] that returns an accepted ack carries fills that
    are positive, sum to at most the ordered quantity (exactly it for FOK),
    flags a cancelled remainder exactly for an IOC left short, and (STOP
    orders, which trade at their trigger, apart) fills no BUY above and no
    SELL below the order's own limit. *)
Theorem sim_fills_sound dflt ob lc o (w w' : W) ack :
  order_wf o ->
  sim_place dflt (Some (fill_price ob lc)) o w = (Ok ack, w') ->
  pa_rejected ack = false ->
  Forall (fun f => 0 < fp_quantity f) (pa_fills ack) /\
  zsum (map fp_quantity (pa_fills ack)) <= no_quantity o /\
  (no_tif o = FOK -> zsum (map fp_quantity (pa_fills ack)) = no_quantity o) /\
  (pa_remainder_cancelled ack = true <->
     no_tif o = IOC /\ zsum (map fp_quantity (pa_fills ack)) < no_quantity o) /\
  (no_order_type o ≠ STOP -> Forall (fun f => within_limit o (fp_price f)) (pa_fills ack)).
Proof.
  intros Hwf Hp Hr. unfold sim_place in Hp.
  destruct (_fill_plan o) as [plan|e] eqn:Hplan; [|injection Hp as <- <-; discriminate].
  destruct (fill_plan_sound _ _ (wf_qty _ Hwf) Hplan) as (Hpos & Hsum & Hfok).
  cbv zeta in Hp. inv_ok Hp. rename a into quoted. inv_ok Hp. rename a into price.
  inv_ok Hp. rename a into ts.
  assert (Hprice : no_order_type o ≠ STOP -> within_limit o price).
  { intros Hs. destruct quoted as [q|].
    - injection Hm0 as <- <-. by eapply fill_price_within.
    - unfold lift_result in Hm0. injection Hm0 as Hm0 _. by eapply reference_price_within. }
  destruct (sim_fills_ok (String.substring 0 8 (no_client_order_id o)) price ts plan 1 Hpos)
    as (fs & Hfs & Hmap & Hfp).
  inv_ok Hp. unfold lift_result in Hm2. rewrite Hfs in Hm2. injection Hm2 as <- <-.
  injection Hp as <- <-. simpl. rewrite Hmap. repeat split.
  - rewrite <- Hmap in Hpos. exact (proj1 (List.Forall_map fp_quantity (fun q => 0 < q) fs) Hpos).
  - done.
  - intros Hf. rewrite (Hfok Hf). simpl. lia.
  - apply andb_true_iff in H as [H1 H2]. by apply bool_decide_eq_true in H1.
  - apply andb_true_iff in H as [H1 H2]. by apply Z.ltb_lt in H2.
  - intros [H1 H2]. rewrite bool_decide_true by done. simpl. by apply Z.ltb_lt.
  - intros Hs. eapply Forall_impl; [exact Hfp|]. intros f [-> _]. by apply Hprice.
Qed.
End sim_facts.

Definition ex_ioc : NormalizedOrder :=
  {| no_client_order_id := "12345678-1234-4234-8234-123456789abc"; no_broker := SIM;
     no_account := "acct"; no_market := SET_; no_symbol := "AOT"; no_side := BUY;
     no_order_type := LIMIT; no_price := Some (Dec 605 (-1)); no_stop_price := None;
     no_quantity := 100; no_display_qty := None; no_tif := IOC; no_position_effect := None;
     no_metadata := [("sim_fills"%string, JList [JInt 30; JInt 20])] |}.

(** A book whose best ask is above the limit of [ex_ioc]. *)
Definition ex_book : OrderBook :=
  {| ob_symbol := "AOT"; ob_market := SET_; ob_bid_levels := [];
     ob_ask_levels := [{| obl_price := Dec 61 0; obl_volume := 5 |}];
     ob_sequence := 1; ob_received_at := 0 |}.

Lemma sim_fills_sound_witness :
  let w := {| w_db := db_empty; w_hub := None; w_redis := tt; w_venue := tt; w_now := 7;
              w_entropy := 0 |} in
  exists ack w', sim_place (Dec 100 0)
      (Some (fill_price (Some (fun _ _ => ret (Some ex_book))) None)) ex_ioc w = (Ok ack, w') /\
    pa_remainder_cancelled ack = true /\
    Forall (fun f => within_limit ex_ioc (fp_price f)) (pa_fills ack).
Proof.
  intros w. eexists _, _. split; [vm_compute; reflexivity|]. split; [reflexivity|].
  assert (Hwf : order_wf ex_ioc).
  { split; simpl; try done; try (intros ? [= <-]; reflexivity); try (by intros [?|?]). }
  refine (proj2 (proj2 (proj2 (proj2 (sim_fills_sound (Dec 100 0)
    (Some (fun _ _ => ret (Some ex_book))) None ex_ioc w _ _ Hwf _ _)))) _);
    [vm_compute; reflexivity | reflexivity | done].
Defined.
