(* ===== verification/Gates.v ===== *)
(** * Gates: what stands between a submit and a venue

    [core/risk.py] (the PTRM gate), [core/price_band.py] (the advisory band),
    [core/stage.py] (the stage ladder), the submit half of
    [core/routing_authority.py] (EH6) and [OrderRouter._resolve_adapter], which
    composes the last two. *)

From S2P Require Import Prelude Decimals Contracts Sha256 StateMachine Events Store StoreInv Config Cache Adapters.
From stdpp Require Import base gmap strings list relations.
From Stdlib Require Import ZArith Lia QArith.
Open Scope Z_scope.

(** ** The stage ladder *)

Module AdapterIntent.
Inductive t := TRADE | READ.
End AdapterIntent.
#[export] Instance AdapterIntent_eq_dec : EqDecision AdapterIntent.t.
Proof. solve_decision. Defined.

Section ladder.
Context {R V : Type}.
Abbreviation Adapter := (BrokerAdapter R V).

Definition _real_adapter_for (broker : Broker) (liberator_adapter streaming_pro_adapter : option Adapter)
    : option Adapter :=
  if decide (broker = LIBERATOR) then liberator_adapter
  else if decide (broker = STREAMING_PRO) then streaming_pro_adapter
  else None.

Definition resolve_adapter (stage : Stage.t) (broker : Broker) (sim_adapter : Adapter)
    (liberator_adapter streaming_pro_adapter : option Adapter) (intent : AdapterIntent.t)
    : result exn Adapter :=
  let real := _real_adapter_for broker liberator_adapter streaming_pro_adapter in
  match stage with
  | Stage.SIM => Ok sim_adapter
  | Stage.PAPER =>
      if bool_decide (intent = AdapterIntent.READ) && memb broker _REAL_BROKERS
      then match real with
           | None => Err StageRejected
           | Some a => Ok a
           end
      else Ok sim_adapter
  | Stage.MICRO_LIVE =>
      if memb broker _REAL_BROKERS
      then match real with
           | None => Err StageRejected
           | Some a => Ok a
           end
      else Err StageRejected
  | Stage.LIVE => Err StageRejected
  end.

(** EH6: [adapter is sim_adapter] is object identity. *)
Definition assert_may_route_real (settings : Settings) (account : string) (broker : Broker)
    (adapter sim_adapter : Adapter) : result exn unit :=
  if Nat.eqb (ba_oid adapter) (ba_oid sim_adapter) || negb (memb broker _REAL_BROKERS)
  then Ok tt
  else
    let allowed := authorized_accounts settings in
    if set_is_empty allowed then Err RealRoutingNotAuthorized
    else if negb (bool_decide (account ∈ allowed)) then Err RealRoutingNotAuthorized
    else Ok tt.

Definition _resolve_adapter (settings : Settings) (sim : Adapter) (liberator streaming_pro : option Adapter)
    (broker : Broker) (account : string) (intent : AdapterIntent.t) : result exn Adapter :=
  match resolve_adapter (s_stage settings) broker sim liberator streaming_pro intent with
  | Err e => Err e
  | Ok adapter =>
      match assert_may_route_real settings account broker adapter sim with
      | Err e => Err e
      | Ok _ => Ok adapter
      end
  end.
End ladder.

(** ** The PTRM gate *)

Definition _LIVE_STAGES : list Stage.t := [Stage.MICRO_LIVE; Stage.LIVE].

Section risk.
Context {R V : Type} `{RedisOps R}.
Abbreviation M := (M exn (world R V)).

(** [_check_quantity] *)
Definition qty_limit (s : Settings) (order : NormalizedOrder) : Z :=
  default (s_risk_max_order_qty s) (s_account_max_qty s !! no_account order).

Definition _qty_cap_name (s : Settings) (order : NormalizedOrder) : string :=
  if decide (is_Some (s_account_max_qty s !! no_account order))
  then "account_max_qty" else "max_order_qty".

Definition _check_quantity (s : Settings) (order : NormalizedOrder) : result exn unit :=
  if qty_limit s order <? no_quantity order
  then Err (RiskRejected (_qty_cap_name s order) (Some (no_client_order_id order)))
  else Ok tt.

(** [_check_notional] *)
Definition notional_basis (order : NormalizedOrder) : option Decimal :=
  match no_price order with Some p => Some p | None => no_stop_price order end.

Definition notional_limit (s : Settings) (order : NormalizedOrder) : Decimal :=
  default (s_risk_max_order_value s) (s_account_max_notional s !! no_account order).

Definition _notional_cap_name (s : Settings) (order : NormalizedOrder) : string :=
  if decide (is_Some (s_account_max_notional s !! no_account order))
  then "account_max_notional" else "max_order_value".

Definition _check_notional (s : Settings) (order : NormalizedOrder) : result exn unit :=
  match notional_basis order with
  | None => Ok tt
  | Some basis =>
      let notional := dec_mul basis (dec_of_Z (no_quantity order)) in
      if dec_gtb notional (notional_limit s order)
      then Err (RiskRejected (_notional_cap_name s order) (Some (no_client_order_id order)))
      else Ok tt
  end.

Definition burst_raw (order : NormalizedOrder) : string :=
  (no_account order +:+ "|" +:+ no_symbol order +:+ "|" +:+ Side_value (no_side order) +:+ "|"
   +:+ int_str (no_quantity order) +:+ "|" +:+ OrderType_value (no_order_type order) +:+ "|"
   +:+ match no_price order with None => "None" | Some p => format_f p end)%string.

Definition _burst_key (order : NormalizedOrder) : string :=
  ("exe:burst:" +:+ String.substring 0 16 (sha256_hex (burst_raw order)))%string.

Definition rate_key (now : Z) : string := ("exe:rate:" +:+ int_str (now / 1000000))%string.

Definition _risk_backend_down (s : Settings) (order : NormalizedOrder) : M unit :=
  if memb (s_stage s) _LIVE_STAGES
  then raise (RiskRejected "risk_backend_down" (Some (no_client_order_id order)))
  else ret tt.

(** The two counters of one check; the second is 0 with the guard off. *)
Definition window_counts (s : Settings) (order : NormalizedOrder) : M (Z * Z) :=
  let* now := gets w_now in
  let* rate := incr_with_ttl (rate_key now) 2 in
  let* burst := (if s_duplicate_burst_guard_enabled s
                 then incr_with_ttl (_burst_key order) (s_duplicate_burst_window_seconds s)
                 else ret 0) in
  ret (rate, burst).

Definition _windowed_checks (s : Settings) (redis : bool) (order : NormalizedOrder) : M unit :=
  if negb redis then _risk_backend_down s order
  else
    let* counts := catch (let* c := window_counts s order in ret (Some c)) (fun _ => ret None) in
    match counts with
    | None => _risk_backend_down s order
    | Some (rate, burst) =>
        if s_risk_max_orders_per_second s <? rate
        then raise (RiskRejected "rate_limit" (Some (no_client_order_id order)))
        else if s_duplicate_burst_guard_enabled s && (1 <? burst)
        then raise (DuplicateBurstDetected (Some (no_client_order_id order)))
        else ret tt
    end.

Definition risk_check (s : Settings) (redis : bool) (order : NormalizedOrder) : M unit :=
  lift_result (_check_quantity s order) ;;;
  lift_result (_check_notional s order) ;;;
  _windowed_checks s redis order.
End risk.

(** ** The advisory price band *)

Section band.
Context {R V : Type}.
Abbreviation M := (M exn (world R V)).

(** [MarketDataClient.last_close], [None] when no base URL is configured. *)
Context (last_close : option (string -> Market -> M (option Decimal))).

Definition _HUNDRED : Decimal := Dec 100 0.

(** [abs(price - last_close) / last_close * 100]; [None] raises
    [DivisionByZero]. *)
Definition deviation_pct (price last : Decimal) : option Decimal :=
  d ← dec_div (dec_abs (dec_sub price last)) last; Some (dec_mul d _HUNDRED).

Definition price_band_check (s : Settings) (order : NormalizedOrder) : M unit :=
  match s_price_band_enabled s, last_close with
  | true, Some fetch =>
      match no_price order with
      | None => ret tt
      | Some price =>
          let* last := fetch (no_symbol order) (no_market order) in
          match last with
          | None => ret tt
          | Some last =>
              if dec_leb last dec_zero then ret tt
              else match deviation_pct price last with
                   | None => raise DivisionByZero
                   | Some d =>
                       if dec_gtb d (s_price_band_max_pct s)
                       then raise (PriceBandExceeded (Some (no_client_order_id order)))
                       else ret tt
                   end
          end
      end
  | _, _ => ret tt
  end.
End band.

(** ** The gates leave the store alone *)

Section gates_respects.
Context {R V : Type} `{RedisOps R} (Q : relation db) `{!PreOrder Q}.
Abbreviation ev := (on_db (R := R) (V := V) Q).

Lemma risk_check_respects s r o : respects ev (risk_check (V := V) s r o).
Proof.
  unfold risk_check, _windowed_checks, _risk_backend_down, window_counts.
  respects_tac.
Qed.

Lemma price_band_check_respects (lc : option (string -> Market -> M exn (world R V) (option Decimal))) s o :
  (forall f, lc = Some f -> forall a b, respects ev (f a b)) ->
  respects ev (price_band_check lc s o).
Proof.
  intros Hlc. unfold price_band_check. destruct (s_price_band_enabled s), lc as [f|]; respects_tac.
Qed.
End gates_respects.

#[export] Hint Resolve risk_check_respects price_band_check_respects : engine.

(** ** Facts: the ladder and EH6 *)

Section ladder_facts.
Context {R V : Type}.
Abbreviation Adapter := (BrokerAdapter R V).

Lemma assert_may_route_real_ok s acc b (a sim : Adapter) u :
  assert_may_route_real s acc b a sim = Ok u -> ba_oid a ≠ ba_oid sim ->
  b ∈ _REAL_BROKERS -> acc ∈ authorized_accounts s.
Proof.
  unfold assert_may_route_real. intros Ha Hne Hb.
  rewrite (proj2 (Nat.eqb_neq _ _)) in Ha by done.
  rewrite (proj2 (memb_spec _ _)) in Ha by done. simpl in Ha.
  destruct (set_is_empty _); [discriminate|].
  destruct (bool_decide _) eqn:Hd; [|discriminate]. by apply bool_decide_eq_true in Hd.
Qed.

(** C5: the route gate.  The one call site that hands out adapters gives a
    TRADE a venue other than the paper one only at stage micro_live, for a
    real broker whose runtime is configured, and only for an account this
    node declared it routes (EH6); at sim and paper every TRADE goes to the
    paper venue; at live nothing does. *)
Theorem real_route_requires_authority s sim lib sp b acc (a : Adapter) :
  _resolve_adapter s sim lib sp b acc AdapterIntent.TRADE = Ok a ->
  (ba_oid a = ba_oid sim /\ (s_stage s = Stage.SIM \/ s_stage s = Stage.PAPER) /\ a = sim) \/
  (s_stage s = Stage.MICRO_LIVE /\ b ∈ _REAL_BROKERS /\
   _real_adapter_for b lib sp = Some a /\
   (ba_oid a ≠ ba_oid sim -> acc ∈ authorized_accounts s)).
Proof.
  unfold _resolve_adapter, resolve_adapter. intros Hr.
  destruct (s_stage s) eqn:Hs; simpl in Hr.
  - destruct (assert_may_route_real _ _ _ _ _) eqn:He; [|discriminate].
    injection Hr as <-. left. auto.
  - destruct (assert_may_route_real _ _ _ _ _) eqn:He; [|discriminate].
    injection Hr as <-. left. auto.
  - destruct (memb b _REAL_BROKERS) eqn:Hb; [|discriminate]. apply memb_spec in Hb.
    destruct (_real_adapter_for b lib sp) as [real|] eqn:Hreal; [|discriminate].
    destruct (assert_may_route_real _ _ _ _ _) as [[]|e] eqn:He; [|discriminate].
    injection Hr as <-. right. repeat split; try done.
    intros Hne. by eapply assert_may_route_real_ok.
  - discriminate.
Qed.

(** a READ for a real broker is never answered by the paper venue: at
    every stage but sim it is either answered by that broker's own configured
    adapter or refused. *)
Theorem real_read_never_faked s (sim : Adapter) lib sp b acc :
  b ∈ _REAL_BROKERS -> s_stage s ≠ Stage.SIM ->
  match _resolve_adapter s sim lib sp b acc AdapterIntent.READ with
  | Ok a => _real_adapter_for b lib sp = Some a
  | Err e => e = StageRejected \/ (e = RealRoutingNotAuthorized /\ acc ∉ authorized_accounts s)
  end.
Proof.
  intros Hb Hs. apply memb_spec in Hb as Hb'. unfold _resolve_adapter, resolve_adapter.
  assert (Hauth : forall a : Adapter, match assert_may_route_real s acc b a sim with
    | Ok _ => True | Err e => e = RealRoutingNotAuthorized /\ acc ∉ authorized_accounts s end).
  { intros a. unfold assert_may_route_real, set_is_empty. destruct (_ || _); [done|].
    case_bool_decide as He; [rewrite He; set_solver|]. by case_bool_decide. }
  destruct (s_stage s); [done|..|by left].
  all: simpl; rewrite Hb'; simpl; destruct (_real_adapter_for b lib sp) as [real|]; [|by left].
  all: specialize (Hauth real); destruct (assert_may_route_real _ _ _ _ _) as [[]|e];
    [done|by right].
Qed.
End ladder_facts.

(** ** Facts: the risk gate *)

Section risk_facts.
Context {R V : Type} `{RedisSpec R}.
Abbreviation W := (world R V).

Lemma window_counts_ok s o (w w' : W) rate burst :
  window_counts s o w = (Ok (rate, burst), w') ->
  s_duplicate_burst_guard_enabled s = true ->
  exists w1, w_now w1 = w_now w /\
    (forall t, redis_live (w_redis w1) t (_burst_key o) =
               redis_live (w_redis w) t (_burst_key o)) /\
    incr_with_ttl (_burst_key o) (s_duplicate_burst_window_seconds s) w1 = (Ok burst, w').
Proof.
  intros Hc Hg. unfold window_counts in Hc. inv_ok Hc. injection Hm as <- <-.
  inv_ok Hc. rewrite Hg in Hc. inv_ok Hc. injection Hc as <- <- <-.
  destruct (incr_with_ttl_frame _ _ _ _ _ Hm) as [Hf Hn].
  eexists. split; [exact Hn|]. split; [|eassumption]. intros t. apply Hf. discriminate.
Qed.

Lemma windowed_ok_live s redis o (w w' : W) :
  s_stage s ∈ _LIVE_STAGES -> _windowed_checks s redis o w = (Ok tt, w') ->
  redis = true /\ exists rate burst, window_counts s o w = (Ok (rate, burst), w') /\
    rate <= s_risk_max_orders_per_second s /\
    (s_duplicate_burst_guard_enabled s = true -> burst <= 1).
Proof.
  intros Hs. apply memb_spec in Hs. unfold _windowed_checks, _risk_backend_down. rewrite Hs.
  destruct redis; simpl; [|discriminate]. intros Hw. inv_ok Hw. split; [done|].
  unfold catch, bind in Hm. destruct (window_counts s o w) as [[[rate burst]|e] w1] eqn:Hc.
  - injection Hm as <- <-.
    destruct (Z.ltb_spec (s_risk_max_orders_per_second s) rate); [discriminate|].
    destruct (s_duplicate_burst_guard_enabled s && (1 <? burst)) eqn:Hb; [discriminate|].
    injection Hw as <-. exists rate, burst. repeat split; [lia|]. intros Hg.
    rewrite Hg in Hb; simpl in Hb. by apply Z.ltb_ge.
  - injection Hm as <- <-. discriminate.
Qed.

(** the caps bind.  An order that passes the PTRM gate is within its
    account's quantity cap (the global one when the account has none) and,
    when it has a price basis, its notional is within the account's notional
    cap; exactly so (as rationals) whenever price times quantity fits the 28
    digits of the decimal context. *)
Theorem risk_check_caps s redis o (w w' : W) :
  risk_check s redis o w = (Ok tt, w') ->
  no_quantity o <= qty_limit s o /\
  (forall basis, notional_basis o = Some basis ->
     dec_leb (dec_mul basis (dec_of_Z (no_quantity o))) (notional_limit s o) = true /\
     (Z.abs (d_coeff basis * no_quantity o) < 10 ^ dec_prec ->
      (dec_val basis * inject_Z (no_quantity o) <= dec_val (notional_limit s o))%Q)).
Proof.
  intros Hc. unfold risk_check in Hc. inv_ok Hc. inv_ok Hc.
  unfold lift_result in Hm, Hm0. injection Hm as Hq _. injection Hm0 as Hn _.
  unfold _check_quantity in Hq. destruct (Z.ltb_spec (qty_limit s o) (no_quantity o)); [discriminate|].
  split; [lia|]. intros basis Hb. unfold _check_notional in Hn. rewrite Hb in Hn.
  unfold dec_gtb in Hn. rewrite dec_ltb_leb in Hn.
  destruct (dec_leb (dec_mul basis _) _) eqn:Hle; [|discriminate]. split; [done|].
  intros Hfit. apply dec_leb_spec in Hle. rewrite dec_mul_exact in Hle by done.
  unfold dec_of_Z in Hle. unfold dec_val at 2 in Hle. simpl in Hle.
  rewrite Qmult_1_r in Hle. exact Hle.
Qed.

(** the duplicate-burst guard in the stages where real money is reachable.
    Once an order passed the gate at some instant, any order with the same
    economic fingerprint (whatever its id) that reaches the gate within the
    window, nothing having run in between, is refused, whether Redis answers or
    not: a dead backend refuses too. *)
Theorem burst_guard_live s redis o1 o2 (w w1 : W) t :
  s_stage s ∈ _LIVE_STAGES -> s_duplicate_burst_guard_enabled s = true ->
  (forall m, redis_live (w_redis w) (w_now w) (_burst_key o1) = Some (RInt m) -> 0 <= m) ->
  burst_raw o2 = burst_raw o1 ->
  risk_check s redis o1 w = (Ok tt, w1) ->
  w_now w <= t < w_now w + s_duplicate_burst_window_seconds s * 1000000 ->
  exists e, (risk_check s redis o2 (set_now t w1)).1 = Err e.
Proof.
  intros Hlive Hg Hpos Hraw Hc Ht.
  assert (Hkey : _burst_key o2 = _burst_key o1)
    by (unfold _burst_key; by rewrite Hraw).
  unfold risk_check in Hc. inv_ok Hc. inv_ok Hc. injection Hm as _ <-. injection Hm0 as _ <-.
  destruct (windowed_ok_live _ _ _ _ _ Hlive Hc) as (-> & rate & burst & Hwc & _ & Hb).
  specialize (Hb Hg).
  destruct (window_counts_ok _ _ _ _ _ _ Hwc Hg) as (w0 & Hn0 & Hl0 & Hi).
  assert (burst = 1) as ->.
  { pose proof (incr_with_ttl_count _ _ _ _ _ Hi) as Hcount. rewrite Hn0, Hl0 in Hcount.
    destruct (redis_live _ _ _) as [[|m]|] eqn:Hl; [lia| |lia].
    specialize (Hpos _ eq_refl). lia. }
  pose proof (incr_with_ttl_window _ _ _ _ Hi t) as Hwin. rewrite Hn0 in Hwin.
  specialize (Hwin Ht).
  destruct (risk_check s true o2 (set_now t w1)) as [[[]|e] w2] eqn:Hc2; [|by eexists].
  exfalso. unfold risk_check in Hc2. inv_ok Hc2. inv_ok Hc2.
  injection Hm as _ <-. injection Hm0 as _ <-.
  destruct (windowed_ok_live _ _ _ _ _ Hlive Hc2) as (_ & rate2 & burst2 & Hwc2 & _ & Hb2).
  specialize (Hb2 Hg).
  destruct (window_counts_ok _ _ _ _ _ _ Hwc2 Hg) as (w3 & Hn3 & Hl3 & Hi3).
  pose proof (incr_with_ttl_count _ _ _ _ _ Hi3) as Hcount.
  rewrite Hn3, Hl3, Hkey in Hcount. simpl in Hcount. rewrite Hwin in Hcount. lia.
Qed.
End risk_facts.

(** ** Witnesses *)

Definition with_stage (st : Stage.t) (accounts : list string) (s : Settings) : Settings :=
  deployment (s_public_mode s) st accounts (s_api_key s) (s_read_api_key s)
    (s_liberator_api_key s) (s_streaming_pro_api_key s) s.

Definition ex_micro : Settings := with_stage Stage.MICRO_LIVE [" 12345678 "%string] Settings_default.

Definition ex_sim {R V} : BrokerAdapter R V := SimAdapter (Dec 100 0) None 0.
Definition ex_lib {R V} : BrokerAdapter R V := SimAdapter (Dec 100 0) None 1.

Lemma real_route_requires_authority_witness :
  _resolve_adapter (R := unit) (V := unit) ex_micro ex_sim (Some ex_lib) None LIBERATOR "12345678"
    AdapterIntent.TRADE = Ok ex_lib /\
  "12345678"%string ∈ authorized_accounts ex_micro.
Proof.
  assert (H : _resolve_adapter (R := unit) (V := unit) ex_micro ex_sim (Some ex_lib) None LIBERATOR
    "12345678" AdapterIntent.TRADE = Ok ex_lib).
  { assert (E : assert_may_route_real (R := unit) (V := unit) ex_micro "12345678" LIBERATOR
      ex_lib ex_sim = Ok tt) by (vm_compute; reflexivity).
    unfold _resolve_adapter.
    change (resolve_adapter _ _ _ _ _ _) with (Ok (E := exn) (ex_lib (R := unit) (V := unit))).
    cbv iota beta. by rewrite E. }
  split; [exact H|].
  destruct (real_route_requires_authority _ _ _ _ _ _ _ H) as [(E & _)|(_ & _ & _ & E)];
    [discriminate E | apply E; discriminate].
Defined.

Lemma real_read_never_faked_witness :
  match _resolve_adapter (R := unit) (V := unit) (with_stage Stage.PAPER [] Settings_default)
          ex_sim None None LIBERATOR "00000000" AdapterIntent.READ with
  | Ok a => _real_adapter_for LIBERATOR None None = Some a
  | Err e => e = StageRejected \/ (e = RealRoutingNotAuthorized /\
      "00000000"%string ∉ authorized_accounts (with_stage Stage.PAPER [] Settings_default))
  end.
Proof.
  apply (real_read_never_faked (with_stage Stage.PAPER [] Settings_default) ex_sim None None
    LIBERATOR "00000000"); [by apply memb_spec | discriminate].
Defined.

Lemma risk_check_caps_witness :
  exists w', risk_check Settings_default true ex_ioc ex_rworld = (Ok tt, w') /\
    no_quantity ex_ioc <= qty_limit Settings_default ex_ioc.
Proof.
  eexists. split; [vm_compute; reflexivity|].
  eapply (proj1 (risk_check_caps Settings_default true ex_ioc ex_rworld _ _)).
  Unshelve. 2: { vm_compute. reflexivity. }
Defined.

Lemma burst_guard_live_witness :
  exists e, (risk_check ex_micro true ex_ioc
    (set_now 4000000 (risk_check ex_micro true ex_ioc ex_rworld).2)).1 = Err e.
Proof.
  apply (burst_guard_live ex_micro true ex_ioc ex_ioc ex_rworld
    (risk_check ex_micro true ex_ioc ex_rworld).2 4000000).
  - by apply memb_spec.
  - reflexivity.
  - intros m Hm. vm_compute in Hm. discriminate.
  - reflexivity.
  - vm_compute. reflexivity.
  - vm_compute. split; [discriminate|reflexivity].
Defined.
