(* ===== verification/HandleRecovery.v ===== *)
(** * HandleRecovery: the bounded burst against venue truth
    ([core/handle_recovery.py])

    Times are microseconds; the source computes the same comparisons in binary
    floating-point seconds.  [resolve] is one venue read for one order and
    [sleep] is [asyncio.sleep]: both are awaited, so other tasks may run inside
    them.  The loop carries fuel; [recovery_polls] bounds the attempts and the
    theorem shows the fuel is never what ends it. *)

From S2P Require Import Prelude Decimals Contracts StateMachine Events Store StoreInv.
From stdpp Require Import base gmap strings list relations.
From Stdlib Require Import ZArith Lia.
Open Scope Z_scope.

Section recovery.
Context {R V : Type}.
Abbreviation W := (world R V).
Abbreviation M := (M exn W).

(** [HandleResolver]: true = resolved, false = read fine but not resolvable
    yet, raises = the venue could not be read. *)
Context (resolve : string -> M bool) (sleep : Z -> M unit).

(** [_elapsed_ms], in microseconds. *)
Definition _elapsed (now_ts submitted_at : Z) : Z := Z.max 0 (now_ts - submitted_at).

(** One attempt: [Some b] when the venue was read, [None] when the read
    raised. *)
Definition attempt (client_order_id : string) : M (option bool) :=
  catch (let* b := resolve client_order_id in ret (Some b)) (fun _ => ret None).

(** The loop; it also returns the outcome of each attempt it made (the source
    logs how many). *)
Fixpoint recover_loop (fuel : nat) (client_order_id : string)
    (submitted_at cadence deadline min_polls attempts : Z) (read_ok : bool)
    : M (HandleResolution.t * list (option bool)) :=
  match fuel with
  | O => raise OutOfFuel
  | S fuel' =>
      let attempts := attempts + 1 in
      let* outcome := attempt client_order_id in
      match outcome with
      | Some true => ret (HandleResolution.CONFIRMED, [outcome])
      | _ =>
          let read_ok := match outcome with Some false => true | _ => read_ok end in
          let* now := gets w_now in
          if (min_polls <=? attempts) && (deadline <? _elapsed now submitted_at + cadence)
          then ret (if read_ok then HandleResolution.PENDING else HandleResolution.UNKNOWN, [outcome])
          else
            sleep cadence ;;;
            let* (resolution, outcomes) :=
              recover_loop fuel' client_order_id submitted_at cadence deadline min_polls
                attempts read_ok in
            ret (resolution, outcome :: outcomes)
      end
  end.

(** How many attempts the budget allows at most. *)
Definition recovery_polls (cadence deadline min_polls : Z) : Z :=
  Z.max min_polls (deadline / cadence + 1).

Definition recover_handle (client_order_id : string)
    (submitted_at cadence deadline min_polls : Z) : M HandleResolution.t :=
  let* (resolution, _) :=
    recover_loop (Z.to_nat (recovery_polls cadence deadline min_polls) + 1) client_order_id
      submitted_at cadence deadline min_polls 0 false in
  ret resolution.
End recovery.

(** ** Facts *)

Section recovery_facts.
Context {R V : Type}.
Abbreviation W := (world R V).
Abbreviation M := (M exn W).
Context (resolve : string -> M bool) (sleep : Z -> M unit).

Lemma attempt_total c (w : W) : exists o w', attempt resolve c w = (Ok o, w') /\
  w' = (resolve c w).2.
Proof.
  unfold attempt, catch, bind, ret. destruct (resolve c w) as [[b|e] w']; simpl; eauto.
Qed.

Lemma recover_handle_respects (Q : relation db) `{!PreOrder Q} c s cad dl mp :
  (forall c, respects (on_db Q) (resolve c)) -> (forall d, respects (on_db Q) (sleep d)) ->
  respects (on_db Q) (recover_handle resolve sleep c s cad dl mp).
Proof.
  intros Hr Hs. unfold recover_handle.
  enough (H : forall fuel a b,
    respects (on_db Q) (recover_loop resolve sleep fuel c s cad dl mp a b)).
  { apply respects_bind; [apply _|apply H|]. intros [res outs]. respects_tac. }
  induction fuel as [|fuel IH]; intros a b; simpl; [respects_tac|].
  unfold attempt. respects_tac; auto.
Qed.

(** What the caller learns from the outcomes of the attempts. *)
Definition outcomes_meaning (read_ok : bool) (res : HandleResolution.t) (outs : list (option bool))
    : Prop :=
  match res with
  | HandleResolution.CONFIRMED =>
      exists pre, outs = pre ++ [Some true] /\ Some true ∉ pre
  | HandleResolution.PENDING =>
      Some true ∉ outs /\ (read_ok = true \/ Some false ∈ outs)
  | HandleResolution.UNKNOWN =>
      read_ok = false /\ Forall (fun o => o = None) outs
  end.

(** A [Some true] outcome is a read that resolved the order. *)
Lemma recover_loop_confirmed c sub cad dl mp : forall fuel k b (w w' : W) res outs,
  recover_loop resolve sleep fuel c sub cad dl mp k b w = (Ok (res, outs), w') ->
  Some true ∈ outs -> exists w3, (resolve c w3).1 = Ok true.
Proof.
  induction fuel as [|fuel IH]; intros k b w w' res outs; simpl; [discriminate|].
  intros Hl Hin. inv_ok Hl. rename a into o.
  destruct (decide (o = Some true)) as [->|Hno].
  - exists w. unfold attempt, catch, bind, ret in Hm.
    destruct (resolve c w) as [[x|e] w1]; simpl in *; congruence.
  - assert (Hgo : forall b', (let* now := gets w_now in
        if (mp <=? k + 1) && (dl <? _elapsed now sub + cad)
        then ret (if (b' : bool) then HandleResolution.PENDING else HandleResolution.UNKNOWN, [o])
        else sleep cad ;;;
          let* (resolution, outcomes) := recover_loop resolve sleep fuel c sub cad dl mp (k + 1) b' in
          ret (resolution, o :: outcomes)) w0 = (Ok (res, outs), w') ->
        exists w3, (resolve c w3).1 = Ok true).
    { intros b' Hb. inv_ok Hb. destruct (_ && _).
      - unfold ret in Hb. simplify_eq. apply list_elem_of_singleton in Hin. congruence.
      - inv_ok Hb. inv_ok Hb. destruct a1 as [res' outs']. unfold ret in Hb. simplify_eq.
        apply elem_of_cons in Hin as [?|Hin]; [congruence|]. by eapply IH. }
    destruct o as [[]|]; [done|eapply Hgo; exact Hl..].
Qed.

Section loop.
Context (submitted cadence deadline min_polls : Z).
(* asyncio.sleep returns after at least the requested delay; reads take time,
    they do not turn the clock back. *)
Hypothesis sleep_advances : forall d (w : W), 0 <= d ->
  exists w', sleep d w = (Ok tt, w') /\ w_now w + d <= w_now w'.
Hypothesis resolve_clock : forall c (w : W), w_now w <= w_now (resolve c w).2.
Hypothesis cadence_pos : 0 < cadence.

(** One more unresolved attempt [o] before the last one, or before the rest. *)
Lemma outcomes_meaning_last (read_ok ro : bool) (o : option bool) :
  o ≠ Some true -> (o = Some false -> ro = true) -> (o = None -> ro = read_ok) ->
  outcomes_meaning read_ok (if ro then HandleResolution.PENDING else HandleResolution.UNKNOWN) [o].
Proof.
  intros Hno Hro1 Hro2. destruct o as [[]|]; [done| |].
  - rewrite (Hro1 eq_refl). simpl. split; [set_solver|right; set_solver].
  - rewrite (Hro2 eq_refl). destruct read_ok; simpl.
    + split; [set_solver|by left].
    + split; [done|by repeat constructor].
Qed.

Lemma outcomes_meaning_cons (read_ok ro : bool) res (o : option bool) outs :
  o ≠ Some true -> (o = Some false -> ro = true) -> (o = None -> ro = read_ok) ->
  outcomes_meaning ro res outs -> outcomes_meaning read_ok res (o :: outs).
Proof.
  intros Hno Hro1 Hro2 Hm. destruct res; simpl in *.
  - destruct Hm as (pre & -> & Hpre). exists (o :: pre). split; [done|set_solver].
  - destruct Hm as [Hnt Hp]. split; [set_solver|]. destruct o as [[]|]; [done| |].
    + right. set_solver.
    + rewrite (Hro2 eq_refl) in Hp. destruct Hp; [by left|right; set_solver].
  - destruct Hm as [Hr Hall]. destruct o as [[]|]; [done| |].
    + rewrite (Hro1 eq_refl) in Hr. done.
    + rewrite (Hro2 eq_refl) in Hr. split; [done|by constructor].
Qed.

Lemma recover_loop_total c : forall fuel k (w : W) read_ok start,
  0 <= k -> submitted <= start -> start + k * cadence <= w_now w ->
  Z.max min_polls (deadline / cadence + 1) < k + Z.of_nat fuel ->
  k < Z.max min_polls (deadline / cadence + 1) ->
  exists res outs w',
  recover_loop resolve sleep fuel c submitted cadence deadline min_polls k read_ok w
      = (Ok (res, outs), w') /\
  outcomes_meaning read_ok res outs /\
  k + Z.of_nat (length outs) <= Z.max min_polls (deadline / cadence + 1) /\
  (res ≠ HandleResolution.CONFIRMED -> min_polls <= k + Z.of_nat (length outs)).
Proof.
  induction fuel as [|fuel IH]; intros k w read_ok start Hk Hst Hnow Hfuel Hbound; [lia|].
  simpl. destruct (attempt_total c w) as (o & w1 & Ha & Hw1). unfold bind at 1. rewrite Ha.
  assert (Hn1 : start + k * cadence <= w_now w1).
  { rewrite Hw1. etrans; [exact Hnow|apply resolve_clock]. }
  assert (Hgo : forall ro, o ≠ Some true ->
    (o = Some false -> ro = true) -> (o = None -> ro = read_ok) ->
    exists res outs w',
    (let* now := gets w_now in
     if (min_polls <=? k + 1) && (deadline <? _elapsed now submitted + cadence)
     then ret (if ro then HandleResolution.PENDING else HandleResolution.UNKNOWN, [o])
     else sleep cadence ;;;
       let* (resolution, outcomes) :=
         recover_loop resolve sleep fuel c submitted cadence deadline min_polls (k + 1) ro in
       ret (resolution, o :: outcomes)) w1 = (Ok (res, outs), w') /\
    outcomes_meaning read_ok res outs /\
    k + Z.of_nat (length outs) <= Z.max min_polls (deadline / cadence + 1) /\
    (res ≠ HandleResolution.CONFIRMED -> min_polls <= k + Z.of_nat (length outs))).
  { intros ro Hno Hro1 Hro2. unfold bind at 1, gets.
    destruct ((min_polls <=? k + 1) && _) eqn:Hbrk.
    - apply andb_true_iff in Hbrk as [Hmp _]. apply Z.leb_le in Hmp.
      eexists _, _, _. split; [reflexivity|]. split; [|simpl; lia]. by apply outcomes_meaning_last.
    - destruct (sleep_advances cadence w1) as (w2 & Hs & Hn2); [lia|].
      assert (Hk1 : k + 1 < Z.max min_polls (deadline / cadence + 1)).
      { apply andb_false_iff in Hbrk as [Hb|Hb]; [apply Z.leb_gt in Hb; lia|].
        apply Z.ltb_ge in Hb. unfold _elapsed in Hb.
        assert (k + 1 <= deadline / cadence); [|lia].
        apply Z.div_le_lower_bound; nia. }
      destruct (IH (k + 1) w2 ro start) as (res & outs & w' & Hl & Hm & Hc & Hf); try nia.
      unfold bind at 1. rewrite Hs. unfold bind. rewrite Hl.
      eexists _, _, _. split; [reflexivity|]. split; [|split; [simpl; lia|]].
      + by eapply outcomes_meaning_cons.
      + intros Hne. specialize (Hf Hne). simpl. lia. }
  destruct o as [[]|].
  - eexists _, _, _. split; [reflexivity|]. split; [|simpl; split; [lia|done]].
    exists []. split; [done|set_solver].
  - apply (Hgo true); done.
  - apply (Hgo read_ok); done.
Qed.

(** submit-to-known is bounded and honest.  When recovery starts at or
    after the submit timestamp, the burst always returns: it never needs more
    than max(min_polls, deadline/cadence + 1) attempts; it says CONFIRMED
    exactly when an attempt resolved the order (and stops there), PENDING only
    when some attempt did read the venue, UNKNOWN only when every attempt
    failed to read it; and without a resolution at least [min_polls] attempts
    were made, however late the burst started (the retry floor precedes the
    submit-anchored ceiling). *)
Theorem recover_handle_bounded c (w : W) :
  submitted <= w_now w -> 0 < Z.max min_polls (deadline / cadence + 1) ->
  exists res outs w',
  recover_handle resolve sleep c submitted cadence deadline min_polls w = (Ok res, w') /\
  recover_loop resolve sleep (Z.to_nat (recovery_polls cadence deadline min_polls) + 1) c
      submitted cadence deadline min_polls 0 false w = (Ok (res, outs), w') /\
  outcomes_meaning false res outs /\
  Z.of_nat (length outs) <= recovery_polls cadence deadline min_polls /\
  (res ≠ HandleResolution.CONFIRMED -> min_polls <= Z.of_nat (length outs)).
Proof.
  intros Hs Hpos.
  destruct (recover_loop_total c (Z.to_nat (recovery_polls cadence deadline min_polls) + 1)
    0 w false (w_now w)) as (res & outs & w' & Hl & Hm & Hb & Hf);
    try (unfold recovery_polls; lia).
  exists res, outs, w'. split; [|done].
  unfold recover_handle, bind. by rewrite Hl.
Qed.
End loop.
End recovery_facts.

(** A venue that cannot be read, and a clock that only [sleep] moves: the
    placement already ate the whole 1500 ms budget, and still three attempts
    run before UNKNOWN. *)
Lemma recover_handle_bounded_witness :
  let w : world unit unit :=
    {| w_db := db_empty; w_hub := None; w_redis := tt; w_venue := tt; w_now := 2000000;
       w_entropy := 0 |} in
  let sleep := fun d => modify (fun w : world unit unit => set_now (w_now w + Z.max 0 d) w) in
  exists res outs w',
    recover_loop (fun _ => raise (OtherError "timeout")) sleep
      (Z.to_nat (recovery_polls 250000 1500000 3) + 1) "c" 0 250000 1500000 3 0 false w
      = (Ok (res, outs), w') /\ (res ≠ HandleResolution.CONFIRMED -> 3 <= Z.of_nat (length outs)).
Proof.
  intros w sleep.
  destruct (recover_handle_bounded (fun _ => raise (OtherError "timeout")) sleep 0 250000 1500000 3)
    with (c := "c"%string) (w := w) as (res & outs & w' & _ & H2 & _ & _ & H5).
  - intros d w0 Hd. eexists. split; [reflexivity|]. simpl. lia.
  - intros c w0. simpl. lia.
  - lia.
  - simpl. lia.
  - vm_compute. reflexivity.
  - exists res, outs, w'. split; [exact H2 | exact H5].
Defined.
