(* ===== verification/Router.v ===== *)
(** * Router: [OrderRouter] ([core/router.py])

    The per-request orchestrator: the frozen submit pipeline, cancel, amend
    (native and cancel+replace), the mass-cancel sweep and the reads. *)

From S2P Require Import Prelude Decimals Contracts StateMachine Events Store StoreInv Config Cache Adapters Gates HandleRecovery.
From stdpp Require Import base gmap strings list relations.
From Stdlib Require Import ZArith Lia.
Open Scope Z_scope.

Record NormalizedOrderResult := {
  nr_client_order_id : string;
  nr_broker_order_id : option string;
  nr_broker : Broker;
  nr_status : PublicOrderStatus.t;
  nr_engine_state : OrderState.t;
  nr_filled_qty : Z;
  nr_remaining_qty : Z;
  nr_avg_fill_price : option Decimal;
  nr_reject_reason : option string;
  nr_created_at : Z;
  nr_updated_at : Z;
}.

Record SubmitOutcome := {
  so_result : NormalizedOrderResult;
  so_duplicate : bool;
  so_resolution : HandleResolution.t;
}.

Definition _POLL_INTERVAL : Z := 50000.   (* 0.05 s, in microseconds *)

Definition _amended_order (row : OrderRow) (client_order_id : string) (new_price : option Decimal)
    (new_qty : option Z) : result exn NormalizedOrder :=
  NormalizedOrder_new
    {| no_client_order_id := client_order_id;
       no_broker := or_broker row;
       no_account := or_account row;
       no_market := or_market row;
       no_symbol := or_symbol row;
       no_side := or_side row;
       no_order_type := or_order_type row;
       no_price := match new_price with Some p => Some p | None => or_price row end;
       no_stop_price := or_stop_price row;
       no_quantity := default (or_quantity row) new_qty;
       no_display_qty := or_display_qty row;
       no_tif := or_tif row;
       no_position_effect := or_position_effect row;
       no_metadata := [] |}.

Definition _to_result (row : OrderResultRow) : result exn NormalizedOrderResult :=
  let r := rr_row row in
  match to_public_status (or_status r) (rr_filled_qty row) with
  | None => Err (ValueError "not a valid PublicOrderStatus")
  | Some st =>
      Ok {| nr_client_order_id := or_client_order_id r;
            nr_broker_order_id := or_broker_order_id r;
            nr_broker := or_broker r;
            nr_status := st;
            nr_engine_state := or_status r;
            nr_filled_qty := rr_filled_qty row;
            nr_remaining_qty := or_quantity r - rr_filled_qty row;
            nr_avg_fill_price := avg_fill_price row;
            nr_reject_reason := or_reject_reason r;
            nr_created_at := or_created_at r;
            nr_updated_at := or_updated_at r |}
  end.

Definition _assert_amend_quantities (cid : string) (row : OrderRow) (new_qty : option Z)
    (filled_qty : Z) : result exn unit :=
  match new_qty with
  | None => Ok tt
  | Some q =>
      if q <=? filled_qty
      then Err (AmendRejected "new_qty <= filled quantity; cancel instead" (Some cid))
      else match or_display_qty row with
           | Some dq => if q <? dq
                        then Err (AmendRejected
                          "new_qty < display_qty (would violate display_qty <= quantity)" (Some cid))
                        else Ok tt
           | None => Ok tt
           end
  end.

Section router.
Context {R V : Type} `{RedisOps R} `{OrdersSchema}.
Abbreviation W := (world R V).
Abbreviation M := (M exn W).

(** The router's collaborators; [asyncio.sleep], the entropy source and the
    hash are the process's. *)
Record OrderRouter := {
  rt_settings : Settings;
  rt_redis : bool;
  rt_sim : BrokerAdapter R V;
  rt_liberator : option (BrokerAdapter R V);
  rt_streaming_pro : option (BrokerAdapter R V);
  rt_last_close : option (string -> Market -> M (option Decimal));
  rt_handle_resolver : option (string -> M bool);
  rt_sleep : Z -> M unit;
  rt_uuid4_hex : nat -> string;
}.

Context (rt : OrderRouter).
Abbreviation settings := (rt_settings rt).

Definition route (broker : Broker) (account : string) (intent : AdapterIntent.t)
    : M (BrokerAdapter R V) :=
  lift_result (_resolve_adapter settings (rt_sim rt) (rt_liberator rt) (rt_streaming_pro rt)
    broker account intent).

(** *** get *)
Definition get (client_order_id : string) : M NormalizedOrderResult :=
  let* row := fetch_order_result client_order_id in
  match row with
  | None => raise (OrderNotFound (Some client_order_id))
  | Some row => lift_result (_to_result row)
  end.

(** *** submit *)
Definition outcome (row : OrderResultRow) (duplicate : bool) (res : HandleResolution.t)
    : M SubmitOutcome :=
  let* result := lift_result (_to_result row) in
  ret {| so_result := result; so_duplicate := duplicate; so_resolution := res |}.

Definition _recover_handle (order : NormalizedOrder) : M HandleResolution.t :=
  let cid := no_client_order_id order in
  match rt_handle_resolver rt with
  | None => ret HandleResolution.UNKNOWN
  | Some resolver =>
      let* row := fetch_order cid in
      let* now := gets w_now in
      let submitted_at := match row with Some r => or_created_at r | None => now end in
      recover_handle resolver (rt_sleep rt) cid submitted_at
        (s_handle_recovery_cadence_ms settings * 1000)
        (s_handle_recovery_deadline_ms settings * 1000)
        (s_handle_recovery_min_polls settings)
  end.

Definition _place_and_settle (adapter : BrokerAdapter R V) (order : NormalizedOrder)
    : M HandleResolution.t :=
  let cid := no_client_order_id order in
  let* ack := ba_place adapter order in
  if pa_rejected ack then
    update_status cid OrderState.REJECTED ;;;
    set_reject_reason cid
      (match pa_reject_reason ack with
       | Some reason => if String.eqb reason "" then "rejected by adapter" else reason
       | None => "rejected by adapter"
       end%string) ;;;
    ret HandleResolution.CONFIRMED
  else
    match pa_broker_order_id ack with
    | None => _recover_handle order
    | Some broker_order_id =>
        ack_order cid broker_order_id ;;;
        for_each (pa_fills ack) (fun fill =>
          apply_fill cid (fp_broker_fill_id fill) (fp_price fill) (fp_quantity fill)
            (fp_exec_ts fill) (no_quantity order) ;;;
          ret tt) ;;;
        (when pa_remainder_cancelled ack do
           (update_status cid OrderState.PENDING_CANCEL ;;;
            ba_cancel adapter cid ;;;
            update_status cid OrderState.CANCELLED)) ;;;
        ret HandleResolution.CONFIRMED
    end.

(** The lock-miss loop: [waited] grows by the poll interval until the budget
    is used; the fuel is the number of polls that takes. *)
Fixpoint await_loop (fuel : nat) (client_order_id : string) (budget waited : Z)
    : M SubmitOutcome :=
  match fuel with
  | O => raise OutOfFuel
  | S fuel' =>
      let* row := fetch_order_result client_order_id in
      match row with
      | Some row => outcome row true HandleResolution.CONFIRMED
      | None =>
          if budget <=? waited then raise (ConcurrentSubmit (Some client_order_id))
          else
            rt_sleep rt _POLL_INTERVAL ;;;
            await_loop fuel' client_order_id budget (waited + _POLL_INTERVAL)
      end
  end.

Definition await_fuel (budget : Z) : nat := Z.to_nat (budget / _POLL_INTERVAL) + 2.

Definition _await_concurrent (client_order_id : string) : M SubmitOutcome :=
  let budget := s_submit_lock_wait_ms settings * 1000 in
  await_loop (await_fuel budget) client_order_id budget 0.

(** The body of the [async with single_flight(...)] block: an early return, or
    the resolution of the placement. *)
Definition submit_locked (adapter : BrokerAdapter R V) (order : NormalizedOrder)
    (strategy_id : option string) (acquired : bool) : M (SubmitOutcome + HandleResolution.t) :=
  let cid := no_client_order_id order in
  if negb acquired then
    let* o := _await_concurrent cid in ret (inl o)
  else
    let* inserted := catch (insert_order order strategy_id ;;; ret true)
      (fun e => match e with DuplicateOrderSignal _ => ret false | e => raise e end) in
    if negb inserted then
      let* row := fetch_order_result cid in
      match row with
      | None => raise (ConcurrentSubmit (Some cid))
      | Some row => let* o := outcome row true HandleResolution.CONFIRMED in ret (inl o)
      end
    else
      let* resolution := _place_and_settle adapter order in
      ret (inr resolution).

Definition submit (order : NormalizedOrder) (strategy_id : option string) : M SubmitOutcome :=
  let cid := no_client_order_id order in
  assert_disengaged settings (rt_redis rt) ;;;
  let* existing := fetch_order_result cid in
  match existing with
  | Some row => outcome row true HandleResolution.CONFIRMED
  | None =>
      let* caps := lift_result (lookup_caps (no_broker order) (no_market order)) in
      lift_result (assert_supports caps (no_order_type order) (no_tif order)
        (no_position_effect order)) ;;;
      risk_check settings (rt_redis rt) order ;;;
      price_band_check (rt_last_close rt) settings order ;;;
      let* adapter := route (no_broker order) (no_account order) AdapterIntent.TRADE in
      breaker_guard adapter ;;;
      let* settled := single_flight (rt_uuid4_hex rt) (rt_redis rt)
        ("exe:submit:" +:+ cid)%string (s_submit_lock_ttl_seconds settings)
        (submit_locked adapter order strategy_id) in
      match settled with
      | inl early => ret early
      | inr resolution =>
          let* row := fetch_order_result cid in
          match row with
          | None => raise (OrderNotFound (Some cid))
          | Some row => outcome row false resolution
          end
      end
  end.

(** *** cancel *)
Definition cancel (client_order_id : string) : M NormalizedOrderResult :=
  let* row := fetch_order client_order_id in
  match row with
  | None => raise (OrderNotFound (Some client_order_id))
  | Some row =>
      if is_terminal (or_status row) then raise (IllegalTransition (Some client_order_id))
      else if decide (or_status row = OrderState.PENDING_CANCEL) then get client_order_id
      else if memb (or_status row) [OrderState.PENDING_NEW; OrderState.PENDING_REPLACE]
      then raise (IllegalTransition (Some client_order_id))
      else
        let* adapter := route (or_broker row) (or_account row) AdapterIntent.TRADE in
        breaker_guard adapter ;;;
        update_status client_order_id OrderState.PENDING_CANCEL ;;;
        let* ack := ba_cancel adapter client_order_id in
        if negb (ca_ok ack)
        then raise (AdapterError ("cancel not confirmed by adapter: " +:+
                      default "None"%string (ca_reason ack))%string)
        else
          update_status client_order_id OrderState.CANCELLED ;;;
          get client_order_id
  end.

(** *** amend *)
Definition _amend_cancel_replace (row : OrderRow) (new_client_order_id : option string)
    (new_price : option Decimal) (new_qty : option Z) : M SubmitOutcome :=
  match new_client_order_id with
  | None => raise (AmendRejected "cancel_replace amend requires new_client_order_id"
                     (Some (or_client_order_id row)))
  | Some new_cid =>
      cancel (or_client_order_id row) ;;;
      let* replacement := lift_result (_amended_order row new_cid new_price new_qty) in
      submit replacement (or_strategy_id row)
  end.

Definition _venue_amend (adapter : BrokerAdapter R V) (cid : string) (new_price : option Decimal)
    (new_qty : option Z) : M AmendAck :=
  catch (ba_amend adapter cid new_price new_qty)
    (fun e => if is_AdapterError e
              then ret {| aa_ok := false; aa_semantics := "native"; aa_reason := Some (exn_str e) |}
              else raise e).

Definition _restore_partial (cid : string) (filled_qty : Z) : M unit :=
  when 0 <? filled_qty do update_status cid OrderState.PARTIALLY_FILLED.

Definition _amend_native (row : OrderRow) (new_client_order_id : option string)
    (new_price : option Decimal) (new_qty : option Z) : M SubmitOutcome :=
  let cid := or_client_order_id row in
  match new_client_order_id with
  | Some _ => raise (AmendRejected
      "native amend keeps the same client_order_id; omit new_client_order_id" (Some cid))
  | None =>
      if negb (memb (or_status row) [OrderState.NEW; OrderState.PARTIALLY_FILLED])
      then raise (IllegalTransition (Some cid))
      else
        let* result := fetch_order_result cid in
        match result with
        | None => raise (OrderNotFound (Some cid))
        | Some result =>
            let filled_qty := rr_filled_qty result in
            lift_result (_assert_amend_quantities cid row new_qty filled_qty) ;;;
            let* amended := lift_result (_amended_order row cid new_price new_qty) in
            risk_check settings (rt_redis rt) amended ;;;
            let* adapter := route (or_broker row) (or_account row) AdapterIntent.TRADE in
            breaker_guard adapter ;;;
            update_status cid OrderState.PENDING_REPLACE ;;;
            let* ack := _venue_amend adapter cid new_price new_qty in
            if aa_ok ack then
              replace_order cid new_price new_qty ;;;
              _restore_partial cid filled_qty ;;;
              let* r := get cid in
              ret {| so_result := r; so_duplicate := false;
                     so_resolution := HandleResolution.CONFIRMED |}
            else
              update_status cid OrderState.NEW ;;;
              _restore_partial cid filled_qty ;;;
              raise (AmendRejected
                (match aa_reason ack with
                 | Some reason => if String.eqb reason "" then "amend rejected by venue" else reason
                 | None => "amend rejected by venue"
                 end%string) (Some cid))
        end
  end.

Definition amend (client_order_id : string) (new_client_order_id : option string)
    (new_price : option Decimal) (new_qty : option Z) : M SubmitOutcome :=
  assert_disengaged settings (rt_redis rt) ;;;
  if bool_decide (new_price = None) && bool_decide (new_qty = None)
  then raise (AmendRejected "amend requires new_price and/or new_qty" (Some client_order_id))
  else
    let* row := fetch_order client_order_id in
    match row with
    | None => raise (OrderNotFound (Some client_order_id))
    | Some row =>
        let* caps := lift_result (lookup_caps (or_broker row) (or_market row)) in
        if String.eqb (cap_amend caps) "native"
        then _amend_native row new_client_order_id new_price new_qty
        else _amend_cancel_replace row new_client_order_id new_price new_qty
    end.

(** *** mass_cancel *)
Definition sweep_one (row : OrderRow) : M unit :=
  let cid := or_client_order_id row in
  let* adapter := route (or_broker row) (or_account row) AdapterIntent.TRADE in
  update_status cid OrderState.PENDING_CANCEL ;;;
  let* ack := ba_cancel adapter cid in
  if negb (ca_ok ack)
  then raise (AdapterError ("cancel not confirmed: " +:+
                default "None"%string (ca_reason ack))%string)
  else update_status cid OrderState.CANCELLED.

Definition mass_cancel : M (list string * list string) :=
  let* rows := fetch_open_orders in
  fold_m rows ([], []) (fun acc row =>
    let* ok := catch (sweep_one row ;;; ret true) (fun _ => ret false) in
    ret (if ok : bool then (acc.1 ++ [or_client_order_id row], acc.2)
         else (acc.1, acc.2 ++ [or_client_order_id row]))).

(** *** broker reads *)
Definition get_account (broker : Broker) (account : string) : M AccountInfo :=
  let* adapter := route broker account AdapterIntent.READ in ba_get_account adapter account.
Definition get_open_orders (broker : Broker) (account : string) : M (list NormalizedOrder) :=
  let* adapter := route broker account AdapterIntent.READ in ba_get_open_orders adapter account.
Definition get_positions (broker : Broker) (account : string) : M (list Position) :=
  let* adapter := route broker account AdapterIntent.READ in ba_get_positions adapter account.
Definition get_venue_orders (broker : Broker) (account : string) : M (list VenueOrderView) :=
  let* adapter := route broker account AdapterIntent.READ in ba_get_venue_orders adapter account.
End router.
Arguments OrderRouter R V : clear implicits.
