(* ===== verification/RouterProps.v ===== *)
(** * RouterProps: what the router promises

    First the invariant every operation keeps against any venue and any
    interleaved task, then the frozen pipeline order, the branch tables of
    cancel and amend, the sweep, and the paper venue's lifecycle. *)

From S2P Require Import Prelude Decimals Contracts StateMachine Events Store StoreInv StoreProps Config Cache Adapters Gates HandleRecovery Router.
From stdpp Require Import base gmap strings list relations.
From Stdlib Require Import ZArith Lia.
Open Scope Z_scope.

(** ** Every operation evolves the store legally *)

Section router_respects.
Context {R V : Type} `{RedisOps R} `{OrdersSchemaSpec}.
Abbreviation W := (world R V).
Abbreviation ev := (on_db (R := R) (V := V) evolves).

(** What is assumed of the collaborators: while they are awaited other tasks
    may run, each of which follows [evolves]. *)
Record router_ok (rt : OrderRouter R V) : Prop := {
  ro_sim : adapter_ok evolves (rt_sim rt);
  ro_liberator a : rt_liberator rt = Some a -> adapter_ok evolves a;
  ro_streaming_pro a : rt_streaming_pro rt = Some a -> adapter_ok evolves a;
  ro_last_close f : rt_last_close rt = Some f -> forall s m, respects ev (f s m);
  ro_resolver f : rt_handle_resolver rt = Some f -> forall c, respects ev (f c);
  ro_sleep d : respects ev (rt_sleep rt d);
}.

Context (rt : OrderRouter R V) (Hrt : router_ok rt).

Lemma real_adapter_ok b a :
  _real_adapter_for b (rt_liberator rt) (rt_streaming_pro rt) = Some a -> adapter_ok evolves a.
Proof.
  unfold _real_adapter_for. destruct Hrt. repeat case_decide; eauto. discriminate.
Qed.

Lemma resolved_adapter_ok b acc i a :
  _resolve_adapter (rt_settings rt) (rt_sim rt) (rt_liberator rt) (rt_streaming_pro rt) b acc i
    = Ok a -> adapter_ok evolves a.
Proof.
  unfold _resolve_adapter, resolve_adapter.
  destruct (s_stage _); repeat case_match; intros; simplify_eq; try done;
    eauto using real_adapter_ok, ro_sim.
Qed.

(** Continuing with whatever adapter the ladder resolved. *)
Lemma respects_route {A} b acc i (k : BrokerAdapter R V -> M exn W A) :
  (forall a, adapter_ok evolves a -> respects ev (k a)) ->
  respects ev (bind (route rt b acc i) k).
Proof.
  intros Hk w. unfold bind, route, lift_result.
  destruct (_resolve_adapter _ _ _ _ _ _ _) as [a|e] eqn:Ha; simpl.
  - apply Hk. by eapply resolved_adapter_ok.
  - reflexivity.
Qed.

Lemma breaker_guard_respects a : respects ev (breaker_guard (R := R) (V := V) a).
Proof. intros w. unfold on_db. reflexivity. Qed.

Lemma get_respects c : respects ev (get (R := R) (V := V) c).
Proof. unfold get, fetch_order_result. respects_tac. Qed.

Lemma outcome_respects r d x : respects ev (outcome (R := R) (V := V) r d x).
Proof. unfold outcome. respects_tac. Qed.

Hint Resolve breaker_guard_respects get_respects outcome_respects ao_place ao_cancel ao_amend : engine.

Lemma recover_respects o : respects ev (_recover_handle rt o).
Proof.
  unfold _recover_handle, fetch_order. destruct (rt_handle_resolver rt) as [f|] eqn:Hf; respects_tac.
  all: apply recover_handle_respects; [apply _|by eapply ro_resolver|by apply ro_sleep].
Qed.

Hint Resolve recover_respects : engine.

Lemma place_and_settle_respects a o : adapter_ok evolves a -> respects ev (_place_and_settle rt a o).
Proof. intros Ha. unfold _place_and_settle. cbv zeta. respects_tac. Qed.

Lemma await_loop_respects fuel : forall c b x, respects ev (await_loop rt fuel c b x).
Proof.
  induction fuel as [|fuel IH]; intros c b x; simpl; unfold fetch_order_result; respects_tac.
  by apply ro_sleep.
Qed.

Lemma submit_locked_respects a o s b :
  adapter_ok evolves a -> respects ev (submit_locked rt a o s b).
Proof.
  intros Ha. unfold submit_locked, _await_concurrent, fetch_order_result. cbv zeta.
  respects_tac; eauto using await_loop_respects, place_and_settle_respects.
Qed.

Lemma submit_respects o s : respects ev (submit rt o s).
Proof.
  unfold submit, fetch_order_result. cbv zeta.
  apply respects_bind; [apply _|apply assert_disengaged_respects; apply _|intros _].
  apply respects_bind; [apply _|apply respects_gets; apply _|intros ex].
  destruct ex; [apply outcome_respects|].
  apply respects_bind; [apply _|apply respects_lift; apply _|intros caps].
  apply respects_bind; [apply _|apply respects_lift; apply _|intros _].
  apply respects_bind; [apply _|apply risk_check_respects; apply _|intros _].
  apply respects_bind; [apply _|apply price_band_check_respects; [apply _|by apply ro_last_close]|intros _].
  apply respects_route. intros a Ha.
  apply respects_bind; [apply _|apply breaker_guard_respects|intros _].
  apply respects_bind; [apply _|apply single_flight_respects; [apply _|]|intros x; respects_tac].
  intros b. by apply submit_locked_respects.
Qed.

Lemma cancel_respects c : respects ev (Router.cancel rt c).
Proof.
  unfold Router.cancel, fetch_order.
  apply respects_bind; [apply _|apply respects_gets; apply _|intros [row|]]; [|respects_tac].
  repeat case_match; try (by respects_tac).
  apply respects_route. intros a Ha. respects_tac.
Qed.

Lemma venue_amend_respects a c p q :
  adapter_ok evolves a -> respects ev (_venue_amend a c p q).
Proof. intros Ha. unfold _venue_amend. respects_tac. Qed.

Lemma restore_partial_respects c q : respects ev (_restore_partial (R := R) (V := V) c q).
Proof. unfold _restore_partial. respects_tac. Qed.

Hint Resolve venue_amend_respects restore_partial_respects cancel_respects submit_respects : engine.

Lemma amend_native_respects row n p q : respects ev (_amend_native rt row n p q).
Proof.
  unfold _amend_native, fetch_order_result. cbv zeta.
  destruct n; [respects_tac|]. case_match; [respects_tac|].
  apply respects_bind; [apply _|apply respects_gets; apply _|intros [res|]]; [|respects_tac].
  apply respects_bind; [apply _|apply respects_lift; apply _|intros _].
  apply respects_bind; [apply _|apply respects_lift; apply _|intros am].
  apply respects_bind; [apply _|apply risk_check_respects; apply _|intros _].
  apply respects_route. intros a Ha. respects_tac.
Qed.

Lemma amend_respects c n p q : respects ev (amend rt c n p q).
Proof.
  unfold amend, fetch_order, _amend_cancel_replace.
  apply respects_bind; [apply _|apply assert_disengaged_respects; apply _|intros _].
  respects_tac. apply amend_native_respects.
Qed.

Lemma sweep_one_respects row : respects ev (sweep_one rt row).
Proof. unfold sweep_one. cbv zeta. apply respects_route. intros a Ha. respects_tac. Qed.

Lemma mass_cancel_respects : respects ev (mass_cancel rt).
Proof. unfold mass_cancel, fetch_open_orders. respects_tac. apply sweep_one_respects. Qed.
End router_respects.

(** ** Any history of requests *)

Section history.
Context {R V : Type} `{RedisOps R} `{OrdersSchemaSpec}.
Abbreviation W := (world R V).

(** One request served by a router; between requests the clock, Redis and the
    venues may change arbitrarily, and a settings change or a restart may
    bring a different router. *)
Inductive request (rts : OrderRouter R V -> Prop) : W -> W -> Prop :=
  | rq_submit rt o s w : rts rt -> request rts w (submit rt o s w).2
  | rq_cancel rt c w : rts rt -> request rts w (Router.cancel rt c w).2
  | rq_amend rt c n p q w : rts rt -> request rts w (amend rt c n p q w).2
  | rq_mass_cancel rt w : rts rt -> request rts w (mass_cancel rt w).2
  | rq_world w w' : w_db w' = w_db w -> request rts w w'.

Lemma requests_evolve rts w w' :
  (forall rt, rts rt -> router_ok rt) -> rtc (request rts) w w' ->
  evolves (w_db w) (w_db w').
Proof.
  intros Hrts. induction 1 as [|w1 w2 w3 Hs _ IH]; [reflexivity|].
  etrans; [|exact IH]. destruct Hs as [rt o s w Hr|rt c w Hr|rt c n p q w Hr|rt w Hr|w w' E].
  - by apply (submit_respects rt (Hrts _ Hr)).
  - by apply (cancel_respects rt (Hrts _ Hr)).
  - by apply (amend_respects rt (Hrts _ Hr)).
  - by apply (mass_cancel_respects rt (Hrts _ Hr)).
  - rewrite E. reflexivity.
Qed.

(** C1: the engine's durable truth.  Serve any sequence of submits, cancels,
    amends and mass-cancel sweeps, by any routers, against venues that answer
    anything or raise at any point, with any tasks interleaved at the awaits:
    starting from an empty store every order keeps its identity, has an audit
    trail that is a path of the frozen machine ending in its status, moves
    only along frozen edges, keeps its venue handle once it has one, and a
    terminal order never changes again; fills and audit rows are append-only. *)
Theorem engine_durable_truth rts w w1 w2 :
  (forall rt, rts rt -> router_ok rt) ->
  w_db w = db_empty -> rtc (request rts) w w1 -> rtc (request rts) w1 w2 ->
  db_wf (w_db w1) /\ db_wf (w_db w2) /\ evo (w_db w1) (w_db w2).
Proof.
  intros Hrts Hw Hs1 Hs2.
  destruct (requests_evolve _ _ _ Hrts Hs1) as [Hw1 _]; [rewrite Hw; apply db_wf_empty|].
  destruct (requests_evolve _ _ _ Hrts Hs2 Hw1) as [Hw2 He]. done.
Qed.
End history.

(** ** Operations that do not depend on Redis *)

Section redis_blind.
Context {R V : Type}.
Abbreviation W := (world R V).

(** Whatever Redis holds, [m] does the same and leaves Redis as it is. *)
Definition redis_blind {A} (m : M exn W A) : Prop :=
  forall r w, m (set_redis r w) = (let '(x, w') := m w in (x, set_redis r w')).

Lemma blind_ret {A} (a : A) : redis_blind (ret a).
Proof. done. Qed.
Lemma blind_raise {A} e : redis_blind (raise (A := A) e).
Proof. done. Qed.
Lemma blind_lift {A} (x : result exn A) : redis_blind (lift_result x).
Proof. done. Qed.
Lemma blind_gets {A} (f : W -> A) : (forall r w, f (set_redis r w) = f w) -> redis_blind (gets f).
Proof. intros Hf r w. unfold gets. by rewrite Hf. Qed.
Lemma blind_bind {A B} (m : M exn W A) (k : A -> M exn W B) :
  redis_blind m -> (forall a, redis_blind (k a)) -> redis_blind (bind m k).
Proof. intros Hm Hk r w. unfold bind. rewrite Hm. destruct (m w) as [[a|e] w']; [apply Hk | done]. Qed.
Lemma blind_lift_bind {A B} (x : result exn A) (k : A -> M exn W B) :
  (forall a, x = Ok a -> redis_blind (k a)) -> redis_blind (bind (lift_result x) k).
Proof. intros Hk r w. destruct x as [a|e]; [by apply (Hk a) | done]. Qed.
Lemma blind_catch {A} (m : M exn W A) (h : exn -> M exn W A) :
  redis_blind m -> (forall e, redis_blind (h e)) -> redis_blind (catch m h).
Proof. intros Hm Hh r w. unfold catch. rewrite Hm. destruct (m w) as [[a|e] w']; [done | apply Hh]. Qed.

Lemma blind_pool_update `{OrdersSchema} c cond f : redis_blind (pool_update c cond f).
Proof. intros r w. unfold pool_update. simpl. by destruct (sql_update _ _ _ _ _) as [[]|]. Qed.
Lemma blind_publish c st s b p q f : redis_blind (hub_publish c st s b p q f).
Proof. intros r w. unfold hub_publish, modify. simpl. by destruct (w_hub w). Qed.
Lemma blind_breaker a : redis_blind (breaker_guard a).
Proof. done. Qed.
End redis_blind.

Create HintDb blind.
#[export] Hint Resolve blind_ret blind_raise blind_lift blind_pool_update blind_publish blind_breaker : blind.

Ltac blind_tac := repeat first
  [ by auto with blind
  | apply blind_gets; done
  | apply blind_bind; [|intros ?]
  | apply blind_catch; [|intros ?]
  | case_match ].

Section blind_ops.
Context {R V : Type} `{OrdersSchema}.
Abbreviation W := (world R V).

Lemma blind_update_status c st : redis_blind (update_status (R := R) (V := V) c st).
Proof. unfold update_status, fetch_order. blind_tac. Qed.
Lemma blind_get c : redis_blind (get (R := R) (V := V) c).
Proof. unfold get, fetch_order_result. blind_tac. Qed.
End blind_ops.

#[export] Hint Resolve blind_update_status blind_get : blind.

(** ** The frozen pipeline *)

(** The settings and the router with another switch setting, and with or without Redis. *)
Definition set_switch (b : bool) (s : Settings) : Settings :=
  {| s_public_mode := s_public_mode s; s_stage := s_stage s; s_kill_switch_engaged := b;
     s_api_key := s_api_key s; s_read_api_key := s_read_api_key s;
     s_risk_max_order_qty := s_risk_max_order_qty s; s_risk_max_order_value := s_risk_max_order_value s;
     s_risk_max_orders_per_second := s_risk_max_orders_per_second s;
     s_account_max_notional := s_account_max_notional s; s_account_max_qty := s_account_max_qty s;
     s_real_routing_accounts := s_real_routing_accounts s; s_price_band_enabled := s_price_band_enabled s;
     s_price_band_max_pct := s_price_band_max_pct s;
     s_duplicate_burst_guard_enabled := s_duplicate_burst_guard_enabled s;
     s_duplicate_burst_window_seconds := s_duplicate_burst_window_seconds s;
     s_submit_lock_ttl_seconds := s_submit_lock_ttl_seconds s; s_submit_lock_wait_ms := s_submit_lock_wait_ms s;
     s_sim_default_fill_price := s_sim_default_fill_price s; s_liberator_api_key := s_liberator_api_key s;
     s_liberator_circuit_breaker_threshold := s_liberator_circuit_breaker_threshold s;
     s_handle_recovery_cadence_ms := s_handle_recovery_cadence_ms s;
     s_handle_recovery_min_polls := s_handle_recovery_min_polls s;
     s_handle_recovery_deadline_ms := s_handle_recovery_deadline_ms s;
     s_streaming_pro_api_key := s_streaming_pro_api_key s;
     s_streaming_pro_circuit_breaker_threshold := s_streaming_pro_circuit_breaker_threshold s;
     s_market_data_base_url := s_market_data_base_url s; s_liberator_base_url := s_liberator_base_url s;
     s_streaming_pro_base_url := s_streaming_pro_base_url s; s_order_book_enabled := s_order_book_enabled s;
     s_order_book_symbol_overrides := s_order_book_symbol_overrides s;
     s_order_book_failover_error_threshold := s_order_book_failover_error_threshold s;
     s_order_book_failover_window_seconds := s_order_book_failover_window_seconds s;
     s_order_book_cache_max_age_seconds := s_order_book_cache_max_age_seconds s;
     s_order_book_cache_max_symbols := s_order_book_cache_max_symbols s;
     s_stream_keepalive_seconds := s_stream_keepalive_seconds s;
     s_stream_ring_buffer_size := s_stream_ring_buffer_size s;
     s_stream_subscriber_queue_size := s_stream_subscriber_queue_size s;
     s_market_data_api_key := s_market_data_api_key s; s_app_env := s_app_env s; s_log_level := s_log_level s;
     s_pg_dsn := s_pg_dsn s; s_redis_url := s_redis_url s; s_pg_pool_min_size := s_pg_pool_min_size s;
     s_pg_pool_max_size := s_pg_pool_max_size s;
     s_risk_duplicate_burst_window_seconds := s_risk_duplicate_burst_window_seconds s;
     s_liberator_heartbeat_interval_seconds := s_liberator_heartbeat_interval_seconds s;
     s_liberator_reconcile_interval_seconds := s_liberator_reconcile_interval_seconds s;
     s_liberator_post_rate_limit := s_liberator_post_rate_limit s;
     s_streaming_pro_heartbeat_interval_seconds := s_streaming_pro_heartbeat_interval_seconds s;
     s_streaming_pro_reconcile_interval_seconds := s_streaming_pro_reconcile_interval_seconds s;
     s_streaming_pro_post_rate_limit := s_streaming_pro_post_rate_limit s;
     s_order_book_primary_provider := s_order_book_primary_provider s;
     s_order_book_liberator_extra_ca_pem := s_order_book_liberator_extra_ca_pem s;
     s_host_port := s_host_port s |}.

Definition with_switch {R V} (b redis : bool) (rt : OrderRouter R V) : OrderRouter R V :=
  {| rt_settings := set_switch b (rt_settings rt); rt_redis := redis; rt_sim := rt_sim rt;
     rt_liberator := rt_liberator rt; rt_streaming_pro := rt_streaming_pro rt;
     rt_last_close := rt_last_close rt; rt_handle_resolver := rt_handle_resolver rt;
     rt_sleep := rt_sleep rt; rt_uuid4_hex := rt_uuid4_hex rt |}.

Section pipeline.
Context {R V : Type} `{RedisOps R} `{OrdersSchemaSpec}.
Abbreviation W := (world R V).

Lemma cancel_ignores_switch b redis rt c :
  Router.cancel (R := R) (V := V) (with_switch b redis rt) c = Router.cancel rt c.
Proof. reflexivity. Qed.

Lemma blind_cancel rt c :
  (forall broker account a,
     _resolve_adapter (rt_settings rt) (rt_sim rt) (rt_liberator rt) (rt_streaming_pro rt)
       broker account AdapterIntent.TRADE = Ok a -> redis_blind (ba_cancel a c)) ->
  redis_blind (Router.cancel (R := R) (V := V) rt c).
Proof.
  intros Ha. unfold Router.cancel, fetch_order. apply blind_bind; [by apply blind_gets|].
  intros [row|]; [|blind_tac]. repeat (case_match; [by blind_tac|]).
  apply blind_lift_bind. intros a Ea. specialize (Ha _ _ _ Ea). blind_tac.
Qed.

(** C3: kill switch first.  With the switch engaged, submit and amend raise
    [KillSwitchEngagedError] before anything else: no read of the store, no
    Redis counter, no venue call, nothing in the world changes (a runtime trip
    costs one Redis GET).  Cancel does not consult the switch: with the setting
    engaged or not, Redis configured or not and holding anything at all, it
    answers the same and leaves the same world, the venue adapter's own cancel
    being one that does not use Redis. *)
Theorem kill_switch_precedes_everything rt o s c n p q (w : W) :
  (s_kill_switch_engaged (rt_settings rt) = true ->
     submit rt o s w = (Err KillSwitchEngagedError, w) /\
     amend rt c n p q w = (Err KillSwitchEngagedError, w)) /\
  (forall v r, s_kill_switch_engaged (rt_settings rt) = false -> rt_redis rt = true ->
     redis_get (w_now w) KILL_SWITCH_KEY (w_redis w) = (Ok (Some v), r) ->
     submit rt o s w = (Err KillSwitchEngagedError, set_redis r w) /\
     amend rt c n p q w = (Err KillSwitchEngagedError, set_redis r w)) /\
  (forall b redis r,
     (forall broker account a,
        _resolve_adapter (rt_settings rt) (rt_sim rt) (rt_liberator rt) (rt_streaming_pro rt)
          broker account AdapterIntent.TRADE = Ok a -> redis_blind (ba_cancel a c)) ->
     Router.cancel (with_switch b redis rt) c (set_redis r w) =
       (let '(x, w') := Router.cancel rt c w in (x, set_redis r w'))).
Proof.
  split; [|split].
  - intros Hk. unfold submit, amend, assert_disengaged, ks_status, bind. rewrite Hk. done.
  - intros v r Hk Hr Hg. unfold submit, amend, assert_disengaged, ks_status. rewrite Hk, Hr.
    unfold bind, catch, redis_call. rewrite Hg. done.
  - intros b redis r Ha. rewrite cancel_ignores_switch. by apply blind_cancel.
Qed.

(** C32: idempotent submit.  When the id is already stored and the switch is not
    engaged, submit returns the stored order's result marked duplicate, and
    the world it leaves is the one the switch check left: no counter, no lock,
    no insert, no venue call, no event. *)
Theorem submit_duplicate_is_a_read rt o s (w w1 : W) row :
  assert_disengaged (rt_settings rt) (rt_redis rt) w = (Ok tt, w1) ->
  order_result (no_client_order_id o) (w_db w) = Some row ->
  exists res, _to_result row = Ok res /\
    submit rt o s w =
      (Ok {| so_result := res; so_duplicate := true;
             so_resolution := HandleResolution.CONFIRMED |}, w1).
Proof.
  intros Hks Hrow.
  assert (Hdb : w_db w1 = w_db w).
  { pose proof (assert_disengaged_respects (V := V) eq (rt_settings rt) (rt_redis rt) w) as E.
    rewrite Hks in E. by symmetry. }
  destruct (to_public_status_some (or_status (rr_row row)) (rr_filled_qty row)) as [st Hst].
  unfold _to_result. rewrite Hst. eexists. split; [reflexivity|].
  unfold submit. erewrite bind_ok by exact Hks. unfold fetch_order_result, bind, gets.
  rewrite Hdb, Hrow. unfold outcome, bind, lift_result, _to_result. rewrite Hst. done.
Qed.
End pipeline.

(** ** Durable before the venue *)

Section durable.
Context {R V : Type} `{RedisOps R} `{OrdersSchemaSpec}.
Abbreviation W := (world R V).

(** The order is stored, not yet acknowledged, and has no venue handle. *)
Definition awaiting_venue (c : string) (d : db) : bool :=
  match db_orders d !! c with
  | Some r => bool_decide (or_status r = OrderState.PENDING_NEW) &&
              bool_decide (or_broker_order_id r = None)
  | None => false
  end.

(** The same adapter, except that a [place] of an order that is not stored and
    awaiting the venue would fail an assertion. *)
Definition guarded (a : BrokerAdapter R V) : BrokerAdapter R V := {|
  ba_oid := ba_oid a; ba_broker := ba_broker a; ba_breaker := ba_breaker a;
  ba_place := fun o w => if awaiting_venue (no_client_order_id o) (w_db w)
                         then ba_place a o w else (Err AssertionError, w);
  ba_cancel := ba_cancel a; ba_amend := ba_amend a;
  ba_get_open_orders := ba_get_open_orders a; ba_get_positions := ba_get_positions a;
  ba_get_venue_orders := ba_get_venue_orders a; ba_get_account := ba_get_account a;
  ba_capabilities := ba_capabilities a;
|}.

Definition guarded_router (rt : OrderRouter R V) : OrderRouter R V := {|
  rt_settings := rt_settings rt; rt_redis := rt_redis rt; rt_sim := guarded (rt_sim rt);
  rt_liberator := guarded <$> rt_liberator rt;
  rt_streaming_pro := guarded <$> rt_streaming_pro rt;
  rt_last_close := rt_last_close rt; rt_handle_resolver := rt_handle_resolver rt;
  rt_sleep := rt_sleep rt; rt_uuid4_hex := rt_uuid4_hex rt;
|}.

Lemma guarded_resolve rt b acc i :
  _resolve_adapter (rt_settings rt) (guarded (rt_sim rt)) (guarded <$> rt_liberator rt)
    (guarded <$> rt_streaming_pro rt) b acc i =
  match _resolve_adapter (rt_settings rt) (rt_sim rt) (rt_liberator rt) (rt_streaming_pro rt)
          b acc i with
  | Ok a => Ok (guarded a)
  | Err e => Err e
  end.
Proof.
  unfold _resolve_adapter, resolve_adapter, _real_adapter_for, assert_may_route_real.
  destruct (s_stage (rt_settings rt)), b, i, (rt_liberator rt), (rt_streaming_pro rt);
    simpl; repeat case_match; congruence.
Qed.

Lemma single_flight_ext {A} u c k t (f g : bool -> M exn W A) w :
  (forall b w, f b w = g b w) -> single_flight u c k t f w = single_flight u c k t g w.
Proof.
  intros Hfg. unfold single_flight. apply bind_ext; [done|]. intros tok w1 _.
  apply bind_ext; [done|]. intros acq w2 _. unfold finally. by rewrite Hfg.
Qed.

Lemma insert_order_awaits o s (w w' : W) u :
  insert_order o s w = (Ok u, w') -> awaiting_venue (no_client_order_id o) (w_db w') = true.
Proof.
  unfold insert_order. intros Hi. inv_ok Hi. inv_ok Hi.
  unfold hub_publish, hub_register, modify in *. injection Hm0 as <- <-. injection Hi as <- <-.
  unfold catch in Hm. unfold sql_insert_order in Hm.
  destruct (negb _); [discriminate|].
  destruct (db_orders (w_db w) !! _); [discriminate|]. injection Hm as <- <-.
  unfold awaiting_venue. repeat (case_match; simpl in * ); try done;
    rewrite lookup_insert_eq in *; simplify_eq; done.
Qed.

Lemma guarded_place rt a o w :
  awaiting_venue (no_client_order_id o) (w_db w) = true ->
  _place_and_settle (guarded_router rt) (guarded a) o w = _place_and_settle rt a o w.
Proof. intros Ha. unfold _place_and_settle, bind at 1 3. simpl. by rewrite Ha. Qed.

(** C4: durable first.  The pipeline only ever asks a venue to place an order
    that is already stored, still PENDING_NEW and without a handle: guarding
    every adapter's [place] with that assertion changes no behaviour of
    submit, on any input and in any world. *)
Theorem place_only_durable rt o s w :
  submit (guarded_router rt) o s w = submit rt o s w.
Proof.
  unfold submit. cbv zeta.
  apply bind_ext; [done|]. intros _ w1 _.
  apply bind_ext; [done|]. intros [row|] w2 _; [done|].
  do 4 (apply bind_ext; [done|]; intros ? ? _).
  unfold route, lift_result, bind at 1. symmetry. unfold bind at 1. symmetry. simpl.
  rewrite guarded_resolve.
  destruct (_resolve_adapter _ _ _ _ _ _ _) as [ad|e]; [|done].
  apply bind_ext; [done|]. intros _ w3 _.
  apply bind_ext; [|done]. apply single_flight_ext. intros acquired w4.
  unfold submit_locked. destruct acquired; [|done]. simpl.
  apply bind_ext; [done|]. intros inserted w5 Hi. destruct inserted; [|done]. simpl.
  apply bind_ext; [|done]. apply guarded_place.
  unfold catch in Hi. destruct ((insert_order o s ;;; ret true) w4) as [[u|e] w6] eqn:Hins.
  - simplify_eq. inv_ok Hins. unfold ret in Hins. simplify_eq. by eapply insert_order_awaits.
  - destruct e; discriminate.
Qed.
End durable.
