(* ===== verification/CancelAmend.v ===== *)
(** * CancelAmend: the branch tables of cancel and amend, and the sweep *)

From S2P Require Import Prelude Decimals Contracts StateMachine Events Store StoreInv StoreProps Config Cache Adapters Gates HandleRecovery Router RouterProps.
From stdpp Require Import base gmap strings list relations.
From Stdlib Require Import ZArith Lia.
Import OrderState.
Open Scope Z_scope.

Section get_facts.
Context {R V : Type} `{OrdersSchemaSpec}.
Abbreviation W := (world R V).

Lemma to_result_ok row : exists res, _to_result row = Ok res /\
  nr_engine_state res = or_status (rr_row row) /\
  nr_client_order_id res = or_client_order_id (rr_row row) /\
  nr_filled_qty res = rr_filled_qty row /\
  nr_remaining_qty res = or_quantity (rr_row row) - rr_filled_qty row /\
  nr_reject_reason res = or_reject_reason (rr_row row) /\
  to_public_status (or_status (rr_row row)) (rr_filled_qty row) = Some (nr_status res).
Proof.
  unfold _to_result.
  destruct (to_public_status_some (or_status (rr_row row)) (rr_filled_qty row)) as [st ->].
  by eexists.
Qed.

(** Reading a stored order back. *)
Lemma get_ok c (w : W) r : db_orders (w_db w) !! c = Some r ->
  exists res, get c w = (Ok res, w) /\ nr_engine_state res = or_status r /\
    nr_filled_qty res = filled_qty c (w_db w) /\
    nr_remaining_qty res = or_quantity r - filled_qty c (w_db w) /\
    nr_reject_reason res = or_reject_reason r /\
    to_public_status (or_status r) (filled_qty c (w_db w)) = Some (nr_status res).
Proof.
  intros Hr. unfold get, fetch_order_result, bind, gets, order_result. rewrite Hr.
  destruct (to_result_ok {| rr_row := r; rr_filled_qty := filled_qty c (w_db w);
    rr_fill_notional := fill_notional c (w_db w) |}) as (res & E & ? & ? & ? & ? & ? & ?).
  exists res. unfold lift_result. rewrite E. done.
Qed.

(** What a status move leaves, read off the store. *)
Lemma update_status_row c st (w : W) r :
  db_wf (w_db w) -> db_orders (w_db w) !! c = Some r -> is_legal (or_status r) st = true ->
  exists w' r', update_status c st w = (Ok tt, w') /\ db_wf (w_db w') /\
    db_orders (w_db w') !! c = Some r' /\ or_status r' = st /\
    or_price r' = or_price r /\ or_quantity r' = or_quantity r /\
    or_broker_order_id r' = or_broker_order_id r /\ or_reject_reason r' = or_reject_reason r /\
    db_fills (w_db w') = db_fills (w_db w) /\
    w_venue w' = w_venue w /\ w_redis w' = w_redis w /\ w_now w' = w_now w.
Proof.
  intros Hw Hr Hl. pose proof (update_status_respects (R := R) (V := V) c st w Hw) as [Hw' _].
  destruct (decide (or_status r = st)) as [<-|Hne].
  - rewrite update_status_same in * by done. exists w, r. done.
  - erewrite update_status_ok in * by done. eexists _, _. split; [reflexivity|].
    split; [exact Hw'|]. rewrite pub_db. simpl. rewrite lookup_insert_eq.
    split; [reflexivity|]. simpl. repeat (split; [done|]).
    unfold pub; simpl. by destruct (w_hub w).
Qed.

Lemma filled_qty_same c d d' : db_fills d' = db_fills d -> filled_qty c d' = filled_qty c d.
Proof. intros E. unfold filled_qty, fills_of. by rewrite E. Qed.
End get_facts.

Section cancel_table.
Context {R V : Type} `{RedisOps R} `{OrdersSchemaSpec}.
Abbreviation W := (world R V).

Definition resolve_trade (rt : OrderRouter R V) (r : OrderRow) : result exn (BrokerAdapter R V) :=
  _resolve_adapter (rt_settings rt) (rt_sim rt) (rt_liberator rt) (rt_streaming_pro rt)
    (or_broker r) (or_account r) AdapterIntent.TRADE.

(** The tail of [cancel] that talks to the venue. *)
Definition cancel_live (rt : OrderRouter R V) (c : string) (r : OrderRow)
    : M exn W NormalizedOrderResult :=
  let* adapter := route rt (or_broker r) (or_account r) AdapterIntent.TRADE in
  breaker_guard adapter ;;;
  update_status c PENDING_CANCEL ;;;
  let* ack := ba_cancel adapter c in
  if negb (ca_ok ack)
  then raise (AdapterError ("cancel not confirmed by adapter: " +:+
                default "None"%string (ca_reason ack))%string)
  else update_status c CANCELLED ;;; get c.

Lemma cancel_run rt c (w : W) r : db_orders (w_db w) !! c = Some r ->
  Router.cancel rt c w =
    match or_status r with
    | NEW | PARTIALLY_FILLED => cancel_live rt c r w
    | PENDING_CANCEL => get c w
    | _ => (Err (IllegalTransition (Some c)), w)
    end.
Proof.
  intros Hr. unfold Router.cancel, fetch_order, bind at 1, gets. rewrite Hr.
  by destruct (or_status r).
Qed.

(** A cancel in flight can only end CANCELLED. *)
Lemma cancelling_evolves c r d d' :
  db_orders d !! c = Some r -> or_status r = PENDING_CANCEL -> evo d d' ->
  exists r', db_orders d' !! c = Some r' /\ is_legal (or_status r') CANCELLED = true.
Proof.
  intros Hr Hs He. destruct (evo_orders _ _ He _ _ Hr) as (r' & Hr' & Hre). exists r'. split; [done|].
  pose proof (re_status _ _ Hre) as Hp. rewrite Hs in Hp. clear -Hp. revert Hp. generalize (or_status r').
  intros t Hp. inversion Hp as [|? y ? Hst Hrest]; subst; [reflexivity|].
  assert (y = CANCELLED) as -> by (unfold edge in Hst; apply memb_spec in Hst; by destruct y).
  by rewrite (terminal_reaches CANCELLED t eq_refl Hrest).
Qed.

(** What [run] did with a cancel the venue was asked for, from the world [w1] the
    venue call started in. *)
Definition cancel_asked (a : BrokerAdapter R V) (c : string) (w1 : W)
    (run : result exn NormalizedOrderResult * W) : Prop :=
  match ba_cancel a c w1 with
  | (Err e, w2) => run = (Err e, w2)
  | (Ok ack, w2) =>
      if ca_ok ack
      then evolves (w_db w1) (w_db w2) ->
           exists res w3, run = (Ok res, w3) /\
             nr_engine_state res = CANCELLED /\ nr_status res = PublicOrderStatus.CANCELLED /\
             nr_filled_qty res = filled_qty c (w_db w2) /\
             or_status <$> (db_orders (w_db w3) !! c) = Some CANCELLED /\
             db_fills (w_db w3) = db_fills (w_db w2)
      else run = (Err (AdapterError ("cancel not confirmed by adapter: " +:+
                         default "None"%string (ca_reason ack))%string), w2)
  end.

Lemma cancel_live_run rt c (w : W) r :
  db_wf (w_db w) -> db_orders (w_db w) !! c = Some r ->
  or_status r = NEW \/ or_status r = PARTIALLY_FILLED ->
  match resolve_trade rt r with
  | Err e => cancel_live rt c r w = (Err e, w)
  | Ok a =>
      match Adapters.guard (ba_breaker a (w_venue w)) with
      | Err e => cancel_live rt c r w = (Err e, w)
      | Ok _ =>
          let w1 := (update_status c PENDING_CANCEL w).2 in
          or_status <$> (db_orders (w_db w1) !! c) = Some PENDING_CANCEL /\
          db_fills (w_db w1) = db_fills (w_db w) /\
          cancel_asked a c w1 (cancel_live rt c r w)
      end
  end.
Proof.
  intros Hw Hr Hs. unfold cancel_live, route. fold (resolve_trade rt r).
  destruct (resolve_trade rt r) as [a|e]; [|done].
  destruct (Adapters.guard (ba_breaker a (w_venue w))) as [[]|e] eqn:Hg.
  2: { unfold bind, lift_result, breaker_guard. by rewrite Hg. }
  destruct (update_status_row c PENDING_CANCEL w r) as
    (w1 & r1 & E1 & Hw1 & Hr1 & Hs1 & _ & _ & _ & _ & Hf1 & _);
    [done|done|by destruct Hs as [-> | ->]|].
  rewrite E1. simpl. rewrite Hr1. simpl. rewrite Hs1. split; [done|]. split; [done|].
  unfold lift_result. erewrite bind_ok by reflexivity.
  erewrite bind_ok by (unfold breaker_guard; rewrite Hg; reflexivity). erewrite bind_ok by exact E1.
  unfold cancel_asked. destruct (ba_cancel a c w1) as [[ack|e] w2] eqn:Hc;
    [|unfold bind; by rewrite Hc].
  erewrite bind_ok by exact Hc. destruct (ca_ok ack); cbn [negb]; [|done].
  intros Hev. destruct (Hev Hw1) as [Hw2 He].
  destruct (cancelling_evolves c r1 _ _ Hr1 Hs1 He) as (r2 & Hr2 & Hl).
  destruct (update_status_row c CANCELLED w2 r2) as
    (w3 & r3 & E3 & Hw3 & Hr3 & Hs3 & _ & _ & _ & _ & Hf3 & _); [done..|].
  erewrite bind_ok by exact E3.
  destruct (get_ok c w3 r3 Hr3) as (res & E & Hst & Hfq & _ & _ & Hps).
  exists res, w3. rewrite Hs3 in Hps. split_and!; [exact E | congruence | by injection Hps | | | done].
  - rewrite Hfq. by apply filled_qty_same.
  - rewrite Hr3. simpl. congruence.
Qed.

(** C33: cancel, on every branch.  An unknown id raises OrderNotFound; a terminal
    order, an unacknowledged one and one with an amend in flight are refused with
    nothing changed; a second cancel of a PENDING_CANCEL order is an idempotent
    read; a resting order that the ladder or the breaker refuses is left
    untouched.  Otherwise the order is PENDING_CANCEL when the venue is asked.
    When the venue call raises, so does cancel, with the same exception and in the
    world the call left; an unconfirmed cancel raises the same way, leaving the
    row to the reconciler.  A confirmed cancel ends CANCELLED and is returned as
    such with every fill recorded by then, also one that landed while the venue
    was answering: the store may meanwhile move in any way the engine's operations
    move it. *)
Theorem cancel_branches rt c (w : W) :
  db_wf (w_db w) ->
  match db_orders (w_db w) !! c with
  | None => Router.cancel rt c w = (Err (OrderNotFound (Some c)), w)
  | Some r =>
      match or_status r with
      | FILLED | CANCELLED | REJECTED | EXPIRED | PENDING_NEW | PENDING_REPLACE =>
          Router.cancel rt c w = (Err (IllegalTransition (Some c)), w)
      | PENDING_CANCEL =>
          exists res, Router.cancel rt c w = (Ok res, w) /\ nr_engine_state res = PENDING_CANCEL
      | NEW | PARTIALLY_FILLED =>
          match resolve_trade rt r with
          | Err e => Router.cancel rt c w = (Err e, w)
          | Ok a =>
              match Adapters.guard (ba_breaker a (w_venue w)) with
              | Err e => Router.cancel rt c w = (Err e, w)
              | Ok _ =>
                  let w1 := (update_status c PENDING_CANCEL w).2 in
                  or_status <$> (db_orders (w_db w1) !! c) = Some PENDING_CANCEL /\
                  db_fills (w_db w1) = db_fills (w_db w) /\
                  cancel_asked a c w1 (Router.cancel rt c w)
              end
          end
      end
  end.
Proof.
  intros Hw. destruct (db_orders (w_db w) !! c) as [r|] eqn:Hr.
  2: { unfold Router.cancel, fetch_order, bind, gets. by rewrite Hr. }
  rewrite (cancel_run rt c w r Hr). destruct (or_status r) eqn:Hs; try done.
  - apply cancel_live_run; auto.
  - apply cancel_live_run; auto.
  - destruct (get_ok c w r Hr) as (res & E & Hst & _). exists res. split; [exact E|congruence].
Qed.
End cancel_table.

(** ** The flatten-and-halt sweep *)

Section sweep.
Context {R V : Type} `{RedisOps R} `{OrdersSchemaSpec}.
Abbreviation W := (world R V).

Definition in_state (c : string) (st : OrderState.t) (d : db) : Prop :=
  or_status <$> (db_orders d !! c) = Some st.

Lemma update_status_post c st (w w' : W) :
  db_wf (w_db w) -> update_status c st w = (Ok tt, w') -> in_state c st (w_db w').
Proof.
  intros Hw Hu. unfold in_state. destruct (db_orders (w_db w) !! c) as [r|] eqn:Hr.
  - destruct (is_legal (or_status r) st) eqn:Hl.
    + destruct (update_status_row c st w r Hw Hr Hl) as (w2 & r2 & E & _ & Hr2 & Hs2 & _).
      rewrite E in Hu. injection Hu as <-. rewrite Hr2. simpl. congruence.
    + unfold update_status, fetch_order, bind, gets in Hu. rewrite Hr in Hu.
      rewrite decide_False in Hu by (intros E; rewrite E, is_legal_refl in Hl; discriminate).
      unfold assert_legal in Hu. rewrite Hl in Hu. discriminate.
  - unfold update_status, fetch_order, bind, gets in Hu. rewrite Hr in Hu. discriminate.
Qed.

Lemma terminal_stays c st d d' :
  is_terminal st = true -> in_state c st d -> evo d d' -> in_state c st d'.
Proof.
  intros Ht Hs He. unfold in_state in *.
  destruct (db_orders d !! c) as [r|] eqn:Hr; [|discriminate]. injection Hs as Hs.
  destruct (evo_orders _ _ He _ _ Hr) as (r' & -> & Hre). simpl.
  destruct (re_terminal _ _ Hre) as [E _]; congruence.
Qed.

Context (rt : OrderRouter R V) (Hrt : router_ok rt).

Lemma sweep_one_post row (w w' : W) u :
  db_wf (w_db w) -> sweep_one rt row w = (Ok u, w') ->
  in_state (or_client_order_id row) CANCELLED (w_db w').
Proof.
  intros Hw Hs. unfold sweep_one in Hs. inv_ok Hs. rename a into ad.
  assert (Had : adapter_ok evolves ad).
  { unfold route, lift_result in Hm. eapply (resolved_adapter_ok rt Hrt).
    injection Hm as Hm _. exact Hm. }
  injection Hm as _ <-. inv_ok Hs. inv_ok Hs. destruct (ca_ok a0); [|discriminate].
  simpl in Hs. destruct u. eapply update_status_post; [|exact Hs].
  pose proof (update_status_respects (or_client_order_id row) PENDING_CANCEL w Hw) as [Hw1 _].
  rewrite Hm in Hw1. simpl in Hw1.
  pose proof (ao_cancel _ _ _ _ Had (or_client_order_id row) _ Hw1) as [Hw2 _].
  rewrite Hm0 in Hw2. exact Hw2.
Qed.

Definition sweep_step (acc : list string * list string) (row : OrderRow)
    : M exn W (list string * list string) :=
  let* ok := catch (sweep_one rt row ;;; ret true) (fun _ => ret false) in
  ret (if ok : bool then (acc.1 ++ [or_client_order_id row], acc.2)
       else (acc.1, acc.2 ++ [or_client_order_id row])).

Lemma sweep_rows rows : forall acc (w : W),
  db_wf (w_db w) -> (forall c, c ∈ acc.1 -> in_state c CANCELLED (w_db w)) ->
  exists res w', fold_m rows acc sweep_step w = (Ok res, w') /\
    res.1 ++ res.2 ≡ₚ acc.1 ++ acc.2 ++ map or_client_order_id rows /\
    (forall c, c ∈ res.1 -> in_state c CANCELLED (w_db w')).
Proof.
  induction rows as [|row rows IH]; intros acc w Hw Hacc; simpl.
  - eexists _, _. split; [reflexivity|]. by rewrite app_nil_r.
  - pose proof (sweep_one_respects rt Hrt row w Hw) as [Hw1 He1].
    unfold bind at 1, sweep_step at 1, catch, bind.
    destruct (sweep_one rt row w) as [[u|e] w1] eqn:Hone; simpl in *.
    + destruct (IH (acc.1 ++ [or_client_order_id row], acc.2) w1 Hw1) as (res & w' & E & Hp & Hc).
      { simpl. intros c [Hc|Hc]%elem_of_app.
        - eapply terminal_stays; [done|by apply Hacc|done].
        - apply list_elem_of_singleton in Hc as ->. exact (sweep_one_post row w w1 u Hw Hone). }
      exists res, w'. split; [exact E|]. split; [|done]. rewrite Hp. simpl. solve_Permutation.
    + destruct (IH (acc.1, acc.2 ++ [or_client_order_id row]) w1 Hw1) as (res & w' & E & Hp & Hc).
      { simpl. intros c Hc. eapply terminal_stays; [done|by apply Hacc|done]. }
      exists res, w'. split; [exact E|]. split; [|done]. rewrite Hp. simpl. solve_Permutation.
Qed.

Lemma mass_cancel_sweeps (w : W) :
  db_wf (w_db w) ->
  exists cancelled failed w', mass_cancel rt w = (Ok (cancelled, failed), w') /\
    cancelled ++ failed ≡ₚ map or_client_order_id
      (select_orders (fun r => memb (or_status r) [NEW; PARTIALLY_FILLED]) (w_db w)) /\
    (forall c, c ∈ cancelled -> in_state c CANCELLED (w_db w')).
Proof.
  intros Hw. unfold mass_cancel, fetch_open_orders. erewrite bind_ok by reflexivity.
  destruct (sweep_rows
    (select_orders (fun r => memb (or_status r) [NEW; PARTIALLY_FILLED]) (w_db w)) ([], []) w Hw)
    as (res & w' & E & Hp & Hc).
  { simpl. intros c Hc. by apply elem_of_nil in Hc. }
  exists res.1, res.2, w'. split; [|done]. rewrite <- surjective_pairing. exact E.
Qed.

(** the sweep never stops early.  Whatever the venues do (confirm, refuse,
    raise), mass_cancel returns, every order that was resting when it started
    is reported exactly once as cancelled or failed, and each one reported
    cancelled is CANCELLED in the store when the sweep ends. *)
Theorem mass_cancel_complete (w : W) :
  db_wf (w_db w) ->
  exists cancelled failed w', mass_cancel rt w = (Ok (cancelled, failed), w') /\
    cancelled ++ failed ≡ₚ map or_client_order_id
      (select_orders (fun r => memb (or_status r) [NEW; PARTIALLY_FILLED]) (w_db w)) /\
    (forall c, c ∈ cancelled -> in_state c CANCELLED (w_db w')).
Proof. apply mass_cancel_sweeps. Qed.
End sweep.

(** ** Native amend *)

Section native.
Context {R V : Type} `{RedisOps R} `{OrdersSchemaSpec}.
Abbreviation W := (world R V).

Lemma on_db_eq {A} (m : M exn W A) (w w' : W) x :
  respects (on_db eq) m -> m w = (x, w') -> w_db w' = w_db w.
Proof. intros Hm E. specialize (Hm w). rewrite E in Hm. by symmetry. Qed.

(** A resting order is put back where its fills say it was. *)
Definition resting_state (filled : Z) : OrderState.t :=
  if 0 <? filled then PARTIALLY_FILLED else NEW.

Lemma restore_partial_row c filled (w : W) r :
  db_wf (w_db w) -> db_orders (w_db w) !! c = Some r -> or_status r = NEW ->
  exists w' r', _restore_partial c filled w = (Ok tt, w') /\
    db_orders (w_db w') !! c = Some r' /\ or_status r' = resting_state filled /\
    or_price r' = or_price r /\ or_quantity r' = or_quantity r /\
    or_broker_order_id r' = or_broker_order_id r /\ or_reject_reason r' = or_reject_reason r /\
    db_fills (w_db w') = db_fills (w_db w).
Proof.
  intros Hw Hr Hs. unfold _restore_partial, resting_state. destruct (0 <? filled).
  - destruct (update_status_row c PARTIALLY_FILLED w r) as
      (w' & r' & E & _ & Hr' & Hs' & ? & ? & ? & ? & ? & _); [done|done|by rewrite Hs|].
    exists w', r'. done.
  - exists w, r. done.
Qed.

Lemma replace_order_row c p q (w : W) r :
  db_wf (w_db w) -> db_orders (w_db w) !! c = Some r -> or_status r = PENDING_REPLACE ->
  orders_check (row_touch (w_now w) (row_replace p q r)) = true ->
  exists w' r', replace_order c p q w = (Ok tt, w') /\ db_wf (w_db w') /\
    db_orders (w_db w') !! c = Some r' /\ or_status r' = NEW /\
    or_price r' = or_price (row_replace p q r) /\ or_quantity r' = default (or_quantity r) q /\
    or_broker_order_id r' = or_broker_order_id r /\ or_reject_reason r' = or_reject_reason r /\
    db_fills (w_db w') = db_fills (w_db w).
Proof.
  intros Hw Hr Hs Hck. pose proof (replace_order_respects (R := R) (V := V) c p q w Hw) as [Hw' _].
  assert (E : replace_order c p q w =
    (Ok tt, pub c NEW None None p q None
      (set_db (db_put (w_now w) c r (row_touch (w_now w) (row_replace p q r)) (w_db w)) w))).
  { unfold replace_order, bind. erewrite pool_update_hit; [reflexivity|done|..|done].
    - by apply bool_decide_eq_true.
    - by rewrite Hs. }
  rewrite E in Hw'. eexists _, _. split; [exact E|]. split; [exact Hw'|].
  rewrite pub_db. simpl. rewrite lookup_insert_eq. by repeat (split; [done|]).
Qed.

(** The tail of [_amend_native] once the venue was asked. *)
Definition amend_settle (c : string) (p : option Decimal) (q : option Z) (filled : Z)
    (ack : AmendAck) : M exn W SubmitOutcome :=
  if aa_ok ack then
    replace_order c p q ;;;
    _restore_partial c filled ;;;
    let* r := get c in
    ret {| so_result := r; so_duplicate := false; so_resolution := HandleResolution.CONFIRMED |}
  else
    update_status c NEW ;;;
    _restore_partial c filled ;;;
    raise (AmendRejected
      (match aa_reason ack with
       | Some reason => if String.eqb reason "" then "amend rejected by venue" else reason
       | None => "amend rejected by venue"
       end%string) (Some c)).

Lemma amend_settle_ok c p q (w : W) r ack :
  db_wf (w_db w) -> db_orders (w_db w) !! c = Some r -> or_status r = PENDING_REPLACE ->
  aa_ok ack = true -> orders_check (row_touch (w_now w) (row_replace p q r)) = true ->
  let filled := filled_qty c (w_db w) in
  exists out w' r', amend_settle c p q filled ack w = (Ok out, w') /\
    so_duplicate out = false /\
    nr_engine_state (so_result out) = resting_state filled /\
    nr_remaining_qty (so_result out) = default (or_quantity r) q - filled /\
    db_orders (w_db w') !! c = Some r' /\ or_status r' = resting_state filled /\
    or_price r' = or_price (row_replace p q r) /\ or_quantity r' = default (or_quantity r) q.
Proof.
  intros Hw Hr Hs Hok Hck. cbv zeta. unfold amend_settle. rewrite Hok.
  destruct (replace_order_row c p q w r Hw Hr Hs Hck) as
    (w1 & r1 & E1 & Hw1 & Hr1 & Hs1 & Hp1 & Hq1 & _ & _ & Hf1).
  erewrite bind_ok by exact E1.
  destruct (restore_partial_row c (filled_qty c (w_db w)) w1 r1 Hw1 Hr1 Hs1) as
    (w2 & r2 & E2 & Hr2 & Hs2 & Hp2 & Hq2 & _ & _ & Hf2).
  erewrite bind_ok by exact E2.
  destruct (get_ok c w2 r2 Hr2) as (res & E3 & Hst & Hfq & Hrem & _).
  erewrite bind_ok by exact E3. eexists _, _, r2. split; [reflexivity|].
  cbn [so_result so_duplicate].
  rewrite (filled_qty_same c (w_db w) (w_db w2)) in Hrem by congruence.
  rewrite Hrem, Hst, Hs2, Hp2, Hq2, Hp1, Hq1. done.
Qed.

Lemma amend_settle_rejected c p q (w : W) r ack :
  db_wf (w_db w) -> db_orders (w_db w) !! c = Some r -> or_status r = PENDING_REPLACE ->
  aa_ok ack = false ->
  let filled := filled_qty c (w_db w) in
  exists m w' r', amend_settle c p q filled ack w = (Err (AmendRejected m (Some c)), w') /\
    db_orders (w_db w') !! c = Some r' /\ or_status r' = resting_state filled /\
    or_price r' = or_price r /\ or_quantity r' = or_quantity r /\
    or_reject_reason r' = or_reject_reason r.
Proof.
  intros Hw Hr Hs Hok. cbv zeta. unfold amend_settle. rewrite Hok.
  destruct (update_status_row c NEW w r) as
    (w1 & r1 & E1 & Hw1 & Hr1 & Hs1 & Hp1 & Hq1 & _ & Hj1 & _); [done|done|by rewrite Hs|].
  erewrite bind_ok by exact E1.
  destruct (restore_partial_row c (filled_qty c (w_db w)) w1 r1 Hw1 Hr1 Hs1) as
    (w2 & r2 & E2 & Hr2 & Hs2 & Hp2 & Hq2 & _ & Hj2 & _).
  erewrite bind_ok by exact E2. eexists _, _, r2. split; [reflexivity|].
  repeat split; congruence.
Qed.

Section gates_passed.
Context (rt : OrderRouter R V) (c : string) (p : option Decimal) (q : option Z)
        (w w0 w1 : W) (r : OrderRow) (am : NormalizedOrder) (a : BrokerAdapter R V).
(* a resting sim order, and every gate of the native path passed *)
Hypothesis Hw : db_wf (w_db w).
Hypothesis Hr : db_orders (w_db w) !! c = Some r.
Hypothesis Hbroker : or_broker r = SIM.
Hypothesis Hresting : or_status r = NEW \/ or_status r = PARTIALLY_FILLED.
Hypothesis Hsome : ~ (p = None /\ q = None).
Hypothesis Hks : assert_disengaged (rt_settings rt) (rt_redis rt) w = (Ok tt, w0).
Hypothesis Hqty : _assert_amend_quantities c r q (filled_qty c (w_db w)) = Ok tt.
Hypothesis Ham : _amended_order r c p q = Ok am.
Hypothesis Hrisk : risk_check (rt_settings rt) (rt_redis rt) am w0 = (Ok tt, w1).
Hypothesis Hroute : resolve_trade rt r = Ok a.
Hypothesis Hguard : Adapters.guard (ba_breaker a (w_venue w1)) = Ok tt.

Lemma amend_native_run :
  exists w2 r2, update_status c PENDING_REPLACE w1 = (Ok tt, w2) /\ db_wf (w_db w2) /\
  db_orders (w_db w2) !! c = Some r2 /\ or_status r2 = PENDING_REPLACE /\
  or_price r2 = or_price r /\ or_quantity r2 = or_quantity r /\
  or_reject_reason r2 = or_reject_reason r /\
  filled_qty c (w_db w2) = filled_qty c (w_db w) /\
  amend rt c None p q w =
      (let* ack := _venue_amend a c p q in
       amend_settle c p q (filled_qty c (w_db w)) ack) w2.
Proof.
  assert (Hd0 : w_db w0 = w_db w)
    by (eapply on_db_eq; [by apply (assert_disengaged_respects eq)|exact Hks]).
  assert (Hd1 : w_db w1 = w_db w0)
    by (eapply on_db_eq; [by apply (risk_check_respects eq)|exact Hrisk]).
  rewrite <- Hd0, <- Hd1 in Hw, Hr.
  destruct (update_status_row c PENDING_REPLACE w1 r) as
    (w2 & r2 & E2 & Hw2 & Hr2 & Hs2 & Hp2 & Hq2 & _ & Hj2 & Hf2 & _);
    [done|done|by destruct Hresting as [-> | ->]|].
  exists w2, r2. repeat (split; [done|]). split; [apply filled_qty_same; congruence|].
  unfold amend. erewrite bind_ok by exact Hks.
  assert (Hb : bool_decide (p = None) && bool_decide (q = None) = false).
  { apply not_true_iff_false. rewrite andb_true_iff, !bool_decide_eq_true. exact Hsome. }
  rewrite Hb. unfold fetch_order. erewrite bind_ok by reflexivity. rewrite <- Hd1, Hr.
  rewrite Hbroker. destruct (lookup_caps SIM (or_market r)) as [caps|] eqn:Hcaps.
  2: { by destruct (or_market r). }
  assert (Hnat : cap_amend caps = "native"%string)
    by (by destruct (or_market r); injection Hcaps as <-).
  erewrite bind_ok by reflexivity. rewrite Hnat. simpl.
  pose proof (dw_key _ _ Hw _ _ Hr) as Hkey.
  unfold _amend_native. rewrite Hkey. cbv zeta.
  assert (Hst : memb (or_status r) [NEW; PARTIALLY_FILLED] = true)
    by by destruct Hresting as [-> | ->].
  rewrite Hst. simpl. unfold fetch_order_result. erewrite bind_ok by reflexivity.
  unfold order_result. rewrite <- Hd1, Hr. simpl.
  replace (filled_qty c (w_db w1)) with (filled_qty c (w_db w))
    by (apply filled_qty_same; congruence).
  unfold lift_result. erewrite bind_ok by (rewrite Hqty; reflexivity).
  erewrite bind_ok by (rewrite Ham; reflexivity).
  erewrite bind_ok by exact Hrisk.
  unfold route. fold (resolve_trade rt r). unfold lift_result.
  erewrite bind_ok by (rewrite Hroute; reflexivity).
  erewrite bind_ok by (unfold breaker_guard; rewrite Hguard; reflexivity).
  erewrite bind_ok by exact E2. reflexivity.
Qed.

(** The order as it rests after a refused amend. *)
Definition amend_restored : Prop :=
  exists m w' r', amend rt c None p q w = (Err (AmendRejected m (Some c)), w') /\
  db_orders (w_db w') !! c = Some r' /\
  or_status r' = resting_state (filled_qty c (w_db w)) /\
  or_price r' = or_price r /\ or_quantity r' = or_quantity r /\
  or_reject_reason r' = or_reject_reason r.

(** native amend, once its gates passed.  The order is PENDING_REPLACE
    when the venue is asked.  An accepted amend ends resting (PARTIALLY_FILLED
    exactly when it had fills, NEW otherwise) with the new price and quantity
    and returns that; a refusal, as an ack or as any adapter error, raises
    [AmendRejected] and restores the order: resting in the same way, with its
    price, quantity and (absent) reject reason unchanged. *)
Theorem native_amend_outcome x w3 :
  ba_amend a c p q (update_status c PENDING_REPLACE w1).2 = (x, w3) ->
  w_db w3 = w_db (update_status c PENDING_REPLACE w1).2 ->
  in_state c PENDING_REPLACE (w_db w3) /\
  match x with
  | Ok ack =>
      if aa_ok ack then
        (forall r3, db_orders (w_db w3) !! c = Some r3 ->
           orders_check (row_touch (w_now w3) (row_replace p q r3)) = true) ->
        exists out w' r', amend rt c None p q w = (Ok out, w') /\
          so_duplicate out = false /\
          nr_engine_state (so_result out) = resting_state (filled_qty c (w_db w)) /\
          nr_remaining_qty (so_result out)
            = default (or_quantity r) q - filled_qty c (w_db w) /\
          db_orders (w_db w') !! c = Some r' /\
          or_status r' = resting_state (filled_qty c (w_db w)) /\
          or_price r' = (match p with Some p => Some (pg_numeric p) | None => or_price r end) /\
          or_quantity r' = default (or_quantity r) q
      else amend_restored
  | Err e => if is_AdapterError e then amend_restored else amend rt c None p q w = (Err e, w3)
  end.
Proof.
  destruct amend_native_run as
    (w2 & r2 & E2 & Hw2 & Hr2 & Hs2 & Hp2 & Hq2 & Hj2 & Hf2 & Hrun).
  rewrite E2. simpl. intros Hx Hdb. unfold amend_restored. rewrite Hrun, <- Hf2. clear Hrun.
  rewrite <- Hdb in Hw2, Hr2. rewrite <- Hdb, <- Hp2, <- Hq2, <- Hj2.
  split; [unfold in_state; rewrite Hr2; simpl; congruence|].
  unfold bind, _venue_amend, catch. rewrite Hx. destruct x as [ack|e].
  - destruct (aa_ok ack) eqn:Hok.
    + intros Hck. specialize (Hck r2 Hr2).
      destruct (amend_settle_ok c p q w3 r2 ack Hw2 Hr2 Hs2 Hok Hck) as
        (out & w' & r' & E & H2 & H3 & H4 & H5 & H6 & H7 & H8).
      exists out, w', r'. rewrite E. split; [done|]. done.
    + apply (amend_settle_rejected c p q w3 r2 ack Hw2 Hr2 Hs2 Hok).
  - destruct (is_AdapterError e); [|done].
    apply (amend_settle_rejected c p q w3 r2 _ Hw2 Hr2 Hs2). done.
Qed.
End gates_passed.
End native.

(** ** Cancel+replace *)

Section replace.
Context {R V : Type} `{RedisOps R} `{OrdersSchemaSpec}.
Abbreviation W := (world R V).

End replace.
