(* ===== verification/SimLifecycle.v ===== *)
(** * SimLifecycle: placing an order, settled end to end

    [_place_and_settle] against the paper venue as a function of the order's
    fill plan, and against a venue whose ack carries no handle. *)

From S2P Require Import Prelude Decimals Contracts StateMachine Events Store StoreInv StoreProps Config Cache Adapters Gates HandleRecovery Router RouterProps CancelAmend.
From stdpp Require Import base gmap strings list relations.
From Stdlib Require Import ZArith Lia.
Import OrderState.
Open Scope Z_scope.

Section fills.
Context {R V : Type} `{OrdersSchemaSpec}.
Abbreviation W := (world R V).

Lemma fill_known_add c b b' f d :
  fr_client_order_id f = c -> fr_broker_fill_id f = Some b ->
  fill_known c b' (db_add_fill f d) = fill_known c b' d || String.eqb b b'.
Proof.
  intros Hc Hb. unfold fill_known; simpl. rewrite existsb_app. simpl.
  rewrite Hc, Hb, String.eqb_refl, orb_false_r. simpl. f_equal.
  destruct (String.eqb_spec b b') as [->|Hn]; [by rewrite bool_decide_true|].
  apply bool_decide_false. congruence.
Qed.

(** One new fill on an order the machine lets it move. *)
Lemma apply_fill_row c b p q ts tot (w : W) r :
  db_wf (w_db w) -> db_orders (w_db w) !! c = Some r ->
  fills_check (pg_numeric p) q = true -> fill_known c b (w_db w) = false ->
  let t := fill_target tot (filled_qty c (w_db w) + q) in
  is_legal (or_status r) t = true ->
  exists w' r', apply_fill c b p q ts tot w = (Ok t, w') /\ db_wf (w_db w') /\
    db_orders (w_db w') !! c = Some r' /\ or_status r' = t /\
    or_broker_order_id r' = or_broker_order_id r /\
    or_quantity r' = or_quantity r /\ or_reject_reason r' = or_reject_reason r /\
    filled_qty c (w_db w') = filled_qty c (w_db w) + q /\
    (forall b', fill_known c b' (w_db w') = fill_known c b' (w_db w) || String.eqb b b') /\
    db_fills (w_db w') = db_fills (w_db w) ++ [fill_row (w_db w) (w_now w) c b p q ts].
Proof.
  intros Hw Hr Hck Hk. cbv zeta. intros Hl.
  pose proof (apply_fill_respects (R := R) (V := V) c b p q ts tot w Hw) as [Hw' _].
  pose proof (apply_fill_fresh c b p q ts tot w r Hw Hr Hck Hk) as E. cbv zeta in E.
  rewrite Hl in E. rewrite E in Hw'. set (t := fill_target _ _) in *.
  set (f := fill_row (w_db w) (w_now w) c b p q ts) in *.
  pose proof (filled_qty_add f c (w_db w) eq_refl) as Hq.
  eexists _, (if decide (or_status r = t) then r else row_touch (w_now w) (row_status t r)).
  split; [exact E|]. split; [exact Hw'|]. rewrite pub_db.
  destruct (decide (or_status r = t)) as [Ht|Ht]; simpl.
  - repeat (split; [first [done | exact Hq]|]). split; [|done]. intros b'. by apply fill_known_add.
  - rewrite lookup_insert_eq. repeat (split; [first [done | exact Hq]|]).
    split; [|done]. intros b'. apply (fill_known_add c b b' f (w_db w)); done.
Qed.

(** [r'] is [r] moved along, with the same terms. *)
Definition same_terms (r r' : OrderRow) : Prop :=
  or_broker_order_id r' = or_broker_order_id r /\ or_quantity r' = or_quantity r /\
  or_reject_reason r' = or_reject_reason r.

(** A run of new fills on a resting order. *)
Lemma apply_fills_row c tot fs : forall (w : W) r,
  db_wf (w_db w) -> db_orders (w_db w) !! c = Some r ->
  (or_status r = NEW \/ or_status r = PARTIALLY_FILLED \/
   (or_status r = FILLED /\ tot <= filled_qty c (w_db w))) ->
  Forall (fun f => 0 < fp_quantity f /\ fills_check (pg_numeric (fp_price f)) (fp_quantity f) = true) fs ->
  NoDup (map fp_broker_fill_id fs) ->
  (forall f, f ∈ fs -> fill_known c (fp_broker_fill_id f) (w_db w) = false) ->
  exists w' r', for_each fs (fun f =>
      apply_fill c (fp_broker_fill_id f) (fp_price f) (fp_quantity f) (fp_exec_ts f) tot ;;;
      ret tt) w = (Ok tt, w') /\ db_wf (w_db w') /\
    db_orders (w_db w') !! c = Some r' /\ same_terms r r' /\
    filled_qty c (w_db w') = filled_qty c (w_db w) + zsum (map fp_quantity fs) /\
    (forall f, f ∈ db_fills (w_db w') -> f ∈ db_fills (w_db w) \/
       exists g, g ∈ fs /\ fr_price f = pg_numeric (fp_price g)) /\
    or_status r' = (match fs with [] => or_status r
                    | _ => fill_target tot (filled_qty c (w_db w')) end).
Proof.
  induction fs as [|f fs IH]; intros w r Hw Hr Hst Hfs Hnd Hnk; simpl.
  - exists w, r. repeat (split; [done|]). split; [lia|]. split; [by left|done].
  - apply Forall_cons in Hfs as [[Hq Hck] Hfs]. apply NoDup_cons in Hnd as [Hni Hnd].
    destruct (apply_fill_row c (fp_broker_fill_id f) (fp_price f) (fp_quantity f) (fp_exec_ts f)
      tot w r Hw Hr Hck (Hnk f ltac:(set_solver))) as
      (w1 & r1 & E1 & Hw1 & Hr1 & Hs1 & T1 & T2 & T3 & Hf1 & Hk1 & Hl1).
    { unfold fill_target. destruct Hst as [->|[->|[-> Ht]]];
        destruct (Z.leb_spec tot (filled_qty c (w_db w) + fp_quantity f)); try done; lia. }
    destruct (IH w1 r1 Hw1 Hr1) as (w2 & r2 & E2 & Hw2 & Hr2 & T & Hf2 & Hp2 & Hs2); try done.
    + rewrite Hs1, Hf1. unfold fill_target.
      destruct (Z.leb_spec tot (filled_qty c (w_db w) + fp_quantity f)); auto.
    + intros g Hg. rewrite Hk1, (Hnk g) by set_solver. simpl.
      apply String.eqb_neq. intros E. apply Hni. rewrite E. by apply list_elem_of_fmap_2.
    + exists w2, r2. rewrite bind_assoc. erewrite bind_ok by exact E1.
      unfold bind at 1, ret at 1. split; [exact E2|]. split; [done|]. split; [done|].
      split; [destruct T as (? & ? & ?); repeat split; congruence|].
      split; [rewrite Hf2, Hf1; lia|].
      split.
      { intros g Hg. destruct (Hp2 g Hg) as [Hin|(g' & ? & ?)]; [|right; exists g'; set_solver].
        rewrite Hl1 in Hin. apply elem_of_app in Hin as [?| ->%list_elem_of_singleton]; [by left|].
        right. exists f. split; [set_solver | done]. }
      rewrite Hs2. destruct fs; [|done].
      simpl in Hf2. rewrite Hs1, Hf2, Hf1. f_equal. lia.
Qed.
End fills.

(** ** The paper venue's fill ids never collide *)

Definition sim_fill_id (prefix : string) (i : Z) : string :=
  ("SIMF-" +:+ prefix +:+ "-" +:+ int_str i)%string.

Lemma sim_fill_id_inj prefix i j : 0 <= i -> 0 <= j ->
  sim_fill_id prefix i = sim_fill_id prefix j -> i = j.
Proof.
  unfold sim_fill_id. intros Hi Hj E. apply int_str_inj; try done.
  do 3 apply (inj (String.append _)) in E. exact E.
Qed.

Lemma sim_fills_ids prefix price ts plan : forall i fs, 0 <= i ->
  sim_fills prefix price ts i plan = Ok fs ->
  NoDup (map fp_broker_fill_id fs) /\
  Forall (fun f => exists k, i <= k /\ fp_broker_fill_id f = sim_fill_id prefix k) fs.
Proof.
  induction plan as [|q plan IH]; intros i fs Hi; simpl.
  - intros [= <-]. split; constructor.
  - destruct (q <=? 0); [discriminate|].
    destruct (sim_fills prefix price ts (i + 1) plan) as [fs'|e] eqn:E; [|discriminate].
    intros [= <-]. destruct (IH (i + 1) fs' ltac:(lia) E) as [Hnd Hall]. simpl. split.
    + constructor; [|done]. intros Hin. apply list_elem_of_fmap in Hin as (f & Hf & Hin).
      rewrite Forall_forall in Hall. destruct (Hall f Hin) as (k & Hk & Hid).
      rewrite Hid in Hf. apply (sim_fill_id_inj prefix i k) in Hf; lia.
    + constructor; [exists i; split; [lia|done]|].
      eapply Forall_impl; [exact Hall|]. intros f (k & Hk & ?). exists k. split; [lia|done].
Qed.

(** ** The lifecycle *)

Section settle.
Context {R V : Type} `{RedisOps R} `{OrdersSchemaSpec}.
Abbreviation W := (world R V).

(** Where an accepted plan leaves the order. *)
Definition plan_state (o : NormalizedOrder) (plan : list Z) : OrderState.t :=
  if bool_decide (no_tif o = IOC) && (zsum plan <? no_quantity o) then CANCELLED
  else match plan with
       | [] => NEW
       | _ => if no_quantity o <=? zsum plan then FILLED else PARTIALLY_FILLED
       end.

Lemma ack_order_row c b (w : W) r :
  db_wf (w_db w) -> db_orders (w_db w) !! c = Some r -> or_status r = PENDING_NEW ->
  exists w' r', ack_order c b w = (Ok tt, w') /\ db_wf (w_db w') /\
    db_orders (w_db w') !! c = Some r' /\ or_status r' = NEW /\
    or_broker_order_id r' = Some b /\ or_quantity r' = or_quantity r /\
    or_reject_reason r' = or_reject_reason r /\ db_fills (w_db w') = db_fills (w_db w).
Proof.
  intros Hw Hr Hs. pose proof (ack_order_respects (R := R) (V := V) c b w Hw) as [Hw' _].
  erewrite ack_order_ok in * by done. eexists _, _. split; [reflexivity|].
  split; [exact Hw'|]. rewrite pub_db. simpl. rewrite lookup_insert_eq.
  by repeat (split; [done|]).
Qed.

Lemma set_reject_reason_row c m (w : W) r :
  db_wf (w_db w) -> db_orders (w_db w) !! c = Some r ->
  exists w' r', set_reject_reason c m w = (Ok tt, w') /\
    db_orders (w_db w') !! c = Some r' /\ or_status r' = or_status r /\
    or_broker_order_id r' = or_broker_order_id r /\
    or_reject_reason r' = Some m /\ db_fills (w_db w') = db_fills (w_db w).
Proof.
  intros Hw Hr. unfold set_reject_reason, bind. erewrite pool_update_hit; [|done|done|..].
  - eexists _, _. split; [reflexivity|]. simpl. rewrite lookup_insert_eq. done.
  - simpl. apply is_legal_refl.
  - apply orders_check_progress. by eapply dw_check.
Qed.

Lemma fills_of_nil_unknown c b d : fills_of c d = [] -> fill_known c b d = false.
Proof.
  intros Hf. apply not_true_iff_false. intros Hk. unfold fill_known in Hk.
  apply existsb_exists in Hk as (f & Hin & Hb). apply andb_true_iff in Hb as [Hc _].
  assert (Hin' : In f (fills_of c d)) by (by apply filter_In).
  by rewrite Hf in Hin'.
Qed.

(** Fills recorded on an order that had none are all at the price of the new ones. *)
Lemma fills_priced c p (fs : list FillReport) d d' d0 :
  fills_of c d0 = [] -> db_fills d = db_fills d0 ->
  (forall f, f ∈ db_fills d' -> f ∈ db_fills d \/ exists g, g ∈ fs /\ fr_price f = pg_numeric (fp_price g)) ->
  Forall (fun g => fp_price g = p) fs ->
  Forall (fun f => fr_price f = pg_numeric p) (fills_of c d').
Proof.
  intros Hnone Hd Hnew Hp. rewrite Forall_forall in Hp. apply Forall_forall. intros f Hf.
  apply list_elem_of_In, filter_In in Hf as [Hin Hc]. apply list_elem_of_In in Hin.
  destruct (Hnew f Hin) as [Hold|(g & Hg & ->)]; [|by rewrite (Hp g Hg)]. exfalso.
  rewrite Hd in Hold. apply list_elem_of_In in Hold.
  assert (In f (fills_of c d0)) as Hbad by (by apply filter_In). by rewrite Hnone in Hbad.
Qed.

(** The two steps that cancel what an IOC order left unfilled. *)
Lemma cancel_remainder c (w : W) r :
  db_wf (w_db w) -> db_orders (w_db w) !! c = Some r ->
  or_status r = NEW \/ or_status r = PARTIALLY_FILLED ->
  exists w' r' w1, update_status c PENDING_CANCEL w = (Ok tt, w1) /\
    update_status c CANCELLED w1 = (Ok tt, w') /\
    db_orders (w_db w') !! c = Some r' /\ or_status r' = CANCELLED /\
    or_broker_order_id r' = or_broker_order_id r /\ or_reject_reason r' = or_reject_reason r /\
    db_fills (w_db w') = db_fills (w_db w).
Proof.
  intros Hw Hr Hst.
  destruct (update_status_row c PENDING_CANCEL w r) as
    (w1 & r1 & E1 & Hw1 & Hr1 & Hs1 & _ & _ & Hb1 & Hj1 & Hf1 & _);
    [done | done | by destruct Hst as [-> | ->]|].
  destruct (update_status_row c CANCELLED w1 r1) as
    (w2 & r2 & E2 & Hw2 & Hr2 & Hs2 & _ & _ & Hb2 & Hj2 & Hf2 & _); [done | done | by rewrite Hs1|].
  exists w2, r2, w1. repeat split; try done; congruence.
Qed.

Section paper.
Context (rt : OrderRouter R V) (dflt : Decimal) (oid : nat) (o : NormalizedOrder).
(* the pricer the adapter was given, if any *)
Context (price_source : option (NormalizedOrder -> M exn W (option Decimal))).
(* a contract-valid order *)
Hypothesis Hwf : order_wf o.

Let c := no_client_order_id o.
Let sim := SimAdapter (R := R) (V := V) dflt price_source oid.

(** The price the paper venue fills at: the pricer's quote, the order's own reference
    price where there is no pricer or no quote. *)
Definition sim_quote : M exn W Decimal :=
  let* quoted := match price_source with Some source => source o | None => ret None end in
  match quoted with
  | Some p => ret p
  | None => lift_result (_reference_price dflt o)
  end.

Lemma reference_price_ok : exists p, _reference_price dflt o = Ok p.
Proof.
  unfold _reference_price. destruct Hwf as [_ _ _ Hp Hs _ _ _].
  destruct (no_order_type o) eqn:Ht; simpl; repeat case_match; eauto;
    try (destruct Hp as [? ?]; [by eauto|congruence]);
    try (destruct Hs as [? ?]; [by eauto|congruence]).
Qed.

(** Only the pricer can raise. *)
Lemma sim_quote_raises e (w w1 : W) : sim_quote w = (Err e, w1) ->
  exists source, price_source = Some source /\ source o w = (Err e, w1).
Proof.
  unfold sim_quote, bind. destruct reference_price_ok as [p Hp].
  destruct price_source as [source|]; simpl; [|unfold lift_result; by rewrite Hp].
  destruct (source o w) as [[[q|]|e'] w'] eqn:E; [done| |]; unfold lift_result; rewrite ?Hp; [done|].
  intros [= -> ->]. eauto.
Qed.

Lemma sim_place_quoted plan (w : W) : _fill_plan o = inl plan ->
  ba_place sim o w =
    match sim_quote w with
    | (Err e, w1) => (Err e, w1)
    | (Ok p, w1) =>
        match sim_fills (String.substring 0 8 c) p (w_now w1) 1 plan with
        | Err e => (Err e, w1)
        | Ok fs => (Ok {| pa_rejected := false; pa_reject_reason := None;
             pa_broker_order_id := Some ("SIM-" +:+ String.substring 0 8 c)%string;
             pa_fills := fs;
             pa_remainder_cancelled :=
               bool_decide (no_tif o = IOC) && (zsum plan <? no_quantity o) |}, w1)
        end
    end.
Proof.
  intros Hplan. simpl. unfold sim_place, sim_quote. rewrite Hplan. fold c.
  unfold bind, ret, lift_result, gets.
  set (m := match price_source with Some source => source o | None => _ end).
  destruct (m w) as [[[p|]|e] w1]; [by destruct (sim_fills _ _ _ _ _)| |done].
  destruct (_reference_price dflt o) as [p|e]; [by destruct (sim_fills _ _ _ _ _)|done].
Qed.

Section from_world.
(* the order, just inserted *)
Context (w : W) (r : OrderRow).
Hypothesis Hw : db_wf (w_db w).
Hypothesis Hr : db_orders (w_db w) !! no_client_order_id o = Some r.
Hypothesis Hnew : or_status r = PENDING_NEW.
Hypothesis Hreason : or_reject_reason r = None.

Lemma settle_accepted plan p w0 : _fill_plan o = inl plan -> sim_quote w0 = (Ok p, w) ->
  (forall q, 0 < q -> fills_check (pg_numeric p) q = true) ->
  exists w' r', _place_and_settle rt sim o w0 = (Ok HandleResolution.CONFIRMED, w') /\
  db_orders (w_db w') !! c = Some r' /\ or_status r' = plan_state o plan /\
  or_broker_order_id r' = Some ("SIM-" +:+ String.substring 0 8 c)%string /\
  or_reject_reason r' = None /\ filled_qty c (w_db w') = zsum plan /\
  Forall (fun f => fr_price f = pg_numeric p) (fills_of c (w_db w')).
Proof.
  intros Hplan Hquote Hfills. destruct (fill_plan_sound o plan (wf_qty _ Hwf) Hplan) as (Hpos & Hsum & _).
  destruct (sim_fills_ok (String.substring 0 8 c) p (w_now w) plan 1 Hpos) as
    (fs & Hfs & Hmap & Hfp).
  destruct (sim_fills_ids _ p (w_now w) plan 1 fs ltac:(lia) Hfs) as [Hnd _].
  pose proof (sim_place_quoted plan w0 Hplan) as Hplace. rewrite Hquote, Hfs in Hplace.
  unfold _place_and_settle. fold c. cbv zeta. erewrite bind_ok by exact Hplace. simpl.
  destruct (ack_order_row c ("SIM-" +:+ String.substring 0 8 c)%string w r Hw Hr Hnew) as
    (w1 & r1 & E1 & Hw1 & Hr1 & Hs1 & Hb1 & Hq1 & Hj1 & Hf1).
  erewrite bind_ok by exact E1.
  assert (Hnof : fills_of c (w_db w) = []).
  { eapply dw_nofill; [exact Hw|auto|exact Hr|]. by rewrite Hnew. }
  assert (Hfq0 : filled_qty c (w_db w1) = 0).
  { rewrite (filled_qty_same c (w_db w)) by done. unfold filled_qty. by rewrite Hnof. }
  destruct (apply_fills_row c (no_quantity o) fs w1 r1 Hw1 Hr1) as
    (w2 & r2 & E2 & Hw2 & Hr2 & (T1 & T2 & T3) & Hf2 & Hprices & Hs2).
  { by left. }
  { apply Forall_forall. intros f Hf. rewrite Forall_forall in Hfp.
    destruct (Hfp f Hf) as [-> _].
    assert (Hqf : 0 < fp_quantity f).
    { rewrite Forall_forall in Hpos. apply Hpos. rewrite <- Hmap.
      by apply list_elem_of_fmap_2. }
    split; [done|]. by apply Hfills. }
  { done. }
  { intros f _. apply fills_of_nil_unknown. unfold fills_of. rewrite Hf1. exact Hnof. }
  assert (Hpr : forall d, db_fills d = db_fills (w_db w2) ->
    Forall (fun f => fr_price f = pg_numeric p) (fills_of c d)).
  { intros d Hd. apply (fills_priced c p fs (w_db w1) d (w_db w) Hnof Hf1); [by rewrite Hd|].
    eapply Forall_impl; [exact Hfp|]. by intros g [? _]. }
  erewrite bind_ok by exact E2. rewrite Hfq0, Hmap, Z.add_0_l in Hf2.
  rewrite Hf2 in Hs2. unfold plan_state.
  destruct (bool_decide (no_tif o = IOC) && (zsum plan <? no_quantity o)) eqn:Hioc; simpl.
  - apply andb_true_iff in Hioc as [_ Hlt]. apply Z.ltb_lt in Hlt.
    assert (Hst2 : or_status r2 = NEW \/ or_status r2 = PARTIALLY_FILLED).
    { rewrite Hs2. destruct fs; [left; congruence|right]. unfold fill_target.
      by rewrite (proj2 (Z.leb_gt _ _)) by lia. }
    destruct (cancel_remainder c w2 r2 Hw2 Hr2 Hst2) as (w4 & r4 & w3 & E3 & E4 & Hr4 & Hs4 & Hb4 & Hj4 & Hf4).
    exists w4, r4. rewrite bind_assoc. erewrite bind_ok by exact E3.
    rewrite bind_assoc. erewrite bind_ok by reflexivity. erewrite bind_ok by exact E4.
    split_and!; try done; try congruence; [|by apply Hpr].
    rewrite (filled_qty_same c (w_db w2)) by congruence. done.
  - exists w2, r2. unfold bind, ret. split_and!; try done; try congruence; [|by apply Hpr].
    rewrite Hs2. destruct fs, plan; try done; simpl in Hmap; discriminate.
Qed.

Lemma settle_rejected reason : _fill_plan o = inr reason ->
  exists w' r', _place_and_settle rt sim o w = (Ok HandleResolution.CONFIRMED, w') /\
  db_orders (w_db w') !! c = Some r' /\ or_status r' = REJECTED /\
  or_broker_order_id r' = None /\
  or_reject_reason r' = Some (if String.eqb reason "" then "rejected by adapter"%string
                                else reason) /\
  filled_qty c (w_db w') = 0.
Proof.
  intros Hplan. unfold _place_and_settle. fold c. cbv zeta.
  erewrite bind_ok by (simpl; unfold sim_place; rewrite Hplan; reflexivity). simpl.
  destruct (update_status_row c REJECTED w r) as
    (w1 & r1 & E1 & Hw1 & Hr1 & Hs1 & _ & _ & Hb1 & _ & Hf1 & _);
    [done|done|by rewrite Hnew|].
  erewrite bind_ok by exact E1.
  destruct (set_reject_reason_row c (if String.eqb reason "" then "rejected by adapter"%string
    else reason) w1 r1 Hw1 Hr1) as (w2 & r2 & E2 & Hr2 & Hs2 & Hb2 & Hj2 & Hf2).
  erewrite bind_ok by exact E2. exists w2, r2.
  repeat split; try done; try congruence.
  - rewrite Hb2, Hb1. eapply dw_handle; [exact Hw|exact Hr|by rewrite Hnew].
  - rewrite (filled_qty_same c (w_db w)) by congruence. unfold filled_qty.
    erewrite dw_nofill; [done|exact Hw|auto|exact Hr|by rewrite Hnew].
Qed.

End from_world.

(** C30: the paper venue's lifecycle, end to end, whatever pricer it was given.  Placing
    a freshly inserted contract-valid order ends exactly where the order's fill plan
    says.  A refused plan: REJECTED with the reason and no fills, without asking for
    a price.  An accepted plan whose pricing raises, which takes a pricer that does:
    the exception, in the world the pricer left, nothing settled.  An accepted plan
    priced at [p]: acknowledged under its sim handle with exactly the planned
    quantity filled, every fill at [p], in state CANCELLED for an IOC left short,
    NEW for an empty plan, FILLED when the plan covers the quantity and
    PARTIALLY_FILLED when it does not.  For that last case the order must still wait
    in the store once the price is there, and the fills table's own check accept a
    positive quantity at [p]. *)
Theorem sim_lifecycle (w : W) r :
  db_wf (w_db w) -> db_orders (w_db w) !! c = Some r -> or_status r = PENDING_NEW ->
  or_reject_reason r = None ->
  match _fill_plan o with
  | inr reason => exists w' r',
      _place_and_settle rt sim o w = (Ok HandleResolution.CONFIRMED, w') /\
      db_orders (w_db w') !! c = Some r' /\ or_status r' = REJECTED /\ or_broker_order_id r' = None /\
      or_reject_reason r' = Some (if String.eqb reason "" then "rejected by adapter"%string else reason) /\
      filled_qty c (w_db w') = 0
  | inl plan =>
      match sim_quote w with
      | (Err e, w1) => _place_and_settle rt sim o w = (Err e, w1) /\
          exists source, price_source = Some source /\ source o w = (Err e, w1)
      | (Ok p, w1) =>
          db_wf (w_db w1) -> db_orders (w_db w1) !! c = Some r ->
          (forall q, 0 < q -> fills_check (pg_numeric p) q = true) ->
          exists w' r', _place_and_settle rt sim o w = (Ok HandleResolution.CONFIRMED, w') /\
            db_orders (w_db w') !! c = Some r' /\ or_status r' = plan_state o plan /\
            or_broker_order_id r' = Some ("SIM-" +:+ String.substring 0 8 c)%string /\
            or_reject_reason r' = None /\ filled_qty c (w_db w') = zsum plan /\
            Forall (fun f => fr_price f = pg_numeric p) (fills_of c (w_db w'))
      end
  end.
Proof.
  intros Hw Hr Hnew Hreason. destruct (_fill_plan o) as [plan|reason] eqn:Hplan.
  - destruct (sim_quote w) as [[p|e] w1] eqn:Hq.
    + intros Hw1 Hr1 Hck. by apply (settle_accepted w1 r).
    + split; [|by apply sim_quote_raises]. unfold _place_and_settle, bind.
      by rewrite (sim_place_quoted plan w Hplan), Hq.
  - by apply (settle_rejected w r).
Qed.
End paper.
End settle.

(** ** Waiting paths *)

Section waiting.
Context {R V : Type} `{RedisOps R} `{OrdersSchemaSpec}.
Abbreviation W := (world R V).
Context (rt : OrderRouter R V).
(* asyncio.sleep returns, after at least the requested delay *)
Hypothesis sleep_advances : forall d (w : W), 0 <= d ->
  exists w', rt_sleep rt d w = (Ok tt, w') /\ w_now w + d <= w_now w'.

(** an accepted order never surfaces as an error because its ack carried no
    handle.  When the venue accepts the placement without an order id, settling
    it returns, whatever the handle resolver does (answer, raise, keep saying
    "not yet"): CONFIRMED only if the resolver said it recorded the order,
    otherwise PENDING or UNKNOWN; and with no resolver configured it returns
    UNKNOWN with the world exactly as the placement left it. *)
Theorem handleless_ack_never_raises a o (w w1 : W) ack :
  ba_place a o w = (Ok ack, w1) -> pa_rejected ack = false -> pa_broker_order_id ack = None ->
  (rt_handle_resolver rt = None ->
     _place_and_settle rt a o w = (Ok HandleResolution.UNKNOWN, w1)) /\
  (forall resolve, rt_handle_resolver rt = Some resolve ->
     (forall c (w : W), w_now w <= w_now (resolve c w).2) ->
     (forall r, db_orders (w_db w1) !! no_client_order_id o = Some r -> or_created_at r <= w_now w1) ->
     0 < s_handle_recovery_cadence_ms (rt_settings rt) ->
     0 < s_handle_recovery_min_polls (rt_settings rt) ->
     exists res w2, _place_and_settle rt a o w = (Ok res, w2) /\
       (res = HandleResolution.CONFIRMED ->
          exists w3, (resolve (no_client_order_id o) w3).1 = Ok true)).
Proof.
  intros Hp Hrej Hid. unfold _place_and_settle. cbv zeta.
  split; [intros Hn | intros resolve Hs Hclk Hcreated Hcad Hmp];
    erewrite bind_ok by exact Hp; rewrite Hrej, Hid; unfold _recover_handle.
  - by rewrite Hn.
  - rewrite Hs. unfold fetch_order. erewrite bind_ok by reflexivity.
    erewrite bind_ok by reflexivity.
    set (sub := match db_orders (w_db w1) !! no_client_order_id o with
                | Some r => or_created_at r | None => w_now w1 end).
    set (cad := s_handle_recovery_cadence_ms (rt_settings rt) * 1000) in *.
    set (dl := s_handle_recovery_deadline_ms (rt_settings rt) * 1000).
    set (mp := s_handle_recovery_min_polls (rt_settings rt)) in *.
    assert (Hsub : sub <= w_now w1).
    { unfold sub. destruct (db_orders _ !! _) eqn:E; [by apply Hcreated|lia]. }
    destruct (recover_loop_total resolve (rt_sleep rt) sub cad dl mp sleep_advances Hclk
      ltac:(unfold cad; lia) (no_client_order_id o)
      (Z.to_nat (recovery_polls cad dl mp) + 1) 0 w1 false (w_now w1))
      as (res & outs & w2 & E & Hm & _); try (unfold recovery_polls; lia).
    exists res, w2. unfold recover_handle, bind. rewrite E. split; [done|].
    intros ->. destruct Hm as (pre & -> & _).
    eapply recover_loop_confirmed; [exact E|]. set_solver.
Qed.




End waiting.
