(* ===== verification/RouterExamples.v ===== *)
(** * RouterExamples: the router's theorems applied to concrete runs

    One paper-stage router over a concrete Redis and the documented schema. *)

From S2P Require Import Prelude Decimals Contracts StateMachine Events Store StoreInv StoreProps Config Cache Adapters Gates HandleRecovery Router RouterProps CancelAmend SimLifecycle.
From stdpp Require Import base gmap strings list relations.
From Stdlib Require Import ZArith Lia.
Import OrderState.
Open Scope Z_scope.

Definition ex_sleep {V} (d : Z) : M exn (world ExRedis V) unit :=
  modify (fun w => set_now (w_now w + Z.max 0 d) w).

Definition ex_router : OrderRouter ExRedis unit := {|
  rt_settings := Settings_default; rt_redis := true; rt_sim := ex_sim;
  rt_liberator := None; rt_streaming_pro := None; rt_last_close := None;
  rt_handle_resolver := None; rt_sleep := ex_sleep;
  rt_uuid4_hex := fun _ => "token"%string |}.

(** A LIMIT order that fills 30 of 100 and rests. *)
Definition ex_partial : NormalizedOrder :=
  {| no_client_order_id := ex_cid; no_broker := SIM;
     no_account := "acct"; no_market := SET_; no_symbol := "AOT"; no_side := BUY;
     no_order_type := LIMIT; no_price := Some (Dec 605 (-1)); no_stop_price := None;
     no_quantity := 100; no_display_qty := None; no_tif := DAY; no_position_effect := None;
     no_metadata := [("sim_fills"%string, JList [JInt 30])] |}.

Definition ex_w1 : world ExRedis unit := (submit ex_router ex_partial (Some "strat"%string) ex_rworld).2.

Lemma sim_adapter_ok {R V} (Q : relation db) `{!PreOrder Q} dflt oid :
  adapter_ok Q (SimAdapter (R := R) (V := V) dflt None oid).
Proof.
  split; intros; simpl; try apply respects_ret, _. unfold sim_place. respects_tac.
Qed.

Lemma ex_router_ok : router_ok ex_router.
Proof.
  split; try discriminate.
  - apply sim_adapter_ok, _.
  - intros d. apply respects_modify. intros w. unfold on_db. reflexivity.
Qed.

Lemma ex_w1_wf : db_wf (w_db ex_w1).
Proof. apply (submit_respects ex_router ex_router_ok _ _ ex_rworld), db_wf_empty. Qed.

Lemma ex_w1_row : exists r, db_orders (w_db ex_w1) !! ex_cid = Some r /\
  or_status r = PARTIALLY_FILLED /\ or_broker r = SIM /\ or_quantity r = 100 /\
  or_price r = Some (Dec 605 (-1)).
Proof. eexists. split; [vm_compute; reflexivity|]. repeat split. Qed.

Lemma engine_durable_truth_witness :
  evo (w_db ex_w1) (w_db (Router.cancel ex_router ex_cid ex_w1).2) /\
  in_state ex_cid CANCELLED (w_db (Router.cancel ex_router ex_cid ex_w1).2).
Proof.
  split; [|vm_compute; reflexivity].
  refine (proj2 (proj2 (engine_durable_truth (fun rt => rt = ex_router) ex_rworld ex_w1 _ _ _ _ _))).
  - intros rt ->. apply ex_router_ok.
  - reflexivity.
  - apply rtc_once. by apply (rq_submit _ ex_router).
  - apply rtc_once. by apply (rq_cancel _ ex_router).
Defined.

(** Every venue of the example router is the paper one. *)
Lemma ex_router_paper broker account a :
  _resolve_adapter (rt_settings ex_router) (rt_sim ex_router) (rt_liberator ex_router)
    (rt_streaming_pro ex_router) broker account AdapterIntent.TRADE = Ok a -> a = ex_sim.
Proof. by destruct broker; intros [= <-]. Qed.

(** With the switch tripped in Redis a submit is refused, and a resting order is
    cancelled all the same. *)
Lemma kill_switch_precedes_everything_witness :
  let engaged := er_put ex_redis KILL_SWITCH_KEY (RStr "engaged", None) in
  let w := set_redis engaged ex_rworld in
  submit ex_router ex_partial None w = (Err KillSwitchEngagedError, w) /\
  exists res w', Router.cancel (with_switch true true ex_router) ex_cid (set_redis engaged ex_w1)
      = (Ok res, w') /\ nr_engine_state res = CANCELLED /\ in_state ex_cid CANCELLED (w_db w').
Proof.
  intros engaged w. split.
  - exact (proj1 (proj1 (proj2 (kill_switch_precedes_everything ex_router ex_partial None ex_cid None
      None None w)) (RStr "engaged") (w_redis w) eq_refl eq_refl eq_refl)).
  - rewrite (proj2 (proj2 (kill_switch_precedes_everything ex_router ex_partial None ex_cid None
      None None ex_w1)) true true engaged).
    + eexists _, _. vm_compute. repeat split.
    + intros broker account a Ha. rewrite (ex_router_paper _ _ _ Ha). apply blind_ret.
Defined.

Lemma submit_duplicate_is_a_read_witness :
  exists row res, order_result ex_cid (w_db ex_w1) = Some row /\
    submit ex_router ex_partial None ex_w1 =
      (Ok {| so_result := res; so_duplicate := true;
             so_resolution := HandleResolution.CONFIRMED |}, ex_w1).
Proof.
  assert (Hrow : exists row, order_result ex_cid (w_db ex_w1) = Some row)
    by (eexists; vm_compute; reflexivity).
  destruct Hrow as [row Hrow]. exists row.
  assert (Hks : assert_disengaged (rt_settings ex_router) (rt_redis ex_router) ex_w1 = (Ok tt, ex_w1))
    by (vm_compute; reflexivity).
  destruct (submit_duplicate_is_a_read ex_router ex_partial None ex_w1 ex_w1 row Hks Hrow)
    as (res & _ & E).
  exists res. split; [exact Hrow | exact E].
Defined.

Lemma cancel_branches_witness :
  exists res w', Router.cancel ex_router ex_cid ex_w1 = (Ok res, w') /\ nr_filled_qty res = 30.
Proof.
  destruct ex_w1_row as (r & Hr & Hs & Hb & _).
  pose proof (cancel_branches ex_router ex_cid ex_w1 ex_w1_wf) as H. rewrite Hr, Hs in H.
  assert (Hroute : resolve_trade ex_router r = Ok ex_sim)
    by (unfold resolve_trade; rewrite Hb; reflexivity).
  rewrite Hroute in H. change (Adapters.guard _) with (Ok (E := exn) tt) in H. cbv iota beta zeta in H.
  destruct (proj2 (proj2 H) ltac:(reflexivity)) as (res & w' & E & _ & _ & Hf & _).
  exists res, w'. split; [exact E|]. rewrite Hf. vm_compute. reflexivity.
Defined.

Lemma mass_cancel_complete_witness :
  exists cs fs w', mass_cancel ex_router ex_w1 = (Ok (cs, fs), w') /\
    cs ++ fs ≡ₚ [ex_cid] /\ (forall c, c ∈ cs -> in_state c CANCELLED (w_db w')).
Proof.
  destruct (mass_cancel_complete ex_router ex_router_ok ex_w1 ex_w1_wf) as (cs & fs & w' & E & Hp & Hc).
  exists cs, fs, w'. split; [exact E|]. split; [|exact Hc]. rewrite Hp.
  vm_compute. reflexivity.
Defined.

(** A venue that refuses the amend with an adapter error: the order is restored. *)
Definition ex_refusing : BrokerAdapter ExRedis unit := {|
  ba_oid := 0; ba_broker := SIM; ba_breaker := fun _ => SessionCircuitBreaker_new 3;
  ba_place := sim_place (Dec 100 0) None;
  ba_cancel := fun _ => ret {| ca_ok := true; ca_reason := None |};
  ba_amend := fun _ _ _ => raise (AdapterError "too late");
  ba_get_open_orders := fun _ => ret []; ba_get_positions := fun _ => ret [];
  ba_get_venue_orders := fun _ => ret [];
  ba_get_account := fun a => ret (sim_account a); ba_capabilities := [] |}.

Definition ex_router_refusing : OrderRouter ExRedis unit := {|
  rt_settings := Settings_default; rt_redis := false; rt_sim := ex_refusing;
  rt_liberator := None; rt_streaming_pro := None; rt_last_close := None;
  rt_handle_resolver := None; rt_sleep := ex_sleep;
  rt_uuid4_hex := fun _ => "token"%string |}.

Lemma native_amend_outcome_witness :
  exists r, db_orders (w_db ex_w1) !! ex_cid = Some r /\
    amend_restored ex_router_refusing ex_cid None (Some 200) ex_w1 r.
Proof.
  destruct ex_w1_row as (r & Hr & Hs & Hb & Hq & Hp). exists r. split; [exact Hr|].
  assert (Er : db_orders (w_db ex_w1) !! ex_cid = Some (default r (db_orders (w_db ex_w1) !! ex_cid)))
    by (by rewrite Hr).
  assert (Ham : exists am, _amended_order (default r (db_orders (w_db ex_w1) !! ex_cid))
    ex_cid None (Some 200) = Ok am) by (eexists; vm_compute; reflexivity).
  destruct Ham as [am Ham]. rewrite Hr in Ham. simpl in Ham.
  refine (proj2 (native_amend_outcome ex_router_refusing ex_cid None (Some 200) ex_w1 ex_w1 ex_w1 r am
    ex_refusing ex_w1_wf Hr Hb (or_intror Hs) _ _ _ Ham _ _ _ (Err (AdapterError "too late"))
    (update_status ex_cid PENDING_REPLACE ex_w1).2 _ _)).
  - intros [_ E]. discriminate E.
  - reflexivity.
  - assert (E : filled_qty ex_cid (w_db ex_w1) = 30) by (vm_compute; reflexivity).
    rewrite E. unfold _assert_amend_quantities.
    assert (Hd : or_display_qty (default r (db_orders (w_db ex_w1) !! ex_cid)) = None)
      by (vm_compute; reflexivity).
    rewrite Hr in Hd. simpl in Hd. by rewrite Hd.
  - assert (E : forall am', _amended_order (default r (db_orders (w_db ex_w1) !! ex_cid))
      ex_cid None (Some 200) = Ok am' ->
      risk_check Settings_default false am' ex_w1 = (Ok tt, ex_w1)).
    { intros am' E. vm_compute in E. injection E as <-. vm_compute. reflexivity. }
    apply E. rewrite Hr. exact Ham.
  - unfold resolve_trade. rewrite Hb. reflexivity.
  - reflexivity.
  - reflexivity.
  - reflexivity.
Defined.

(** The order of the examples, inserted and not yet placed. *)
Definition ex_inserted : world ExRedis unit := (insert_order ex_partial None ex_rworld).2.

Lemma ex_inserted_wf : db_wf (w_db ex_inserted).
Proof. apply (insert_order_respects ex_partial None ex_rworld), db_wf_empty. Qed.

Lemma ex_partial_wf : order_wf ex_partial.
Proof.
  split; simpl; try done; try (intros ? [= <-]; reflexivity); try (by intros [?|?]).
Qed.

(** The paper venue with a pricer that reads a market price and bounds it by the
    order's limit. *)
Definition ex_pricer : option (NormalizedOrder -> M exn (world ExRedis unit) (option Decimal)) :=
  Some (fill_price None (Some (fun _ _ => ret (Some (Dec 60 0))))).
Definition ex_priced_sim : BrokerAdapter ExRedis unit := SimAdapter (Dec 100 0) ex_pricer 0.

Lemma sim_lifecycle_witness :
  exists w' r', _place_and_settle ex_router ex_priced_sim ex_partial ex_inserted
      = (Ok HandleResolution.CONFIRMED, w') /\
    db_orders (w_db w') !! ex_cid = Some r' /\
    or_status r' = PARTIALLY_FILLED /\ filled_qty ex_cid (w_db w') = 30 /\
    Forall (fun f => fr_price f = pg_numeric (Dec 60 0)) (fills_of ex_cid (w_db w')).
Proof.
  assert (Hr : exists r, db_orders (w_db ex_inserted) !! ex_cid = Some r /\
    or_status r = PENDING_NEW /\ or_reject_reason r = None)
    by (eexists; split; [vm_compute; reflexivity|done]).
  destruct Hr as (r & Hr & Hs & Hj).
  pose proof (sim_lifecycle ex_router (Dec 100 0) 0 ex_partial ex_pricer ex_partial_wf ex_inserted r
    ex_inserted_wf Hr Hs Hj) as H.
  change (_fill_plan ex_partial) with (inl (B := string) [30]) in H. cbv iota beta in H.
  change (sim_quote (Dec 100 0) ex_partial ex_pricer ex_inserted)
    with (Ok (E := exn) (Dec 60 0), ex_inserted) in H. cbv iota beta in H.
  destruct (H ex_inserted_wf Hr) as (w' & r' & E & Hr' & Hst & _ & _ & Hf & Hp).
  - intros q Hq. by apply Z.ltb_lt.
  - exists w', r'. split; [exact E|]. split; [exact Hr'|]. split; [exact Hst|]. split; [exact Hf|exact Hp].
Defined.

(** A venue whose ack carries no order id, and a resolver that cannot read it. *)
Definition ex_handleless : BrokerAdapter ExRedis unit := {|
  ba_oid := 1; ba_broker := LIBERATOR; ba_breaker := fun _ => SessionCircuitBreaker_new 3;
  ba_place := fun _ => ret {| pa_rejected := false; pa_reject_reason := None;
                              pa_broker_order_id := None; pa_fills := [];
                              pa_remainder_cancelled := false |};
  ba_cancel := fun _ => ret {| ca_ok := true; ca_reason := None |};
  ba_amend := fun _ _ _ => raise (AdapterError "no amend route");
  ba_get_open_orders := fun _ => ret []; ba_get_positions := fun _ => ret [];
  ba_get_venue_orders := fun _ => ret [];
  ba_get_account := fun a => ret (sim_account a); ba_capabilities := [] |}.

Definition ex_router_resolver : OrderRouter ExRedis unit := {|
  rt_settings := Settings_default; rt_redis := true; rt_sim := ex_sim;
  rt_liberator := Some ex_handleless; rt_streaming_pro := None; rt_last_close := None;
  rt_handle_resolver := Some (fun _ => raise (OtherError "timeout")); rt_sleep := ex_sleep;
  rt_uuid4_hex := fun _ => "token"%string |}.

Lemma ex_sleep_advances d (w : world ExRedis unit) : 0 <= d ->
  exists w', ex_sleep d w = (Ok tt, w') /\ w_now w + d <= w_now w'.
Proof. intros Hd. eexists. split; [reflexivity|]. simpl. lia. Qed.

Lemma handleless_ack_never_raises_witness :
  exists res w2, _place_and_settle ex_router_resolver ex_handleless ex_partial ex_inserted
    = (Ok res, w2).
Proof.
  destruct (proj2 (handleless_ack_never_raises ex_router_resolver ex_sleep_advances
    ex_handleless ex_partial ex_inserted ex_inserted _ eq_refl eq_refl eq_refl)
    (fun _ => raise (OtherError "timeout")) eq_refl) as (res & w2 & E & _).
  - intros c w. simpl. lia.
  - intros r Hr. vm_compute in Hr. injection Hr as <-. vm_compute. congruence.
  - simpl. lia.
  - simpl. lia.
  - exists res, w2. exact E.
Defined.


(** ** Cancel+replace on a partly filled order *)

(** A LIBERATOR order of 100 at stage sim, 30 filled and resting. *)
Definition ex_lib_partial : NormalizedOrder :=
  {| no_client_order_id := ex_cid; no_broker := LIBERATOR;
     no_account := "acct"; no_market := SET_; no_symbol := "AOT"; no_side := BUY;
     no_order_type := LIMIT; no_price := Some (Dec 605 (-1)); no_stop_price := None;
     no_quantity := 100; no_display_qty := None; no_tif := DAY; no_position_effect := None;
     no_metadata := [("sim_fills"%string, JList [JInt 30])] |}.

Definition ex_cid2 : string := "12345678-1234-4234-9234-123456789abd".
Definition ex_w2 : world ExRedis unit := (submit ex_router ex_lib_partial None ex_rworld).2.



(** a price-only cancel+replace of a partly filled order re-submits the whole
    original quantity: on an order for 100 of which 30 were filled, the paper
    venue ends with 130 bought. *)
Theorem cancel_replace_exceeds_original :
  let w' := (amend ex_router ex_cid (Some ex_cid2) (Some (Dec 61 0)) None ex_w2).2 in
  filled_qty ex_cid (w_db w') + filled_qty ex_cid2 (w_db w') = 130 /\
  or_quantity <$> (db_orders (w_db w') !! ex_cid) = Some 100.
Proof. vm_compute. split; reflexivity. Qed.
