(* ===== verification/Liberator.v ===== *)
(** * Liberator: the Liberator broker's wire and adapter

    [adapters/liberator/models.py] (the envelope and the order rows),
    [adapters/liberator/mapping.py] (both directions of the wire mapping and the
    venue-state classification) and [adapters/liberator/adapter.py].  The HTTP
    bridge, the rate limiter's wait and pydantic's field coercion are
    parameters. *)

From S2P Require Import Prelude Decimals Contracts Digits PyTime PyIso StateMachine Events Store StoreInv Config Adapters Sha256 SyntheticId.
From stdpp Require Import base gmap strings list relations.
From Stdlib Require Import ZArith Lia.
Open Scope Z_scope.

(** ** Strings and decimals of the language *)

Definition ascii_upper (a : Ascii.ascii) : Ascii.ascii :=
  let c := char_code a in
  if (97 <=? c) && (c <=? 122) then Ascii.ascii_of_nat (Z.to_nat (c - 32)) else a.

(** [str.upper()] *)
Definition py_upper (s : string) : string :=
  String.string_of_list_ascii (map ascii_upper (String.list_ascii_of_string s)).

(** [raw.strip().upper()] *)
Definition token (s : string) : string := py_upper (py_strip s).

(** [x or y] on strings *)
Definition str_or (x y : string) : string := if String.eqb x "" then y else x.

Definition sign_text (c : Z) : string := if c <? 0 then "-"%string else ""%string.
(** ["E" + "%+d" % x], nothing for 0 *)
Definition exp_text (x : Z) : string :=
  if x =? 0 then ""%string else ("E" +:+ (if (x <? 0)%Z then "-" else "+") +:+ nat_str (Z.abs x))%string.

(** [str(d)]: the point stays inside the digits while the exponent is not positive
    and the number is not below 1E-6; otherwise scientific notation. *)
Definition dec_str (d : Decimal) : string :=
  let ds := nat_str (Z.abs (d_coeff d)) in
  let len := Z.of_nat (String.length ds) in
  let leftdigits := d_exp d + len in
  let dotplace := if (d_exp d <=? 0) && (-6 <? leftdigits) then leftdigits else 1 in
  let body :=
    if dotplace <=? 0 then ("0." +:+ zeros (Z.to_nat (- dotplace)) +:+ ds)%string
    else if len <=? dotplace then (ds +:+ zeros (Z.to_nat (dotplace - len)))%string
    else let k := Z.to_nat dotplace in
         (String.substring 0 k ds +:+ "." +:+ String.substring k (String.length ds - k) ds)%string in
  (sign_text (d_coeff d) +:+ body +:+ exp_text (leftdigits - dotplace))%string.

Example dec_str_1 : dec_str (Dec 12345 (-3)) = "12.345"%string.
Proof. reflexivity. Qed.
Example dec_str_2 : dec_str (Dec 5 3) = "5E+3"%string.
Proof. reflexivity. Qed.

(** ** models.py *)

Record LiberatorData := {
  ld_error_code : option Z;
  ld_err_msg : option string;
  ld_result : json;
}.

Record LiberatorEnvelope := {
  le_success : bool;
  le_message : option string;
  le_data : option LiberatorData;
  le_detail : json;
}.

(** Python truthiness of [str | None]. *)
Definition str_true (s : option string) : bool :=
  match s with Some s => negb (String.eqb s "") | None => false end.

Definition le_ok (e : LiberatorEnvelope) : bool :=
  le_success e &&
  match le_data e with
  | None => false
  | Some d => bool_decide (ld_error_code d = Some 0) && negb (str_true (ld_err_msg d))
  end.

Definition reject_reason (e : LiberatorEnvelope) : string :=
  let parts :=
    match le_data e with
    | None => []
    | Some d =>
        match ld_error_code d with
        | Some c => if c =? 0 then [] else [("errorCode=" +:+ int_str c)%string]
        | None => []
        end ++
        match ld_err_msg d with
        | Some m => if String.eqb m "" then [] else [m]
        | None => []
        end
    end in
  let parts :=
    match parts, le_message e with
    | [], Some m => if String.eqb m "" then [] else [m]
    | _, _ => parts
    end in
  let parts :=
    match parts, le_detail e with
    | [], JNull => []
    | [], d => [py_str d]
    | _, _ => parts
    end in
  str_or (py_join "; " parts) "liberator rejected the request".

(** [data.result.orderNo] *)
Definition order_no (e : LiberatorEnvelope) : option string :=
  match le_data e with
  | None => None
  | Some d =>
      match ld_result d with
      | JObj kvs => match jget "orderNo" kvs with JNull => None | v => Some (py_str v) end
      | _ => None
      end
  end.

Record VenueOrderItem := {
  vi_order_no : string;
  vi_account_no : string;
  vi_symbol : string;
  vi_side : string;
  vi_position : option string;
  vi_price_type : string;
  vi_iceberg_vol : Z;
  vi_volume : Z;
  vi_price : option Decimal;
  vi_matched : Z;
  vi_balance : Z;
  vi_cancelled : Z;
  vi_amount : option Decimal;
  vi_status : string;
  vi_status_show : string;
  vi_reject_code : string;
  vi_can_cancel : bool;
  vi_validity_type : string;
  vi_stop_price : option Decimal;
  vi_stop_symbol : option string;
  vi_entry_time : option PyDatetime;
  vi_trade_time : option PyDatetime;
}.

(** The raw order rows of an orders-query payload; an envelope without a result
    object is refused, never read as an empty book. *)
Definition envelope_result (k : string) (payload : list (string * json)) : option (list (string * json)) :=
  match jget k payload with
  | JObj env => match jget "result" env with JObj r => Some r | _ => None end
  | _ => None
  end.

Definition venue_order_rows (payload : list (string * json))
    : result exn (list (list (string * json))) :=
  let res := match envelope_result "raw_response" payload with
             | Some r => Some r
             | None => envelope_result "data" payload
             end in
  match res with
  | None => Err (LiberatorTransportError
      "liberator orders: no result object under 'raw_response' or 'data'")
  | Some r =>
      match jget "list" r with
      | JList items => Ok (omap (fun j => match j with JObj o => Some o | _ => None end) items)
      | _ => Ok []
      end
  end.

Fixpoint validate_all (validate : list (string * json) -> result exn VenueOrderItem)
    (rows : list (list (string * json))) : result exn (list VenueOrderItem) :=
  match rows with
  | [] => Ok []
  | r :: rows' =>
      match validate r with
      | Err e => Err e
      | Ok i => match validate_all validate rows' with Err e => Err e | Ok is_ => Ok (i :: is_) end
      end
  end.

(** [validate] is [VenueOrderItem.model_validate] (pydantic). *)
Definition parse_order_items (validate : list (string * json) -> result exn VenueOrderItem)
    (payload : list (string * json)) : result exn (list VenueOrderItem) :=
  match venue_order_rows payload with
  | Err e => Err e
  | Ok rows => validate_all validate rows
  end.

(** ** mapping.py, write side *)

Definition _SET_PRICE_TYPES (t : OrderType) : option string :=
  match t with
  | LIMIT => Some "Limit" | MARKET => Some "Market" | MTL => Some "MP" | ATO => Some "ATO"
  | ATC => Some "ATC" | ICEBERG => Some "Limit" | _ => None
  end%string.
Definition _TFEX_PRICE_TYPES (t : OrderType) : option string :=
  match t with
  | LIMIT => Some "Limit" | MARKET => Some "Market" | STOP => Some "Stop"
  | STOP_LIMIT => Some "Stop" | ICEBERG => Some "Limit" | _ => None
  end%string.
Definition venue_validity (t : Tif) : string :=
  match t with DAY => "Day" | GTC => "GTC" | IOC => "IOC" | FOK => "FOK" end.
Definition _POSITIONS (p : PositionEffect) : string :=
  match p with OPEN => "Open" | CLOSE => "Close" end.

Definition place_path (m : Market) : string :=
  match m with SET_ => "order/place/set" | TFEX => "order/place/tfex" end.
Definition cancel_path (m : Market) : string :=
  match m with SET_ => "order/cancelled/set" | TFEX => "order/cancelled/tfex" end.
Definition orders_path (account : string) : string := ("orders/" +:+ account)%string.

Definition venue_side (side : Side) (market : Market) : string :=
  match market, side with
  | SET_, BUY => "Buy" | SET_, SELL => "Sell" | TFEX, BUY => "Long" | TFEX, SELL => "Short"
  end.

Definition from_venue_side (raw : string) : option Side :=
  if memb (token raw) ["B"; "BUY"; "LONG"]%string then Some BUY
  else if memb (token raw) ["S"; "SELL"; "SHORT"]%string then Some SELL
  else None.

Definition venue_price_type (order_type : OrderType) (market : Market) : result exn string :=
  match (match market with SET_ => _SET_PRICE_TYPES | TFEX => _TFEX_PRICE_TYPES end) order_type with
  | Some mapped => Ok mapped
  | None => Err (LiberatorMappingError
      ("order_type " +:+ OrderType_value order_type +:+ " is not expressible on the Liberator "
       +:+ Market_value market +:+ " wire")%string)
  end.

(** [_TWO_DP] is the exponent -2. *)
Definition _set_wire_price (order : NormalizedOrder) : result exn string :=
  match (match no_price order with Some p => Some p | None => no_stop_price order end) with
  | None => Err (LiberatorMappingError
      "liberator SET wire requires price > 0 even for market-family orders; supply an indicative price")
  | Some price =>
      match dec_quantize price (-2) with
      | None => Err InvalidOperation
      | Some q =>
          if negb (dec_eqb price q)
          then Err (LiberatorMappingError
            ("liberator SET wire allows at most 2 decimal places (got " +:+ dec_str price +:+ ")")%string)
          else Ok (format_f q)
      end
  end.

Definition _BRIDGE_REQUIRED_PIN_PLACEHOLDER : string := "0000000000".

(** The dict literal is built in order, so the price is computed (and may
    raise) before the price type. *)
Definition to_set_payload (order : NormalizedOrder) : result exn (list (string * json)) :=
  match _set_wire_price order with
  | Err e => Err e
  | Ok price =>
      match venue_price_type (no_order_type order) SET_ with
      | Err e => Err e
      | Ok price_type =>
          Ok [("accountNo", JStr (no_account order));
              ("icebergVol", JInt (default 0 (no_display_qty order)));
              ("volume", JInt (no_quantity order));
              ("symbol", JStr (no_symbol order));
              ("side", JStr (venue_side (no_side order) SET_));
              ("pin", JStr _BRIDGE_REQUIRED_PIN_PLACEHOLDER);
              ("price", JStr price);
              ("priceType", JStr price_type);
              ("validityType", JStr (venue_validity (no_tif order)));
              ("nvdr", JBool false)]%string
      end
  end.

Definition to_tfex_payload (order : NormalizedOrder) : result exn (list (string * json)) :=
  match no_position_effect order with
  | None => Err (LiberatorMappingError "TFEX orders require position_effect")
  | Some pe =>
      let price := default dec_zero (no_price order) in
      let is_stop := memb (no_order_type order) [STOP; STOP_LIMIT] in
      let stop_price := match is_stop, no_stop_price order with
                        | true, Some p => p
                        | _, _ => dec_zero
                        end in
      match venue_price_type (no_order_type order) TFEX with
      | Err e => Err e
      | Ok price_type =>
          Ok [("accountNo", JStr (no_account order));
              ("icebergVol", JInt (default 0 (no_display_qty order)));
              ("volume", JInt (no_quantity order));
              ("symbol", JStr (no_symbol order));
              ("side", JStr (venue_side (no_side order) TFEX));
              ("position", JStr (_POSITIONS pe));
              ("pin", JStr _BRIDGE_REQUIRED_PIN_PLACEHOLDER);
              ("price", JStr (format_f price));
              ("priceType", JStr price_type);
              ("validityType", JStr (venue_validity (no_tif order)));
              ("stopCondition", JStr "");
              ("stopSymbol", JStr (no_symbol order));
              ("stopPrice", JStr (format_f stop_price))]%string
      end
  end.

Definition to_place_payload (order : NormalizedOrder) : result exn (list (string * json)) :=
  match no_market order with SET_ => to_set_payload order | TFEX => to_tfex_payload order end.

Definition to_cancel_payload (broker_order_id : string) : list (string * json) :=
  [("orderNo", JList [JStr broker_order_id]); ("pin", JStr _BRIDGE_REQUIRED_PIN_PLACEHOLDER)]%string.

(** ** mapping.py, read side *)

Definition _READ_PRICE_TYPES (t : string) : option OrderType :=
  if String.eqb t "LIMIT" then Some LIMIT else if String.eqb t "MARKET" then Some MARKET
  else if String.eqb t "MP" then Some MTL else if String.eqb t "ATO" then Some ATO
  else if String.eqb t "ATC" then Some ATC else if String.eqb t "STOP" then Some STOP else None.
Definition _READ_VALIDITY (t : string) : option Tif :=
  if String.eqb t "DAY" then Some DAY else if String.eqb t "GTC" then Some GTC
  else if String.eqb t "IOC" then Some IOC else if String.eqb t "FOK" then Some FOK else None.
Definition _READ_POSITIONS (t : string) : option PositionEffect :=
  if String.eqb t "OPEN" then Some OPEN else if String.eqb t "CLOSE" then Some CLOSE else None.

Definition item_market (item : VenueOrderItem) : Market :=
  if String.eqb (py_strip (default "" (vi_position item))) "" then SET_ else TFEX.

Definition venue_item_to_normalized (item : VenueOrderItem) (account : string) : option NormalizedOrder :=
  match from_venue_side (vi_side item), _READ_PRICE_TYPES (token (vi_price_type item)) with
  | Some side, Some t =>
      let order_type := if bool_decide (t = LIMIT) && (0 <? vi_iceberg_vol item) then ICEBERG else t in
      match NormalizedOrder_new
        {| no_client_order_id := lib_synthetic_client_order_id (vi_order_no item);
           no_broker := LIBERATOR;
           no_account := str_or (vi_account_no item) account;
           no_market := item_market item;
           no_symbol := vi_symbol item;
           no_side := side;
           no_order_type := order_type;
           no_price := vi_price item;
           no_stop_price := if decide (order_type = STOP) then vi_stop_price item else None;
           no_quantity := vi_volume item;
           no_display_qty := if decide (order_type = ICEBERG) then Some (vi_iceberg_vol item) else None;
           no_tif := default DAY (_READ_VALIDITY (token (vi_validity_type item)));
           no_position_effect := _READ_POSITIONS (token (default "" (vi_position item)));
           no_metadata := [] |}
      with
      | Ok o => Some o
      | Err _ => None
      end
  | _, _ => None
  end.

Module VenueOrderState.
Inductive t := RESTING | CANCELLED | REJECTED | EXPIRED.
Definition value (s : t) : string :=
  match s with
  | RESTING => "resting" | CANCELLED => "cancelled" | REJECTED => "rejected"
  | EXPIRED => "expired"
  end.
End VenueOrderState.
#[export] Instance VenueOrderState_eq_dec : EqDecision VenueOrderState.t.
Proof. solve_decision. Defined.

Definition _CANCELLED_STATUS : list string := ["CANCELLED"; "CANCELED"; "CXL"].
Definition _REJECTED_STATUS : list string := ["REJECTED"; "REJECT"].
Definition _EXPIRED_STATUS : list string := ["EXPIRED"; "EXPIRE"].
Definition _CANCELLED_SHOW : list string := ["C"; "X"; "XC"].
Definition _REJECTED_SHOW : list string := ["R"].
Definition _TERMINAL_UNNAMED_SHOW : list string := ["XA"].

Definition classify_venue_state (item : VenueOrderItem) : VenueOrderState.t :=
  if negb (String.eqb (py_strip (vi_reject_code item)) "") then VenueOrderState.REJECTED
  else
    let status := token (vi_status item) in
    let show := token (vi_status_show item) in
    if memb status _CANCELLED_STATUS || memb show _CANCELLED_SHOW then VenueOrderState.CANCELLED
    else if memb status _REJECTED_STATUS || memb show _REJECTED_SHOW then VenueOrderState.REJECTED
    else if memb show _TERMINAL_UNNAMED_SHOW then VenueOrderState.CANCELLED
    else if memb status _EXPIRED_STATUS then VenueOrderState.EXPIRED
    else if (0 <? vi_cancelled item) && (vi_balance item =? 0) && (vi_matched item <? vi_volume item)
    then VenueOrderState.CANCELLED
    else VenueOrderState.RESTING.

Definition venue_item_to_view (item : VenueOrderItem) : VenueOrderView :=
  {| vv_venue_order_id := vi_order_no item;
     vv_market := Some (item_market item);
     vv_symbol := vi_symbol item;
     vv_side := from_venue_side (vi_side item);
     vv_quantity := vi_volume item;
     vv_price := vi_price item;
     vv_matched_qty := vi_matched item;
     vv_remaining_qty := vi_balance item;
     vv_cancelled_qty := vi_cancelled item;
     vv_state := display_state (VenueOrderState.value (classify_venue_state item))
                   (vi_volume item) (vi_matched item) (vi_balance item);
     vv_venue_status := vi_status item;
     vv_venue_status_code := vi_status_show item;
     vv_placed_at := isoformat <$> vi_entry_time item |}.

(** ** adapter.py *)

Fixpoint span_digits (l : list Ascii.ascii) : list Ascii.ascii * list Ascii.ascii :=
  match l with
  | a :: l' => if is_digit a then let '(ds, r) := span_digits l' in (a :: ds, r) else ([], l)
  | [] => ([], [])
  end.

Definition digits_to_Z (ds : list Ascii.ascii) : Z :=
  fold_left (fun v a => 10 * v + (char_code a - 48)) ds 0.

Definition take_sign (l : list Ascii.ascii) : Z * list Ascii.ascii :=
  match l with
  | a :: l' => if char_code a =? 45 then (-1, l') else if char_code a =? 43 then (1, l') else (1, l)
  | [] => (1, [])
  end.

(** [Decimal(s)] for a finite numeral; [None] raises [InvalidOperation]. *)
Definition decimal_of_string (s : string) : option Decimal :=
  let l := List.filter (fun a => negb (char_code a =? 95))
             (strip_with is_space (String.list_ascii_of_string s)) in
  let '(sign, l) := take_sign l in
  let '(ip, l) := span_digits l in
  let '(fp, l) := match l with
                  | a :: l' => if char_code a =? 46 then span_digits l' else ([], l)
                  | [] => ([], [])
                  end in
  if bool_decide (ip ++ fp = []) then None
  else
    let c := sign * digits_to_Z (ip ++ fp) in
    let e := - Z.of_nat (length fp) in
    match l with
    | [] => Some (Dec c e)
    | a :: l' =>
        if memb (char_code a) [69; 101] then
          let '(es, l'') := take_sign l' in
          match span_digits l'' with
          | ([], _) => None
          | (xs, []) => Some (Dec c (e + es * digits_to_Z xs))
          | (_, _ :: _) => None
          end
        else None
    end.

Example decimal_of_string_1 : decimal_of_string " 50_000.11 " = Some (Dec 5000011 (-2)).
Proof. reflexivity. Qed.
Example decimal_of_string_2 : decimal_of_string "1e-3" = Some (Dec 1 (-3)).
Proof. reflexivity. Qed.
Example decimal_of_string_3 : decimal_of_string "abc" = None.
Proof. reflexivity. Qed.

(** Money off the wire: int, float or string, never bool. *)
Definition _venue_decimal (value : json) (field : string) : result exn Decimal :=
  let parse s := match decimal_of_string s with Some d => Ok d | None => Err InvalidOperation end in
  match value with
  | JInt z => Ok (Dec z 0)
  | JFloat r => parse r
  | JStr s => parse s
  | _ => Err (LiberatorTransportError ("liberator profile: " +:+ field +:+ " is not a number")%string)
  end.

Definition _opt_decimal (raw : list (string * json)) (key : string) : result exn (option Decimal) :=
  match jget key raw with
  | JNull => Ok None
  | v => match _venue_decimal v key with Ok d => Ok (Some d) | Err e => Err e end
  end.

(** [_venue_result(body)]: refuses on the venue's own error text. *)
Definition _venue_result (body : json) : result exn (list (string * json)) :=
  match (match body with JObj b => jget "raw_response" b | _ => JNull end) with
  | JObj raw =>
      if match jget "errMsg" raw with JStr m => negb (String.eqb m "") | _ => false end
      then Err LiberatorAccountNotFound
      else match jget "result" raw with
           | JObj r => Ok r
           | _ => Err (LiberatorTransportError "raw_response carried no result object")
           end
  | _ => Err (LiberatorTransportError "no raw_response in the envelope")
  end.

Definition _position_market (account : string) : result exn Market :=
  let l := String.list_ascii_of_string account in
  if negb (length l =? 8)%nat || negb (forallb is_digit l) then Err LiberatorAccountNotFound
  else match last l with
       | Some a => if char_code a =? 50 then Ok SET_
                   else if char_code a =? 55 then Ok TFEX else Err LiberatorAccountNotFound
       | None => Err LiberatorAccountNotFound
       end.

Definition _POSITION_SIDES (s : string) : option (option Side) :=
  if String.eqb s "Long" then Some (Some BUY)
  else if String.eqb s "Short" then Some (Some SELL)
  else if String.eqb s "" then Some None else None.

(** Python truthiness of a JSON value. *)
Definition json_true (j : json) : bool :=
  match j with
  | JNull => false
  | JBool b => b
  | JInt z => negb (z =? 0)
  | JFloat r => negb (memb r ["0.0"; "-0.0"]%string)
  | JStr s => negb (String.eqb s "")
  | JList l => negb (bool_decide (length l = O))
  | JObj kvs => negb (bool_decide (length kvs = O))
  end.

Definition _position (account : string) (market : Market) (raw : list (string * json))
    : result exn Position :=
  let sym := if json_true (jget "symbolDisplay" raw) then jget "symbolDisplay" raw
             else jget "symbol" raw in
  match sym with
  | JStr symbol =>
      if String.eqb symbol "" then Err (LiberatorTransportError "position row carries no symbol")
      else
        match jget "actualVol" raw with
        | JInt qty =>
            let side := match jget "sideShow" raw with
                        | JNull => Ok None
                        | JStr s => match _POSITION_SIDES s with
                                    | Some side => Ok side
                                    | None => Err (LiberatorTransportError "unmapped sideShow")
                                    end
                        | JList _ | JObj _ => Err (OtherError "TypeError")
                        | _ => Err (LiberatorTransportError "unmapped sideShow")
                        end in
            match side with
            | Err e => Err e
            | Ok side =>
                match _opt_decimal raw "amount", _opt_decimal raw "avg",
                      _opt_decimal raw "marketPrice", _opt_decimal raw "marketVal",
                      _opt_decimal raw "unrealizedPL" with
                | Ok cost, Ok avg, Ok mp, Ok mv, Ok pl =>
                    Ok {| ps_account := account; ps_market := market; ps_symbol := symbol;
                          ps_net_qty := qty; ps_side := side; ps_cost_amount := cost;
                          ps_avg_price := avg; ps_market_price := mp; ps_market_value := mv;
                          ps_unrealized_pl := pl |}
                | Err e, _, _, _, _ | _, Err e, _, _, _ | _, _, Err e, _, _
                | _, _, _, Err e, _ | _, _, _, _, Err e => Err e
                end
            end
        | _ => Err (LiberatorTransportError "actualVol is not an integer")
        end
  | _ => Err (LiberatorTransportError "position row carries no symbol")
  end.

Definition _ACCOUNT_TYPES (t : string) : AccountType.t :=
  if String.eqb t "CASH BALANCE" then AccountType.CASH
  else if String.eqb t "DERIVATIVE" then AccountType.DERIVATIVE
  else AccountType.UNKNOWN.

Definition _account_info (account : string) (raw : list (string * json)) : result exn AccountInfo :=
  let account_type :=
    _ACCOUNT_TYPES (py_upper (match jassoc "type" raw with Some v => py_str v | None => "" end)) in
  let margin k := if decide (account_type = AccountType.DERIVATIVE) then _opt_decimal raw k
                  else Ok None in
  match margin "equity"%string, margin "excessEquity"%string, margin "totalMr"%string,
        margin "totalMm"%string, _venue_decimal (jget "lineAvailable" raw) "lineAvailable",
        _opt_decimal raw "cashBalance", _opt_decimal raw "creditLimit",
        _opt_decimal raw "withdrawAvailable" with
  | Ok eq, Ok xeq, Ok im, Ok mm, Ok bp, Ok cash, Ok credit, Ok wd =>
      _margin_block_belongs_to_derivatives
        {| ai_account := account; ai_account_type := account_type; ai_buying_power := bp;
           ai_cash_balance := cash; ai_credit_limit := credit; ai_withdrawable := wd;
           ai_equity := eq; ai_excess_equity := xeq; ai_initial_margin := im;
           ai_maintenance_margin := mm |}
  | Err e, _, _, _, _, _, _, _ | _, Err e, _, _, _, _, _, _ | _, _, Err e, _, _, _, _, _
  | _, _, _, Err e, _, _, _, _ | _, _, _, _, Err e, _, _, _ | _, _, _, _, _, Err e, _, _
  | _, _, _, _, _, _, Err e, _ | _, _, _, _, _, _, _, Err e => Err e
  end.

(** The adapter object's own state. *)
Record LiberatorSession := {
  ls_breaker : SessionCircuitBreaker;
  ls_order_no_cache : gmap string (string * Market);
  ls_awaiting_order_no : gset string;
  ls_last_heartbeat_ok : option bool;
}.

Section adapter.
Context {R V : Type} (sess : V -> LiberatorSession) (put_sess : LiberatorSession -> V -> V).
Abbreviation M := (M exn (world R V)).

(** The transport's two calls, the place limiter's [acquire], the durable
    resolver and pydantic's row validation. *)
Context (post : string -> list (string * json) -> M LiberatorEnvelope)
        (get_json : string -> M json) (acquire : M unit)
        (resolve_order : option (string -> M (option (string * Market))))
        (validate : list (string * json) -> result exn VenueOrderItem).

Definition session_modify (f : LiberatorSession -> LiberatorSession) : M unit :=
  modify (fun w => set_venue (put_sess (f (sess (w_venue w))) (w_venue w)) w).

Definition set_cache (c : gmap string (string * Market)) (a : gset string) (s : LiberatorSession)
    : LiberatorSession :=
  {| ls_breaker := ls_breaker s; ls_order_no_cache := c; ls_awaiting_order_no := a;
     ls_last_heartbeat_ok := ls_last_heartbeat_ok s |}.
Definition ls_set_breaker (b : SessionCircuitBreaker) (s : LiberatorSession) : LiberatorSession :=
  {| ls_breaker := b; ls_order_no_cache := ls_order_no_cache s;
     ls_awaiting_order_no := ls_awaiting_order_no s;
     ls_last_heartbeat_ok := ls_last_heartbeat_ok s |}.
Definition set_heartbeat (ok : bool) (s : LiberatorSession) : LiberatorSession :=
  {| ls_breaker := ls_breaker s; ls_order_no_cache := ls_order_no_cache s;
     ls_awaiting_order_no := ls_awaiting_order_no s; ls_last_heartbeat_ok := Some ok |}.

Definition rejected_ack (reason : string) : PlaceAck :=
  {| pa_rejected := true; pa_reject_reason := Some reason; pa_broker_order_id := None;
     pa_fills := []; pa_remainder_cancelled := false |}.
Definition accepted_ack (handle : option string) : PlaceAck :=
  {| pa_rejected := false; pa_reject_reason := None; pa_broker_order_id := handle;
     pa_fills := []; pa_remainder_cancelled := false |}.

Definition lib_place (order : NormalizedOrder) : M PlaceAck :=
  match to_place_payload order with
  | Err (LiberatorMappingError m) => ret (rejected_ack m)
  | Err e => raise e
  | Ok payload =>
      acquire ;;;
      let* envelope := post (place_path (no_market order)) payload in
      if negb (le_ok envelope) then ret (rejected_ack (reject_reason envelope))
      else
        let cid := no_client_order_id order in
        match order_no envelope with
        | None =>
            session_modify (fun s =>
              set_cache (ls_order_no_cache s) ({[cid]} ∪ ls_awaiting_order_no s) s) ;;;
            ret (accepted_ack None)
        | Some n =>
            session_modify (fun s =>
              set_cache (<[cid := (n, no_market order)]> (ls_order_no_cache s))
                (ls_awaiting_order_no s ∖ {[cid]}) s) ;;;
            ret (accepted_ack (Some n))
        end
  end.

Definition lib_cancel (client_order_id : string) : M CancelAck :=
  let* cached := gets (fun w => ls_order_no_cache (sess (w_venue w)) !! client_order_id) in
  let* resolved := match cached, resolve_order with
                   | None, Some f => f client_order_id
                   | _, _ => ret cached
                   end in
  match resolved with
  | None =>
      let* awaiting := gets (fun w =>
        bool_decide (client_order_id ∈ ls_awaiting_order_no (sess (w_venue w)))) in
      ret {| ca_ok := false;
             ca_reason := Some (if awaiting : bool
               then "order is LIVE at the venue but its broker_order_id has not been reconciled yet (the place-ack carried no orderNo) — retry after the next reconcile pass; do NOT resubmit"
               else "no broker_order_id mapping for client_order_id")%string |}
  | Some (n, market) =>
      let* posted := catch
        (let* e := post (cancel_path market) (to_cancel_payload n) in ret (inl e))
        (fun e => match e with LiberatorTransportError m => ret (inr m) | e => raise e end) in
      match posted with
      | inr m => ret {| ca_ok := false; ca_reason := Some m |}
      | inl envelope =>
          if negb (le_ok envelope)
          then ret {| ca_ok := false; ca_reason := Some (reject_reason envelope) |}
          else ret {| ca_ok := true; ca_reason := None |}
      end
  end.

Definition lib_amend (_ : string) (_ : option Decimal) (_ : option Z) : M AmendAck :=
  ret {| aa_ok := false; aa_semantics := "cancel_replace";
         aa_reason := Some "liberator has no amend route; use the router cancel+replace orchestration with a new client_order_id"%string |}.

Definition fetch_venue_orders (account : string) : M (list VenueOrderItem) :=
  let* body := get_json (orders_path account) in
  match body with
  | JObj payload => lift_result (parse_order_items validate payload)
  | _ => raise (OtherError "AttributeError")
  end.

Definition lib_get_venue_orders (account : string) : M (list VenueOrderView) :=
  let* items := fetch_venue_orders account in
  ret (map venue_item_to_view items).

Definition lib_get_open_orders (account : string) : M (list NormalizedOrder) :=
  let* items := fetch_venue_orders account in
  ret (omap (fun item =>
    if negb (bool_decide (classify_venue_state item = VenueOrderState.RESTING)) then None
    else if vi_balance item <=? 0 then None
    else venue_item_to_normalized item account) items).

Fixpoint positions_of (account : string) (market : Market) (rows : list json)
    : result exn (list Position) :=
  match rows with
  | [] => Ok []
  | JObj raw :: rows' =>
      match _position account market raw with
      | Err e => Err e
      | Ok p =>
          match positions_of account market rows' with
          | Err e => Err e
          | Ok ps => Ok (if ps_net_qty p =? 0 then ps else p :: ps)
          end
      end
  | _ :: rows' => positions_of account market rows'
  end.

Definition lib_get_positions (account : string) : M (list Position) :=
  let* market := lift_result (_position_market account) in
  let* body := get_json ("portfolio/get/" +:+ account)%string in
  let* res := lift_result (_venue_result body) in
  match jget "stock" res with
  | JList rows => lift_result (positions_of account market rows)
  | _ => raise (LiberatorTransportError "liberator portfolio: no stock array")
  end.

Fixpoint find_account (account : string) (rows : list json) : option (list (string * json)) :=
  match rows with
  | [] => None
  | JObj raw :: rows' =>
      match jget "accountNo" raw with
      | JStr a => if String.eqb a account then Some raw else find_account account rows'
      | _ => find_account account rows'
      end
  | _ :: rows' => find_account account rows'
  end.

Definition lib_get_account (account : string) : M AccountInfo :=
  let* body := get_json "profile" in
  let* res := lift_result (_venue_result body) in
  match jget "accounts" res with
  | JList rows =>
      match find_account account rows with
      | Some raw => lift_result (_account_info account raw)
      | None => raise LiberatorAccountNotFound
      end
  | _ => raise (LiberatorTransportError "liberator profile: result carried no accounts list")
  end.

Definition lib_heartbeat : M bool :=
  let* probed := catch (let* b := get_json "order/health/set" in ret (Some b))
    (fun e => match e with LiberatorTransportError _ => ret None | e => raise e end) in
  let ok := match probed with
            | Some (JObj body) =>
                match jget "status" body with
                | JStr s => String.eqb s "healthy" && json_true (jget "auth_token_available" body)
                | _ => false
                end
            | _ => false
            end in
  session_modify (set_heartbeat ok) ;;; ret ok.

Definition LiberatorAdapter (oid : nat) : BrokerAdapter R V := {|
  ba_oid := oid;
  ba_broker := LIBERATOR;
  ba_breaker := fun v => ls_breaker (sess v);
  ba_place := lib_place;
  ba_cancel := lib_cancel;
  ba_amend := lib_amend;
  ba_get_open_orders := lib_get_open_orders;
  ba_get_positions := lib_get_positions;
  ba_get_venue_orders := lib_get_venue_orders;
  ba_get_account := lib_get_account;
  ba_capabilities := List.filter (fun e => bool_decide (cap_broker e = LIBERATOR)) CAPABILITY_MATRIX;
|}.
End adapter.
