(* ===== verification/Reconciler.v ===== *)
(** * Reconciler: Liberator's repair loop ([adapters/liberator/reconciler.py])

    The lost-ack matcher, the pure planner, the executor over the repositories
    and the two entry points: the steady pass and the single-order read the
    submit path borrows. *)

From S2P Require Import Prelude Decimals Contracts StateMachine Events Store StoreInv StoreProps Config Adapters PyTime CancelAmend Liberator.
From stdpp Require Import base gmap strings list relations.
From Stdlib Require Import ZArith Lia.
Open Scope Z_scope.

(** Seconds, in microseconds. *)
Definition _STUCK_PENDING : Z := 5000000.
Definition _ACK_LOST_TIMEOUT : Z := 60000000.
Definition _FUZZY_WINDOW : Z := 5000000.

Definition _is_resolved (row : OrderRow) : bool :=
  negb (bool_decide (or_broker_order_id row = None)) || is_terminal (or_status row).

(** [ReconcileAction], one constructor per [kind]. *)
Inductive ReconcileAction :=
  | AAck (broker_order_id : string)
  | AFill (fill_qty : Z) (fill_price : Decimal) (fill_id : string) (total_quantity : Z)
  | ACancelTwoStep
  | ACancelConfirm
  | AExpire
  | AReject (reason : string)
  | APostAckReject (reason : string).

Definition dec_positive (d : Decimal) : bool := dec_gtb d dec_zero.

Definition fill_price_for (row : OrderRow) (item : VenueOrderItem) : result exn (option Decimal) :=
  let local := match or_price row with Some p => Some p | None => or_stop_price row end in
  match vi_price item with
  | Some p =>
      if dec_positive p then Ok (Some p)
      else match vi_amount item with
           | Some a =>
               if dec_positive a && (0 <? vi_matched item) then
                 match (d ← dec_div a (dec_of_Z (vi_matched item)); dec_quantize d (-6)) with
                 | Some q => Ok (Some q)
                 | None => Err InvalidOperation
                 end
               else Ok local
           | None => Ok local
           end
  | None =>
      match vi_amount item with
      | Some a =>
          if dec_positive a && (0 <? vi_matched item) then
            match (d ← dec_div a (dec_of_Z (vi_matched item)); dec_quantize d (-6)) with
            | Some q => Ok (Some q)
            | None => Err InvalidOperation
            end
          else Ok local
      | None => Ok local
      end
  end.

Definition _has_price (value : option Decimal) : bool :=
  match value with Some p => dec_positive p | None => false end.

Record MatchOutcome := { mo_item : option VenueOrderItem; mo_candidate_count : nat }.

Definition ambiguous (m : MatchOutcome) : bool :=
  bool_decide (mo_item m = None) && (1 <? mo_candidate_count m)%nat.

(** [item.price != row.price] when both carry a real price. *)
Definition prices_differ (item : VenueOrderItem) (row : OrderRow) : bool :=
  match vi_price item, or_price row with
  | Some p, Some q => dec_positive p && dec_positive q && negb (dec_eqb p q)
  | _, _ => false
  end.

(** Does a venue row resemble the order?  Subtracting the order's aware time from
    a naive venue time raises. *)
Definition is_candidate (row : OrderRow) (claimed : gset string) (item : VenueOrderItem)
    : result exn bool :=
  if bool_decide (vi_order_no item ∈ claimed) then Ok false
  else if negb (String.eqb (vi_symbol item) (or_symbol row)) || negb (vi_volume item =? or_quantity row)
  then Ok false
  else if negb (bool_decide (from_venue_side (vi_side item) = Some (or_side row))) then Ok false
  else if prices_differ item row then Ok false
  else match vi_entry_time item with
       | None => Ok false
       | Some t =>
           result_bind (dt_sub t (utc (or_created_at row))) (fun skew =>
           Ok (Z.abs skew <=? _FUZZY_WINDOW))
       end.

(** The matcher's loop. *)
Definition candidates_of (row : OrderRow) (claimed : gset string) (items : list VenueOrderItem)
    : result exn (list VenueOrderItem) :=
  filter_r (is_candidate row claimed) items.

Definition fuzzy_match (row : OrderRow) (items : list VenueOrderItem) (claimed : gset string)
    : result exn MatchOutcome :=
  result_bind (candidates_of row claimed items) (fun candidates =>
  Ok match candidates with
     | [item] => {| mo_item := Some item; mo_candidate_count := 1 |}
     | _ => {| mo_item := None; mo_candidate_count := length candidates |}
     end).

Definition _venue_terminal_actions (row : OrderRow) (item : VenueOrderItem) : list ReconcileAction :=
  match classify_venue_state item with
  | VenueOrderState.CANCELLED => [ACancelTwoStep]
  | VenueOrderState.EXPIRED => [AExpire]
  | VenueOrderState.REJECTED =>
      let reason := py_strip ("liberator reject " +:+
        str_or (vi_reject_code item) (str_or (vi_status_show item) (vi_status item)))%string in
      if decide (or_status row = OrderState.PENDING_NEW) then [AReject reason]
      else [APostAckReject reason]
  | VenueOrderState.RESTING => []
  end.

(** Asia/Bangkok is UTC+7 all year. *)
Definition _venue_day (ts : Z) : Z := (ts + 7 * 3600 * 1000000) / (86400 * 1000000).

Definition absence_is_informative (row : OrderRow) (now : Z) : bool :=
  _venue_day (or_created_at row) =? _venue_day now.

Definition fill_id_for (item : VenueOrderItem) : string :=
  (vi_order_no item +:+ ":" +:+ int_str (vi_matched item))%string.

(** The planner's tail: the matched delta, then a venue terminal unless the
    order is fully matched. *)
Definition plan_fill (row : OrderRow) (filled_qty : Z) (item : VenueOrderItem)
    : result exn (list ReconcileAction) :=
  let delta := vi_matched item - filled_qty in
  if 0 <? delta then
    match fill_price_for row item with
    | Err e => Err e
    | Ok None => Ok []
    | Ok (Some price) => Ok [AFill delta price (fill_id_for item) (or_quantity row)]
    end
  else Ok [].

Definition plan_tail (row : OrderRow) (filled_qty : Z) (item : VenueOrderItem)
    : result exn (list ReconcileAction) :=
  match plan_fill row filled_qty item with
  | Err e => Err e
  | Ok fill =>
      Ok (fill ++ if vi_matched item <? or_quantity row then _venue_terminal_actions row item else [])
  end.

Definition plan_actions (row : OrderRow) (filled_qty : Z) (item : option VenueOrderItem)
    (now : Z) (ambiguous : bool) : result exn (list ReconcileAction) :=
  let age := now - or_created_at row in
  match item with
  | None =>
      match or_status row with
      | OrderState.PENDING_NEW =>
          if ambiguous then Ok []
          else if _ACK_LOST_TIMEOUT <? age then Ok [AReject "ack_lost_unmatched"] else Ok []
      | OrderState.PENDING_CANCEL =>
          if negb (absence_is_informative row now) then Ok [] else Ok [ACancelConfirm]
      | _ => Ok []
      end
  | Some item =>
      match or_status row with
      | OrderState.PENDING_NEW =>
          match _venue_terminal_actions row item with
          | (AReject _ :: _) as terminal => Ok terminal
          | _ =>
              match plan_tail row filled_qty item with
              | Err e => Err e
              | Ok tail => Ok (AAck (vi_order_no item) :: tail)
              end
          end
      | OrderState.PENDING_CANCEL =>
          if memb (classify_venue_state item) [VenueOrderState.CANCELLED; VenueOrderState.EXPIRED]
          then Ok [ACancelConfirm] else Ok []
      | _ => plan_tail row filled_qty item
      end
  end.

Section reconciler.
Context {R V : Type} `{OrdersSchema}.
Abbreviation W := (world R V).
Abbreviation M := (M exn W).
(** [LiberatorAdapter.fetch_venue_orders] *)
Context (fetch : string -> M (list VenueOrderItem)).

Definition _execute (cid : string) (action : ReconcileAction) : M unit :=
  match action with
  | AAck b => ack_order cid b
  | AFill q p i tot =>
      let* now := gets w_now in
      apply_fill cid i p q now tot ;;; ret tt
  | ACancelTwoStep =>
      update_status cid OrderState.PENDING_CANCEL ;;; update_status cid OrderState.CANCELLED
  | ACancelConfirm => update_status cid OrderState.CANCELLED
  | AExpire => update_status cid OrderState.EXPIRED
  | AReject reason =>
      update_status cid OrderState.REJECTED ;;;
      set_reject_reason cid (str_or reason "rejected at venue")
  | APostAckReject reason =>
      set_reject_reason cid (str_or reason "rejected at venue") ;;;
      update_status cid OrderState.PENDING_CANCEL ;;; update_status cid OrderState.CANCELLED
  end.

(** [index.get(order_no)]: a later row of the snapshot wins. *)
Definition index_get (n : string) (items : list VenueOrderItem) : option VenueOrderItem :=
  List.find (fun i => String.eqb (vi_order_no i) n) (rev items).

(** The venue row resolved for an order, whether the match was ambiguous, and
    the claims after it. *)
Definition resolve_item (row : OrderRow) (items : list VenueOrderItem) (claimed : gset string)
    (now : Z) (require_stuck : bool) : result exn (option VenueOrderItem * bool * gset string) :=
  let direct := match or_broker_order_id row with
                | Some b => if String.eqb b "" then None else index_get b items
                | None => None
                end in
  if bool_decide (direct = None) && bool_decide (or_status row = OrderState.PENDING_NEW) &&
     ((_STUCK_PENDING <? now - or_created_at row) || negb require_stuck)
  then
    result_bind (fuzzy_match row items claimed) (fun outcome =>
    Ok (mo_item outcome, ambiguous outcome,
        match mo_item outcome with Some i => {[vi_order_no i]} ∪ claimed | None => claimed end))
  else Ok (direct, false, claimed).

(** Apply the plan; an action that fails is logged and the rest still run. *)
Definition run_actions (cid : string) (actions : list ReconcileAction) : M Z :=
  fold_m actions 0 (fun applied action =>
    let* ok := catch (_execute cid action ;;; ret true) (fun _ => ret false) in
    ret (if ok : bool then applied + 1 else applied)).

Definition _apply_row (row : OrderRow) (items : list VenueOrderItem) (claimed : gset string)
    (now : Z) (require_stuck : bool) : M (Z * gset string) :=
  let* (item, amb, claimed) := lift_result (resolve_item row items claimed now require_stuck) in
  let* res := fetch_order_result (or_client_order_id row) in
  let filled_qty := match res with Some r => rr_filled_qty r | None => 0 end in
  let* actions := lift_result (plan_actions row filled_qty item now amb) in
  let* applied := run_actions (or_client_order_id row) actions in
  ret (applied, claimed).

(** [by_account.setdefault(row.account, []).append(row)], in first-seen order. *)
Fixpoint group_add (row : OrderRow) (groups : list (string * list OrderRow))
    : list (string * list OrderRow) :=
  match groups with
  | [] => [(or_account row, [row])]
  | (a, rows) :: groups' =>
      if String.eqb a (or_account row) then (a, rows ++ [row]) :: groups'
      else (a, rows) :: group_add row groups'
  end.

Definition by_account (rows : list OrderRow) : list (string * list OrderRow) :=
  fold_left (fun g r => group_add r g) rows [].

Definition claimed_of (rows : list OrderRow) : gset string :=
  list_to_set (omap or_broker_order_id rows).

Definition reconcile_account (now : Z) (applied : Z) (group : string * list OrderRow) : M Z :=
  let '(account, rows) := group in
  let* items := catch (let* i := fetch account in ret (Some i))
    (fun e => match e with LiberatorTransportError _ => ret None | e => raise e end) in
  match items with
  | None => ret applied
  | Some items =>
      let* (n, _) := fold_m rows (applied, claimed_of rows) (fun acc row =>
        let '(applied, claimed) := acc in
        let* (n, claimed) := _apply_row row items claimed now true in
        ret (applied + n, claimed)) in
      ret n
  end.

Definition reconcile_once : M Z :=
  let* rows := fetch_orders_for_reconcile LIBERATOR false in
  match rows with
  | [] => ret 0
  | _ =>
      let* now := gets w_now in
      fold_m (by_account rows) 0 (reconcile_account now)
  end.

Definition resolve_order_now (client_order_id : string) : M bool :=
  let* row := fetch_order client_order_id in
  match row with
  | None => ret true
  | Some row =>
      if _is_resolved row then ret true
      else
        let* working_set := fetch_orders_for_reconcile LIBERATOR false in
        let claimed := claimed_of (List.filter (fun r =>
          String.eqb (or_account r) (or_account row) &&
          negb (String.eqb (or_client_order_id r) client_order_id)) working_set) in
        let* items := fetch (or_account row) in
        let* now := gets w_now in
        _apply_row row items claimed now false ;;;
        let* after := fetch_order client_order_id in
        ret (match after with Some r => _is_resolved r | None => false end)
  end.
End reconciler.
