(* ===== verification/ReconcileCore.v ===== *)
(** * ReconcileCore: one repair loop for every venue row

    The two reconcilers ([adapters/liberator/reconciler.py] and
    [adapters/streaming_pro/reconciler.py]) are written separately over different
    venue rows.  [VenueRow] is what either of them reads of a row; the planner,
    the matcher and the application of one row are stated once over it, as the
    reference both are proved equal to, and everything the loops promise is proved
    here against the interface. *)

From S2P Require Import Prelude Decimals Contracts StateMachine Events Store StoreInv StoreProps Config Adapters CancelAmend SimLifecycle Liberator Reconciler.
From stdpp Require Import base gmap strings list relations.
From Stdlib Require Import ZArith Lia.
Import OrderState.
Open Scope Z_scope.

(** The terms of an order the planner reads. *)
Definition terms (r : OrderRow) :=
  (or_client_order_id r, or_price r, or_stop_price r, or_quantity r, or_created_at r).

Class VenueRow (I : Type) := {
  v_order_no : I -> string;
  v_matched : I -> Z;
  v_state : I -> VenueOrderState.t;
  (* the text a venue reject is recorded with *)
  v_reject_reason : I -> string;
  v_fill_price : OrderRow -> I -> result exn (option Decimal);
  (* does the row resemble an order whose ack was lost? *)
  v_candidate : OrderRow -> gset string -> I -> bool;
  (* does absence from the venue's list confirm a cancel? *)
  v_absence_confirms : OrderRow -> Z -> bool;
  v_candidate_unclaimed r cl i : v_candidate r cl i = true -> v_order_no i ∉ cl;
  v_fill_price_terms r r' i : terms r' = terms r -> v_fill_price r' i = v_fill_price r i;
}.

(** ** The reference planner, matcher and row step *)

Section core.
Context {I : Type} {VR : VenueRow I}.

Definition core_terminal (row : OrderRow) (item : I) : list ReconcileAction :=
  match v_state item with
  | VenueOrderState.CANCELLED => [ACancelTwoStep]
  | VenueOrderState.EXPIRED => [AExpire]
  | VenueOrderState.REJECTED =>
      if decide (or_status row = OrderState.PENDING_NEW) then [AReject (v_reject_reason item)]
      else [APostAckReject (v_reject_reason item)]
  | VenueOrderState.RESTING => []
  end.

Definition v_fill_id (item : I) : string :=
  (v_order_no item +:+ ":" +:+ int_str (v_matched item))%string.

Definition core_fill (row : OrderRow) (filled_qty : Z) (item : I)
    : result exn (list ReconcileAction) :=
  let delta := v_matched item - filled_qty in
  if 0 <? delta then
    match v_fill_price row item with
    | Err e => Err e
    | Ok None => Ok []
    | Ok (Some price) => Ok [AFill delta price (v_fill_id item) (or_quantity row)]
    end
  else Ok [].

Definition core_tail (row : OrderRow) (filled_qty : Z) (item : I)
    : result exn (list ReconcileAction) :=
  match core_fill row filled_qty item with
  | Err e => Err e
  | Ok fill =>
      Ok (fill ++ if v_matched item <? or_quantity row then core_terminal row item else [])
  end.

Definition core_plan (row : OrderRow) (filled_qty : Z) (item : option I)
    (now : Z) (amb : bool) : result exn (list ReconcileAction) :=
  let age := now - or_created_at row in
  match item with
  | None =>
      match or_status row with
      | OrderState.PENDING_NEW =>
          if amb then Ok []
          else if _ACK_LOST_TIMEOUT <? age then Ok [AReject "ack_lost_unmatched"] else Ok []
      | OrderState.PENDING_CANCEL =>
          if negb (v_absence_confirms row now) then Ok [] else Ok [ACancelConfirm]
      | _ => Ok []
      end
  | Some item =>
      match or_status row with
      | OrderState.PENDING_NEW =>
          match core_terminal row item with
          | (AReject _ :: _) as terminal => Ok terminal
          | _ =>
              match core_tail row filled_qty item with
              | Err e => Err e
              | Ok tail => Ok (AAck (v_order_no item) :: tail)
              end
          end
      | OrderState.PENDING_CANCEL =>
          if memb (v_state item) [VenueOrderState.CANCELLED; VenueOrderState.EXPIRED]
          then Ok [ACancelConfirm] else Ok []
      | _ => core_tail row filled_qty item
      end
  end.

(** The unique candidate, and whether there were several. *)
Definition core_match (row : OrderRow) (items : list I) (claimed : gset string) : option I * bool :=
  match List.filter (v_candidate row claimed) items with
  | [item] => (Some item, false)
  | candidates => (None, (1 <? length candidates)%nat)
  end.

Definition core_index_get (n : string) (items : list I) : option I :=
  List.find (fun i => String.eqb (v_order_no i) n) (rev items).

Definition core_direct (row : OrderRow) (items : list I) : option I :=
  match or_broker_order_id row with
  | Some b => if String.eqb b "" then None else core_index_get b items
  | None => None
  end.

Definition core_resolve (row : OrderRow) (items : list I) (claimed : gset string)
    (now : Z) (require_stuck : bool) : option I * bool * gset string :=
  match core_direct row items with
  | Some item => (Some item, false, claimed)
  | None =>
      if bool_decide (or_status row = OrderState.PENDING_NEW) &&
         ((_STUCK_PENDING <? now - or_created_at row) || negb require_stuck)
      then
        let '(item, amb) := core_match row items claimed in
        (item, amb, match item with Some i => {[v_order_no i]} ∪ claimed | None => claimed end)
      else (None, false, claimed)
  end.

Definition core_apply_row {R V} `{OrdersSchema} (row : OrderRow) (items : list I)
    (claimed : gset string) (now : Z) (require_stuck : bool)
    : M exn (world R V) (Z * gset string) :=
  let '(item, amb, claimed) := core_resolve row items claimed now require_stuck in
  let* res := fetch_order_result (or_client_order_id row) in
  let filled_qty := match res with Some r => rr_filled_qty r | None => 0 end in
  let* actions := lift_result (core_plan row filled_qty item now amb) in
  let* applied := run_actions (or_client_order_id row) actions in
  ret (applied, claimed).
End core.
