(* ===== verification/ReconcileCoreProps.v ===== *)
(** * ReconcileCoreProps: what any repair loop over [VenueRow] may and may not do

    The executor runs exactly what the planner plans, one look at a venue row
    settles the order, and the lost-ack matcher never guesses and never binds one
    venue order to two local ones within a pass. *)

From S2P Require Import Prelude Decimals Contracts StateMachine Events Store StoreInv StoreProps Config Adapters CancelAmend SimLifecycle Liberator Reconciler ReconcileCore.
From stdpp Require Import base gmap strings list relations.
From Stdlib Require Import ZArith Lia.
Import OrderState.
Open Scope Z_scope.

(** ** The loop follows the store's evolution *)

Section reconciler_respects.
Context {R V : Type} `{OrdersSchemaSpec}.
Abbreviation W := (world R V).
Abbreviation ev := (on_db (R := R) (V := V) evolves).

Lemma execute_respects c a : respects ev (_execute (R := R) (V := V) c a).
Proof. unfold _execute. destruct a; respects_tac. Qed.
Hint Resolve execute_respects : engine.

Lemma run_actions_respects c l : respects ev (run_actions (R := R) (V := V) c l).
Proof. unfold run_actions. respects_tac. Qed.
Hint Resolve run_actions_respects : engine.

Lemma core_apply_row_respects {I} {VR : VenueRow I} r items cl now st :
  respects ev (core_apply_row (R := R) (V := V) (I := I) r items cl now st).
Proof. unfold core_apply_row, fetch_order_result. respects_tac. Qed.
Hint Resolve core_apply_row_respects : engine.

End reconciler_respects.

#[export] Hint Resolve execute_respects run_actions_respects core_apply_row_respects : engine.

Lemma reconcile_cases s : s ∈ _RECONCILE_STATES ->
  s = PENDING_CANCEL \/ s = PENDING_NEW \/ s = NEW \/ s = PARTIALLY_FILLED.
Proof. destruct s; intros Hs; auto; exfalso; by apply memb_spec in Hs. Qed.

(** ** The plan executes *)

Section truth.
Context {I : Type} {VR : VenueRow I}.

(** Does the plan record the venue's matched delta as a fill? *)
Definition fill_taken (r : OrderRow) (filled : Z) (i : I) : bool :=
  (filled <? v_matched i) &&
  match v_fill_price r i with Ok (Some _) => true | _ => false end.

(** Where one look at the venue row [i] takes an order with [filled] recorded:
    its status and its filled quantity.  A cancel in flight is confirmed without
    recording what was matched meanwhile. *)
Definition look_outcome (r : OrderRow) (filled : Z) (i : I) : OrderState.t * Z :=
  match or_status r, v_state i with
  | PENDING_CANCEL, (VenueOrderState.CANCELLED | VenueOrderState.EXPIRED) => (CANCELLED, filled)
  | PENDING_CANCEL, _ => (PENDING_CANCEL, filled)
  | PENDING_NEW, VenueOrderState.REJECTED => (REJECTED, filled)
  | s, v =>
      let filled' := if fill_taken r filled i then v_matched i else filled in
      let s' := if fill_taken r filled i then fill_target (or_quantity r) filled'
                else if decide (s = PENDING_NEW) then NEW else s in
      (if v_matched i <? or_quantity r then
         match v with
         | VenueOrderState.RESTING => s'
         | VenueOrderState.EXPIRED => EXPIRED
         | _ => CANCELLED
         end
       else s', filled')
  end.

(** What the venue row says of an order it accepted. *)
Definition venue_says (r : OrderRow) (i : I) : OrderState.t * Z :=
  (if or_quantity r <=? v_matched i then FILLED
   else match v_state i with
        | VenueOrderState.RESTING => if 0 <? v_matched i then PARTIALLY_FILLED else NEW
        | VenueOrderState.EXPIRED => EXPIRED
        | _ => CANCELLED
        end, v_matched i).

(** The stored status is the one the recorded quantity stands for, an ack still
    missing apart. *)
Definition in_step (r : OrderRow) (filled : Z) : Prop :=
  filled < or_quantity r /\
  (or_status r = (if 0 <? filled then PARTIALLY_FILLED else NEW) \/ or_status r = PENDING_NEW /\ filled = 0).

(** The look takes an order to what the venue says, when no cancel is in flight,
    the venue did not refuse it, and there is a priced fill to record or nothing to. *)
Lemma look_says r filled i :
  or_status r = PENDING_NEW \/ or_status r = NEW \/ or_status r = PARTIALLY_FILLED ->
  (or_status r = PENDING_NEW -> v_state i <> VenueOrderState.REJECTED) -> 0 <= filled ->
  fill_taken r filled i = true \/ filled = v_matched i /\ in_step r filled ->
  look_outcome r filled i = venue_says r i.
Proof.
  intros Hst Hrej H0 Hcase.
  assert (E : look_outcome r filled i =
    let filled' := if fill_taken r filled i then v_matched i else filled in
    let s' := if fill_taken r filled i then fill_target (or_quantity r) filled'
              else if decide (or_status r = PENDING_NEW) then NEW else or_status r in
    (if v_matched i <? or_quantity r then
       match v_state i with
       | VenueOrderState.RESTING => s' | VenueOrderState.EXPIRED => EXPIRED | _ => CANCELLED
       end else s', filled')).
  { unfold look_outcome. destruct Hst as [Hs|[Hs|Hs]]; rewrite Hs; destruct (v_state i) eqn:Hv; try done.
    by destruct (Hrej Hs). }
  rewrite E. unfold venue_says. cbv zeta. destruct Hcase as [Ht|[Em [Hq Hin]]].
  - rewrite Ht. unfold fill_taken in Ht. apply andb_true_iff in Ht as [Hlt%Z.ltb_lt _]. unfold fill_target.
    destruct (Z.leb_spec (or_quantity r) (v_matched i)), (Z.ltb_spec (v_matched i) (or_quantity r)); try lia; [done|].
    rewrite (proj2 (Z.ltb_lt 0 _)) by lia. done.
  - unfold fill_taken. rewrite <- Em, Z.ltb_irrefl. cbn [andb].
    rewrite (proj2 (Z.ltb_lt filled _)), (proj2 (Z.leb_gt _ filled)) by lia.
    destruct Hin as [->|[-> ->]]; [|done]. by destruct (0 <? filled).
Qed.

(** Where the outcome [o] of a look stands to the venue.  With a cancel in flight
    the recorded quantity stays what it was, so a match that raced the cancel is
    not recorded.  Otherwise, for an order the venue did not refuse, when its
    matched total is above the recorded one and carries a price, or equals it and
    the stored status is in step with it, the outcome is what the venue says (the
    recorded total not being negative). *)
Definition true_to_venue (r : OrderRow) (filled : Z) (i : I) (o : OrderState.t * Z) : Prop :=
  (or_status r = PENDING_CANCEL -> o.2 = filled) /\
  (or_status r ≠ PENDING_CANCEL ->
   (or_status r = PENDING_NEW -> v_state i ≠ VenueOrderState.REJECTED) -> 0 <= filled ->
   fill_taken r filled i = true \/ filled = v_matched i /\ in_step r filled -> o = venue_says r i).

Lemma look_true r filled i : or_status r ∈ _RECONCILE_STATES ->
  true_to_venue r filled i (look_outcome r filled i).
Proof.
  intros Hst. split.
  - intros Hs. unfold look_outcome. rewrite Hs. by destruct (v_state i).
  - intros Hne. apply look_says. by destruct (reconcile_cases _ Hst).
Qed.

End truth.

Section executes.
Context {R V : Type} `{OrdersSchemaSpec}.
Abbreviation W := (world R V).

(** Order [c] is stored as [r] in a well-formed store. *)
Definition stored (c : string) (r : OrderRow) (w : W) : Prop :=
  db_wf (w_db w) /\ db_orders (w_db w) !! c = Some r.

(** [m] succeeds, leaving the order in state [st] with the same terms and
    [filled] filled, under handle [h]. *)
Definition leads {A} (c : string) (r : OrderRow) (m : M exn W A) (w : W) (a : A)
    (st : OrderState.t) (filled : Z) (h : option string) : Prop :=
  exists w' r', m w = (Ok a, w') /\ stored c r' w' /\ terms r' = terms r /\ or_status r' = st /\
    filled_qty c (w_db w') = filled /\ or_broker_order_id r' = h.

Lemma db_put_stored c now r r' d :
  db_orders (db_put now c r r' d) !! c = Some r' /\
  filled_qty c (db_put now c r r' d) = filled_qty c d.
Proof. simpl. by rewrite lookup_insert_eq. Qed.

Lemma leads_ack c b r w :
  stored c r w -> or_status r = PENDING_NEW ->
  leads c r (_execute c (AAck b)) w tt NEW (filled_qty c (w_db w)) (Some b).
Proof.
  intros [Hw Hr] Hs. pose proof (ack_order_ok c b w r Hw Hr Hs) as Hrun.
  eexists _, _. split; [exact Hrun|].
  split; [split|]; rewrite ?pub_db; simpl.
  - pose proof (ack_order_respects (R := R) (V := V) c b w Hw) as [Hw' _].
    rewrite Hrun in Hw'. simpl in Hw'. by rewrite pub_db in Hw'.
  - by rewrite lookup_insert_eq.
  - done.
Qed.

Lemma leads_status c st r w :
  stored c r w -> is_legal (or_status r) st = true ->
  leads c r (update_status c st) w tt st (filled_qty c (w_db w)) (or_broker_order_id r).
Proof.
  intros [Hw Hr] Hl. destruct (decide (or_status r = st)) as [<-|Hne].
  { exists w, r. rewrite (update_status_same c w r Hr). done. }
  pose proof (update_status_ok c st w r Hw Hr Hne Hl) as Hrun.
  eexists _, _. split; [exact Hrun|].
  split; [split|]; rewrite ?pub_db; simpl.
  - pose proof (update_status_respects (R := R) (V := V) c st w Hw) as [Hw' _].
    rewrite Hrun in Hw'. simpl in Hw'. by rewrite pub_db in Hw'.
  - by rewrite lookup_insert_eq.
  - done.
Qed.

Lemma leads_reason c m r w :
  stored c r w ->
  leads c r (set_reject_reason c m) w tt (or_status r) (filled_qty c (w_db w))
    (or_broker_order_id r).
Proof.
  intros [Hw Hr].
  assert (pool_update c (fun _ => true) (row_reason m) w =
    (Ok 1, set_db (db_put (w_now w) c r (row_touch (w_now w) (row_reason m r)) (w_db w)) w))
    as Hrun.
  { apply pool_update_hit; [done | done | simpl; unfold is_legal; by case_decide|].
    apply orders_check_progress. by eapply dw_check. }
  eexists _, _. split; [unfold set_reject_reason; by rewrite (bind_ok _ _ _ _ _ Hrun)|].
  split; [split|]; simpl.
  - pose proof (set_reject_reason_respects (R := R) (V := V) c m w Hw) as [Hw' _].
    unfold set_reject_reason in Hw'. by rewrite (bind_ok _ _ _ _ _ Hrun) in Hw'.
  - by rewrite lookup_insert_eq.
  - done.
Qed.

Lemma leads_fill c q p b tot r w :
  stored c r w -> fills_check (pg_numeric p) q = true -> fill_known c b (w_db w) = false ->
  let t := fill_target tot (filled_qty c (w_db w) + q) in
  is_legal (or_status r) t = true ->
  leads c r (_execute c (AFill q p b tot)) w tt t (filled_qty c (w_db w) + q)
    (or_broker_order_id r).
Proof.
  intros [Hw Hr] Hc Hk t Hl.
  pose proof (apply_fill_fresh c b p q (w_now w) tot w r Hw Hr Hc Hk) as Hrun.
  simpl in Hrun. fold t in Hrun. rewrite Hl in Hrun.
  pose proof (apply_fill_respects (R := R) (V := V) c b p q (w_now w) tot w Hw) as [Hw' _].
  rewrite Hrun in Hw'. simpl in Hw'. rewrite pub_db in Hw'. simpl in Hw'.
  assert (Hf : forall d, db_fills d = db_fills (w_db w) ++ [fill_row (w_db w) (w_now w) c b p q (w_now w)] ->
    filled_qty c d = filled_qty c (w_db w) + q).
  { intros d Hd. rewrite (filled_qty_same c (db_add_fill (fill_row (w_db w) (w_now w) c b p q (w_now w)) (w_db w)) d Hd).
    by rewrite filled_qty_add. }
  exists (apply_fill c b p q (w_now w) tot w).2.
  exists (if decide (or_status r = t) then r else row_touch (w_now w) (row_status t r)).
  split.
  { unfold _execute. rewrite (bind_ok (gets w_now) _ w (w_now w) w eq_refl).
    by rewrite (bind_ok _ _ _ _ _ Hrun), Hrun. }
  rewrite Hrun. unfold stored. simpl. rewrite pub_db. simpl.
  case_decide as Heq; simpl; (split; [split; [done|]|]).
  - done.
  - split; [done|]. split; [done|]. split; [by apply Hf | done].
  - by rewrite lookup_insert_eq.
  - split; [done|]. split; [done|]. split; [by apply Hf | done].
Qed.

Lemma leads_bind {A} c r (m : M exn W unit) (k : M exn W A) w st f h a st' f' h' :
  leads c r m w tt st f h ->
  (forall w' r', stored c r' w' -> terms r' = terms r -> or_status r' = st ->
     filled_qty c (w_db w') = f -> or_broker_order_id r' = h ->
     leads c r' k w' a st' f' h') ->
  leads c r (m ;;; k) w a st' f' h'.
Proof.
  intros (w1 & r1 & Hm & Hs1 & Ht1 & H1 & H2 & H3) Hk.
  destruct (Hk w1 r1 Hs1 Ht1 H1 H2 H3) as (w2 & r2 & Hm2 & Hs2 & Ht2 & ?).
  exists w2, r2. rewrite (bind_ok _ _ _ _ _ Hm). split; [done|]. split; [done|].
  split; [congruence | done].
Qed.
End executes.

Section plan_runs.
Context {R V : Type} `{OrdersSchemaSpec} {I : Type} {VR : VenueRow I}.
Abbreviation W := (world R V).

Definition run_step (c : string) (applied : Z) (action : ReconcileAction) : M exn W Z :=
  let* ok := catch (_execute c action ;;; ret true) (fun _ => ret false) in
  ret (if ok : bool then applied + 1 else applied).

Lemma leads_weaken {A} c r (m : M exn W A) w a a' st st' f f' h h' :
  leads c r m w a st f h -> a = a' -> st = st' -> f = f' -> h = h' -> leads c r m w a' st' f' h'.
Proof. intros ? <- <- <- <-. done. Qed.

Lemma runs_nil c r (w : W) n : stored c r w ->
  leads c r (fold_m [] n (run_step c)) w n (or_status r) (filled_qty c (w_db w))
    (or_broker_order_id r).
Proof. intros Hs. exists w, r. done. Qed.

Ltac runs_done :=
  eapply leads_weaken; [by apply runs_nil | simpl; lia | try done ..].

Lemma runs_cons_run c r a l n (w : W) st f h m st' f' h' :
  leads c r (_execute c a) w tt st f h ->
  (forall w' r', _execute c a w = (Ok tt, w') ->
     stored c r' w' -> terms r' = terms r -> or_status r' = st ->
     filled_qty c (w_db w') = f -> or_broker_order_id r' = h ->
     leads c r' (fold_m l (n + 1) (run_step c)) w' m st' f' h') ->
  leads c r (fold_m (a :: l) n (run_step c)) w m st' f' h'.
Proof.
  intros (w1 & r1 & Hm & Hs1 & Ht1 & H1 & H2 & H3) Hk.
  destruct (Hk w1 r1 Hm Hs1 Ht1 H1 H2 H3) as (w2 & r2 & Hm2 & Hs2 & Ht2 & ?).
  exists w2, r2. split; [|split; [done|]; split; [congruence | done]].
  simpl. unfold run_step at 1. rewrite bind_assoc.
  assert (catch (_execute c a ;;; ret true) (fun _ => ret false) w = (Ok true, w1)) as Hc.
  { apply catch_ok. by rewrite (bind_ok _ _ _ _ _ Hm). }
  rewrite (bind_ok _ _ _ _ _ Hc). exact Hm2.
Qed.

Lemma runs_cons c r a l n (w : W) st f h m st' f' h' :
  leads c r (_execute c a) w tt st f h ->
  (forall w' r', stored c r' w' -> terms r' = terms r -> or_status r' = st ->
     filled_qty c (w_db w') = f -> or_broker_order_id r' = h ->
     leads c r' (fold_m l (n + 1) (run_step c)) w' m st' f' h') ->
  leads c r (fold_m (a :: l) n (run_step c)) w m st' f' h'.
Proof. intros Hm Hk. eapply runs_cons_run; [done|]. intros w' r' _. apply Hk. Qed.

(** A venue terminal on a resting order. *)
Lemma runs_terminal c r i n (w : W) :
  stored c r w -> or_status r = NEW \/ or_status r = PARTIALLY_FILLED ->
  forall r0, (or_status r0 = PENDING_NEW -> v_state i ≠ VenueOrderState.REJECTED) ->
  let st := match v_state i with
            | VenueOrderState.RESTING => or_status r
            | VenueOrderState.EXPIRED => EXPIRED
            | _ => CANCELLED
            end in
  leads c r (fold_m (core_terminal r0 i) n (run_step c)) w
    (n + Z.of_nat (length (core_terminal r0 i))) st (filled_qty c (w_db w))
    (or_broker_order_id r).
Proof.
  intros Hs Hst r0 Hn0. unfold core_terminal.
  assert (forall st', st' = PENDING_CANCEL \/ st' = EXPIRED -> is_legal (or_status r) st' = true)
    as Hl by (intros ? [->| ->]; destruct Hst as [->| ->]; reflexivity).
  assert (Htwo : forall (w1 : W) r1, stored c r1 w1 -> is_legal (or_status r1) PENDING_CANCEL = true ->
    leads c r1 (update_status c PENDING_CANCEL ;;; update_status c CANCELLED) w1 tt CANCELLED
      (filled_qty c (w_db w1)) (or_broker_order_id r1)).
  { intros w1 r1 Hs1 Hl1. eapply leads_bind; [by apply leads_status|].
    intros w2 r2 Hs2 _ H2 <- <-. apply leads_status; [done|]. by rewrite H2. }
  destruct (v_state i) eqn:Hv; cbn -[fold_m Z.add].
  - runs_done.
  - eapply runs_cons; [apply Htwo; auto|]. intros w1 r1 Hs1 _ <- <- <-. runs_done.
  - case_decide as Hd; [exfalso; by apply Hn0|].
    eapply (runs_cons _ _ _ _ _ _ CANCELLED (filled_qty c (w_db w)) (or_broker_order_id r)).
    + simpl. eapply leads_bind; [by apply leads_reason|].
      intros w1 r1 Hs1 _ H1 <- <-. apply Htwo; [done|]. rewrite H1. auto.
    + intros w1 r1 Hs1 _ <- <- <-. runs_done.
  - eapply runs_cons; [apply leads_status; auto|].
    intros w1 r1 Hs1 _ <- <- <-. runs_done.
Qed.

(** The tail of the plan on a resting order. *)
Lemma runs_tail c r0 r i acts n (w : W) :
  stored c r w -> or_status r = NEW \/ or_status r = PARTIALLY_FILLED ->
  (or_status r0 = PENDING_NEW -> v_state i ≠ VenueOrderState.REJECTED) ->
  let filled := filled_qty c (w_db w) in
  (forall p, v_fill_price r0 i = Ok (Some p) -> filled < v_matched i ->
     fills_check (pg_numeric p) (v_matched i - filled) = true /\
     fill_known c (v_fill_id i) (w_db w) = false) ->
  core_tail r0 filled i = Ok acts ->
  let filled' := if fill_taken r0 filled i then v_matched i else filled in
  let s' := if fill_taken r0 filled i then fill_target (or_quantity r0) filled' else or_status r in
  leads c r (fold_m acts n (run_step c)) w (n + Z.of_nat (length acts))
    (if v_matched i <? or_quantity r0 then
       match v_state i with
       | VenueOrderState.RESTING => s'
       | VenueOrderState.EXPIRED => EXPIRED
       | _ => CANCELLED
       end
     else s') filled' (or_broker_order_id r).
Proof.
  intros Hs Hst Hn0 filled Hfc Hplan filled' s'.
  unfold core_tail, core_fill in Hplan. subst filled' s'. unfold fill_taken.
  assert (Hterm : forall (w1 : W) r1 n, stored c r1 w1 ->
    or_status r1 = NEW \/ or_status r1 = PARTIALLY_FILLED ->
    leads c r1 (fold_m (if v_matched i <? or_quantity r0 then core_terminal r0 i else [])
      n (run_step c)) w1
      (n + Z.of_nat (length (if v_matched i <? or_quantity r0 then core_terminal r0 i else [])))
      (if v_matched i <? or_quantity r0 then
       match v_state i with
       | VenueOrderState.RESTING => or_status r1
       | VenueOrderState.EXPIRED => EXPIRED
       | _ => CANCELLED
       end else or_status r1) (filled_qty c (w_db w1)) (or_broker_order_id r1)).
  { intros w1 r1 n1 Hs1 Hst1. destruct (v_matched i <? or_quantity r0).
    - by apply runs_terminal.
    - runs_done. }
  destruct (Z.ltb_spec 0 (v_matched i - filled)) as [Hd|Hd].
  2: { simplify_eq/=. destruct (Z.ltb_spec filled (v_matched i)); [lia|]. simpl. auto. }
  destruct (Z.ltb_spec filled (v_matched i)); [|lia].
  destruct (v_fill_price r0 i) as [[p|]|] eqn:Hp; simplify_eq; [|by auto].
  set (t := fill_target (or_quantity r0) (v_matched i)).
  eapply runs_cons.
  { destruct (Hfc p eq_refl ltac:(done)) as [Hck Hk]. apply leads_fill; [done..|].
    fold filled. replace (filled + (v_matched i - filled)) with (v_matched i) by lia.
    unfold fill_target. destruct (_ <=? _), Hst as [->| ->]; reflexivity. }
  fold filled. replace (filled + (v_matched i - filled)) with (v_matched i) by lia. fold t.
  intros w1 r1 Hs1 _ E1 E2 E3.
  destruct (Z.ltb_spec (v_matched i) (or_quantity r0)) as [Hq|Hq].
  - specialize (Hterm w1 r1 (n + 1) Hs1).
    assert (or_status r1 = PARTIALLY_FILLED) as Hpf.
    { rewrite E1. unfold t, fill_target. by rewrite (proj2 (Z.leb_gt _ _)). }
    eapply leads_weaken; [by apply Hterm; right | cbn [app length]; lia | by rewrite E1 | done | done].
  - runs_done.
Qed.

Lemma core_tail_ok r filled i : (forall e, v_fill_price r i ≠ Err e) ->
  exists acts, core_tail r filled i = Ok acts.
Proof.
  intros He. unfold core_tail, core_fill. destruct (0 <? _); [|by eexists].
  destruct (v_fill_price r i) as [[p|]|e] eqn:Hp; [by eexists.. | by destruct (He e)].
Qed.

Lemma plan_ok r filled i now amb : (forall e, v_fill_price r i ≠ Err e) ->
  exists acts, core_plan r filled (Some i) now amb = Ok acts.
Proof.
  intros He. destruct (core_tail_ok r filled i He) as [acts Ha]. unfold core_plan.
  destruct (or_status r); rewrite ?Ha; eauto; [|case_match; eauto].
  destruct (core_terminal r i) as [|[] ?]; eauto.
Qed.

Lemma acked_leads c r i tl (w : W) :
  stored c r w -> or_status r = PENDING_NEW ->
  v_state i ≠ VenueOrderState.REJECTED ->
  let filled := filled_qty c (w_db w) in
  (forall p, v_fill_price r i = Ok (Some p) -> filled < v_matched i ->
     fills_check (pg_numeric p) (v_matched i - filled) = true /\
     fill_known c (v_fill_id i) (w_db w) = false) ->
  core_tail r filled i = Ok tl ->
  leads c r (fold_m (AAck (v_order_no i) :: tl) 0 (run_step c)) w
    (0 + Z.of_nat (length (AAck (v_order_no i) :: tl)))
    (look_outcome r filled i).1 (look_outcome r filled i).2 (Some (v_order_no i)).
Proof.
  intros Hs Hn Hc filled Hfc Htl.
  eapply runs_cons_run; [by apply leads_ack|]. intros w1 r1 Hrun Hs1 Ht1 E1 E2 E3.
  assert (db_fills (w_db w1) = db_fills (w_db w)) as Hfs.
  { destruct Hs as [Hw Hr]. cbn [_execute] in Hrun.
    rewrite (ack_order_ok c _ w r Hw Hr Hn) in Hrun. simplify_eq. by rewrite pub_db. }
  rewrite <- E3. unfold look_outcome. rewrite Hn.
  eapply leads_weaken; [apply (runs_tail c r r1 i tl); auto | cbn [length]; lia | ..].
  - rewrite E2. unfold fill_known. rewrite Hfs. auto.
  - by rewrite E2.
  - rewrite E1, E2. fold filled. by destruct (v_state i).
  - rewrite E2. fold filled. by destruct (v_state i).
  - done.
Qed.

(** The plan for a venue row, executed on the row it was made for. *)
Lemma plan_leads c r i acts now amb (w : W) :
  stored c r w -> or_status r ∈ _RECONCILE_STATES ->
  let filled := filled_qty c (w_db w) in
  (forall p, v_fill_price r i = Ok (Some p) -> filled < v_matched i ->
     fills_check (pg_numeric p) (v_matched i - filled) = true /\
     fill_known c (v_fill_id i) (w_db w) = false) ->
  core_plan r filled (Some i) now amb = Ok acts ->
  leads c r (run_actions c acts) w (Z.of_nat (length acts)) (look_outcome r filled i).1
    (look_outcome r filled i).2
    (if decide (or_status r = PENDING_NEW /\ v_state i ≠ VenueOrderState.REJECTED)
     then Some (v_order_no i) else or_broker_order_id r).
Proof.
  intros Hs Hst filled Hfc Hplan. change (Z.of_nat (length acts)) with (0 + Z.of_nat (length acts)).
  change (run_actions c acts) with (fold_m acts 0 (run_step c)).
  pose proof (reconcile_cases _ Hst) as Hcases.
  unfold core_plan in Hplan.
  destruct Hcases as [Hn|[Hn|Hn]]; swap 1 2.
  - rewrite Hn in Hplan.
    destruct (decide (v_state i = VenueOrderState.REJECTED)) as [Hc|Hc].
    + rewrite decide_False by (intros [_ Hx]; by apply Hx). unfold look_outcome. rewrite Hn.
      unfold core_terminal in Hplan.
      rewrite Hc in Hplan |- *. rewrite decide_True in Hplan by done. simplify_eq.
      eapply (runs_cons _ _ _ _ _ _ REJECTED filled (or_broker_order_id r)).
      { simpl. eapply leads_bind; [apply leads_status; [done | by rewrite Hn]|].
        intros w1 r1 Hs1 _ E1 E2 E3. eapply leads_weaken; [by apply leads_reason|..]; eauto. }
      intros w1 r1 Hs1 _ <- <- <-. runs_done.
    + rewrite decide_True by done.
      assert (exists tl, core_tail r filled i = Ok tl /\ acts = AAck (v_order_no i) :: tl)
        as (tl & Htl & ->).
      { unfold core_terminal in Hplan.
        destruct (core_tail r filled i) as [tl|e];
          destruct (v_state i); by simplify_eq; eauto. }
      by apply acked_leads.
  - rewrite decide_False by (rewrite Hn; by intros [? _]). unfold look_outcome. rewrite Hn in Hplan |- *.
    destruct (v_state i) eqn:Hc; vm_compute in Hplan; simplify_eq; cbn -[fold_m Z.add].
    + eapply leads_weaken; [by apply runs_nil | done..].
    + eapply runs_cons; [apply leads_status; [done | by rewrite Hn]|].
      intros w1 r1 Hs1 _ <- E2 <-. runs_done.
    + eapply leads_weaken; [by apply runs_nil | done..].
    + eapply runs_cons; [apply leads_status; [done | by rewrite Hn]|].
      intros w1 r1 Hs1 _ <- E2 <-. runs_done.
  - assert (core_tail r filled i = Ok acts) as Htl by (destruct Hn as [Hn|Hn]; by rewrite Hn in Hplan).
    rewrite decide_False by (intros [Hp _]; destruct Hn; congruence). unfold look_outcome.
    eapply leads_weaken; [apply (runs_tail c r); auto; destruct Hn; congruence | done | | | done];
    destruct Hn as [Hn|Hn]; rewrite Hn; by destruct (v_state i).
Qed.
End plan_runs.

Section converges.
Context {I : Type} {VR : VenueRow I}.

(** An order the venue's truth leaves working rests at the venue, unless it is
    fully matched at a price that cannot be derived. *)
Lemma look_outcome_open r filled i :
  or_status r = PENDING_NEW \/ or_status r = NEW \/ or_status r = PARTIALLY_FILLED ->
  is_terminal (look_outcome r filled i).1 = false ->
  ((look_outcome r filled i).1 = NEW \/ (look_outcome r filled i).1 = PARTIALLY_FILLED) /\
  (v_matched i < or_quantity r -> v_state i = VenueOrderState.RESTING) /\
  (look_outcome r filled i).2 = (if fill_taken r filled i then v_matched i else filled).
Proof.
  unfold look_outcome.
  destruct (Z.ltb_spec (v_matched i) (or_quantity r)) as [Hq|Hq];
    destruct (v_state i); intros [Hs|[Hs|Hs]]; rewrite Hs; simpl;
    intros Hterm; try discriminate Hterm; (split; [|split; [lia || done | done]]);
    destruct (fill_taken r filled i); simpl in *; auto;
    unfold fill_target in *; destruct (_ <=? _); auto; discriminate Hterm.
Qed.

(** Looking again at the same venue row plans nothing more. *)
Lemma plan_converged r r' i filled :
  or_status r ∈ _RECONCILE_STATES -> terms r' = terms r -> (forall e, v_fill_price r i ≠ Err e) ->
  or_status r' = (look_outcome r filled i).1 ->
  is_terminal (or_status r') = true \/
  forall now amb, core_plan r' (look_outcome r filled i).2 (Some i) now amb = Ok [].
Proof.
  intros Hst Ht He Hr'.
  destruct (is_terminal (or_status r')) eqn:Hterm; [by left | right]. intros now amb.
  assert (Hq : or_quantity r' = or_quantity r) by (unfold terms in Ht; congruence).
  destruct (reconcile_cases _ Hst) as [Hs|Hs].
  { unfold core_plan. rewrite Hr' in Hterm |- *. unfold look_outcome in *. rewrite Hs in Hterm |- *.
    by destruct (v_state i). }
  rewrite Hr' in Hterm. destruct (look_outcome_open _ _ _ Hs Hterm) as (Hopen & Hrest & ->).
  assert (Htail : core_tail r' (if fill_taken r filled i then v_matched i else filled) i = Ok []).
  { unfold core_tail, core_fill, fill_taken. rewrite (v_fill_price_terms _ _ i Ht), Hq.
    assert ((if v_matched i <? or_quantity r then core_terminal r' i else []) = []) as ->.
    { destruct (Z.ltb_spec (v_matched i) (or_quantity r)) as [Hlt|]; [|done].
      unfold core_terminal. by rewrite (Hrest Hlt). }
    destruct (Z.ltb_spec filled (v_matched i)), (v_fill_price r i) as [[p|]|e] eqn:Hp;
      simpl; rewrite ?Z.sub_diag; simpl; try done; try (by destruct (He e));
      destruct (Z.ltb_spec 0 (v_matched i - filled)); try done; lia. }
  unfold core_plan. rewrite Hr'. by destruct Hopen as [-> | ->].
Qed.

End converges.

Section settles.
Context {R V : Type} `{OrdersSchemaSpec} {I : Type} {VR : VenueRow I}.
Abbreviation W := (world R V).

Lemma core_settles c r items claimed now stuck i amb claimed' (w : W) :
  db_wf (w_db w) -> db_orders (w_db w) !! c = Some r -> or_status r ∈ _RECONCILE_STATES ->
  core_resolve r items claimed now stuck = (Some i, amb, claimed') ->
  let filled := filled_qty c (w_db w) in
  (forall e, v_fill_price r i ≠ Err e) ->
  (forall p, v_fill_price r i = Ok (Some p) -> filled < v_matched i ->
     fills_check (pg_numeric p) (v_matched i - filled) = true /\
     fill_known c (v_fill_id i) (w_db w) = false) ->
  exists acts w' r', core_plan r filled (Some i) now amb = Ok acts /\
    core_apply_row r items claimed now stuck w = (Ok (Z.of_nat (length acts), claimed'), w') /\
    db_orders (w_db w') !! c = Some r' /\
    (or_status r', filled_qty c (w_db w')) = look_outcome r filled i /\
    true_to_venue r filled i (or_status r', filled_qty c (w_db w')) /\
    (or_status r = PENDING_NEW -> or_status r' ≠ REJECTED ->
       or_broker_order_id r' = Some (v_order_no i)) /\
    (is_terminal (or_status r') = true \/ forall now' amb',
       core_plan r' (filled_qty c (w_db w')) (Some i) now' amb' = Ok []).
Proof.
  intros Hw Hr Hst Hres filled He Hfc.
  assert (Hc : or_client_order_id r = c) by (by eapply dw_key).
  destruct (plan_ok r filled i now amb He) as [acts Hplan].
  destruct (plan_leads c r i acts now amb w (conj Hw Hr) Hst Hfc Hplan)
    as (w' & r' & Hrun & [Hw' Hr'] & Ht & Hs' & Hf' & Hh).
  fold filled in Hs', Hf', Hh. exists acts, w', r'. split; [done|]. split.
  { unfold core_apply_row. rewrite Hres, Hc.
    rewrite (bind_ok (fetch_order_result c) _ w (order_result c (w_db w)) w eq_refl).
    unfold order_result. rewrite Hr. cbn [rr_filled_qty]. fold filled.
    rewrite Hplan, (bind_ok (lift_result (Ok acts)) _ w acts w) by done.
    by rewrite (bind_ok _ _ _ _ _ Hrun). }
  assert (Ho : (or_status r', filled_qty c (w_db w')) = look_outcome r filled i)
    by (rewrite Hs', Hf'; by destruct (look_outcome r filled i)).
  split; [done|]. split; [done|]. split; [rewrite Ho; by apply look_true|]. split.
  - intros Hn Hrej. rewrite Hh. case_decide as Hd; [done|]. exfalso. apply Hd.
    split; [done|]. intros Hcl. apply Hrej. rewrite Hs'. unfold look_outcome. by rewrite Hn, Hcl.
  - rewrite Hf'. by apply plan_converged.
Qed.
End settles.

(** ** The fate of a lost ack *)

Section lost_ack.
Context {R V : Type} `{OrdersSchemaSpec} {I : Type} {VR : VenueRow I}.
Abbreviation W := (world R V).

(** An order the pass resolved no venue row for, in terms of its plan. *)
Lemma apply_row_unresolved c r items claimed now stuck amb claimed' acts (w : W) :
  stored c r w -> core_resolve r items claimed now stuck = (None, amb, claimed') ->
  (forall f, core_plan r f None now amb = Ok acts) ->
  core_apply_row r items claimed now stuck w =
    (let* n := run_actions c acts in ret (n, claimed')) w.
Proof.
  intros [Hw Hr] Hres Hplan. assert (or_client_order_id r = c) as Hc by (by eapply dw_key).
  unfold core_apply_row. rewrite Hres, Hc.
  rewrite (bind_ok (fetch_order_result c) _ w (order_result c (w_db w)) w eq_refl).
  rewrite Hplan. by rewrite (bind_ok (lift_result (Ok acts)) _ w acts w) by done.
Qed.

(** What the pass resolves for an order that has no handle. *)
Lemma resolve_lost r (items : list I) claimed now stuck :
  or_status r = PENDING_NEW -> or_broker_order_id r = None ->
  core_resolve r items claimed now stuck =
    if (_STUCK_PENDING <? now - or_created_at r) || negb stuck then
      (core_match r items claimed,
       match (core_match r items claimed).1 with
       | Some i => {[v_order_no i]} ∪ claimed | None => claimed end)
    else (None, false, claimed).
Proof.
  intros Hn Hh. unfold core_resolve, core_direct. rewrite Hh, Hn. simpl.
  destruct (_ || _); [|done]. by destruct (core_match r items claimed).
Qed.

(** Nothing is done while the match is ambiguous or the timeout is not over. *)
Lemma lost_idle c r items claimed now stuck amb (w : W) :
  stored c r w -> or_status r = PENDING_NEW ->
  core_resolve r items claimed now stuck = (None, amb, claimed) ->
  amb = true \/ now - or_created_at r <= _ACK_LOST_TIMEOUT ->
  core_apply_row r items claimed now stuck w = (Ok (0, claimed), w).
Proof.
  intros Hs Hn Hamb Hor. rewrite (apply_row_unresolved c r _ _ _ _ _ _ [] w Hs Hamb); [done|].
  intros f. unfold core_plan. rewrite Hn. destruct amb; [done|].
  destruct (Z.ltb_spec _ACK_LOST_TIMEOUT (now - or_created_at r)); [|done].
  destruct Hor; [done | lia].
Qed.

Lemma lost_rejects c r items claimed now stuck (w : W) :
  stored c r w -> or_status r = PENDING_NEW ->
  core_resolve r items claimed now stuck = (None, false, claimed) ->
  _ACK_LOST_TIMEOUT < now - or_created_at r ->
  exists w' r', core_apply_row r items claimed now stuck w = (Ok (1, claimed), w') /\
    db_orders (w_db w') !! c = Some r' /\ or_status r' = REJECTED /\
    or_reject_reason r' = Some "ack_lost_unmatched"%string /\
    db_fills (w_db w') = db_fills (w_db w).
Proof.
  intros [Hw Hr] Hn Hres Hage.
  rewrite (apply_row_unresolved c r _ _ _ _ _ _ [AReject "ack_lost_unmatched"] w (conj Hw Hr) Hres).
  2: { intros f. unfold core_plan. rewrite Hn.
       by destruct (Z.ltb_spec _ACK_LOST_TIMEOUT (now - or_created_at r)); [|lia]. }
  destruct (update_status_row c REJECTED w r Hw Hr)
    as (w1 & r1 & Hu & Hw1 & Hr1 & Hs1 & _ & _ & _ & _ & Hf1 & _); [by rewrite Hn|].
  destruct (set_reject_reason_row c "ack_lost_unmatched" w1 r1 Hw1 Hr1)
    as (w2 & r2 & Hu2 & Hr2 & Hs2 & _ & Hm2 & Hf2).
  assert (_execute c (AReject "ack_lost_unmatched") w = (Ok tt, w2)) as Hx
    by (unfold _execute; rewrite (bind_ok _ _ _ _ _ Hu); exact Hu2).
  exists w2, r2. split.
  - unfold run_actions, fold_m, bind, catch, ret. by rewrite Hx.
  - rewrite Hs2, Hf2. auto.
Qed.

Lemma core_lost_ack r items claimed now stuck (w : W) :
  let c := or_client_order_id r in
  db_wf (w_db w) -> db_orders (w_db w) !! c = Some r -> or_status r = PENDING_NEW ->
  match List.filter (v_candidate r claimed) items with
  | [] =>
      if _ACK_LOST_TIMEOUT <? now - or_created_at r
      then exists w' r', core_apply_row r items claimed now stuck w = (Ok (1, claimed), w') /\
             db_orders (w_db w') !! c = Some r' /\ or_status r' = REJECTED /\
             or_reject_reason r' = Some "ack_lost_unmatched"%string /\
             db_fills (w_db w') = db_fills (w_db w)
      else core_apply_row r items claimed now stuck w = (Ok (0, claimed), w)
  | [i] =>
      if stuck && (now - or_created_at r <=? _STUCK_PENDING)
      then core_apply_row r items claimed now stuck w = (Ok (0, claimed), w)
      else core_resolve r items claimed now stuck
             = (Some i, false, {[v_order_no i]} ∪ claimed)
  | _ => core_apply_row r items claimed now stuck w = (Ok (0, claimed), w)
  end.
Proof.
  intros c Hw Hr Hn. pose proof (conj Hw Hr : stored c r w) as Hs.
  assert (Hh : or_broker_order_id r = None)
    by (apply (dw_handle _ _ Hw c r Hr); by rewrite Hn).
  pose proof (resolve_lost r items claimed now stuck Hn Hh) as Hres.
  unfold core_match in Hres.
  destruct (List.filter (v_candidate r claimed) items) as [|i [|i2 l]]; simpl in Hres.
  - assert (core_resolve r items claimed now stuck = (None, false, claimed)) as Hres'
      by (rewrite Hres; by destruct (_ || _)).
    destruct (Z.ltb_spec _ACK_LOST_TIMEOUT (now - or_created_at r)) as [Hage|Hage].
    + by apply lost_rejects.
    + apply (lost_idle c _ _ _ _ _ false); auto.
  - destruct stuck; simpl in *; [|by rewrite orb_true_r in Hres].
    destruct (Z.leb_spec (now - or_created_at r) _STUCK_PENDING),
      (Z.ltb_spec _STUCK_PENDING (now - or_created_at r)); try lia; [|done].
    apply (lost_idle c _ _ _ _ _ false); auto. right. unfold _STUCK_PENDING, _ACK_LOST_TIMEOUT in *. lia.
  - destruct (_ || _) eqn:Hb; [by apply (lost_idle c _ _ _ _ _ true); auto|].
    apply orb_false_iff in Hb as [Hb%Z.ltb_ge _]. apply (lost_idle c _ _ _ _ _ false); auto.
    right. unfold _STUCK_PENDING, _ACK_LOST_TIMEOUT in *. lia.
Qed.
End lost_ack.

(** ** One venue order, one local order *)

(** The statements run for order [c] touch no other order, and change its handle
    only to one in [B]. *)
Definition touches (c : string) (B : string -> Prop) (d d' : db) : Prop :=
  (forall c', c' ≠ c -> db_orders d' !! c' = db_orders d !! c') /\
  forall b, or_broker_order_id <$> (db_orders d' !! c) = Some (Some b) ->
    or_broker_order_id <$> (db_orders d !! c) = Some (Some b) \/ B b.

#[export] Instance touches_preorder c B : PreOrder (touches c B).
Proof.
  split.
  - intros d. split; auto.
  - intros d1 d2 d3 [H1 H2] [H3 H4]. split.
    + intros c' Hc. by rewrite H3, H1.
    + intros b Hb. destruct (H4 b Hb); auto.
Qed.

Section claims.
Context {R V : Type} `{OrdersSchema} {I : Type} {VR : VenueRow I}.
Abbreviation W := (world R V).
Abbreviation tch c B := (on_db (R := R) (V := V) (touches c B)).

Lemma pool_update_touches c B cond f :
  (forall r b, or_broker_order_id (f r) = Some b -> or_broker_order_id r = Some b \/ B b) ->
  respects (tch c B) (pool_update c cond f).
Proof.
  intros Hf w. unfold pool_update, sql_update, on_db.
  destruct (db_orders (w_db w) !! c) as [r|] eqn:Hr; [|simpl; reflexivity].
  destruct (cond r); [|simpl; reflexivity]. destruct (_ && _); [|simpl; reflexivity].
  simpl. split; simpl.
  - intros c' Hc. by rewrite lookup_insert_ne.
  - intros b. rewrite lookup_insert_eq, Hr. simpl. intros [= Hb]. destruct (Hf r b Hb); auto.
    left. by f_equal.
Qed.

Lemma hub_publish_touches c B x st a b p q f :
  respects (tch c B) (hub_publish (R := R) (V := V) x st a b p q f).
Proof. intros w. unfold hub_publish, modify, on_db. simpl. destruct (w_hub w); reflexivity. Qed.

Lemma status_touches c B st : respects (tch c B) (update_status (R := R) (V := V) c st).
Proof.
  unfold update_status, fetch_order. pose proof (hub_publish_touches c B) as Hp.
  respects_tac. apply pool_update_touches. auto.
Qed.

Lemma reason_touches c B m : respects (tch c B) (set_reject_reason (R := R) (V := V) c m).
Proof. unfold set_reject_reason. respects_tac. apply pool_update_touches. auto. Qed.

Lemma ack_touches c (B : string -> Prop) b :
  B b -> respects (tch c B) (ack_order (R := R) (V := V) c b).
Proof.
  intros HB. unfold ack_order. pose proof (hub_publish_touches c B) as Hp. respects_tac.
  apply pool_update_touches. intros r b' [= <-]. auto.
Qed.

Lemma fill_touches c B i p q ts tot : respects (tch c B) (apply_fill (R := R) (V := V) c i p q ts tot).
Proof.
  unfold apply_fill. pose proof (hub_publish_touches c B) as Hp. respects_tac.
  assert (respects (tch c B) (apply_fill_tx (R := R) (V := V) c i p q ts tot)) as Htx.
  { unfold apply_fill_tx. respects_tac.
    - intros w. unfold sql_insert_fill, on_db. repeat case_match; simplify_eq/=;
        split; simpl; auto.
    - apply pool_update_touches. auto.
    - apply pool_update_touches. auto. }
  intros w. specialize (Htx w). unfold transaction.
  destruct (apply_fill_tx c i p q ts tot w) as [[a|e] w']; [done|]. unfold on_db. simpl. reflexivity.
Qed.

Lemma execute_touches c (B : string -> Prop) a :
  (forall b, a = AAck b -> B b) -> respects (tch c B) (_execute (R := R) (V := V) c a).
Proof.
  intros HB. pose proof (status_touches c B) as H1. pose proof (reason_touches c B) as H2.
  pose proof (fill_touches c B) as H3.
  destruct a; simpl; respects_tac. apply ack_touches. by apply HB.
Qed.

(** Only the resolved venue row's number is ever written as a handle. *)
Lemma plan_acks r f item now amb acts b :
  core_plan r f item now amb = Ok acts -> AAck b ∈ acts ->
  exists i, item = Some i /\ b = v_order_no i /\ or_status r = PENDING_NEW.
Proof.
  assert (Hterm : forall r i, AAck b ∉ core_terminal r i).
  { intros r0 i. unfold core_terminal. repeat case_match; set_solver. }
  assert (Htail : forall r f i acts, core_tail r f i = Ok acts -> AAck b ∉ acts).
  { intros r0 f0 i acts0. unfold core_tail, core_fill. specialize (Hterm r0 i).
    repeat case_match; intros; simplify_eq; set_solver. }
  unfold core_plan. intros Hplan Hin. destruct item as [i|].
  - exists i. split; [done|]. specialize (Htail r f i). specialize (Hterm r i).
    destruct (or_status r); try (by destruct (Htail acts Hplan Hin)).
    + split; [|done]. destruct (core_tail r f i) as [tl|]; repeat case_match; simplify_eq; set_solver.
    + exfalso. case_match; simplify_eq; set_solver.
  - exfalso. repeat case_match; simplify_eq; set_solver.
Qed.

Lemma core_resolve_handle r items cl now stuck i amb cl' :
  core_resolve r items cl now stuck = (Some i, amb, cl') ->
  (or_broker_order_id r = Some (v_order_no i) /\ cl' = cl) \/
  (v_order_no i ∉ cl /\ cl' = {[v_order_no i]} ∪ cl).
Proof.
  unfold core_resolve. destruct (core_direct r items) as [j|] eqn:Hj.
  - intros [= -> _ <-]. left. split; [|done]. unfold core_direct in Hj.
    destruct (or_broker_order_id r) as [b|]; [|done]. destruct (String.eqb b "") eqn:He; [done|].
    unfold core_index_get in Hj. apply find_some in Hj as [_ Hj]. apply String.eqb_eq in Hj. by subst.
  - destruct (_ && _); [|done]. unfold core_match.
    destruct (List.filter (v_candidate r cl) items) as [|j [|]] eqn:Hf; [done| |done].
    intros [= -> _ <-]. right. split; [|done]. apply (v_candidate_unclaimed r).
    assert (In i (List.filter (v_candidate r cl) items)) as Hin by (rewrite Hf; by left).
    by apply filter_In in Hin as [_ Hc].
Qed.

Lemma core_resolve_claims r items cl now stuck item amb cl' :
  core_resolve r items cl now stuck = (item, amb, cl') -> cl ⊆ cl'.
Proof.
  unfold core_resolve. destruct (core_direct r items); [by intros [= _ _ <-]|].
  destruct (_ && _); [|by intros [= _ _ <-]].
  destruct (core_match r items cl) as [[i|] a]; intros [= _ _ <-]; set_solver.
Qed.

(** One row of a pass. *)
Lemma apply_row_touches r items cl now stuck item amb cl' (w w' : W) x :
  core_resolve r items cl now stuck = (item, amb, cl') ->
  core_apply_row r items cl now stuck w = (x, w') ->
  touches (or_client_order_id r) (fun b => exists i, item = Some i /\ b = v_order_no i)
    (w_db w) (w_db w') /\
  (forall n cl2, x = Ok (n, cl2) -> cl2 = cl').
Proof.
  intros Hres. unfold core_apply_row. rewrite Hres. intros Hrun.
  set (B := fun b => exists i, item = Some i /\ b = v_order_no i).
  assert (Hra : forall acts, (forall b, AAck b ∈ acts -> B b) ->
    respects (tch (or_client_order_id r) B) (run_actions (or_client_order_id r) acts)).
  { intros acts. unfold run_actions. generalize 0.
    induction acts as [|a acts IH]; intros n HB; [apply respects_ret; apply _|].
    simpl. apply respects_bind; [apply _ | | intros n'; apply IH; set_solver].
    apply respects_bind; [apply _ | | intros ?; apply respects_ret; apply _].
    apply respects_catch; [apply _ | | intros ?; apply respects_ret; apply _].
    apply respects_bind; [apply _ | apply execute_touches; set_solver |
      intros ?; apply respects_ret; apply _]. }
  rewrite (bind_ok (fetch_order_result _) _ w (order_result (or_client_order_id r) (w_db w)) w eq_refl)
    in Hrun.
  set (f := match order_result _ _ with Some r => _ | None => _ end) in Hrun.
  destruct (core_plan r f item now amb) as [acts|e] eqn:Hplan.
  2: { unfold bind, lift_result in Hrun. simplify_eq. split; [reflexivity | done]. }
  rewrite (bind_ok (lift_result (Ok acts)) _ w acts w eq_refl) in Hrun.
  specialize (Hra acts). 
  assert (HB : forall b, AAck b ∈ acts -> B b).
  { intros b Hb. destruct (plan_acks _ _ _ _ _ _ _ Hplan Hb) as (i & ? & ? & _). by exists i. }
  specialize (Hra HB w). unfold bind in Hrun.
  destruct (run_actions (or_client_order_id r) acts w) as [[n|e] w1]; unfold ret in Hrun;
    simplify_eq; (split; [exact Hra | intros; by simplify_eq]).
Qed.

Definition handle_of (c : string) (d : db) : option string :=
  db_orders d !! c ≫= or_broker_order_id.

(** No two of the rows hold one venue handle. *)
Definition handles_distinct (rows : list OrderRow) (d : db) : Prop :=
  forall r1 r2 b, r1 ∈ rows -> r2 ∈ rows ->
    handle_of (or_client_order_id r1) d = Some b ->
    handle_of (or_client_order_id r2) d = Some b ->
    or_client_order_id r1 = or_client_order_id r2.

(** The stored rows of these orders are the same in both databases. *)
Definition same_rows (rows : list OrderRow) (d d' : db) : Prop :=
  forall r, r ∈ rows -> db_orders d' !! or_client_order_id r = db_orders d !! or_client_order_id r.

#[export] Instance same_rows_preorder rows : PreOrder (same_rows rows).
Proof. split; [by intros d r|]. intros d1 d2 d3 H1 H2 r Hr. by rewrite H2, H1. Qed.

Lemma same_rows_distinct rows d d' : same_rows rows d d' -> handles_distinct rows d -> handles_distinct rows d'.
Proof.
  intros Hs Hd r1 r2 b H1 H2. unfold handle_of. rewrite !Hs by done. by apply Hd.
Qed.

Lemma handle_of_fmap c d b :
  handle_of c d = Some b <-> or_broker_order_id <$> (db_orders d !! c) = Some (Some b).
Proof. unfold handle_of. destruct (db_orders d !! c); simpl; split; congruence. Qed.

Record pass_inv (rows todo : list OrderRow) (cl : gset string) (d : db) : Prop := {
  pi_claimed : forall r b, r ∈ rows -> handle_of (or_client_order_id r) d = Some b -> b ∈ cl;
  pi_distinct : handles_distinct rows d;
  pi_current : forall r, r ∈ todo -> db_orders d !! or_client_order_id r = Some r;
  pi_nodup : List.NoDup (map or_client_order_id todo);
  pi_todo : todo ⊆ rows;
}.

Lemma pass_step rows r todo items cl now stuck (w w' : W) x :
  pass_inv rows (r :: todo) cl (w_db w) ->
  core_apply_row r items cl now stuck w = (x, w') ->
  handles_distinct rows (w_db w') /\
  forall n cl', x = Ok (n, cl') -> pass_inv rows todo cl' (w_db w').
Proof.
  intros [Hcl Hdis Hcur Hnd Htodo] Hrun.
  destruct (core_resolve r items cl now stuck) as [[item amb] cl'] eqn:Hres.
  destruct (apply_row_touches _ _ _ _ _ _ _ _ _ _ _ Hres Hrun) as [[Hloc Hh] Hx].
  pose proof (core_resolve_claims _ _ _ _ _ _ _ _ Hres) as Hsub.
  assert (Hr : r ∈ rows) by set_solver.
  assert (Hother : forall c, c ≠ or_client_order_id r -> handle_of c (w_db w') = handle_of c (w_db w)).
  { intros c Hc. unfold handle_of. by rewrite Hloc. }
(* the handle of the row just processed: the old one, or a fresh claim *)
  assert (Hnew : forall b, handle_of (or_client_order_id r) (w_db w') = Some b ->
    handle_of (or_client_order_id r) (w_db w) = Some b \/ (b ∉ cl /\ b ∈ cl')).
  { intros b Hb. apply handle_of_fmap in Hb. destruct (Hh b Hb) as [Ho|(i & -> & ->)].
    - left. by apply handle_of_fmap.
    - destruct (core_resolve_handle _ _ _ _ _ _ _ _ Hres) as [[Ho _]|[Hni ->]].
      + left. unfold handle_of. rewrite (Hcur r) by set_solver. simpl. done.
      + right. set_solver. }
  assert (Hdis' : handles_distinct rows (w_db w')).
  { intros r1 r2 b H1 H2 Hb1 Hb2.
    destruct (decide (or_client_order_id r1 = or_client_order_id r)) as [E1|E1],
      (decide (or_client_order_id r2 = or_client_order_id r)) as [E2|E2]; try congruence.
    - rewrite E1 in Hb1. rewrite Hother in Hb2 by done. rewrite E1.
      destruct (Hnew b Hb1) as [Ho|[Hni _]]; [by apply (Hdis r r2 b)|].
      by destruct Hni; apply (Hcl r2).
    - rewrite E2 in Hb2. rewrite Hother in Hb1 by done. rewrite E2.
      destruct (Hnew b Hb2) as [Ho|[Hni _]]; [by apply (Hdis r1 r b)|].
      by destruct Hni; apply (Hcl r1).
    - rewrite Hother in Hb1, Hb2 by done. by apply (Hdis r1 r2 b). }
  split; [done|]. intros n cl2 Hok. rewrite (Hx n cl2 Hok). apply List.NoDup_cons_iff in Hnd as [Hni Hnd].
  split; [|done| |done|set_solver].
  - intros r1 b H1 Hb. destruct (decide (or_client_order_id r1 = or_client_order_id r)) as [E1|E1].
    + rewrite E1 in Hb. destruct (Hnew b Hb) as [Ho|[_ ?]]; [|done]. apply Hsub, (Hcl r); done.
    + rewrite Hother in Hb by done. apply Hsub. by apply (Hcl r1).
  - intros r1 H1. rewrite Hloc; [apply Hcur; set_solver|]. intros E. apply Hni. rewrite <- E.
    apply in_map. by apply list_elem_of_In.
Qed.

(** The pass over an account's working set. *)
Definition core_step (items : list I) (now : Z) (acc : Z * gset string) (row : OrderRow)
    : M exn W (Z * gset string) :=
  let* (n, claimed) := core_apply_row row items acc.2 now true in ret (acc.1 + n, claimed).

(** Also when the pass is cut short after a prefix of the working set. *)
Lemma core_pass_binds_once items now applied rows todo (w : W) :
  todo `prefix_of` rows ->
  (forall r, r ∈ rows -> db_orders (w_db w) !! or_client_order_id r = Some r) ->
  List.NoDup (map or_client_order_id rows) ->
  handles_distinct rows (w_db w) ->
  handles_distinct rows (w_db (fold_m todo (applied, claimed_of rows) (core_step items now) w).2).
Proof.
  intros [rest ->] Hcur Hnd Hdis. set (rows := todo ++ rest) in *.
  assert (Hinv : pass_inv rows todo (claimed_of rows) (w_db w)).
  { unfold rows in *. rewrite map_app in Hnd. apply List.NoDup_app_remove_r in Hnd.
    split; [|done|set_solver|done|set_solver]. intros r b Hr Hb. unfold handle_of in Hb.
    rewrite (Hcur r Hr) in Hb. simpl in Hb. unfold claimed_of.
    apply elem_of_list_to_set, list_elem_of_omap. by exists r. }
  assert (Hfold : forall l acc (w : W), pass_inv rows l acc.2 (w_db w) ->
    handles_distinct rows (w_db (fold_m l acc (core_step items now) w).2)).
  { induction l as [|r l IH]; intros [n cl] w' Hi; [apply Hi|]. simpl fold_m. unfold bind.
    unfold core_step at 1. unfold bind. simpl in *.
    destruct (core_apply_row r items cl now true w') as [x w''] eqn:Hrow.
    destruct (pass_step _ _ _ _ _ _ _ _ _ _ Hi Hrow) as [Hd Hn].
    destruct x as [[k cl']|e]; [|done]. simpl. apply IH. by apply (Hn k). }
  exact (Hfold todo (applied, claimed_of rows) w Hinv).
Qed.
End claims.
