(* ===== verification/ReconcilerProps.v ===== *)
(** * ReconcilerProps: the Liberator loop is the reference loop

    Liberator's rows implement [VenueRow]; its planner, matcher and row step equal
    the reference ones, so what ReconcileCoreProps proves holds of the code. *)

From S2P Require Import Prelude Decimals Contracts StateMachine Events Store StoreInv StoreProps Config Adapters PyTime CancelAmend SimLifecycle Liberator Reconciler ReconcileCore ReconcileCoreProps.
From stdpp Require Import base gmap strings list relations.
From Stdlib Require Import ZArith Lia.
Import OrderState.
Open Scope Z_scope.

(** ** The instance *)

Definition lib_reject_reason (item : VenueOrderItem) : string :=
  py_strip ("liberator reject " +:+
    str_or (vi_reject_code item) (str_or (vi_status_show item) (vi_status item)))%string.

Definition lib_candidate (row : OrderRow) (claimed : gset string) (item : VenueOrderItem) : bool :=
  holds (is_candidate row claimed item).

Lemma lib_candidate_unclaimed r cl i : lib_candidate r cl i = true -> vi_order_no i ∉ cl.
Proof. unfold lib_candidate, is_candidate. by case_bool_decide. Qed.

Lemma lib_fill_price_terms r r' i : terms r' = terms r -> fill_price_for r' i = fill_price_for r i.
Proof. unfold terms, fill_price_for. intros [= ? Hp Hs ? ?]. by rewrite Hp, Hs. Qed.

#[export] Instance liberator_row : VenueRow VenueOrderItem := {|
  v_order_no := vi_order_no;
  v_matched := vi_matched;
  v_state := classify_venue_state;
  v_reject_reason := lib_reject_reason;
  v_fill_price := fill_price_for;
  v_candidate := lib_candidate;
  v_absence_confirms := absence_is_informative;
  v_candidate_unclaimed := lib_candidate_unclaimed;
  v_fill_price_terms := lib_fill_price_terms;
|}.

(** ** The code equals the reference *)

Lemma plan_actions_core row filled item now amb :
  plan_actions row filled item now amb = core_plan row filled item now amb.
Proof. reflexivity. Qed.

Lemma candidates_core row claimed items l :
  candidates_of row claimed items = Ok l -> l = List.filter (lib_candidate row claimed) items.
Proof. apply filter_r_ok. Qed.

(** The matcher raises only on a naive time, and then [TypeError]; and it does
    raise when a row that is not claimed and agrees on everything else has one. *)
Lemma candidate_raises row claimed item e : is_candidate row claimed item = Err e <->
  e = OtherError "TypeError" /\ vi_order_no item ∉ claimed /\
  vi_symbol item = or_symbol row /\ vi_volume item = or_quantity row /\
  from_venue_side (vi_side item) = Some (or_side row) /\ prices_differ item row = false /\
  exists t, vi_entry_time item = Some (Naive t).
Proof.
  unfold is_candidate. split.
  - case_bool_decide; [done|]. destruct (_ || _) eqn:Hf; [done|]. apply orb_false_iff in Hf as [Hs Hv].
    apply negb_false_iff in Hs, Hv. apply String.eqb_eq in Hs. apply Z.eqb_eq in Hv.
    case_bool_decide; [|done]. cbn [negb]. destruct (prices_differ item row); [done|].
    destruct (vi_entry_time item) as [[u o|w]|]; [done| |done]. intros [= <-]. eauto 10.
  - intros (-> & Hc & -> & -> & -> & -> & t & ->). rewrite bool_decide_false by done.
    rewrite String.eqb_refl, Z.eqb_refl, bool_decide_true by done. done.
Qed.

Lemma candidates_raise row claimed items e :
  candidates_of row claimed items = Err e <-> exists item, item ∈ items /\ is_candidate row claimed item = Err e.
Proof.
  split.
  - intros (x & Hx & H)%filter_r_err. exists x. by rewrite list_elem_of_In.
  - intros (x & Hx%list_elem_of_In & H). apply candidate_raises in H as Ht.
    apply (filter_r_raises _ _ x); [|done..]. intros y.
    destruct (is_candidate row claimed y) as [b|e'] eqn:Hy; [eauto|left].
    apply candidate_raises in Hy as [-> _]. by destruct Ht as [-> _].
Qed.

Lemma fuzzy_match_core row items claimed outcome :
  fuzzy_match row items claimed = Ok outcome ->
  (mo_item outcome, ambiguous outcome) = core_match row items claimed.
Proof.
  unfold fuzzy_match, core_match, ambiguous. change (v_candidate row claimed) with (lib_candidate row claimed).
  destruct (candidates_of row claimed items) as [l|] eqn:Hl; simpl; [|done].
  apply candidates_core in Hl as ->. intros [= <-].
  by destruct (List.filter (lib_candidate row claimed) items) as [|i [|j l]].
Qed.

Lemma resolve_item_core row items claimed now stuck x :
  resolve_item row items claimed now stuck = Ok x -> x = core_resolve row items claimed now stuck.
Proof.
  unfold resolve_item, core_resolve, core_direct.
  set (direct := match or_broker_order_id row with Some b => _ | None => _ end).
  destruct direct as [i|]; [by intros [= <-]|]. simpl. destruct (_ && _); [|by intros [= <-]].
  destruct (fuzzy_match row items claimed) as [outcome|] eqn:Hm; simpl; [|done].
  intros [= <-]. by rewrite <- (fuzzy_match_core _ _ _ _ Hm).
Qed.

Lemma apply_row_ok {R V} `{OrdersSchema} row items claimed now stuck x (w : world R V) :
  resolve_item row items claimed now stuck = Ok x ->
  _apply_row row items claimed now stuck w = core_apply_row row items claimed now stuck w.
Proof.
  intros Hres. unfold _apply_row, core_apply_row. rewrite <- (resolve_item_core _ _ _ _ _ _ Hres), Hres.
  by destruct x as [[item amb] claimed'].
Qed.

(** A row step either raises in the matcher, leaving everything alone, or is the
    reference step. *)
Lemma apply_row_core {R V} `{OrdersSchema} row items claimed now stuck (w : world R V) :
  (exists e, resolve_item row items claimed now stuck = Err e /\
     _apply_row row items claimed now stuck w = (Err e, w)) \/
  _apply_row row items claimed now stuck w = core_apply_row row items claimed now stuck w.
Proof.
  destruct (resolve_item row items claimed now stuck) as [x|e] eqn:Hres.
  - right. by apply (apply_row_ok _ _ _ _ _ x).
  - left. exists e. split; [done|]. unfold _apply_row, bind, lift_result. by rewrite Hres.
Qed.

Lemma resolve_item_lost row items claimed now stuck :
  or_status row = PENDING_NEW -> or_broker_order_id row = None ->
  resolve_item row items claimed now stuck =
    if stuck && (now - or_created_at row <=? _STUCK_PENDING) then Ok (None, false, claimed)
    else result_bind (fuzzy_match row items claimed) (fun outcome =>
           Ok (mo_item outcome, ambiguous outcome,
               match mo_item outcome with Some i => {[vi_order_no i]} ∪ claimed | None => claimed end)).
Proof.
  intros Hn Hh. unfold resolve_item. rewrite Hh, !bool_decide_true by done. simpl.
  rewrite Z.leb_antisym. by destruct stuck, (_ <? _).
Qed.

(** ** The loop follows the store's evolution *)

Section reconciler_respects.
Context {R V : Type} `{OrdersSchemaSpec}.
Abbreviation W := (world R V).
Abbreviation ev := (on_db (R := R) (V := V) evolves).

Lemma apply_row_respects r items cl now st :
  respects ev (_apply_row (R := R) (V := V) r items cl now st).
Proof.
  intros w. destruct (apply_row_core r items cl now st w) as [(e & _ & ->)| ->];
    [apply (respects_raise ev) | apply core_apply_row_respects].
Qed.
Hint Resolve apply_row_respects : engine.

Context (fetch : string -> M exn W (list VenueOrderItem)).
Hypothesis fetch_ok : forall a, respects ev (fetch a).

Lemma reconcile_once_respects : respects ev (reconcile_once fetch).
Proof.
  unfold reconcile_once, fetch_orders_for_reconcile, reconcile_account. respects_tac.
Qed.

Lemma resolve_order_now_respects c : respects ev (resolve_order_now fetch c).
Proof. unfold resolve_order_now, fetch_order, fetch_orders_for_reconcile. respects_tac. Qed.
End reconciler_respects.

#[export] Hint Resolve apply_row_respects : engine.

(** ** What the loop promises *)

Section promises.
Context {R V : Type} `{OrdersSchemaSpec}.
Abbreviation W := (world R V).

(** C6: one look at the venue settles a working order whose venue row was resolved.
    Every planned action succeeds, and the stored status and filled quantity
    become [look_outcome]: outside a cancel in flight that is what the venue row
    says, and with one in flight the recorded quantity stays as it was.  What the
    venue says ([venue_says], not read off the planner) is FILLED at a full match,
    else the venue's own state, with the matched total as the filled quantity; it
    is reached when the matched total is above the recorded one and priced, or
    equal to it with the stored status in step ([true_to_venue]).  A match that
    raced a cancel in flight is not recorded by the look that confirms the cancel.
    A lost ack is bound to the venue's order number, and looking again at the same
    row plans nothing unless the order is terminal.  Assumed: the store is well
    formed, working the fill's price out does not raise, and, only when there is a
    fill to record, the database accepts it and holds no fill of the order under
    that cumulative id. *)
Theorem reconcile_row_settles c r items claimed now stuck i amb claimed' (w : W) :
  db_wf (w_db w) -> db_orders (w_db w) !! c = Some r -> or_status r ∈ _RECONCILE_STATES ->
  resolve_item r items claimed now stuck = Ok (Some i, amb, claimed') ->
  let filled := filled_qty c (w_db w) in
  (forall e, fill_price_for r i ≠ Err e) ->
  (forall p, fill_price_for r i = Ok (Some p) -> filled < vi_matched i ->
     fills_check (pg_numeric p) (vi_matched i - filled) = true /\
     fill_known c (fill_id_for i) (w_db w) = false) ->
  exists acts w' r', plan_actions r filled (Some i) now amb = Ok acts /\
    _apply_row r items claimed now stuck w = (Ok (Z.of_nat (length acts), claimed'), w') /\
    db_orders (w_db w') !! c = Some r' /\
    (or_status r', filled_qty c (w_db w')) = look_outcome r filled i /\
    true_to_venue r filled i (or_status r', filled_qty c (w_db w')) /\
    (or_status r = PENDING_NEW -> or_status r' ≠ REJECTED ->
       or_broker_order_id r' = Some (vi_order_no i)) /\
    (is_terminal (or_status r') = true \/ forall now' amb',
       plan_actions r' (filled_qty c (w_db w')) (Some i) now' amb' = Ok []).
Proof.
  intros Hw Hr Hst Hok filled He Hfc. pose proof (eq_sym (resolve_item_core _ _ _ _ _ _ Hok)) as Hres.
  destruct (core_settles c r items claimed now stuck i amb claimed' w Hw Hr Hst Hres He Hfc)
    as (acts & w' & r' & Hp & Ha & Hrest).
  exists acts, w', r'. rewrite (apply_row_ok _ _ _ _ _ _ w Hok). split; [exact Hp|]. split; [exact Ha | exact Hrest].
Qed.

(** C7: the fate of a lost ack, on every branch.  A PENDING_NEW order with no
    handle is compared with the venue rows that resemble it.  None, past 60 s:
    it is REJECTED as "ack_lost_unmatched"; none, earlier: nothing happens.
    Several: nothing happens to the store, however old the order is, so
    ambiguity alone never produces a terminal state.  Exactly one: that row is
    the match, and it is claimed, unless the order is at most 5 s old in the
    steady loop, which leaves it alone.  When comparing the rows raises, which
    takes an unclaimed row whose time has no offset, the exception reaches the
    caller and nothing was changed, under the same age limit.  Nothing is ever
    re-sent: the pass has no access to the placing side at all. *)
Theorem lost_ack_fate r items claimed now stuck (w : W) :
  let c := or_client_order_id r in
  db_wf (w_db w) -> db_orders (w_db w) !! c = Some r -> or_status r = PENDING_NEW ->
  match candidates_of r claimed items with
  | Err e =>
      (exists i t, i ∈ items /\ vi_order_no i ∉ claimed /\ vi_entry_time i = Some (Naive t)) /\
      _apply_row r items claimed now stuck w =
        if stuck && (now - or_created_at r <=? _STUCK_PENDING) then (Ok (0, claimed), w) else (Err e, w)
  | Ok [] =>
      if _ACK_LOST_TIMEOUT <? now - or_created_at r
      then exists w' r', _apply_row r items claimed now stuck w = (Ok (1, claimed), w') /\
             db_orders (w_db w') !! c = Some r' /\ or_status r' = REJECTED /\
             or_reject_reason r' = Some "ack_lost_unmatched"%string /\
             db_fills (w_db w') = db_fills (w_db w)
      else _apply_row r items claimed now stuck w = (Ok (0, claimed), w)
  | Ok [i] =>
      if stuck && (now - or_created_at r <=? _STUCK_PENDING)
      then _apply_row r items claimed now stuck w = (Ok (0, claimed), w)
      else resolve_item r items claimed now stuck
             = Ok (Some i, false, {[vi_order_no i]} ∪ claimed)
  | Ok _ => _apply_row r items claimed now stuck w = (Ok (0, claimed), w)
  end.
Proof.
  intros c Hw Hr Hn.
  assert (Hh : or_broker_order_id r = None) by (apply (dw_handle _ _ Hw c r Hr); by rewrite Hn).
  pose proof (resolve_item_lost r items claimed now stuck Hn Hh) as Hres.
  unfold fuzzy_match in Hres.
  destruct (candidates_of r claimed items) as [l|e] eqn:Hl; simpl in Hres.
  - pose proof (core_lost_ack r items claimed now stuck w Hw Hr Hn) as Hcore.
    change (v_candidate r claimed) with (lib_candidate r claimed) in Hcore.
    rewrite <- (candidates_core _ _ _ _ Hl) in Hcore.
    assert (exists x, resolve_item r items claimed now stuck = Ok x) as [x Hok]
      by (rewrite Hres; destruct (stuck && _); eauto).
    rewrite (apply_row_ok _ _ _ _ _ x w Hok), Hok, (resolve_item_core _ _ _ _ _ _ Hok).
    destruct l as [|i [|j l]]; [done| |done]. destruct (stuck && _); [done|]. by f_equal.
  - split.
    { apply candidates_raise in Hl as (i & Hi & H'). apply candidate_raises in H'
        as (_ & Hc & _ & _ & _ & _ & t & Ht). eauto. }
    destruct (stuck && _) eqn:Hb.
    + rewrite (apply_row_ok _ _ _ _ _ _ w Hres).
      apply andb_true_iff in Hb as [-> Hb%Z.leb_le]. apply (lost_idle c _ _ _ _ _ false); [done..| |].
      * by rewrite <- (resolve_item_core _ _ _ _ _ _ Hres).
      * right. unfold _STUCK_PENDING, _ACK_LOST_TIMEOUT in *. lia.
    + unfold _apply_row, bind, lift_result. by rewrite Hres.
Qed.

Context (fetch : string -> M exn W (list VenueOrderItem)).

(** C8: within an account's working set, a pass never binds one venue order to two
    orders, provided the stored rows of the working set do not change while the
    venue is being read.  The working set is the account's non-terminal orders as
    the pass read them, with pairwise distinct handles; after the pass over one
    venue snapshot they have pairwise distinct handles again, whether the pass
    finished or was cut short by an exception.  Orders outside the working set are
    not covered: a terminal order's handle is not claimed
    ([terminal_handle_claimed_twice]).  Nor is an order acknowledged while the
    venue answers ([stale_claims_bind_twice]). *)
Theorem pass_binds_once now applied account rows (w : W) :
  respects (on_db (same_rows rows)) (fetch account) ->
  (forall r, r ∈ rows -> db_orders (w_db w) !! or_client_order_id r = Some r) ->
  List.NoDup (map or_client_order_id rows) ->
  handles_distinct rows (w_db w) ->
  handles_distinct rows (w_db (reconcile_account fetch now applied (account, rows) w).2).
Proof.
  intros Hf Hcur Hnd Hdis. unfold reconcile_account. set (m := catch _ _).
  assert (respects (on_db (same_rows rows)) m) as Hm by (unfold m; respects_tac).
  specialize (Hm w). unfold bind. destruct (m w) as [[[items|]|e] w1]; unfold on_db in Hm; simpl in *;
    try (by apply (same_rows_distinct rows _ _ Hm)).
  apply (same_rows_distinct rows _ _ Hm) in Hdis.
  assert (Hcur1 : forall r, r ∈ rows -> db_orders (w_db w1) !! or_client_order_id r = Some r)
    by (intros r Hr; rewrite (Hm r Hr); auto).
  set (step := fun (acc : Z * gset string) row => _).
  destruct (fold_m_prefix step (core_step items now) rows (applied, claimed_of rows) w1)
    as (todo & Hpre & Heq).
  { intros [n cl] row w'. unfold step, core_step, bind. simpl.
    destruct (apply_row_core row items cl now true w') as [(e & _ & ->)| ->]; eauto. }
  pose proof (core_pass_binds_once items now applied rows todo w1 Hpre Hcur1 Hnd Hdis) as Hpass.
  rewrite <- Heq in Hpass.
  by destruct (fold_m rows (applied, claimed_of rows) step w1) as [[[]|] ?].
Qed.
End promises.
