(* ===== verification/ReconcilerExamples.v ===== *)
(** * ReconcilerExamples: the reconciler's theorems on concrete books, and three
    behaviours of the loop worth knowing about *)

From S2P Require Import Prelude Decimals Contracts StateMachine Events Store StoreInv StoreProps Config Adapters PyTime CancelAmend SimLifecycle Liberator Reconciler ReconcileCore ReconcileCoreProps ReconcilerProps.
From stdpp Require Import base gmap strings list relations.
From Stdlib Require Import ZArith Lia.
Import OrderState.
Open Scope Z_scope.

Definition lib_order (cid : string) : NormalizedOrder :=
  {| no_client_order_id := cid; no_broker := LIBERATOR;
     no_account := "acct"; no_market := SET_; no_symbol := "AOT"; no_side := BUY;
     no_order_type := LIMIT; no_price := Some (Dec 605 (-1)); no_stop_price := None;
     no_quantity := 100; no_display_qty := None; no_tif := DAY; no_position_effect := None;
     no_metadata := [] |}.

(** A venue row that resembles [lib_order]. *)
Definition venue_row_at (t : PyDatetime) (n : string) (matched balance cancelled : Z) (show : string)
    : VenueOrderItem :=
  {| vi_order_no := n; vi_account_no := "acct"; vi_symbol := "AOT"; vi_side := "B";
     vi_position := None; vi_price_type := "LIMIT"; vi_iceberg_vol := 0; vi_volume := 100;
     vi_price := Some (Dec 605 (-1)); vi_matched := matched; vi_balance := balance;
     vi_cancelled := cancelled; vi_amount := None; vi_status := ""; vi_status_show := show;
     vi_reject_code := ""; vi_can_cancel := true; vi_validity_type := "DAY";
     vi_stop_price := None; vi_stop_symbol := None; vi_entry_time := Some t; vi_trade_time := None |}.
Definition venue_row := venue_row_at (utc 2000).

Definition at_time (t : Z) (w : world unit unit) : world unit unit := set_now t w.

(** One order inserted at time 1000, its ack lost; and a second such order. *)
Definition lost_one : world unit unit := (insert_order (lib_order "c1") None ex_world).2.
Definition lost_two : world unit unit := (insert_order (lib_order "c2") None lost_one).2.

Lemma lost_one_wf : db_wf (w_db lost_one).
Proof. apply (insert_order_respects (lib_order "c1") None ex_world), db_wf_empty. Qed.
Lemma lost_two_wf : db_wf (w_db lost_two).
Proof. apply (insert_order_respects (lib_order "c2") None lost_one), lost_one_wf. Qed.

Definition row_c1 : OrderRow := new_row 1000 (lib_order "c1") None.
Definition row_c2 : OrderRow := new_row 1000 (lib_order "c2") None.
Definition minute : Z := 60000000.
Definition day : Z := 86400000000.

Lemma lost_two_rows :
  db_orders (w_db lost_two) !! "c1"%string = Some row_c1 /\
  db_orders (w_db lost_two) !! "c2"%string = Some row_c2.
Proof. split; vm_compute; reflexivity. Qed.

(** ** Witnesses *)

(** A lost ack found partly matched, and the same order cancelled by the venue at
    the quantity already recorded. *)
Definition partly : world unit unit :=
  (_apply_row row_c1 [venue_row "V1" 40 60 0 "M"] ∅ minute true lost_one).2.
Definition row_partly : OrderRow :=
  match db_orders (w_db partly) !! "c1"%string with Some r => r | None => row_c1 end.

Lemma partly_wf : db_wf (w_db partly).
Proof. apply (apply_row_respects row_c1 [venue_row "V1" 40 60 0 "M"] ∅ minute true lost_one), lost_one_wf. Qed.

Lemma reconcile_row_settles_witness :
  (exists w' r', _apply_row row_c1 [venue_row "V1" 40 60 0 "M"] ∅ minute true lost_one
      = (Ok (2, {[ "V1"%string ]}), w') /\
    db_orders (w_db w') !! "c1"%string = Some r' /\
    (or_status r', filled_qty "c1" (w_db w')) = (PARTIALLY_FILLED, 40)) /\
  exists w' r', _apply_row row_partly [venue_row "V1" 40 0 60 "C"] ∅ minute true partly = (Ok (1, ∅), w') /\
    db_orders (w_db w') !! "c1"%string = Some r' /\
    (or_status r', filled_qty "c1" (w_db w')) = (CANCELLED, 40).
Proof.
  split.
  - destruct (reconcile_row_settles "c1" row_c1 [venue_row "V1" 40 60 0 "M"] ∅ minute true
      (venue_row "V1" 40 60 0 "M") false ({[ "V1"%string ]} ∪ ∅) lost_one)
      as (acts & w' & r' & Hp & Ha & Hr & _ & [_ Hv] & _).
    + exact lost_one_wf.
    + vm_compute. reflexivity.
    + apply memb_spec. vm_compute. reflexivity.
    + vm_compute. reflexivity.
    + intros e E. vm_compute in E. discriminate E.
    + intros p _ _. split; vm_compute; reflexivity.
    + exists w', r'. vm_compute in Hp. injection Hp as <-. split; [exact Ha|]. split; [exact Hr|].
      rewrite Hv; [vm_compute; reflexivity | done | done | vm_compute; done | left; vm_compute; reflexivity].
  - destruct (reconcile_row_settles "c1" row_partly [venue_row "V1" 40 0 60 "C"] ∅ minute true
      (venue_row "V1" 40 0 60 "C") false ∅ partly)
      as (acts & w' & r' & Hp & Ha & Hr & _ & [_ Hv] & _).
    + exact partly_wf.
    + vm_compute. reflexivity.
    + apply memb_spec. vm_compute. reflexivity.
    + vm_compute. reflexivity.
    + intros e E. vm_compute in E. discriminate E.
    + intros p _ Hlt. vm_compute in Hlt. discriminate Hlt.
    + exists w', r'. vm_compute in Hp. injection Hp as <-. split; [exact Ha|]. split; [exact Hr|].
      rewrite Hv; [vm_compute; reflexivity | by vm_compute | by vm_compute | by vm_compute |].
      right. split; [vm_compute; reflexivity|]. split; [by vm_compute|]. left. vm_compute. reflexivity.
Defined.

Lemma lost_ack_fate_witness :
  (exists w' r', _apply_row row_c1 [] ∅ (2 * minute) true lost_one = (Ok (1, ∅), w') /\
    db_orders (w_db w') !! "c1"%string = Some r' /\ or_status r' = REJECTED) /\
  _apply_row row_c1 [venue_row "V1" 0 100 0 "O"; venue_row "V2" 0 100 0 "O"] ∅ (2 * minute) true
    lost_one = (Ok (0, ∅), lost_one) /\
  _apply_row row_c1 [venue_row_at (Naive 2000) "V1" 0 100 0 "O"] ∅ (2 * minute) true lost_one
    = (Err (OtherError "TypeError"), lost_one).
Proof.
  split; [|split].
  - destruct (lost_ack_fate row_c1 [] ∅ (2 * minute) true lost_one lost_one_wf eq_refl eq_refl)
      as (w' & r' & Ha & Hr & Hs & _).
    exists w', r'. auto.
  - exact (lost_ack_fate row_c1 [venue_row "V1" 0 100 0 "O"; venue_row "V2" 0 100 0 "O"] ∅
      (2 * minute) true lost_one lost_one_wf eq_refl eq_refl).
  - exact (proj2 (lost_ack_fate row_c1 [venue_row_at (Naive 2000) "V1" 0 100 0 "O"] ∅
      (2 * minute) true lost_one lost_one_wf eq_refl eq_refl)).
Defined.

Definition ex_fetch (items : list VenueOrderItem) (_ : string) : M exn (world unit unit) (list VenueOrderItem) :=
  ret items.

(** Two lost acks and one venue order: only the first is bound. *)
Lemma pass_binds_once_witness :
  handles_distinct [row_c1; row_c2] (w_db (reconcile_account (ex_fetch [venue_row "V1" 0 100 0 "O"])
    minute 0 ("acct"%string, [row_c1; row_c2]) lost_two).2).
Proof.
  apply (pass_binds_once (ex_fetch [venue_row "V1" 0 100 0 "O"]) minute 0 "acct" [row_c1; row_c2] lost_two).
  - apply (respects_ret _).
  - intros r Hr. apply list_elem_of_In in Hr. destruct lost_two_rows as [H1 H2].
    destruct Hr as [<-|[<-|[]]]; [exact H1 | exact H2].
  - repeat constructor; simpl; intuition discriminate.
  - intros r1 r2 b Hr1 _ Hb. exfalso. apply list_elem_of_In in Hr1. destruct lost_two_rows as [H1 H2].
    destruct Hr1 as [<-|[<-|[]]]; unfold handle_of in Hb; simpl or_client_order_id in Hb;
      [rewrite H1 in Hb | rewrite H2 in Hb]; discriminate Hb.
Defined.

(** ** Three behaviours of the loop *)

(** an ambiguous lost ack is rejected once the venue's day rolls over.  The
    same order that two candidates kept PENDING_NEW is written off as REJECTED
    by the first pass of the next venue day, whose current-day book is empty by
    construction: the PENDING_NEW branch does not ask whether absence is
    informative, and here it is not. *)
Theorem ambiguous_rejected_next_day :
  let ambiguous_book := [venue_row "V1" 0 100 0 "O"; venue_row "V2" 0 100 0 "O"] in
  let w1 := (reconcile_once (ex_fetch ambiguous_book) (at_time (2 * minute) lost_one)).2 in
  let w2 := (reconcile_once (ex_fetch []) (at_time day w1)).2 in
  in_state "c1" PENDING_NEW (w_db w1) /\ in_state "c1" REJECTED (w_db w2) /\
  absence_is_informative row_c1 day = false.
Proof. vm_compute. repeat split; reflexivity. Qed.

(** Order c1 was acknowledged as V1 and filled; then c2, the same order again,
    lost its ack and never reached the venue. *)
Definition filled_then_lost : world unit unit :=
  let acked := (ack_order "c1" "V1" lost_one).2 in
  let filled := (apply_fill "c1" "V1:100" (Dec 605 (-1)) 100 1500 100 acked).2 in
  (insert_order (lib_order "c2") None filled).2.

(** a lost ack can be bound to a venue order that belongs to another local
    order.  Handles of terminal orders are not claimed, so the single-order read
    binds c2 to V1, which c1 already holds, and records V1's 100 matched a second
    time: the store shows 200 filled where the venue matched 100. *)
Theorem terminal_handle_claimed_twice :
  let w' := (resolve_order_now (ex_fetch [venue_row "V1" 100 0 0 "M"]) "c2" filled_then_lost).2 in
  handle_of "c1" (w_db w') = Some "V1"%string /\ handle_of "c2" (w_db w') = Some "V1"%string /\
  in_state "c2" FILLED (w_db w') /\
  filled_qty "c1" (w_db w') + filled_qty "c2" (w_db w') = 200.
Proof. vm_compute. repeat split; reflexivity. Qed.

(** The claims are the handles the pass read before it asked the venue.  When c2 is
    acknowledged as V1 while the venue answers, V1 is still free to the pass, and
    c1, whose ack was lost, is bound to it as well. *)
Theorem stale_claims_bind_twice :
  let fetch account := ack_order "c2" "V1" ;;; ex_fetch [venue_row "V1" 0 100 0 "O"] account in
  let w' := (reconcile_once fetch (at_time minute lost_two)).2 in
  handle_of "c1" (w_db w') = Some "V1"%string /\ handle_of "c2" (w_db w') = Some "V1"%string.
Proof. vm_compute. split; reflexivity. Qed.

(** An order resting as V1 with a cancel in flight. *)
Definition cancelling : world unit unit :=
  (update_status "c1" PENDING_CANCEL (ack_order "c1" "V1" lost_one).2).2.

(** a fill that raced a cancel is dropped.  The venue cancelled the order
    after matching 40; the pass confirms the cancel, the order ends CANCELLED
    with nothing filled, and being terminal it is never looked at again. *)
Theorem cancel_confirm_drops_fill :
  let w' := (reconcile_once (ex_fetch [venue_row "V1" 40 0 60 "XA"]) (at_time minute cancelling)).2 in
  in_state "c1" CANCELLED (w_db w') /\ filled_qty "c1" (w_db w') = 0 /\
  (reconcile_once (ex_fetch [venue_row "V1" 40 0 60 "XA"]) w').1 = Ok 0.
Proof. vm_compute. repeat split; reflexivity. Qed.
