(* ===== verification/LiberatorProps.v ===== *)
(** * LiberatorProps: the Liberator wire

    What the adapter writes reads back as the order it was given, what the
    capability gate admits can be written, and the adapter keeps the promise the
    router relies on ([adapter_ok]). *)

From S2P Require Import Prelude Decimals Contracts Digits StateMachine Events Store StoreInv StoreProps Config Cache Adapters Gates HandleRecovery Router RouterProps Liberator Reconciler ReconcileCore ReconcileCoreProps ReconcilerProps.
From stdpp Require Import base gmap strings list relations.
From Stdlib Require Import ZArith QArith Lia.
Open Scope Z_scope.

(** ** [Decimal(format(d, "f"))] *)

Lemma span_digits_app ds l : all_digits ds ->
  match l with a :: _ => is_digit a = false | [] => True end ->
  span_digits (ds ++ l) = (ds, l).
Proof.
  intros Hd Hl. induction Hd as [|a ds Ha Hd IH]; simpl.
  - destruct l as [|a l]; [done|]. simpl. by rewrite Hl.
  - by rewrite Ha, IH.
Qed.

(** A character of a printed number: not blank, not an underscore. *)
Definition plain (a : Ascii.ascii) : Prop :=
  is_space a = false /\ negb (char_code a =? 95) = true.

Lemma plain_digit a : is_digit a = true -> plain a.
Proof.
  unfold is_digit, plain. rewrite andb_true_iff, !Z.leb_le. intros [H1 H2]. split.
  - unfold is_space. apply not_true_iff_false. rewrite memb_spec. set_unfold. lia.
  - apply negb_true_iff, Z.eqb_neq. lia.
Qed.

Lemma lstrip_plain l : Forall plain l -> lstrip_with is_space l = l.
Proof. destruct 1 as [|a l [Ha _] _]; simpl; [done|]. by rewrite Ha. Qed.

Lemma plain_clean l : Forall plain l ->
  List.filter (fun a => negb (char_code a =? 95)) (strip_with is_space l) = l.
Proof.
  intros Hl. unfold strip_with. rewrite (lstrip_plain l Hl), lstrip_plain by (by apply Forall_rev).
  rewrite rev_involutive. induction Hl as [|a l [_ Ha] _ IH]; simpl; [done|]. by rewrite Ha, IH.
Qed.

Lemma take_sign_digits l : all_digits l -> forall k, l ≠ [] -> take_sign (l ++ k) = (1, l ++ k).
Proof.
  intros Hd k Hne. destruct Hd as [|a l Ha _]; [done|]. simpl.
  unfold is_digit in Ha. apply andb_true_iff in Ha as [H1%Z.leb_le H2%Z.leb_le].
  by destruct (Z.eqb_spec (char_code a) 45), (Z.eqb_spec (char_code a) 43); try lia.
Qed.

(** [Decimal("ip.fp")] *)
Lemma parse_fixed s ip fp dot : chars s = ip ++ dot :: fp -> char_code dot = 46 ->
  all_digits ip -> all_digits fp -> ip ≠ [] ->
  decimal_of_string s = Some (Dec (digits_from 0 (ip ++ fp)) (- Z.of_nat (length fp))).
Proof.
  intros Hs Hdot Hip Hfp Hne. unfold decimal_of_string. rewrite Hs, plain_clean.
  2: { apply Forall_app. split; [eapply Forall_impl; [done | apply plain_digit]|].
       constructor; [|eapply Forall_impl; [done | apply plain_digit]].
       unfold plain, is_space. rewrite Hdot. split; reflexivity. }
  rewrite take_sign_digits by done.
  rewrite span_digits_app; [|done | unfold is_digit; by rewrite Hdot].
  rewrite Hdot. simpl (46 =? 46). cbv iota.
  rewrite <- (app_nil_r fp) at 1. rewrite span_digits_app by done.
  rewrite bool_decide_eq_false_2 by (destruct ip; done).
  f_equal. f_equal. unfold digits_to_Z. fold (digits_from 0 (ip ++ fp)). lia.
Qed.

(** [Decimal("ip")] *)
Lemma parse_whole s : all_digits (chars s) -> chars s ≠ [] ->
  decimal_of_string s = Some (Dec (digits_from 0 (chars s)) 0).
Proof.
  intros Hd Hne. unfold decimal_of_string.
  rewrite plain_clean by (eapply Forall_impl; [done | apply plain_digit]).
  rewrite <- (app_nil_r (chars s)), take_sign_digits, span_digits_app by done.
  rewrite !app_nil_r. rewrite bool_decide_eq_false_2 by done.
  f_equal. f_equal. unfold digits_to_Z. fold (digits_from 0 (chars s)). lia.
Qed.

(** Parsing "ds" followed by [k] zeros. *)
Lemma parse_scaled n k : 0 <= n ->
  decimal_of_string (nat_str n +:+ zeros k)%string = Some (Dec (n * 10 ^ Z.of_nat k) 0).
Proof.
  intros Hn. pose proof (nat_str_nonempty n) as Hne. rewrite <- chars_length in Hne.
  rewrite parse_whole; rewrite chars_app.
  - by rewrite digits_from_app, nat_str_chars, digits_from_zeros by done.
  - apply Forall_app; split; [apply nat_str_digits | apply zeros_digits].
  - intros E. apply (f_equal length) in E. rewrite length_app in E. simpl in E. lia.
Qed.

(** Parsing the zero-padded digits of [n] with a point before the last [frac]. *)
Lemma parse_padded n frac : 0 <= n ->
  let padded := (zeros (S frac - String.length (nat_str n)) +:+ nat_str n)%string in
  let cut := (String.length padded - frac)%nat in
  decimal_of_string ("" +:+ String.substring 0 cut padded +:+ "." +:+ String.substring cut frac padded)
    = Some (Dec n (- Z.of_nat frac)).
Proof.
  intros Hn padded cut.
  assert (Hp : all_digits (chars padded)).
  { unfold padded. rewrite chars_app. apply Forall_app; split; [apply zeros_digits | apply nat_str_digits]. }
  assert (Hlen : (frac < length (chars padded))%nat).
  { unfold padded. rewrite chars_app, length_app, chars_zeros, chars_length. lia. }
  assert (Hcut : (cut + frac = length (chars padded))%nat)
    by (unfold cut; rewrite <- chars_length; lia).
  rewrite (parse_fixed _ (take cut (chars padded)) (drop cut (chars padded)) (Ascii.ascii_of_nat 46)).
  - rewrite take_drop, length_drop. unfold padded at 1.
    rewrite chars_app, digits_from_app, digits_from_zeros, Z.mul_0_l, nat_str_chars by done.
    do 2 f_equal. lia.
  - rewrite !chars_app, !chars_substring. simpl. rewrite drop_0. f_equal. f_equal.
    rewrite take_ge; [done | rewrite length_drop; lia].
  - reflexivity.
  - by apply all_digits_take.
  - by apply all_digits_drop.
  - intros E. apply (f_equal length) in E. rewrite length_take in E. simpl in E. lia.
Qed.

Lemma decimal_format_f d : 0 <= d_coeff d ->
  exists d', decimal_of_string (format_f d) = Some d' /\ dec_eqb d' d = true.
Proof.
  intros Hc. unfold format_f. rewrite (proj2 (Z.ltb_ge _ _)) by done. rewrite Z.abs_eq by done.
  destruct (Z.leb_spec 0 (d_exp d)) as [He|He].
  - destruct (Z.eqb_spec (d_coeff d) 0) as [H0|H0].
    { exists (Dec 0 0). split; [reflexivity|]. apply dec_eqb_spec. unfold dec_val. simpl. rewrite H0.
      ring. }
    eexists. split; [by apply parse_scaled|].
    unfold dec_eqb, dec_compare, dec_scale. simpl. rewrite Z.min_l, Z2Nat.id by done.
    rewrite !Z.sub_0_r. simpl. rewrite Z.mul_1_r. by rewrite Z.compare_refl.
  - eexists. split; [by apply parse_padded|]. rewrite Z2Nat.id, Z.opp_involutive by lia.
    destruct d. apply dec_eqb_refl.
Qed.

(** ** The wire says what the order says *)

(** The price an order carries to the venue. *)
Definition wire_price (o : NormalizedOrder) : option Decimal :=
  match no_market o with
  | SET_ => match no_price o with Some p => Some p | None => no_stop_price o end
  | TFEX => Some (default dec_zero (no_price o))
  end.

(** [SET] prices may have at most two decimals (and 28 digits). *)
Definition two_dp (p : Decimal) : bool :=
  match dec_quantize p (-2) with Some q => dec_eqb p q | None => false end.

Lemma dec_positive_coeff d : dec_ltb dec_zero d = true -> 0 <= d_coeff d.
Proof.
  unfold dec_ltb, dec_compare. set (e := Z.min _ _).
  destruct (Z.compare_spec (dec_scale e dec_zero) (dec_scale e d)) as [|Hlt|]; try done.
  intros _. unfold dec_scale in Hlt. rewrite Z.mul_0_l in Hlt.
  assert (0 <= 10 ^ (d_exp d - e)) by (apply Z.pow_nonneg; lia). nia.
Qed.

Lemma wire_price_positive o p : order_wf o -> wire_price o = Some p -> 0 <= d_coeff p.
Proof.
  intros [_ Hp Hs _ _ _ _ _]. unfold wire_price.
  destruct (no_market o).
  - destruct (no_price o) as [q|]; intros E; simplify_eq; apply dec_positive_coeff; auto.
  - intros [= <-]. destruct (no_price o) as [q|]; simpl; [apply dec_positive_coeff; auto | done].
Qed.

Lemma round_half_even_nonneg n k : 0 <= n -> 0 <= round_half_even n k.
Proof.
  intros Hn. unfold round_half_even.
  assert (0 <= n / 10 ^ k).
  { destruct (Z.leb_spec 0 k); [apply Z.div_pos; lia|]. by rewrite Z.pow_neg_r, Z.div_0_r by lia. }
  repeat case_match; lia.
Qed.

Lemma quantize_nonneg p e q : 0 <= d_coeff p -> dec_quantize p e = Some q -> 0 <= d_coeff q.
Proof.
  intros Hp. unfold dec_quantize. case_match; [|done]. intros [= <-]. simpl.
  destruct (Z.leb_spec e (d_exp p)); apply Z.mul_nonneg_nonneg; try lia.
  apply round_half_even_nonneg. lia.
Qed.

(** What the venue's read side makes of a payload's fields. *)
Record payload_reads (o : NormalizedOrder) (payload : list (string * json)) : Prop := {
  pr_account : jget "accountNo" payload = JStr (no_account o);
  pr_symbol : jget "symbol" payload = JStr (no_symbol o);
  pr_volume : jget "volume" payload = JInt (no_quantity o);
  pr_iceberg : jget "icebergVol" payload = JInt (default 0 (no_display_qty o));
  pr_side : exists s, jget "side" payload = JStr s /\ from_venue_side s = Some (no_side o);
  pr_validity : exists s, jget "validityType" payload = JStr s /\
    _READ_VALIDITY (token s) = Some (no_tif o);
  pr_position : no_market o = TFEX -> exists s pe, jget "position" payload = JStr s /\
    no_position_effect o = Some pe /\ _READ_POSITIONS (token s) = Some pe;
  pr_type : exists s t, jget "priceType" payload = JStr s /\ _READ_PRICE_TYPES (token s) = Some t /\
    (t = no_order_type o \/ (no_order_type o = ICEBERG /\ t = LIMIT) \/
     (no_order_type o = STOP_LIMIT /\ t = STOP));
  pr_price : exists s d p, jget "price" payload = JStr s /\ decimal_of_string s = Some d /\
    wire_price o = Some p /\ dec_eqb d p = true;
  pr_stop : no_market o = TFEX ->
    jget "stopSymbol" payload = JStr (no_symbol o) /\ jget "stopCondition" payload = JStr "" /\
    exists s d, jget "stopPrice" payload = JStr s /\ decimal_of_string s = Some d /\
      if memb (no_order_type o) [STOP; STOP_LIMIT]
      then exists p, no_stop_price o = Some p /\ dec_eqb d p = true
      else dec_eqb d dec_zero = true;
  pr_no_stop : no_market o = SET_ -> List.find (fun kv => String.eqb kv.1 "stopPrice") payload = None;
}.

Lemma side_roundtrip sd m : from_venue_side (venue_side sd m) = Some sd.
Proof. by destruct sd, m. Qed.
Lemma validity_roundtrip t : _READ_VALIDITY (token (venue_validity t)) = Some t.
Proof. by destruct t. Qed.
Lemma position_roundtrip p : _READ_POSITIONS (token (_POSITIONS p)) = Some p.
Proof. by destruct p. Qed.

Lemma price_type_roundtrip t m s : venue_price_type t m = Ok s ->
  exists t', _READ_PRICE_TYPES (token s) = Some t' /\
    (t' = t \/ (t = ICEBERG /\ t' = LIMIT) \/ (t = STOP_LIMIT /\ t' = STOP)).
Proof.
  destruct m, t; simpl; intros E; try discriminate E; injection E as <-; eexists;
    (split; [reflexivity|]); auto.
Qed.

(** The capability gate admits only order types the wire has a word for. *)
Lemma admitted_price_type m cap o :
  lookup_caps LIBERATOR m = Ok cap ->
  assert_supports cap (no_order_type o) (no_tif o) (no_position_effect o) = Ok tt ->
  exists s, venue_price_type (no_order_type o) m = Ok s.
Proof.
  intros Hc Hs. unfold assert_supports in Hs.
  destruct (memb (no_order_type o) (cap_order_types cap)) eqn:Hm; [|done]. clear Hs.
  destruct m; vm_compute in Hc; injection Hc as <-; simpl in Hm;
    destruct (no_order_type o); try discriminate Hm; by eexists.
Qed.

Lemma dec_eqb_trans a b c : dec_eqb a b = true -> dec_eqb b c = true -> dec_eqb a c = true.
Proof. rewrite !dec_eqb_spec. apply Qeq_trans. Qed.
Lemma dec_eqb_sym a b : dec_eqb a b = true -> dec_eqb b a = true.
Proof. rewrite !dec_eqb_spec. apply Qeq_sym. Qed.

Lemma set_wire_price_ok o p : order_wf o -> no_market o = SET_ -> wire_price o = Some p ->
  two_dp p = true ->
  exists s d, _set_wire_price o = Ok s /\ decimal_of_string s = Some d /\ dec_eqb d p = true.
Proof.
  intros Hwf Hm Hp H2. pose proof (wire_price_positive o p Hwf Hp) as Hpos.
  unfold wire_price in Hp. rewrite Hm in Hp. unfold _set_wire_price. rewrite Hp.
  unfold two_dp in H2. destruct (dec_quantize p (-2)) as [q|] eqn:Hq; [|done]. rewrite H2. simpl.
  destruct (decimal_format_f q (quantize_nonneg _ _ _ Hpos Hq)) as (d & Hd & Heq).
  exists (format_f q), d. split; [done|]. split; [done|]. eapply dec_eqb_trans; [done|].
  by apply dec_eqb_sym.
Qed.

(** The stop price of a stop order, zero on any other, survives the wire's decimal text. *)
Lemma stop_price_reads o : order_wf o ->
  let stop_price := match memb (no_order_type o) [STOP; STOP_LIMIT], no_stop_price o with
                    | true, Some p => p
                    | _, _ => dec_zero
                    end in
  exists d, decimal_of_string (format_f stop_price) = Some d /\
    if memb (no_order_type o) [STOP; STOP_LIMIT]
    then exists p, no_stop_price o = Some p /\ dec_eqb d p = true
    else dec_eqb d dec_zero = true.
Proof.
  intros Hwf stop_price. subst stop_price. destruct (memb (no_order_type o) [STOP; STOP_LIMIT]) eqn:Hs.
  - assert (is_Some (no_stop_price o)) as [p Hp].
    { apply (wf_stopped o Hwf). destruct (no_order_type o); try discriminate Hs; auto. }
    rewrite Hp. destruct (decimal_format_f p (dec_positive_coeff p (wf_stop o Hwf p Hp))) as (d & Hd & Heq).
    exists d. eauto.
  - destruct (decimal_format_f dec_zero) as (d & Hd & Heq); [done|]. by exists d.
Qed.

(** C23: the wire says what the order says, for a contract-valid order the capability
    gate admits.  The place payload carries exactly the order: account, symbol, volume
    and iceberg volume verbatim; side, validity, position and price type read back by
    the adapter's own read side to the order's, up to ICEBERG being a LIMIT with an
    iceberg volume and STOP_LIMIT a STOP with a price; a price string that parses back
    to the very price, never re-quantized.  On TFEX the stop price string parses back
    to the order's stop price for STOP and STOP_LIMIT and to zero otherwise, with the
    symbol itself as the stop symbol; a SET payload has no stop price.  Otherwise the
    order is refused before anything is sent: never on TFEX, and on SET only when it
    carries no price at all or a price finer than two decimals. *)
Theorem place_payload_faithful o cap :
  order_wf o -> lookup_caps LIBERATOR (no_market o) = Ok cap ->
  assert_supports cap (no_order_type o) (no_tif o) (no_position_effect o) = Ok tt ->
  match to_place_payload o with
  | Ok payload => payload_reads o payload
  | Err _ => no_market o = SET_ /\
      match wire_price o with None => True | Some p => two_dp p = false end
  end.
Proof.
  intros Hwf Hcap Hsup. destruct (admitted_price_type _ _ _ Hcap Hsup) as [pt Hpt].
  destruct (price_type_roundtrip _ _ _ Hpt) as (t & Ht & Htt).
  unfold to_place_payload. destruct (no_market o) eqn:Hm.
  - unfold to_set_payload. destruct (wire_price o) as [p|] eqn:Hp.
    + destruct (two_dp p) eqn:H2.
      * destruct (set_wire_price_ok o p Hwf Hm Hp H2) as (s & d & -> & Hd & Heq). rewrite Hpt.
        split; try reflexivity; [| |congruence| | |congruence].
        -- eexists. split; [reflexivity | apply side_roundtrip].
        -- eexists. split; [reflexivity | apply validity_roundtrip].
        -- eexists _, t. split; [reflexivity | done].
        -- eexists _, d, p. split; [reflexivity | done].
      * unfold _set_wire_price. unfold wire_price in Hp. rewrite Hm in Hp. rewrite Hp.
        unfold two_dp in H2. destruct (dec_quantize p (-2)) as [q|]; [|done]. by rewrite H2.
    + unfold _set_wire_price. unfold wire_price in Hp. rewrite Hm in Hp. by rewrite Hp.
  - assert (exists pe, no_position_effect o = Some pe) as [pe Hpe].
    { destruct (proj1 (wf_tfex o Hwf) Hm) as [pe ?]. eauto. }
    unfold to_tfex_payload. rewrite Hpe, Hpt.
    destruct (decimal_format_f (default dec_zero (no_price o))) as (d & Hd & Heq).
    { apply (wire_price_positive o); [done|]. unfold wire_price. by rewrite Hm. }
    split; try reflexivity; [| | | | | |congruence].
    + eexists. split; [reflexivity | apply side_roundtrip].
    + eexists. split; [reflexivity | apply validity_roundtrip].
    + intros _. eexists _, pe. split; [reflexivity|]. split; [done | apply position_roundtrip].
    + eexists _, t. split; [reflexivity | done].
    + eexists _, d, _. split; [reflexivity|]. split; [done|]. unfold wire_price. rewrite Hm. done.
    + intros _. split; [reflexivity|]. split; [reflexivity|].
      destruct (stop_price_reads o Hwf) as (ds & Hds & Hread). by eexists _, ds.
Qed.

(** ** The adapter keeps the router's promises *)

Section interface.
Context {R V : Type} (sess : V -> LiberatorSession) (put_sess : LiberatorSession -> V -> V).
Abbreviation W := (world R V).
Context (post : string -> list (string * json) -> M exn W LiberatorEnvelope)
        (get_json : string -> M exn W json) (acquire : M exn W unit)
        (resolve_order : option (string -> M exn W (option (string * Market))))
        (validate : list (string * json) -> result exn VenueOrderItem).
Abbreviation place := (lib_place sess put_sess post acquire).
Abbreviation cancel := (lib_cancel sess post resolve_order).

Section any_relation.
Context (Q : relation db) `{!PreOrder Q}.
(* the HTTP client, the limiter and the resolver do not write the store *)
Hypothesis post_ok : forall p b, respects (on_db Q) (post p b).
Hypothesis get_ok : forall p, respects (on_db Q) (get_json p).
Hypothesis acquire_ok : respects (on_db Q) acquire.
Hypothesis resolve_ok : forall f, resolve_order = Some f -> forall c, respects (on_db Q) (f c).

Lemma session_modify_respects f :
  respects (on_db Q) (session_modify (R := R) sess put_sess f).
Proof. apply respects_modify. intros w. unfold on_db. simpl. reflexivity. Qed.

Lemma liberator_adapter_ok oid :
  adapter_ok Q (LiberatorAdapter sess put_sess post get_json acquire resolve_order validate
                  oid).
Proof.
  pose proof session_modify_respects as Hs.
  split; intros; simpl; unfold lib_place, lib_cancel, lib_amend.
  - respects_tac.
  - destruct resolve_order as [f|]; [specialize (resolve_ok f eq_refl)|]; respects_tac.
  - respects_tac.
Qed.

Lemma fetch_venue_orders_respects a : respects (on_db Q) (fetch_venue_orders get_json validate a).
Proof. unfold fetch_venue_orders. respects_tac. Qed.
End any_relation.

Hypothesis sess_put : forall s v, sess (put_sess s v) = s.

Definition cancel_answer (e : LiberatorEnvelope) : CancelAck :=
  if le_ok e then {| ca_ok := true; ca_reason := None |}
  else {| ca_ok := false; ca_reason := Some (reject_reason e) |}.

(** the handle a place ack carried is the handle a cancel uses.  After a
    place the venue acknowledged with order number [n], cancelling the order
    sends exactly one request, for [n], on the order's market, and answers what
    the venue answered; a transport failure is an unconfirmed cancel, not an
    error.  After an acknowledged place that carried no number, cancelling (with
    no durable handle either) sends nothing and is unconfirmed, and a place that
    was refused changes no session state. *)
Theorem place_cancel_handle o (w w1 : W) ack :
  place o w = (Ok ack, w1) ->
  (forall n, pa_broker_order_id ack = Some n ->
     cancel (no_client_order_id o) w1 =
       match post (cancel_path (no_market o)) (to_cancel_payload n) w1 with
       | (Ok e, w2) => (Ok (cancel_answer e), w2)
       | (Err (LiberatorTransportError m), w2) => (Ok {| ca_ok := false; ca_reason := Some m |}, w2)
       | (Err e, w2) => (Err e, w2)
       end) /\
  (pa_rejected ack = false -> pa_broker_order_id ack = None -> resolve_order = None ->
     ls_order_no_cache (sess (w_venue w1)) !! no_client_order_id o = None ->
     no_client_order_id o ∈ ls_awaiting_order_no (sess (w_venue w1)) /\
     exists a, cancel (no_client_order_id o) w1 = (Ok a, w1) /\ ca_ok a = false) /\
  (pa_rejected ack = true -> pa_broker_order_id ack = None /\
     (w1 = w \/ exists payload e, to_place_payload o = Ok payload /\ le_ok e = false /\
        (acquire ;;; post (place_path (no_market o)) payload) w = (Ok e, w1))).
Proof.
  clear validate get_json. intros Hplace. unfold lib_place in Hplace.
  destruct (to_place_payload o) as [payload|e] eqn:Hpay;
    [|destruct e; unfold ret, raise in Hplace; simplify_eq/=; split_and!; by auto].
  rewrite <- bind_assoc in Hplace. inv_ok Hplace.
  destruct (le_ok a) eqn:Hok; simpl in Hplace; [|unfold ret in Hplace; simplify_eq/=; split_and!;
    try done; intros _; split; [done|]; right; exists payload, a; auto].
  destruct (order_no a) as [n|] eqn:Hn; unfold bind, session_modify, modify, ret in Hplace;
    simplify_eq/=; split_and!; try done.
  - intros n' [= <-]. unfold lib_cancel, bind, gets, ret. simpl. rewrite sess_put. simpl.
    rewrite lookup_insert_eq. unfold catch, raise, cancel_answer.
    destruct (post _ _ _) as [[e|e] w2]; [by destruct (le_ok e)|]. by destruct e.
  - intros _ _ Hres Hnone. rewrite sess_put in *. simpl in *. split; [set_solver|].
    unfold lib_cancel. rewrite Hres. unfold bind, gets, ret. simpl. rewrite sess_put. simpl.
    rewrite Hnone. eexists. split; [reflexivity | done].
Qed.
End interface.

(** What leaves the database alone respects every relation on it. *)
Lemma respects_eq_any {R V A} (Q : relation db) `{!PreOrder Q} (m : M exn (world R V) A) :
  respects (on_db eq) m -> respects (on_db Q) m.
Proof. intros Hm w. specialize (Hm w). unfold on_db in *. by rewrite Hm. Qed.
