(* ===== verification/JsonProps.v ===== *)
(** * JsonProps: what is dumped is printable and reads back *)

From S2P Require Import Prelude Decimals Contracts Digits Liberator LiberatorProps Json.
From stdpp Require Import base strings list sets.
From Stdlib Require Import ZArith Lia.
Open Scope Z_scope.

Section json_ind.
Context (P : json -> Prop).
Hypothesis Hnull : P JNull.
Hypothesis Hbool : forall b, P (JBool b).
Hypothesis Hint : forall z, P (JInt z).
Hypothesis Hfloat : forall r, P (JFloat r).
Hypothesis Hstr : forall s, P (JStr s).
Hypothesis Hlist : forall l, Forall P l -> P (JList l).
Hypothesis Hobj : forall kvs, Forall (fun kv => P kv.2) kvs -> P (JObj kvs).

Fixpoint json_induction (j : json) : P j :=
  match j with
  | JNull => Hnull
  | JBool b => Hbool b
  | JInt z => Hint z
  | JFloat r => Hfloat r
  | JStr s => Hstr s
  | JList l => Hlist l ((fix go l := match l return Forall P l with
                         | [] => Forall_nil_2 _
                         | x :: l' => Forall_cons_2 _ _ _ (json_induction x) (go l')
                         end) l)
  | JObj kvs => Hobj kvs ((fix go l := match l return Forall (fun kv => P kv.2) l with
                           | [] => Forall_nil_2 _
                           | x :: l' => Forall_cons_2 _ _ _ (json_induction x.2) (go l')
                           end) kvs)
  end.
End json_ind.

(** ** Codes and UTF-8 *)

Definition byte_code (c : Z) : Prop := 0 <= c < 256.
(** A Unicode scalar value. *)
Definition scalar (c : Z) : Prop := 0 <= c < 0xD800 \/ 0xE000 <= c < 0x110000.

Lemma codes_of_codes l : Forall byte_code l -> codes (of_codes l) = l.
Proof.
  unfold codes, of_codes. rewrite String.list_ascii_of_string_of_list_ascii, map_map. unfold byte_code.
  induction 1 as [|c l Hc _ IH]; simpl; [done|]. rewrite IH. f_equal. unfold char_code.
  rewrite Ascii.nat_ascii_embedding; lia.
Qed.

Ltac cases := repeat match goal with
  | |- context [?a <? ?b] => destruct (Z.ltb_spec a b)
  | |- context [?a <=? ?b] => destruct (Z.leb_spec a b)
  | |- context [?a =? ?b] => destruct (Z.eqb_spec a b)
  end.

Lemma utf8_enc_bytes c : 0 <= c < 0x110000 -> Forall byte_code (utf8_enc c).
Proof.
  intros Hc. unfold utf8_enc. cases; repeat constructor; unfold byte_code; Z.div_mod_to_equations; lia.
Qed.

Lemma utf8_dec_enc c l : 0 <= c < 0x110000 -> utf8_dec (utf8_enc c ++ l) = c :: utf8_dec l.
Proof.
  intros Hc. unfold utf8_enc.
  destruct (Z.ltb_spec c 0x80); [|destruct (Z.ltb_spec c 0x800); [|destruct (Z.ltb_spec c 0x10000)]];
    cbn [app utf8_dec]; cases; try (f_equal); Z.div_mod_to_equations; lia.
Qed.

Lemma scalar_range c : scalar c -> 0 <= c < 0x110000.
Proof. unfold scalar. lia. Qed.

Definition text (cps : list Z) : string := of_codes (concat (map utf8_enc cps)).

Lemma text_codes cps : Forall scalar cps -> utf8_dec (codes (text cps)) = cps.
Proof.
  intros H. unfold text. rewrite codes_of_codes.
  - induction H as [|c cps Hc _ IH]; simpl; [done|]. by rewrite utf8_dec_enc, IH by (by apply scalar_range).
  - induction H as [|c cps Hc _ IH]; simpl; [constructor|]. apply Forall_app_2; [|done].
    by apply utf8_enc_bytes, scalar_range.
Qed.

(** A Python string without lone surrogates. *)
Definition is_text (s : string) : Prop := exists cps, Forall scalar cps /\ s = text cps.

Lemma of_codes_codes s : of_codes (codes s) = s.
Proof.
  unfold of_codes, codes. rewrite map_map. rewrite <- (String.string_of_list_ascii_of_string s) at 2. f_equal.
  rewrite <- map_id. apply map_ext. intros a. unfold char_code. rewrite Nat2Z.id. apply Ascii.ascii_nat_embedding.
Qed.

Lemma codes_app s t : codes (s +:+ t) = codes s ++ codes t.
Proof. unfold codes. by rewrite chars_app, map_app. Qed.

(** ASCII text is text. *)
Lemma ascii_is_text s : Forall (fun c => c < 128) (codes s) -> is_text s.
Proof.
  intros H. exists (codes s).
  assert (H0 : Forall (fun c => 0 <= c) (codes s)).
  { apply Forall_fmap, Forall_true. intros a. unfold char_code. simpl. lia. }
  split.
  - apply Forall_forall. intros c Hc. rewrite Forall_forall in H, H0. specialize (H c Hc). specialize (H0 c Hc).
    unfold scalar. lia.
  - unfold text. replace (concat (map utf8_enc (codes s))) with (codes s); [by rewrite of_codes_codes|].
    clear H0. induction H as [|c l Hc _ IH]; simpl; [done|]. unfold utf8_enc at 1.
    rewrite (proj2 (Z.ltb_lt c 0x80)) by lia. simpl. by f_equal.
Qed.

(** ** Strings *)

(** What an escape is read as. *)
Definition units (c : Z) : list Z :=
  if c <? 0x10000 then [c] else [0xD800 + (c - 0x10000) / 0x400; 0xDC00 + (c - 0x10000) mod 0x400].

Lemma hex_code_val n : 0 <= n < 16 -> hex_val (hex_code n) = Some n.
Proof.
  intros Hn. unfold hex_val, hex_code. destruct (Z.ltb_spec n 10).
  - rewrite (proj2 (Z.leb_le 48 _)), (proj2 (Z.leb_le _ 57)) by lia. simpl. f_equal. lia.
  - rewrite (proj2 (Z.leb_gt _ 57)), andb_false_r by lia.
    rewrite (proj2 (Z.leb_le 97 _)), (proj2 (Z.leb_le _ 102)) by lia. simpl. f_equal. lia.
Qed.

Lemma read_u_escape c l : 0 <= c < 0x10000 ->
  read_units (u_escape c ++ l) = (fun p => (c :: p.1, p.2)) <$> read_units l.
Proof.
  intros Hc. unfold u_escape. cbn [app read_units].
  change (92 =? 34) with false. change (92 =? 92) with true. change (117 =? 117) with true. cbv iota.
  unfold hex4. rewrite !hex_code_val by (apply Z.mod_pos_bound; lia). cbn [mbind option_bind].
  replace (4096 * _ + _ + _ + _) with c; [done|]. Z.div_mod_to_equations. lia.
Qed.

Lemma read_escape c l : scalar c ->
  read_units (escape c ++ l) = (fun p => (units c ++ p.1, p.2)) <$> read_units l.
Proof.
  intros Hc%scalar_range. unfold escape, units.
  destruct (Z.eqb_spec c 34) as [->|]; [done|]. destruct (Z.eqb_spec c 92) as [->|]; [done|].
  destruct (Z.eqb_spec c 10) as [->|]; [done|]. destruct (Z.eqb_spec c 13) as [->|]; [done|].
  destruct (Z.eqb_spec c 9) as [->|]; [done|]. destruct (Z.eqb_spec c 12) as [->|]; [done|].
  destruct (Z.eqb_spec c 8) as [->|]; [done|].
  destruct (Z.leb_spec 32 c); cbn [andb]; [destruct (Z.leb_spec c 126)|].
  - cbn [app read_units]. rewrite (proj2 (Z.eqb_neq c 34)), (proj2 (Z.eqb_neq c 92)) by done.
    rewrite (proj2 (Z.ltb_ge c 32)) by lia. by rewrite (proj2 (Z.ltb_lt c 0x10000)) by lia.
  - destruct (Z.ltb_spec c 0x10000); [by apply read_u_escape; lia|].
    rewrite <- app_assoc, !read_u_escape by (Z.div_mod_to_equations; lia).
    by destruct (read_units l).
  - rewrite (proj2 (Z.ltb_lt c 0x10000)) by lia. by apply read_u_escape; lia.
Qed.

Lemma read_units_escaped cps r : Forall scalar cps ->
  read_units (concat (map escape cps) ++ 34 :: r) = Some (concat (map units cps), r).
Proof.
  induction 1 as [|c cps Hc _ IH]; [done|]. cbn [map concat]. by rewrite <- app_assoc, read_escape, IH.
Qed.

Lemma pair_up_units cps : Forall scalar cps -> pair_up (concat (map units cps)) = cps.
Proof.
  induction 1 as [|c cps Hc _ IH]; [done|]. cbn [map concat]. unfold units at 1. unfold scalar in Hc.
  destruct (Z.ltb_spec c 0x10000) as [Hs|Hs].
  - cbn [app]. destruct (concat (map units cps)) as [|d l]; [by rewrite <- IH|].
    cbn [pair_up]. cbn [pair_up] in IH. rewrite IH.
    assert ((0xD800 <=? c) && (c <? 0xDC00) = false) as ->; [|done].
    destruct (Z.leb_spec 0xD800 c), (Z.ltb_spec c 0xDC00); simpl; lia.
  - cbn [app pair_up].
    rewrite (proj2 (Z.leb_le 0xD800 _)), (proj2 (Z.ltb_lt _ 0xDC00)) by (Z.div_mod_to_equations; lia).
    rewrite (proj2 (Z.leb_le 0xDC00 _)), (proj2 (Z.ltb_lt _ 0xE000)) by (Z.div_mod_to_equations; lia).
    cbn [andb]. rewrite IH. f_equal. Z.div_mod_to_equations. lia.
Qed.

Lemma read_dumped_string s r : is_text s ->
  exists r', dump_string s ++ r = 34 :: r' /\ read_string r' = Some (s, r).
Proof.
  intros (cps & H & ->). unfold dump_string. rewrite text_codes by done. exists (concat (map escape cps) ++ 34 :: r).
  split; [cbn [app]; by rewrite <- app_assoc|]. unfold read_string. rewrite read_units_escaped by done. simpl.
  by rewrite pair_up_units.
Qed.

(** ** Values *)

(** A character of a number. *)
Definition numeric (c : Z) : bool := is_dig c || memb c [43; 45; 46; 69; 101].

(** Strings are Unicode text, and the text of a float is read as a float. *)
#[warnings="-register-all"]
Inductive clean : json -> Prop :=
  | clean_null : clean JNull
  | clean_bool b : clean (JBool b)
  | clean_int z : clean (JInt z)
  | clean_float repr : Forall (fun c => numeric c = true) (codes repr) ->
      number (codes repr) = Some (JFloat repr) -> clean (JFloat repr)
  | clean_str s : is_text s -> clean (JStr s)
  | clean_list l : Forall clean l -> clean (JList l)
  | clean_obj kvs : NoDup (map fst kvs) -> Forall (fun kv => is_text kv.1) kvs ->
      Forall (fun kv => clean kv.2) kvs -> clean (JObj kvs).

Lemma dict_set_new k v d : k ∉ map fst d -> dict_set k v d = d ++ [(k, v)].
Proof.
  induction d as [|[k' v'] d IH]; intros Hk; [done|]. cbn [dict_set map fst] in *.
  destruct (String.eqb_spec k k') as [->|]; [set_solver|]. cbn [app]. rewrite IH; [done|set_solver].
Qed.

Lemma dict_of_pairs kvs : NoDup (map fst kvs) -> dict_of kvs = kvs.
Proof.
  unfold dict_of. enough (H : forall d, NoDup (map fst (d ++ kvs)) ->
    fold_left (fun d kv => dict_set kv.1 kv.2 d) kvs d = d ++ kvs) by apply (H []).
  induction kvs as [|[k v] kvs IH]; intros d Hd; cbn [fold_left]; [by rewrite app_nil_r|].
  cbn [fst snd]. rewrite dict_set_new, IH.
  - by rewrite <- app_assoc.
  - by rewrite <- app_assoc.
  - rewrite map_app, NoDup_app in Hd. destruct Hd as (_ & Hd & _). intros Hk. apply (Hd k Hk). set_solver.
Qed.

(** The fuel a value needs. *)
Fixpoint need (j : json) : nat :=
  match j with
  | JList l => S (list_sum (map (fun x => S (need x)) l))
  | JObj kvs => S (list_sum (map (fun kv => S (need kv.2)) kvs))
  | _ => 1
  end.

(** What may follow a value: not a character of a number. *)
Definition stops (r : list Z) : Prop :=
  match r with c :: _ => numeric c = false | [] => True end.

Lemma numeric_range c : numeric c = true -> 43 <= c <= 101 /\ c <> 44 /\ c <> 91 /\ c <> 93.
Proof.
  unfold numeric, is_dig. rewrite orb_true_iff, andb_true_iff. intros [Hc|Hc]; [lia|].
  rewrite memb_spec, list_elem_of_In in Hc. simpl in Hc. lia.
Qed.

Lemma dig_numeric c : is_dig c = true -> numeric c = true.
Proof. unfold numeric. by intros ->. Qed.

Lemma nat_str_codes n : 0 <= n -> Forall (fun c => is_dig c = true) (codes (nat_str n)) /\ codes (nat_str n) <> [] /\
  fold_left (fun v c => 10 * v + (c - 48)) (codes (nat_str n)) 0 = n.
Proof.
  intros Hn. unfold codes. split_and!.
  - apply Forall_fmap. eapply Forall_impl; [apply nat_str_digits|done].
  - intros E. pose proof (nat_str_nonempty n) as H. rewrite <- chars_length in H.
    apply (f_equal length) in E. rewrite length_map in E. simpl in E. lia.
  - rewrite <- (nat_str_chars n Hn) at 2. unfold digits_from. generalize 0 (chars (nat_str n)).
    intros v l. revert v. induction l as [|a l IH]; intros v; simpl; auto.
Qed.

(** No leading zero. *)
Definition no_zero_lead (l : list Z) : Prop := match l with d :: _ :: _ => d <> 48 | _ => True end.

Lemma digits_str_head fuel n acc : 0 < n < 10 ^ Z.of_nat fuel ->
  exists d rest, digits_str fuel n acc = String (digit_char d) rest /\ 1 <= d <= 9.
Proof.
  revert n acc. induction fuel as [|f IH]; intros n acc Hn; [simpl in Hn; lia|]. cbn [digits_str].
  destruct (Z.ltb_spec n 10); [exists n, acc; rewrite Z.mod_small by lia; split; [done|lia]|].
  apply IH. rewrite Nat2Z.inj_succ, Z.pow_succ_r in Hn by lia.
  split; [apply Z.div_str_pos; lia|apply Z.div_lt_upper_bound; lia].
Qed.

Lemma nat_str_lead n : 0 <= n -> no_zero_lead (codes (nat_str n)).
Proof.
  intros Hn. destruct (decide (n = 0)) as [->|Hz]; [done|].
  destruct (digits_str_head (Z.to_nat (num_digits n)) n "") as (d & rest & E & Hd).
  { unfold num_digits. rewrite Z.abs_eq by done. pose proof (digits_go_pos (Z.to_nat (Z.log2 n + 1)) n).
    rewrite Z2Nat.id by lia. split; [lia|]. apply digits_go_gt. pose proof (Z.log2_nonneg n).
    rewrite Z2Nat.id by lia. split; [done|]. rewrite Z.add_1_r. apply Z.log2_spec. lia. }
  unfold nat_str. rewrite E. cbn. destruct (map _ _); [done|]. unfold char_code, digit_char.
  rewrite Ascii.nat_ascii_embedding by lia. lia.
Qed.

Lemma span_dig_all l : Forall (fun c => is_dig c = true) l -> span_dig l = (l, []).
Proof. induction 1 as [|c l Hc _ IH]; [done|]. cbn [span_dig]. by rewrite Hc, IH. Qed.

Lemma number_digits neg ds : Forall (fun c => is_dig c = true) ds -> ds <> [] -> no_zero_lead ds ->
  number ((if neg : bool then [45] else []) ++ ds) =
  Some (JInt (let v := fold_left (fun v c => 10 * v + (c - 48)) ds 0 in if neg then - v else v)).
Proof.
  intros Hds Hne Hlead. destruct ds as [|d ds]; [done|]. unfold number.
  assert (Hz : (d =? 48) && negb (bool_decide (ds = [])) = false).
  { destruct ds; [apply andb_false_r|]. by rewrite (proj2 (Z.eqb_neq d 48)). }
  destruct neg; cbn [app].
  - change (45 =? 45) with true. cbv iota. by rewrite span_dig_all, Hz by done.
  - pose proof (Forall_inv Hds) as Hd. rewrite (proj2 (Z.eqb_neq d 45)) by (unfold is_dig in Hd; lia).
    by rewrite span_dig_all, Hz by done.
Qed.

Lemma int_codes z : Forall (fun c => numeric c = true) (codes (int_str z)) /\
  number (codes (int_str z)) = Some (JInt z).
Proof.
  destruct (nat_str_codes (Z.abs z) ltac:(lia)) as (Hd & Hne & Hv).
  assert (codes (int_str z) = (if z <? 0 then [45] else []) ++ codes (nat_str (Z.abs z))) as ->.
  { unfold int_str. destruct (Z.ltb_spec z 0); [rewrite Z.abs_neq by lia|rewrite Z.abs_eq by lia]; [|done].
    unfold codes. by rewrite chars_app, map_app. }
  split.
  - apply Forall_app_2; [by destruct (z <? 0); repeat constructor|].
    eapply Forall_impl; [exact Hd|]. apply dig_numeric.
  - rewrite number_digits, Hv by (done || apply nat_str_lead; lia). cbv zeta. do 2 f_equal.
    destruct (Z.ltb_spec z 0); lia.
Qed.

Lemma float_text_numeric repr : Forall (fun c => numeric c = true) (codes repr) -> float_text repr = repr.
Proof.
  intros H. unfold float_text.
  repeat (match goal with |- context [String.eqb repr ?s] => destruct (String.eqb_spec repr s) as [->|] end;
    [exfalso; revert H; vm_compute; rewrite !Forall_cons; intuition discriminate|]). done.
Qed.

Lemma read_number f c l : numeric c = true ->
  read_value (S f) (c :: l) = let '(t, r') := span_num (c :: l) in
    match number t with Some j => Some (j, r') | None => constant (c :: l) end.
Proof.
  intros Hs%numeric_range. cbn [read_value skip_ws].
  assert (memb c [32; 9; 10; 13] = false) as ->.
  { apply not_true_is_false. rewrite memb_spec, list_elem_of_In. simpl. lia. }
  rewrite (proj2 (Z.eqb_neq c 34)), (proj2 (Z.eqb_neq c 91)), (proj2 (Z.eqb_neq c 123)) by lia.
  assert (Hl : forall x p, 101 < x -> literal (x :: p) (c :: l) = None).
  { intros x p Hx. simpl. by rewrite (proj2 (Z.eqb_neq x c)) by lia. }
  change (codes "null") with [110; 117; 108; 108]. change (codes "true") with [116; 114; 117; 101].
  change (codes "false") with [102; 97; 108; 115; 101].
  by rewrite !Hl by lia.
Qed.

Lemma read_numeral f t j r : Forall (fun c => numeric c = true) t -> number t = Some j -> stops r ->
  read_value (S f) (t ++ r) = Some (j, r).
Proof.
  intros Ht Hj Hr. destruct t as [|c t]; [done|].
  assert (span_num ((c :: t) ++ r) = (c :: t, r)) as Hs.
  { clear Hj. induction Ht as [|d t' Hd _ IH].
    - destruct r as [|d r]; [done|]. cbn [app span_num stops] in *. fold (numeric d). by rewrite Hr.
    - cbn [app span_num]. fold (numeric d). by rewrite Hd, IH. }
  apply Forall_cons in Ht as [Hc _]. cbn [app] in *. rewrite read_number by done. rewrite Hs, Hj. done.
Qed.

(** ** Printable *)

(** A printable ASCII character. *)
Definition printable (c : Z) : Prop := 32 <= c <= 126.

Lemma numeric_printable t : Forall (fun c => numeric c = true) t -> Forall printable t.
Proof. intros H. eapply Forall_impl; [exact H|]. intros c Hc%numeric_range. unfold printable. lia. Qed.

Lemma u_escape_printable c : 0 <= c -> Forall printable (u_escape c).
Proof.
  intros Hc. unfold u_escape, hex_code, printable.
  repeat constructor; try lia; cases; Z.div_mod_to_equations; lia.
Qed.

Lemma escape_printable c : scalar c -> Forall printable (escape c).
Proof.
  intros Hc%scalar_range. unfold escape. repeat case_match; try (repeat constructor; unfold printable; lia).
  - apply u_escape_printable. lia.
  - apply Forall_app_2; apply u_escape_printable; Z.div_mod_to_equations; lia.
Qed.

Lemma dump_string_printable s : is_text s -> Forall printable (dump_string s).
Proof.
  intros (cps & H & ->). unfold dump_string. rewrite text_codes by done. constructor; [unfold printable; lia|].
  apply Forall_app_2; [|repeat constructor; unfold printable; lia].
  induction H; simpl; [constructor|]. apply Forall_app_2; auto using escape_printable.
Qed.

Lemma join_codes_Forall {A} (P : Z -> Prop) sep (g : A -> list Z) l :
  Forall P sep -> Forall (fun x => Forall P (g x)) l -> Forall P (join_codes sep (map g l)).
Proof.
  intros Hs. induction 1 as [|x l Hx Hl IH]; [constructor|]. cbn [map join_codes].
  destruct (map g l) eqn:E; [done|]. rewrite <- E. repeat apply Forall_app_2; try done. by rewrite E.
Qed.

Lemma dump_printable j : clean j -> Forall printable (dump j).
Proof.
  induction j as [| | | | |l IH|kvs IH] using json_induction; inversion 1; subst; cbn [dump].
  - by repeat constructor.
  - case_match; by repeat constructor.
  - apply numeric_printable, int_codes.
  - rewrite float_text_numeric by done. by apply numeric_printable.
  - by apply dump_string_printable.
  - constructor; [done|]. apply Forall_app_2; [|by repeat constructor].
    apply join_codes_Forall; [by repeat constructor|]. rewrite Forall_forall in *. auto.
  - constructor; [done|]. apply Forall_app_2; [|by repeat constructor].
    apply join_codes_Forall; [by repeat constructor|]. rewrite !Forall_forall in *. intros kv Hkv.
    repeat apply Forall_app_2.
    + by apply dump_string_printable, H2.
    + by repeat constructor.
    + auto.
Qed.

(** ** Reading back *)

(** What a value starts with: neither blank nor a closing bracket. *)
Definition opens (c : Z) : bool := negb (memb c [32; 9; 10; 13; 93; 125]).

Lemma dump_head j : clean j -> exists c t, dump j = c :: t /\ opens c = true.
Proof.
  assert (Hn : forall t k, Forall (fun c => numeric c = true) t -> number t = Some k ->
            exists c t', t = c :: t' /\ opens c = true).
  { intros [|c t] k Ht Hk; [done|]. exists c, t. split; [done|]. apply Forall_cons in Ht as [Hc%numeric_range _].
    unfold opens. rewrite negb_true_iff. apply not_true_is_false. rewrite memb_spec, list_elem_of_In. simpl. lia. }
  inversion 1; subst; cbn [dump]; try (by eexists _, _).
  - case_match; by eexists _, _.
  - destruct (int_codes z). eauto.
  - rewrite float_text_numeric by done. eauto.
Qed.

Lemma skip_opens c t : opens c = true -> skip_ws (c :: t) = c :: t.
Proof.
  unfold opens. rewrite negb_true_iff. intros H. cbn [skip_ws].
  assert (memb c [32; 9; 10; 13] = false) as ->; [|done].
  apply not_true_is_false. rewrite memb_spec. apply (f_equal negb) in H. simpl in H.
  rewrite negb_true_iff in H. intros Hc. apply not_true_iff_false in H. apply H, memb_spec.
  rewrite list_elem_of_In in *. simpl in *. tauto.
Qed.

Lemma read_value_space f l : read_value f (32 :: l) = read_value f l.
Proof. by destruct f. Qed.
Lemma read_items_space f l : read_items f (32 :: l) = read_items f l.
Proof. destruct f as [|f]; [done|]. cbn [read_items]. by rewrite read_value_space. Qed.
Lemma read_members_space f l : read_members f (32 :: l) = read_members f l.
Proof. by destruct f. Qed.

(** [j] is read back wherever it stands. *)
Definition reads (j : json) : Prop := forall f r, (need j <= f)%nat -> stops r ->
  read_value f (dump j ++ r) = Some (j, r).

Lemma read_items_dumped l f r : l <> [] -> Forall reads l -> (list_sum (map (fun x => S (need x)) l) <= f)%nat ->
  read_items f (join_codes [44; 32] (map dump l) ++ 93 :: r) = Some (l, r).
Proof.
  intros Hne H. revert f. induction H as [|x l Hx Hl IH]; intros f Hf; [done|]. cbn [map list_sum foldr] in Hf.
  destruct f as [|f]; [lia|]. cbn [map join_codes]. destruct l as [|y l].
  - cbn [map read_items]. by rewrite Hx by (lia || done).
  - cbn [map]. change (dump y :: map dump l) with (map dump (y :: l)). rewrite <- !app_assoc.
    cbn [read_items app]. rewrite Hx by (lia || done). cbn [skip_ws].
    change (memb 44 _) with false. change (44 =? 44) with true. cbv iota.
    rewrite read_items_space, IH; [done..|]. cbn [map list_sum foldr] in *. lia.
Qed.

Lemma read_members_dumped kvs f r : kvs <> [] ->
  Forall (fun kv => is_text kv.1) kvs -> Forall (fun kv => reads kv.2) kvs ->
  (list_sum (map (fun kv => S (need kv.2)) kvs) <= f)%nat ->
  read_members f (join_codes [44; 32] (map (fun kv => dump_string kv.1 ++ [58; 32] ++ dump kv.2) kvs) ++ 125 :: r) =
  Some (kvs, r).
Proof.
  intros Hne Hk H. revert f. induction H as [|[k v] kvs Hv Hl IH]; intros f Hf; [done|].
  cbn [map list_sum foldr] in Hf. destruct f as [|f]; [lia|]. apply Forall_cons in Hk as [Hc Hk].
  cbn [fst snd] in *. cbn [map join_codes].
  assert (Hone : forall rest, stops rest -> read_members (S f) ((dump_string k ++ [58; 32] ++ dump v) ++ rest) =
    match skip_ws rest with
    | c :: r' => if c =? 44 then (fun p => ((k, v) :: p.1, p.2)) <$> read_members f r'
                 else if c =? 125 then Some ([(k, v)], r') else None
    | [] => None
    end).
  { intros rest Hr. rewrite <- !app_assoc. destruct (read_dumped_string k ([58; 32] ++ dump v ++ rest) Hc) as (r' & -> & Hs).
    cbn [read_members skip_ws]. change (memb 34 _) with false. cbv iota. rewrite Hs. cbn [app skip_ws].
    change (memb 58 _) with false. cbv iota. rewrite read_value_space, Hv by (lia || done). done. }
  destruct kvs as [|kv kvs].
  - cbn [map]. by rewrite Hone by done.
  - cbn [map]. rewrite <- app_assoc. rewrite Hone by done. cbn [app skip_ws].
    change (memb 44 _) with false. change (44 =? 44) with true. cbv iota.
    rewrite read_members_space. cbn [map] in IH. rewrite IH; [done..|]. cbn [map list_sum foldr] in *. lia.
Qed.

Lemma join_codes_head {A} (g : A -> list Z) sep x l c t : g x = c :: t ->
  exists t', join_codes sep (map g (x :: l)) = c :: t'.
Proof. intros E. cbn [map join_codes]. rewrite E. destruct (map g l); cbn [app]; eauto. Qed.

Ltac not_closing c := destruct c as [|c|c]; [done| |done]; do 7 (destruct c; try done).

Lemma dumped_reads j : clean j -> reads j.
Proof.
  induction j as [|b|z|repr|s|l IH|kvs IH] using json_induction; inversion 1; subst; intros f r Hf Hr;
    (destruct f as [|f]; [cbn [need] in Hf; lia|]).
  - done.
  - by destruct b.
  - cbn [dump]. destruct (int_codes z). by apply read_numeral.
  - cbn [dump]. rewrite float_text_numeric by done. by apply read_numeral.
  - cbn [dump]. destruct (read_dumped_string s r) as (r' & -> & Hs); [done|].
    cbn [read_value skip_ws]. change (memb 34 _) with false. cbv iota. change (34 =? 34) with true. by rewrite Hs.
  - cbn [dump need app read_value skip_ws] in *. change (memb 91 _) with false. cbv iota.
    change (91 =? 34) with false. change (91 =? 91) with true. cbv iota. rewrite <- app_assoc. cbn [app].
    destruct l as [|x l]; [done|].
    assert (Hall : Forall reads (x :: l)) by (rewrite Forall_forall in *; eauto).
    pose proof (read_items_dumped (x :: l) f r ltac:(done) Hall ltac:(lia)) as Hi.
    destruct (dump_head x) as (c & t & Ec & Ho); [by apply Forall_inv in H1|].
    destruct (join_codes_head dump [44; 32] x l c t Ec) as [t' Ej]. rewrite Ej in *. cbn [app] in *.
    rewrite skip_opens, Hi by done. clear -Ho. not_closing c.
  - cbn [dump need app read_value skip_ws] in *. change (memb 123 _) with false. cbv iota.
    change (123 =? 34) with false. change (123 =? 91) with false. change (123 =? 123) with true. cbv iota.
    rewrite <- app_assoc. cbn [app]. destruct kvs as [|x kvs]; [done|].
    assert (Hall : Forall (fun kv => reads kv.2) (x :: kvs)) by (rewrite Forall_forall in *; eauto).
    pose proof (read_members_dumped (x :: kvs) f r ltac:(done) ltac:(done) Hall ltac:(lia)) as Hi.
    edestruct (join_codes_head (fun kv => dump_string kv.1 ++ [58; 32] ++ dump kv.2) [44; 32] x kvs 34) as [t' Ej];
      [reflexivity|].
    rewrite Ej in Hi. cbn [app] in Hi, Ej. rewrite Ej. cbn [app]. rewrite skip_opens by done. rewrite Hi. simpl.
    by rewrite dict_of_pairs.
Qed.

Lemma join_codes_length {A} (g : A -> list Z) sep l : length sep = 2%nat ->
  (list_sum (map (fun x => length (g x)) l) + 2 * length l <= length (join_codes sep (map g l)) + 2)%nat.
Proof.
  intros Hs. induction l as [|x l IH]; [simpl; lia|]. cbn [map join_codes]. destruct l as [|y l]; [simpl; lia|].
  cbn [map] in *. change (g y :: map g l) with (map g (y :: l)) in *. rewrite !length_app, Hs.
  unfold list_sum in *. simpl in *. lia.
Qed.

Lemma list_sum_le {A} (g h : A -> nat) l : Forall (fun x => (g x <= h x)%nat) l ->
  (list_sum (map g l) <= list_sum (map h l))%nat.
Proof. unfold list_sum. induction 1; simpl; lia. Qed.

Lemma list_sum_S {A} (g : A -> nat) l : list_sum (map (fun x => S (g x)) l) = (list_sum (map g l) + length l)%nat.
Proof. unfold list_sum. induction l; simpl; lia. Qed.

Lemma need_length j : clean j -> (need j <= length (dump j))%nat.
Proof.
  induction j as [|b|z|repr|s|l IH|kvs IH] using json_induction; intros Hj;
    try (destruct (dump_head _ Hj) as (c & t & -> & _); simpl; lia); inversion Hj; subst; cbn [dump need length].
  - rewrite length_app. simpl. pose proof (join_codes_length dump [44; 32] l eq_refl). rewrite list_sum_S.
    enough (list_sum (map need l) <= list_sum (map (fun x => length (dump x)) l))%nat by (destruct l; simpl in *; lia).
    apply list_sum_le. rewrite Forall_forall in *. auto.
  - rewrite length_app. simpl.
    pose proof (join_codes_length (fun kv => dump_string kv.1 ++ [58; 32] ++ dump kv.2) [44; 32] kvs eq_refl) as Hl.
    rewrite list_sum_S. cbn [app] in *.
    enough (list_sum (map (fun kv => need kv.2) kvs) <=
            list_sum (map (fun kv => length (dump_string kv.1 ++ 58%Z :: 32%Z :: dump kv.2)) kvs))%nat
      by (destruct kvs; simpl in *; lia).
    apply list_sum_le. rewrite !Forall_forall in *. intros kv Hkv. rewrite length_app. simpl.
    specialize (IH kv Hkv ltac:(auto)). lia.
Qed.

Lemma dump_codes j : clean j -> codes (json_dumps j) = dump j.
Proof.
  intros Hj. apply codes_of_codes. eapply Forall_impl; [by apply dump_printable|].
  unfold printable, byte_code. lia.
Qed.

(** [json.loads(json.dumps(j)) == j]. *)
Lemma loads_dumps j : clean j -> json_loads (json_dumps j) = Some j.
Proof.
  intros Hj. unfold json_loads. rewrite dump_codes by done.
  pose proof (dumped_reads j Hj (S (length (dump j))) []) as Hr. rewrite app_nil_r in Hr.
  rewrite Hr; [done| |done]. pose proof (need_length j Hj). lia.
Qed.

(** ** The fuel is enough for any text *)

Lemma skip_ws_le l : (length (skip_ws l) <= length l)%nat.
Proof. induction l as [|c l IH]; simpl; [lia|]. destruct (memb _ _); simpl; lia. Qed.

Lemma read_units_shorter n : forall l us r, (length l <= n)%nat -> read_units l = Some (us, r) ->
  (length r < length l)%nat.
Proof.
  induction n as [|n IH]; intros l us r Hl; (destruct l as [|c l1]; [done|]); [simpl in Hl; lia|].
  assert (Hrec : forall (f : list Z -> list Z) l', (length l' < length (c :: l1))%nat ->
    (fun p => (f p.1, p.2)) <$> read_units l' = Some (us, r) -> (length r < length (c :: l1))%nat).
  { intros f l' Hl' H. destruct (read_units l') as [[us' r']|] eqn:E; [|done]. injection H as <- <-.
    apply IH in E; simpl in *; lia. }
  cbn [read_units]. destruct (c =? 34); [intros [= _ <-]; simpl; lia|]. destruct (c =? 92).
  - destruct l1 as [|e l2]; [done|]. destruct (e =? 117).
    + destruct l2 as [|h1 [|h2 [|h3 [|h4 l3]]]]; try done. destruct (hex4 _ _ _ _) as [u|]; [|done].
      apply (Hrec (cons u)). simpl. lia.
    + destruct (simple_escape e) as [u|]; [|done]. apply (Hrec (cons u)). simpl. lia.
  - destruct (c <? 32); [done|]. apply (Hrec (cons c)). simpl. lia.
Qed.

Lemma read_string_shorter l s r : read_string l = Some (s, r) -> (length r < length l)%nat.
Proof.
  unfold read_string. destruct (read_units l) as [[us r']|] eqn:E; [|done]. intros [= _ <-].
  by apply (read_units_shorter (length l)) in E.
Qed.

Lemma literal_length p : forall l r, literal p l = Some r -> (length l = length p + length r)%nat.
Proof.
  induction p as [|a p IH]; intros l r; simpl; [by intros [= ->]|]. destruct l as [|b l]; [done|].
  destruct (a =? b); [|done]. intros H%IH. simpl. lia.
Qed.

Lemma span_num_length l : forall t r, span_num l = (t, r) -> (length l = length t + length r)%nat.
Proof.
  induction l as [|c l IH]; intros t r; simpl; [by intros [= <- <-]|].
  destruct (_ || _); [|intros [= <- <-]; simpl; lia]. destruct (span_num l) as [t' r'] eqn:E.
  intros [= <- <-]. simpl. by rewrite (IH t' r' eq_refl).
Qed.

(** The text of a value that opens no bracket. *)
Definition read_atom (l : list Z) : option (json * list Z) :=
  match literal (codes "null") l, literal (codes "true") l, literal (codes "false") l with
  | Some r', _, _ => Some (JNull, r')
  | _, Some r', _ => Some (JBool true, r')
  | _, _, Some r' => Some (JBool false, r')
  | _, _, _ => let '(t, r') := span_num l in
               match number t with Some j => Some (j, r') | None => constant l end
  end.

Lemma read_atom_shorter l j r : read_atom l = Some (j, r) -> (length r < length l)%nat.
Proof.
  unfold read_atom, constant.
  assert (Hlit : forall p r', literal p l = Some r' -> p <> [] -> (length r' < length l)%nat).
  { intros p r' H%literal_length Hp. destruct p; [done|]. simpl in H. lia. }
  repeat (case_match; try done); intros; simplify_eq;
    try (by eapply Hlit; [eassumption|by vm_compute]).
  match goal with H : span_num l = _ |- _ => apply span_num_length in H end.
  match goal with H : number ?t = _ |- _ => destruct t; [done|] end. simpl in *. lia.
Qed.

(** Brackets by their code. *)
Ltac by_code l := destruct l as [|c l]; [done|]; destruct c as [|c|c]; [done| |done]; do 7 (destruct c; try done).

Lemma close_list l (b : option (json * list Z)) :
  match l with 93 :: r => Some (JList [], r) | _ => b end =
  match l with c :: r => if c =? 93 then Some (JList [], r) else b | [] => b end.
Proof. by_code l. Qed.
Lemma close_obj l (b : option (json * list Z)) :
  match l with 125 :: r => Some (JObj [], r) | _ => b end =
  match l with c :: r => if c =? 125 then Some (JObj [], r) else b | [] => b end.
Proof. by_code l. Qed.
Lemma open_key l (g : list Z -> option (list (string * json) * list Z)) :
  match l with 34 :: r => g r | _ => None end =
  match l with c :: r => if c =? 34 then g r else None | [] => None end.
Proof. by_code l. Qed.
Lemma after_key l (g : list Z -> option (list (string * json) * list Z)) :
  match l with 58 :: r => g r | _ => None end =
  match l with c :: r => if c =? 58 then g r else None | [] => None end.
Proof. by_code l. Qed.

(** What was read with fuel [F] is read with as much as it has characters. *)
Definition enough {A} (read : nat -> list Z -> option (A * list Z)) (F : nat) : Prop :=
  forall l a r, read F l = Some (a, r) -> (length r < length l)%nat /\
    forall f, (length l - length r <= f)%nat -> read f l = Some (a, r).

Lemma value_enough F : enough read_items F -> enough read_members F -> enough read_value (S F).
Proof.
  intros IHi IHm.
  intros l j r. cbn [read_value]. pose proof (skip_ws_le l) as Hw. destruct (skip_ws l) as [|c l1] eqn:Hl; [done|].
  simpl in Hw. fold (read_atom (c :: l1)).
  intros H. enough (Hx : (length r < length (c :: l1))%nat /\ forall f, (length (c :: l1) - length r <= S f)%nat ->
    (if c =? 34 then (fun p => (JStr p.1, p.2)) <$> read_string l1
     else if c =? 91 then match skip_ws l1 with 93 :: r' => Some (JList [], r')
                          | _ => (fun p => (JList p.1, p.2)) <$> read_items f l1 end
     else if c =? 123 then match skip_ws l1 with 125 :: r' => Some (JObj [], r')
                           | _ => (fun p => (JObj (dict_of p.1), p.2)) <$> read_members f l1 end
     else read_atom (c :: l1)) = Some (j, r)).
  { destruct Hx as [Hx1 Hx2]. simpl in Hx1. split; [lia|]. intros [|f] Hf; [lia|]. cbn [read_value].
    rewrite Hl. fold (read_atom (c :: l1)). apply Hx2. simpl. lia. }
  destruct (c =? 34).
  { split; [|done]. destruct (read_string l1) as [[s r']|] eqn:Hs; [|done]. injection H as _ <-.
    apply read_string_shorter in Hs. simpl. lia. }
  destruct (c =? 91).
  { rewrite close_list in H. setoid_rewrite close_list. pose proof (skip_ws_le l1) as Hw1.
    destruct (skip_ws l1) as [|c' r'] eqn:Hl1; [|destruct (c' =? 93)];
      try (injection H as <- <-; simpl in *; split; [lia|done]).
    all: destruct (read_items F l1) as [[js r1]|] eqn:Hi; [|done]; injection H as <- <-;
      destruct (IHi _ _ _ Hi) as [H1 H2]; split; [simpl; lia|]; intros f Hf; rewrite H2 by (simpl in *; lia); done. }
  destruct (c =? 123).
  { rewrite close_obj in H. setoid_rewrite close_obj. pose proof (skip_ws_le l1) as Hw1.
    destruct (skip_ws l1) as [|c' r'] eqn:Hl1; [|destruct (c' =? 125)];
      try (injection H as <- <-; simpl in *; split; [lia|done]).
    all: destruct (read_members F l1) as [[js r1]|] eqn:Hi; [|done]; injection H as <- <-;
      destruct (IHm _ _ _ Hi) as [H1 H2]; split; [simpl; lia|]; intros f Hf; rewrite H2 by (simpl in *; lia); done. }
  split; [by eapply read_atom_shorter|done].
Qed.

Lemma items_enough F : enough read_value F -> enough read_items F -> enough read_items (S F).
Proof.
  intros IHv IHi.
  intros l js r. cbn [read_items]. destruct (read_value F l) as [[j r1]|] eqn:Hv; [|done].
  destruct (IHv _ _ _ Hv) as [H1 H2]. pose proof (skip_ws_le r1) as Hw.
  destruct (skip_ws r1) as [|c r2] eqn:Hs; [done|]. simpl in Hw. intros H.
  enough (Hx : (length r < length r1)%nat /\ forall f, (length r1 - length r <= S f)%nat ->
    (if c =? 44 then (fun p => (j :: p.1, p.2)) <$> read_items f r2
     else if c =? 93 then Some ([j], r2) else None) = Some (js, r)).
  { destruct Hx as [Hx1 Hx2]. split; [lia|]. intros [|f] Hf; [lia|]. cbn [read_items].
    rewrite H2, Hs by lia. apply Hx2. lia. }
  destruct (c =? 44); [|destruct (c =? 93); [injection H as <- <-; split; [lia|done]|done]].
  destruct (read_items F r2) as [[js' r3]|] eqn:Hi; [|done]. injection H as <- <-.
  destruct (IHi _ _ _ Hi) as [H3 H4]. split; [lia|]. intros f Hf. by rewrite H4 by lia.
Qed.

Lemma members_enough F : enough read_value F -> enough read_members F -> enough read_members (S F).
Proof.
  intros IHv IHm.
  intros l kvs r. cbn [read_members]. rewrite open_key.
  pose proof (skip_ws_le l) as Hw. destruct (skip_ws l) as [|c l0] eqn:Hl; [done|]. simpl in Hw.
  destruct (c =? 34) eqn:Hq; [|done]. destruct (read_string l0) as [[k r1]|] eqn:Hk; [|done].
  apply read_string_shorter in Hk as Hk1. rewrite after_key. pose proof (skip_ws_le r1) as Hw1.
  destruct (skip_ws r1) as [|c1 r2] eqn:Hr1; [done|]. simpl in Hw1. destruct (c1 =? 58) eqn:Hq1; [|done].
  destruct (read_value F r2) as [[j r3]|] eqn:Hv; [|done].
  destruct (IHv _ _ _ Hv) as [H1 H2]. pose proof (skip_ws_le r3) as Hw3.
  destruct (skip_ws r3) as [|c2 r4] eqn:Hs; [done|]. simpl in Hw3. intros H.
  enough (Hx : (length r < length r3)%nat /\ forall f, (length r3 - length r <= S f)%nat ->
    (if c2 =? 44 then (fun p => ((k, j) :: p.1, p.2)) <$> read_members f r4
     else if c2 =? 125 then Some ([(k, j)], r4) else None) = Some (kvs, r)).
  { destruct Hx as [Hx1 Hx2]. split; [lia|]. intros [|f] Hf; [lia|]. cbn [read_members].
    rewrite open_key, Hl, Hq, Hk, after_key, Hr1, Hq1, H2, Hs by lia. apply Hx2. lia. }
  destruct (c2 =? 44); [|destruct (c2 =? 125); [injection H as <- <-; split; [lia|done]|done]].
  destruct (read_members F r4) as [[js' r5]|] eqn:Hi; [|done]. injection H as <- <-.
  destruct (IHm _ _ _ Hi) as [H3 H4]. split; [lia|]. intros f Hf. by rewrite H4 by lia.
Qed.

Lemma read_enough F : enough read_value F /\ enough read_items F /\ enough read_members F.
Proof.
  induction F as [|F (Hv & Hi & Hm)]; [by split_and!|].
  auto using value_enough, items_enough, members_enough.
Qed.

(** A text that is a JSON value is loaded: no amount of fuel reads more. *)
Lemma json_loads_complete fuel s j r :
  read_value fuel (codes s) = Some (j, r) -> skip_ws r = [] -> json_loads s = Some j.
Proof.
  intros Hv Hr. destruct (proj1 (read_enough fuel) _ _ _ Hv) as [_ Hf]. unfold json_loads.
  rewrite Hf by lia. by rewrite bool_decide_true.
Qed.
