(* ===== verification/LiberatorExamples.v ===== *)
(** * LiberatorExamples: the Liberator theorems applied to concrete runs *)

From S2P Require Import Prelude Decimals Contracts StateMachine Events Store StoreInv StoreProps Config Cache Adapters Gates HandleRecovery Router RouterProps CancelAmend SimLifecycle RouterExamples Liberator Reconciler ReconcileCore ReconcileCoreProps ReconcilerProps ReconcilerExamples LiberatorProps.
From stdpp Require Import base gmap strings list relations.
From Stdlib Require Import ZArith Lia.
Open Scope Z_scope.

Lemma lib_order_wf c : order_wf (lib_order c).
Proof.
  split; simpl; try done; try (by intros p [= <-]); try (by intros [|]);
    try (by intros _; eexists).
Qed.

(** A stop order on a future. *)
Definition lib_stop : NormalizedOrder :=
  {| no_client_order_id := "c1"; no_broker := LIBERATOR;
     no_account := "acct"; no_market := TFEX; no_symbol := "S50U26"; no_side := SELL;
     no_order_type := STOP_LIMIT; no_price := Some (Dec 9005 (-1)); no_stop_price := Some (Dec 9012 (-1));
     no_quantity := 2; no_display_qty := None; no_tif := DAY; no_position_effect := Some CLOSE;
     no_metadata := [] |}.

Lemma lib_stop_wf : order_wf lib_stop.
Proof.
  split; simpl; try done; try (by intros p [= <-]); try (by intros _; eexists); try (by intros [|]).
Qed.

Lemma place_payload_faithful_witness :
  exists payload, to_place_payload (lib_order "c1") = Ok payload /\
    payload_reads (lib_order "c1") payload /\
  exists payload, to_place_payload lib_stop = Ok payload /\ payload_reads lib_stop payload /\
    jget "stopPrice" payload = JStr "901.2".
Proof.
  eexists. split; [reflexivity|].
  split; [exact (place_payload_faithful (lib_order "c1") _ (lib_order_wf "c1") eq_refl eq_refl)|].
  eexists. split; [reflexivity|].
  split; [exact (place_payload_faithful lib_stop _ lib_stop_wf eq_refl eq_refl)|]. vm_compute. reflexivity.
Defined.

(** ** A bridge that accepts without an order number *)

Definition accepted (result : json) : LiberatorEnvelope :=
  {| le_success := true; le_message := None;
     le_data := Some {| ld_error_code := Some 0; ld_err_msg := None; ld_result := result |};
     le_detail := JNull |}.

Definition fresh_session : LiberatorSession :=
  {| ls_breaker := SessionCircuitBreaker_new 3; ls_order_no_cache := ∅; ls_awaiting_order_no := ∅;
     ls_last_heartbeat_ok := None |}.

Definition session_world : world unit LiberatorSession :=
  {| w_db := db_empty; w_hub := None; w_redis := tt; w_venue := fresh_session; w_now := 1000;
     w_entropy := 0 |}.

Definition ex_post (result : json) (_ : string) (_ : list (string * json))
    : M exn (world unit LiberatorSession) LiberatorEnvelope := ret (accepted result).

Lemma place_cancel_handle_witness :
  let result := JObj [("orderNo"%string, JStr "V7")] in
  let w1 := (lib_place id (fun s _ => s) (ex_post result) (ret tt) (lib_order "c1") session_world).2 in
  lib_cancel id (ex_post result) None "c1" w1 = (Ok {| ca_ok := true; ca_reason := None |}, w1).
Proof.
  intros result w1.
  destruct (place_cancel_handle id (fun s _ => s) (ex_post result) (ret tt) None
    (fun _ _ => eq_refl) (lib_order "c1") session_world w1 (accepted_ack (Some "V7"%string)) eq_refl)
    as [H _].
  exact (H "V7"%string eq_refl).
Defined.
