(* ===== verification/PyFloat.v ===== *)
(** * PyFloat: [int(float(s))] of a numeral

    The integer part of the nearest binary64 is what the code keeps; and [int] of
    a string and of a decoded value. *)

From S2P Require Import Prelude Decimals Contracts Digits FloatRepr Liberator.
From stdpp Require Import base strings list.
From Stdlib Require Import ZArith Lia.
Open Scope Z_scope.

(** The integer part of the float nearest to [d], or the overflow to infinity. *)
Definition float_int (d : Decimal) : option Z :=
  match float_of (Z.abs (d_coeff d)) (d_exp d) with
  | None => None
  | Some (m, k) => Some (Z.sgn (d_coeff d) * if 0 <=? k then m * 2 ^ k else m / 2 ^ (- k))
  end.

Example float_int_1 : float_int (Dec 1005 (-1)) = Some 100.
Proof. vm_compute. reflexivity. Qed.
Example float_int_2 : float_int (Dec 99999999999999999999 (-18)) = Some 100.
Proof. vm_compute. reflexivity. Qed.
Example float_int_3 : float_int (Dec (-9007199254740993) 0) = Some (-9007199254740992).
Proof. vm_compute. reflexivity. Qed.
Example float_int_4 : float_int (Dec 1 309) = None.
Proof. vm_compute. reflexivity. Qed.
Example float_int_5 : float_int (Dec 0 0) = Some 0.
Proof. vm_compute. reflexivity. Qed.

(** [float] takes an underscore only between two digits. *)
Fixpoint underscores_ok (after_digit : bool) (l : list Ascii.ascii) : bool :=
  match l with
  | [] => true
  | a :: l' =>
      if char_code a =? 95
      then after_digit && match l' with b :: _ => is_digit b | [] => false end && underscores_ok false l'
      else underscores_ok (is_digit a) l'
  end.

(** [int(float(s))]: [Ok None] stands for the [ValueError] of a string that is no
    numeral (or is "nan"), the error for the [OverflowError] of an infinity. *)
Definition int_float (s : string) : result exn (option Z) :=
  let l := strip_with is_space (String.list_ascii_of_string s) in
  let '(_, word) := take_sign l in
  if memb (py_upper (String.string_of_list_ascii word)) ["INF"; "INFINITY"]%string
  then Err (OtherError "OverflowError")
  else if negb (underscores_ok false l) then Ok None
  else match decimal_of_string s with
       | None => Ok None
       | Some d => match float_int d with
                   | Some z => Ok (Some z)
                   | None => Err (OtherError "OverflowError")
                   end
       end.

Example int_float_1 : int_float " 1_00.9 " = Ok (Some 100).
Proof. vm_compute. reflexivity. Qed.
Example int_float_2 : int_float "1__0" = Ok None.
Proof. vm_compute. reflexivity. Qed.
Example int_float_3 : int_float "-3.7e1" = Ok (Some (-37)).
Proof. vm_compute. reflexivity. Qed.

(** [int(s)] of an ASCII string. *)
Definition py_int_of_string (s : string) : option Z :=
  let l := strip_with is_space (String.list_ascii_of_string s) in
  let '(sign, ds) := take_sign l in
  match ds with
  | [] => None
  | _ =>
      if forallb (fun a => is_digit a || (char_code a =? 95)) ds && underscores_ok false ds
      then let v := fold_left (fun acc a => if is_digit a then 10 * acc + (char_code a - 48) else acc)
                      ds 0 in
           Some (sign * v)
      else None
  end.

Example py_int_of_string_1 : py_int_of_string " +1_024 " = Some 1024.
Proof. reflexivity. Qed.
Example py_int_of_string_2 : py_int_of_string "12a" = None.
Proof. reflexivity. Qed.
Example py_int_of_string_3 : py_int_of_string "" = None.
Proof. reflexivity. Qed.

(** [int(v)] of a decoded value. *)
Definition py_int (v : json) : result exn Z :=
  match v with
  | JInt z => Ok z
  | JBool b => Ok (if b then 1 else 0)
  | JStr s => match py_int_of_string s with Some z => Ok z | None => Err (ValueError "invalid literal") end
  | JFloat repr => result_bind (int_float repr) (fun o =>
                     match o with Some z => Ok z | None => Err (ValueError "invalid literal") end)
  | _ => Err (OtherError "TypeError")
  end.
