(* ===== verification/StreamingPro.v ===== *)
(** * StreamingPro: the Streaming Pro broker's wire and adapter

    [adapters/streaming_pro/models.py] (the bridge's answers and the order rows of
    both markets), [mapping.py] (the wire in both directions) and [adapter.py].
    The HTTP bridge, the rate limiter's wait and pydantic's coercion of one field
    value are parameters.  Names that the
    Liberator files also declare carry the prefix [sp_]. *)

From S2P Require Import Prelude Decimals Contracts StateMachine Events Store StoreInv Config Adapters Digits PyTime PyIso Liberator PyFloat Sha256 SyntheticId.
From stdpp Require Import base gmap strings list relations.
From Stdlib Require Import ZArith Lia.
Open Scope Z_scope.

(** ** models.py *)

Record BridgePlace := {
  bp_ok : bool;
  bp_order_no : option string;
  bp_ext_order_no : option string;
  bp_status : option string;
  bp_reason : option string;
  bp_detail : json;
}.

(** The first part that is true, as a string. *)
Definition bridge_reject_reason (p : BridgePlace) : string :=
  if str_true (bp_reason p) then default "" (bp_reason p)
  else if json_true (bp_detail p) then py_str (bp_detail p)
  else if str_true (bp_status p) then default "" (bp_status p)
  else "streaming_pro rejected the request".

Record VenueOrderRow := {
  vr_order_no : string;
  vr_account_no : string;
  vr_ext_order_no : string;
  vr_order_no_fis : string;
  vr_symbol : string;
  vr_side : string;
  vr_position : option string;
  vr_price_type : string;
  vr_price : option Decimal;
  vr_status : string;
  vr_reject_reason : string;
  vr_validity_type : string;
  vr_volume : Z;
  vr_matched : Z;
  vr_balance : Z;
  vr_cancelled : Z;
  vr_status_show : string;
  vr_entry_time : option PyDatetime;
}.

(** pydantic's lax coercion of one value, [None] when it refuses it. *)
Class Coercions := {
  pd_str : json -> option string;
  pd_int : json -> option Z;
  pd_decimal : json -> option Decimal;
  pd_datetime : json -> option PyDatetime;
}.

(** The documented cases: a value already of the field's type is kept. *)
Class CoercionsSpec `{Coercions} := {
  pd_str_str s : pd_str (JStr s) = Some s;
  pd_int_int z : pd_int (JInt z) = Some z;
}.

Section models.
Context `{Coercions}.
Abbreviation dict := (list (string * json)).

(** [":" in text] *)
Definition has_char (code : Z) (s : string) : bool :=
  List.existsb (fun a => char_code a =? code) (String.list_ascii_of_string s).

(** [str(data.get("entryDate") or "").strip()] *)
Definition entry_date (data : dict) : string :=
  py_strip (if json_true (jget "entryDate" data) then py_str (jget "entryDate" data) else "").

(** What the validator leaves under [entryTime] of a row that has one. *)
Definition _compose_entry_time (data : dict) : option PyDatetime :=
  match jget "entryTime" data with
  | JStr raw =>
      let text := py_strip raw in
      if String.eqb text "" then None
      else if (Z.of_nat (String.length text) <=? 8) && has_char 58 text
      then in_venue_tz <$> strptime (entry_date data +:+ " " +:+ text)%string
      else fromisoformat text
  | _ => None
  end.

(** The first of the keys that is present (aliases, then the field's name). *)
Fixpoint field_of (keys : list string) (data : dict) : option json :=
  match keys with
  | [] => None
  | k :: keys' => match jassoc k data with Some v => Some v | None => field_of keys' data end
  end.

Definition field {A} (coerce : json -> option A) (dflt : A) (keys : list string) (data : dict)
    : result exn A :=
  match field_of keys data with
  | None => Ok dflt
  | Some v => match coerce v with Some a => Ok a | None => Err ValidationError end
  end.

(** [T | None] *)
Definition nullable {A} (coerce : json -> option A) (v : json) : option (option A) :=
  match v with JNull => Some None | _ => Some <$> coerce v end.

Definition str_field : string -> list string -> dict -> result exn string := field pd_str.
Definition int_field : Z -> list string -> dict -> result exn Z := field pd_int.

Definition row_entry_time (data : dict) : result exn (option PyDatetime) :=
  match jassoc "entryTime" data with
  | Some _ => Ok (_compose_entry_time data)
  | None => field (nullable pd_datetime) None ["entry_time"%string] data
  end.

(** [VenueOrderRow.model_validate(data)] *)
Definition VenueOrderRow_validate (data : dict) : result exn VenueOrderRow :=
  let s d ks := str_field d ks data in
  let n ks := int_field 0 ks data in
  result_bind (match field_of ["orderNo"; "order_no"]%string data with
               | None => Err ValidationError
               | Some v => match pd_str v with Some x => Ok x | None => Err ValidationError end
               end) (fun order_no =>
  result_bind (s "" ["accountNo"; "account_no"])%string (fun account_no =>
  result_bind (s "" ["extOrderNo"; "ext_order_no"])%string (fun ext =>
  result_bind (s "" ["orderNoFis"; "order_no_fis"])%string (fun fis =>
  result_bind (s "" ["symbol"])%string (fun symbol =>
  result_bind (s "" ["side"])%string (fun side =>
  result_bind (field (nullable pd_str) None ["position"%string] data) (fun position =>
  result_bind (s "" ["priceType"; "price_type"])%string (fun price_type =>
  result_bind (field (nullable pd_decimal) None ["price"%string] data) (fun price =>
  result_bind (s "" ["status"])%string (fun status =>
  result_bind (s "" ["rejectReason"; "reject_reason"])%string (fun reject_reason =>
  result_bind (s "" ["validity"; "validity_type"])%string (fun validity =>
  result_bind (n ["qty"; "vol"; "volume"])%string (fun volume =>
  result_bind (n ["matchQty"; "matched"])%string (fun matched =>
  result_bind (n ["balanceQty"; "balance"])%string (fun balance =>
  result_bind (n ["cancelQty"; "cancelled"])%string (fun cancelled =>
  result_bind (s "" ["showStatus"; "showOrderStatus"; "status_show"])%string (fun status_show =>
  result_bind (row_entry_time data) (fun entry_time =>
  Ok {| vr_order_no := order_no; vr_account_no := account_no; vr_ext_order_no := ext;
        vr_order_no_fis := fis; vr_symbol := symbol; vr_side := side; vr_position := position;
        vr_price_type := price_type; vr_price := price; vr_status := status;
        vr_reject_reason := reject_reason; vr_validity_type := validity; vr_volume := volume;
        vr_matched := matched; vr_balance := balance; vr_cancelled := cancelled;
        vr_status_show := status_show; vr_entry_time := entry_time |})))))))))))))))))).

Definition _LIST_KEYS : list string := ["orders"; "list"; "results"; "data"; "portfolioList"].

(** The rows of a payload: a bare list, or the first listed key that holds one. *)
Definition payload_rows (payload : json) : list json :=
  match payload with
  | JObj o =>
      match List.find (fun k => match jget k o with JList _ => true | _ => false end) _LIST_KEYS with
      | Some k => match jget k o with JList l => l | _ => [] end
      | None => []
      end
  | JList l => l
  | _ => []
  end.

Fixpoint validate_rows (rows : list json) : result exn (list VenueOrderRow) :=
  match rows with
  | [] => Ok []
  | JObj o :: rows' =>
      result_bind (VenueOrderRow_validate o) (fun r =>
      result_bind (validate_rows rows') (fun rs => Ok (r :: rs)))
  | _ :: rows' => validate_rows rows'
  end.

Definition parse_order_rows (payload : json) : result exn (list VenueOrderRow) :=
  validate_rows (payload_rows payload).
End models.

(** ** mapping.py, paths *)

Definition sp_place_path (m : Market) : string :=
  match m with SET_ => "order/place/set" | TFEX => "order/place/tfex" end.
Definition sp_cancel_path : string := "order/cancel".

(** [quote_plus] of one character. *)
Definition quote_plus_char (a : Ascii.ascii) : list Ascii.ascii :=
  let c := char_code a in
  let hex n := Ascii.ascii_of_nat (Z.to_nat (if n <? 10 then 48 + n else 55 + n)) in
  if ((65 <=? c) && (c <=? 90)) || ((97 <=? c) && (c <=? 122)) || ((48 <=? c) && (c <=? 57)) ||
     memb c [95; 46; 45; 126]
  then [a]
  else if c =? 32 then [Ascii.ascii_of_nat 43]
  else [Ascii.ascii_of_nat 37; hex (c / 16); hex (c mod 16)].
Definition quote_plus (s : string) : string :=
  String.string_of_list_ascii (concat (map quote_plus_char (String.list_ascii_of_string s))).

Definition urlencode (query : list (string * string)) : string :=
  py_join "&" (map (fun kv => quote_plus kv.1 +:+ "=" +:+ quote_plus kv.2)%string query).

Definition sp_orders_path (account : string) (market : Market) : string :=
  ("orders?" +:+ urlencode [("account", account); ("market", Market_value market)])%string.
Definition portfolio_path (account : string) : string :=
  ("portfolio?" +:+ urlencode [("account", account)])%string.
Definition tfex_portfolio_path (account : string) : string :=
  ("tfex/portfolio?" +:+ urlencode [("account", account)])%string.
Definition account_path (account : string) : string :=
  ("account-info?" +:+ urlencode [("account", account)])%string.
Definition tfex_account_path (account : string) : string :=
  ("tfex/account-info?" +:+ urlencode [("account", account)])%string.

(** ** mapping.py, write side *)

Definition _wire_price (order : NormalizedOrder) : option string :=
  format_f <$> match no_price order with Some p => Some p | None => no_stop_price order end.

Definition price_entry (order : NormalizedOrder) : list (string * json) :=
  match _wire_price order with Some p => [("price"%string, JStr p)] | None => [] end.

Definition sp_to_set_payload (order : NormalizedOrder) : list (string * json) :=
  [("symbol", JStr (no_symbol order));
   ("side", JStr (Side_value (no_side order)));
   ("volume", JInt (no_quantity order));
   ("account", JStr (no_account order));
   ("price_type", JStr (OrderType_value (no_order_type order)));
   ("validity", JStr (Tif_value (no_tif order)))]%string ++ price_entry order.

Definition sp_to_tfex_payload (order : NormalizedOrder) : result exn (list (string * json)) :=
  match no_position_effect order with
  | None => Err (StreamingProMappingError "TFEX orders require position_effect")
  | Some pe =>
      Ok ([("symbol", JStr (no_symbol order));
           ("side", JStr (Side_value (no_side order)));
           ("position", JStr (PositionEffect_value pe));
           ("volume", JInt (no_quantity order));
           ("account", JStr (no_account order));
           ("price_type", JStr (OrderType_value (no_order_type order)));
           ("validity", JStr (Tif_value (no_tif order)))]%string ++ price_entry order)
  end.

Definition sp_to_place_payload (order : NormalizedOrder) : result exn (list (string * json)) :=
  match no_market order with
  | SET_ => Ok (sp_to_set_payload order)
  | TFEX => sp_to_tfex_payload order
  end.

Definition sp_to_cancel_payload (order_no : string) (market : Market) (account : string)
    (symbol ext_order_no : option string) : list (string * json) :=
  [("order_no", JStr order_no); ("market", JStr (Market_value market)); ("account", JStr account)]%string ++
  match market with
  | SET_ => [("ext_order_no", JStr (default "" ext_order_no)); ("symbol", JStr (default "" symbol))]%string
  | TFEX => []
  end.

(** ** mapping.py, read side *)

Definition _READ_SIDES (t : string) : option Side :=
  if memb t ["B"; "BUY"; "LONG"]%string then Some BUY
  else if memb t ["S"; "SELL"; "SHORT"]%string then Some SELL
  else None.
Definition sp_READ_PRICE_TYPES (t : string) : option OrderType :=
  if String.eqb t "LIMIT" then Some LIMIT else if String.eqb t "MARKET" then Some MARKET else None.
Definition sp_READ_POSITIONS (t : string) : option PositionEffect :=
  if String.eqb t "OPEN" then Some OPEN else if String.eqb t "CLOSE" then Some CLOSE else None.

Definition sp_from_venue_side (raw : string) : option Side := _READ_SIDES (token raw).

Definition venue_row_to_normalized (row : VenueOrderRow)
    (account : string) (market : Market) : option NormalizedOrder :=
  match sp_from_venue_side (vr_side row), sp_READ_PRICE_TYPES (token (vr_price_type row)) with
  | Some side, Some order_type =>
      let position := sp_READ_POSITIONS (token (default "" (vr_position row))) in
      match NormalizedOrder_new
        {| no_client_order_id := sp_synthetic_client_order_id (vr_order_no row);
           no_broker := STREAMING_PRO;
           no_account := str_or (vr_account_no row) account;
           no_market := market;
           no_symbol := vr_symbol row;
           no_side := side;
           no_order_type := order_type;
           no_price := vr_price row;
           no_stop_price := None;
           no_quantity := vr_volume row;
           no_display_qty := None;
           no_tif := DAY;
           no_position_effect := if decide (market = TFEX) then position else None;
           no_metadata := [] |}
      with
      | Ok o => Some o
      | Err _ => None
      end
  | _, _ => None
  end.

(** [token in blob] for strings *)
Fixpoint contains_list (p l : list Ascii.ascii) : bool :=
  starts_with p l || match l with [] => false | _ :: l' => contains_list p l' end.
Definition contains (sub s : string) : bool :=
  contains_list (String.list_ascii_of_string sub) (String.list_ascii_of_string s).

Definition sp_CANCELLED_STATUS : list string := ["CANCELLED"; "CANCELED"; "CXL"].
Definition sp_REJECTED_STATUS : list string := ["REJECTED"; "REJECT"].
Definition sp_EXPIRED_STATUS : list string := ["EXPIRED"; "EXPIRE"].

Definition sp_classify_venue_state (row : VenueOrderRow) : VenueOrderState.t :=
  if negb (String.eqb (py_strip (vr_reject_reason row)) "") then VenueOrderState.REJECTED
  else
    let blob := py_upper (vr_status row +:+ " " +:+ vr_status_show row)%string in
    if List.existsb (fun t => contains t blob) sp_CANCELLED_STATUS then VenueOrderState.CANCELLED
    else if List.existsb (fun t => contains t blob) sp_REJECTED_STATUS then VenueOrderState.REJECTED
    else if List.existsb (fun t => contains t blob) sp_EXPIRED_STATUS then VenueOrderState.EXPIRED
    else if (0 <? vr_cancelled row) && (vr_balance row =? 0) && (vr_matched row <? vr_volume row)
    then VenueOrderState.CANCELLED
    else VenueOrderState.RESTING.

Definition venue_row_to_view (row : VenueOrderRow)
    (market : Market) : VenueOrderView :=
  {| vv_venue_order_id := vr_order_no row;
     vv_market := Some market;
     vv_symbol := vr_symbol row;
     vv_side := sp_from_venue_side (vr_side row);
     vv_quantity := vr_volume row;
     vv_price := vr_price row;
     vv_matched_qty := vr_matched row;
     vv_remaining_qty := vr_balance row;
     vv_cancelled_qty := vr_cancelled row;
     vv_state := display_state (VenueOrderState.value (sp_classify_venue_state row))
                   (vr_volume row) (vr_matched row) (vr_balance row);
     vv_venue_status := vr_status row;
     vv_venue_status_code := vr_status_show row;
     vv_placed_at := isoformat <$> vr_entry_time row |}.

(** ** adapter.py *)

(** [(order_no, market, account, symbol)] *)
Abbreviation OrderRef := (string * Market * string * string)%type.

Definition sp_opt_decimal (body : list (string * json)) (key : string) : result exn (option Decimal) :=
  let parse s := match decimal_of_string s with
                 | Some d => Ok (Some d)
                 | None => Err InvalidOperation
                 end in
  match jget key body with
  | JInt z => Ok (Some (Dec z 0))
  | JFloat r => parse r
  | JStr s => parse s
  | _ => Ok None
  end.

Definition _coerce_int (value : json) : result exn (option Z) :=
  match value with
  | JInt z => Ok (Some z)
  | JStr s => int_float s
  | JFloat r => int_float r
  | _ => Ok None
  end.

(** One row of the SET portfolio: [None] when it is no holding. *)
Definition sp_position (account : string) (raw : list (string * json))
    : result exn (option Position) :=
  let volume := match jassoc "currentVolume" raw with
                | Some v => v
                | None => jget "actualVolume" raw
                end in
  result_bind (_coerce_int volume) (fun qty =>
  match jget "symbol" raw, qty with
  | JStr symbol, Some qty =>
      if qty =? 0 then Ok None
      else
        result_bind (sp_opt_decimal raw "amount") (fun cost =>
        result_bind (sp_opt_decimal raw "averagePrice") (fun avg =>
        result_bind (sp_opt_decimal raw "marketPrice") (fun mp =>
        result_bind (sp_opt_decimal raw "marketValue") (fun mv =>
        Ok (Some {| ps_account := account; ps_market := SET_; ps_symbol := symbol;
                    ps_net_qty := qty; ps_side := None; ps_cost_amount := cost;
                    ps_avg_price := avg; ps_market_price := mp; ps_market_value := mv;
                    ps_unrealized_pl := None |})))))
  | _, _ => Ok None
  end).

Fixpoint sp_positions_of (account : string) (rows : list json) : result exn (list Position) :=
  match rows with
  | [] => Ok []
  | JObj raw :: rows' =>
      result_bind (sp_position account raw) (fun p =>
      result_bind (sp_positions_of account rows') (fun ps =>
      Ok (match p with Some p => p :: ps | None => ps end)))
  | _ :: rows' => sp_positions_of account rows'
  end.

(** The adapter object's own state. *)
Record StreamingProSession := {
  ss_breaker : SessionCircuitBreaker;
  ss_order_ref_cache : gmap string OrderRef;
  ss_last_heartbeat_ok : option bool;
}.

Definition ss_set_cache (c : gmap string OrderRef) (s : StreamingProSession) : StreamingProSession :=
  {| ss_breaker := ss_breaker s; ss_order_ref_cache := c;
     ss_last_heartbeat_ok := ss_last_heartbeat_ok s |}.
Definition ss_set_heartbeat (ok : bool) (s : StreamingProSession) : StreamingProSession :=
  {| ss_breaker := ss_breaker s; ss_order_ref_cache := ss_order_ref_cache s;
     ss_last_heartbeat_ok := Some ok |}.
Definition ss_set_breaker (b : SessionCircuitBreaker) (s : StreamingProSession) : StreamingProSession :=
  {| ss_breaker := b; ss_order_ref_cache := ss_order_ref_cache s;
     ss_last_heartbeat_ok := ss_last_heartbeat_ok s |}.

Definition set_cancel_refusal : string :=
  "SET cancel requires extOrderNo (= orderNoFis) and the venue order read returned neither for this order. Refusing to substitute a guessed identifier.".

Section adapter.
Context `{Coercions} {R V : Type} (sess : V -> StreamingProSession)
        (put_sess : StreamingProSession -> V -> V).
Abbreviation M := (M exn (world R V)).

(** The transport's two calls, pydantic's validation of a place answer, the
    place limiter's [acquire], and the durable resolver. *)
Context (post : string -> list (string * json) -> M (list (string * json)))
        (get_json : string -> M json)
        (validate_place : list (string * json) -> result exn BridgePlace) (acquire : M unit)
        (resolve_order : option (string -> M (option OrderRef))).

Definition sp_session_modify (f : StreamingProSession -> StreamingProSession) : M unit :=
  modify (fun w => set_venue (put_sess (f (sess (w_venue w))) (w_venue w)) w).

Definition sp_place (order : NormalizedOrder) : M PlaceAck :=
  match sp_to_place_payload order with
  | Err (StreamingProMappingError m) => ret (rejected_ack m)
  | Err e => raise e
  | Ok payload =>
      acquire ;;;
      let* body := post (sp_place_path (no_market order)) payload in
      let* place := lift_result (validate_place body) in
      match bp_order_no place with
      | Some order_no =>
          if bp_ok place then
            sp_session_modify (fun s =>
              ss_set_cache (<[no_client_order_id order :=
                (order_no, no_market order, no_account order, no_symbol order)]>
                (ss_order_ref_cache s)) s) ;;;
            ret (accepted_ack (Some order_no))
          else ret (rejected_ack (bridge_reject_reason place))
      | None => ret (rejected_ack (bridge_reject_reason place))
      end
  end.

Definition sp_fetch_venue_orders (account : string) (market : Market) : M (list VenueOrderRow) :=
  let* body := get_json (sp_orders_path account market) in
  lift_result (parse_order_rows body).

(** [r.ext_order_no or r.order_no_fis or None] of the order's row. *)
Definition _lookup_ext_order_no (account : string) (market : Market) (order_no : string)
    : M (option string) :=
  let* rows := catch (let* rows := sp_fetch_venue_orders account market in ret (Some rows))
    (fun e => match e with
              | StreamingProTransportError _ | ValidationError => ret None
              | e => raise e
              end) in
  ret (match rows with
       | None => None
       | Some rows =>
           match List.find (fun r => String.eqb (vr_order_no r) order_no) rows with
           | None => None
           | Some row =>
               let ext := str_or (vr_ext_order_no row) (vr_order_no_fis row) in
               if String.eqb ext "" then None else Some ext
           end
       end).

Definition sp_cancel (client_order_id : string) : M CancelAck :=
  let refused reason := ret {| ca_ok := false; ca_reason := Some reason |} in
  let* cached := gets (fun w => ss_order_ref_cache (sess (w_venue w)) !! client_order_id) in
  let* ref := match cached, resolve_order with
              | None, Some f => f client_order_id
              | _, _ => ret cached
              end in
  match ref with
  | None => refused "no broker_order_id mapping for client_order_id"%string
  | Some (order_no, market, account, symbol) =>
      let* ext := match market with
                  | SET_ => _lookup_ext_order_no account market order_no
                  | TFEX => ret None
                  end in
      if bool_decide (market = SET_) && bool_decide (ext = None)
      then refused set_cancel_refusal
      else
        let* posted := catch
          (let* b := post sp_cancel_path
             (sp_to_cancel_payload order_no market account (Some symbol) ext) in ret (inl b))
          (fun e => match e with StreamingProTransportError m => ret (inr m) | e => raise e end) in
        match posted with
        | inr m => refused m
        | inl body =>
            match jget "ok" body with
            | JBool true => ret {| ca_ok := true; ca_reason := None |}
            | _ =>
                let* place := lift_result (validate_place body) in
                refused (bridge_reject_reason place)
            end
        end
  end.

Definition sp_amend (_ : string) (_ : option Decimal) (_ : option Z) : M AmendAck :=
  ret {| aa_ok := false; aa_semantics := "cancel_replace";
         aa_reason := Some "streaming_pro native amend not yet captured; use the router cancel+replace orchestration with a new client_order_id"%string |}.

Definition sp_get_venue_orders (account : string) : M (list VenueOrderView) :=
  fold_m [SET_; TFEX] [] (fun views market =>
    let* rows := sp_fetch_venue_orders account market in
    ret (views ++ map (fun row => venue_row_to_view row market) rows)).

(** Is a row shown as an open order, and how? *)
Definition open_view (account : string) (market : Market) (row : VenueOrderRow)
    : option NormalizedOrder :=
  if negb (bool_decide (sp_classify_venue_state row = VenueOrderState.RESTING)) then None
  else if vr_balance row <=? 0 then None
  else venue_row_to_normalized row account market.

Definition sp_get_open_orders (account : string) : M (list NormalizedOrder) :=
  fold_m [SET_; TFEX] [] (fun normalized market =>
    let* rows := sp_fetch_venue_orders account market in
    ret (normalized ++ omap (open_view account market) rows)).

(** The SET front, asked when the TFEX front refused the account. *)
Definition set_positions (account : string) : M (list Position) :=
  let* body := get_json (portfolio_path account) in
  match (match body with JObj b => jget "positions" b | _ => JNull end) with
  | JList rows => lift_result (sp_positions_of account rows)
  | _ => raise (StreamingProTransportError
           "streaming_pro portfolio: response carried no positions array")
  end.

Definition sp_get_positions (account : string) : M (list Position) :=
  let* tfex_body := get_json (tfex_portfolio_path account) in
  match (match tfex_body with JObj b => jget "raw" b | _ => JNull end) with
  | JObj raw =>
      match jassoc "code" raw with
      | None =>
          match jget "portfolioList" raw with
          | JList [] => ret []
          | JList _ => raise StreamingProPositionsUncaptured
          | _ => raise (StreamingProTransportError
                   "streaming_pro tfex/portfolio: raw carried no portfolioList array")
          end
      | Some _ => set_positions account
      end
  | _ => set_positions account
  end.

Definition tfex_account (account : string) : M AccountInfo :=
  let* tfex_body := get_json (tfex_account_path account) in
  match tfex_body with
  | JObj b =>
      let* buying_power := lift_result (sp_opt_decimal b "excessEquity") in
      match buying_power with
      | Some bp =>
          let* cash := lift_result (sp_opt_decimal b "cashBalance") in
          let* credit := lift_result (sp_opt_decimal b "creditLine") in
          let* equity := lift_result (sp_opt_decimal b "equity") in
          let* excess := lift_result (sp_opt_decimal b "excessEquity") in
          let* mr := lift_result (sp_opt_decimal b "totalMR") in
          let* mm := lift_result (sp_opt_decimal b "totalMM") in
          lift_result (_margin_block_belongs_to_derivatives
            {| ai_account := account; ai_account_type := AccountType.DERIVATIVE;
               ai_buying_power := bp; ai_cash_balance := cash; ai_credit_limit := credit;
               ai_withdrawable := None; ai_equity := equity; ai_excess_equity := excess;
               ai_initial_margin := mr; ai_maintenance_margin := mm |})
      | None => raise StreamingProAccountUnavailable
      end
  | _ => raise StreamingProAccountUnavailable
  end.

Definition sp_get_account (account : string) : M AccountInfo :=
  let* set_body := get_json (account_path account) in
  match set_body with
  | JObj b =>
      let* set_bp := lift_result (sp_opt_decimal b "lineAvailable") in
      match set_bp with
      | Some bp =>
          let* cash := lift_result (sp_opt_decimal b "cashBalance") in
          let* credit := lift_result (sp_opt_decimal b "creditLimit") in
          lift_result (_margin_block_belongs_to_derivatives
            {| ai_account := account; ai_account_type := AccountType.CASH;
               ai_buying_power := bp; ai_cash_balance := cash; ai_credit_limit := credit;
               ai_withdrawable := None; ai_equity := None; ai_excess_equity := None;
               ai_initial_margin := None; ai_maintenance_margin := None |})
      | None => tfex_account account
      end
  | _ => tfex_account account
  end.

Definition sp_heartbeat : M bool :=
  let* probed := catch (let* b := get_json "session/status" in ret (Some b))
    (fun e => match e with StreamingProTransportError _ => ret None | e => raise e end) in
  let ok := match probed with
            | Some (JObj body) =>
                json_true (jget "alive" body) ||
                match jget "status" body with JStr s => String.eqb s "alive" | _ => false end
            | _ => false
            end in
  sp_session_modify (ss_set_heartbeat ok) ;;; ret ok.

(** [streaming_pro/heartbeat.py] *)
Definition sp_heartbeat_pass (on_trip : M unit) : M bool :=
  heartbeat_pass (fun v => ss_breaker (sess v))
    (fun b v => put_sess (ss_set_breaker b (sess v)) v) sp_heartbeat on_trip.

Definition StreamingProAdapter (oid : nat) : BrokerAdapter R V := {|
  ba_oid := oid;
  ba_broker := STREAMING_PRO;
  ba_breaker := fun v => ss_breaker (sess v);
  ba_place := sp_place;
  ba_cancel := sp_cancel;
  ba_amend := sp_amend;
  ba_get_open_orders := sp_get_open_orders;
  ba_get_positions := sp_get_positions;
  ba_get_venue_orders := sp_get_venue_orders;
  ba_get_account := sp_get_account;
  ba_capabilities := List.filter (fun e => bool_decide (cap_broker e = STREAMING_PRO)) CAPABILITY_MATRIX;
|}.
End adapter.
