(* ===== verification/Fees.v ===== *)
(** * Fees: the fee basis and its observations
    ([reference/fee_schedule.py], [db/fee_observations.py])

    The schedule is a dated series per instrument and field, read as of a date;
    observations are appended with the verdict of a one-sided check against it.
    The TOML document is the tree [tomllib] gives (with the json values of
    Contracts); the table's CHECKs are a parameter. *)

From S2P Require Import Prelude Decimals Contracts Digits StateMachine Events Store Config Adapters PyTime PyIso PyFloat Liberator StreamingPro.
From stdpp Require Import base gmap strings list sorting.
From Stdlib Require Import ZArith Lia.
Open Scope Z_scope.

(** ** Sorting by a key, stably: [sorted(l, key=...)], [ORDER BY] *)

Section sort.
Context {A : Type} (key : A -> Z).

Fixpoint insert_by (x : A) (l : list A) : list A :=
  match l with
  | [] => [x]
  | y :: l' => if key x <=? key y then x :: y :: l' else y :: insert_by x l'
  end.

Fixpoint sort_by (l : list A) : list A :=
  match l with [] => [] | x :: l' => insert_by x (sort_by l') end.
End sort.

(** ** fee_schedule.py *)

Definition KeyError : exn := OtherError "KeyError".
Definition IndexError : exn := OtherError "IndexError".
Definition FeeScheduleStale : exn := OtherError "FeeScheduleStale".

Definition _SOURCE_KINDS : list string :=
  ["operator_supplied"; "venue_fetched"; "derived"; "observed_adopted"]%string.

Inductive Verdict := AT_OR_BELOW | ABOVE.
#[global] Instance Verdict_eq_dec : EqDecision Verdict.
Proof. solve_decision. Defined.

Record FeeEntry := {
  fe_key : string;
  fe_value : Decimal;
  fe_unit : string;
  fe_source_kind : string;
  fe_source : string;
  fe_corroborated : bool;
  fe_effective_from : date;
  fe_recorded_utc : PyDatetime;
  fe_max_age_days : Z;
  fe_note : string;
  fe_verbatim : string;
}.

(** [(now - self.recorded_utc).days] *)
Definition age_days (e : FeeEntry) (now : Z) : result exn Z :=
  result_bind (dt_sub (utc now) (fe_recorded_utc e)) (fun us => Ok (us / DAY_US)).

Definition is_stale (e : FeeEntry) (now : Z) : result exn bool :=
  result_bind (age_days e now) (fun d => Ok (fe_max_age_days e <? d)).

Record Instrument := {
  in_key : string;
  in_label : string;
  in_venue : string;
  in_ticker : string;
  in_broker : string;
  in_series : list (string * list FeeEntry);
}.

Record Gap := {
  gp_instrument : string; gp_label : string; gp_what_exists : string; gp_where : string;
  gp_why_not_canonical : string; gp_what_would_close_it : string;
}.

Record Comparison := {
  co_instrument : string;
  co_field : string;
  co_observed : Decimal;
  co_basis : Decimal;
  co_basis_effective_from : date;
  co_verdict : Verdict;
}.

Definition should_alert (c : Comparison) : bool := bool_decide (co_verdict c = ABOVE).
Definition should_adopt (c : Comparison) : bool := bool_decide (co_verdict c = ABOVE).

Record FeeSchedule := {
  fs_schema_version : Z;
  fs_currency : string;
  fs_instruments : list (string * Instrument);
  fs_gaps : list Gap;
}.

(** [d[k]] of an insertion-ordered dict. *)
Fixpoint dict_get {A} (k : string) (d : list (string * A)) : option A :=
  match d with
  | [] => None
  | (k', v) :: d' => if String.eqb k k' then Some v else dict_get k d'
  end.

Definition series_for (s : FeeSchedule) (instrument field : string) : result exn (list FeeEntry) :=
  match dict_get instrument (fs_instruments s) with
  | None => Err KeyError
  | Some i => match dict_get field (in_series i) with
              | None => Err KeyError
              | Some entries => Ok entries
              end
  end.

Definition applicable (on : date) (entries : list FeeEntry) : list FeeEntry :=
  List.filter (fun e => fe_effective_from e <=? on) entries.

(** The message of the second [KeyError] reads [entries[0]]. *)
Definition resolve (s : FeeSchedule) (instrument field : string) (on : date) (allow_stale : bool)
    (now : Z) : result exn FeeEntry :=
  result_bind (series_for s instrument field) (fun entries =>
  match last (applicable on entries) with
  | None => match entries with [] => Err IndexError | _ => Err KeyError end
  | Some entry =>
      result_bind (is_stale entry now) (fun stale =>
      if stale && negb allow_stale then Err FeeScheduleStale else Ok entry)
  end).

(** [(now).date()]: the UTC date. *)
Definition utc_date (now : Z) : date := now / DAY_US.

Definition get_today (s : FeeSchedule) (instrument field : string) (allow_stale : bool) (now : Z)
    : result exn FeeEntry :=
  resolve s instrument field (utc_date now) allow_stale now.

Definition compare (s : FeeSchedule) (instrument field : string) (observed : Decimal) (on : date)
    (allow_stale : bool) (now : Z) : result exn Comparison :=
  result_bind (resolve s instrument field on allow_stale now) (fun entry =>
  Ok {| co_instrument := instrument; co_field := field; co_observed := observed;
        co_basis := fe_value entry; co_basis_effective_from := fe_effective_from entry;
        co_verdict := if dec_gtb observed (fe_value entry) then ABOVE else AT_OR_BELOW |}).

(** *** Loading *)

(** [s.replace("Z", "+00:00")] *)
Definition replace_Z (s : string) : string :=
  String.string_of_list_ascii
    (concat (map (fun a => if char_code a =? 90 then chars "+00:00" else [a]) (chars s))).

(** [raw[k]] *)
Definition item (raw : list (string * json)) (k : string) : result exn json :=
  match jassoc k raw with Some v => Ok v | None => Err KeyError end.

Definition str_item (raw : list (string * json)) (k : string) : result exn string :=
  result_bind (item raw k) (fun v => Ok (py_str v)).

(** [str(raw.get(k, ""))] *)
Definition str_get (raw : list (string * json)) (k : string) : string :=
  match jassoc k raw with Some v => py_str v | None => "" end.

Definition or_value_error {A} (x : option A) : result exn A :=
  match x with Some a => Ok a | None => Err (ValueError "invalid literal") end.

Definition _entry (key : string) (raw : list (string * json)) : result exn FeeEntry :=
  result_bind (str_item raw "source_kind") (fun kind =>
  if negb (memb kind _SOURCE_KINDS) then Err (ValueError "source_kind")
  else
  result_bind (item raw "value") (fun value =>
  match value with
  | JStr text =>
      result_bind (match decimal_of_string text with Some d => Ok d | None => Err InvalidOperation end)
        (fun d =>
      result_bind (str_item raw "unit") (fun unit_ =>
      result_bind (str_item raw "source") (fun source =>
      result_bind (item raw "corroborated") (fun corroborated =>
      result_bind (str_item raw "effective_from") (fun eff =>
      result_bind (or_value_error (date_fromisoformat eff)) (fun effective_from =>
      result_bind (str_item raw "recorded_utc") (fun rec =>
      result_bind (or_value_error (fromisoformat (replace_Z rec))) (fun recorded_utc =>
      result_bind (item raw "max_age_days") (fun age =>
      result_bind (py_int age) (fun max_age_days =>
      Ok {| fe_key := key; fe_value := d; fe_unit := unit_; fe_source_kind := kind;
            fe_source := source; fe_corroborated := json_true corroborated;
            fe_effective_from := effective_from; fe_recorded_utc := recorded_utc;
            fe_max_age_days := max_age_days; fe_note := py_strip (str_get raw "note");
            fe_verbatim := py_strip (str_get raw "verbatim") |}))))))))))
  | _ => Err (OtherError "TypeError")
  end)).

(** A comprehension whose body may raise. *)
Fixpoint traverse {A B} (f : A -> result exn B) (l : list A) : result exn (list B) :=
  match l with
  | [] => Ok []
  | x :: l' => result_bind (f x) (fun b => result_bind (traverse f l') (fun bs => Ok (b :: bs)))
  end.

(** A list element that is not a table fails at its first subscript. *)
Definition entry_of (key : string) (e : json) : result exn FeeEntry :=
  match e with JObj raw => _entry key raw | _ => Err (OtherError "TypeError") end.

(** [tuple(sorted(parsed, key=lambda e: e.effective_from))] *)
Definition load_series (key : string) (raws : list json) : result exn (list FeeEntry) :=
  result_bind (traverse (entry_of key) raws) (fun parsed => Ok (sort_by fe_effective_from parsed)).

(** The fields of an instrument: those whose value is an array. *)
Fixpoint load_fields (key : string) (block : list (string * json))
    : result exn (list (string * list FeeEntry)) :=
  match block with
  | [] => Ok []
  | (fk, JList fv) :: block' =>
      result_bind (load_series (key +:+ "." +:+ fk) fv) (fun s =>
      result_bind (load_fields key block') (fun rest => Ok ((fk, s) :: rest)))
  | _ :: block' => load_fields key block'
  end.

Definition load_instrument (kv : string * json) : result exn (string * Instrument) :=
  match kv.2 with
  | JObj block =>
      result_bind (load_fields kv.1 block) (fun series =>
      result_bind (str_item block "label") (fun label =>
      result_bind (str_item block "venue") (fun venue =>
      result_bind (str_item block "ticker") (fun ticker =>
      result_bind (str_item block "broker") (fun broker =>
      Ok (kv.1, {| in_key := kv.1; in_label := label; in_venue := venue; in_ticker := ticker;
                   in_broker := broker; in_series := series |}))))))
  | _ => Err (OtherError "AttributeError")
  end.

Definition load_gap (g : json) : result exn Gap :=
  match g with
  | JObj raw =>
      result_bind (str_item raw "instrument") (fun i =>
      result_bind (str_item raw "label") (fun l =>
      result_bind (str_item raw "what_exists") (fun w =>
      result_bind (str_item raw "where") (fun wh =>
      result_bind (str_item raw "why_not_canonical") (fun y =>
      result_bind (str_item raw "what_would_close_it") (fun c =>
      Ok {| gp_instrument := i; gp_label := l; gp_what_exists := py_strip w;
            gp_where := py_strip wh; gp_why_not_canonical := py_strip y;
            gp_what_would_close_it := py_strip c |}))))))
  | _ => Err (OtherError "TypeError")
  end.

(** [raw] is the parsed document. *)
Definition load_fee_schedule (raw : list (string * json)) : result exn FeeSchedule :=
  result_bind (item raw "instrument") (fun insts =>
  result_bind (match insts with
               | JObj kvs => traverse load_instrument kvs
               | _ => Err (OtherError "AttributeError")
               end) (fun instruments =>
  result_bind (match jassoc "gap" raw with
               | None | Some (JObj []) | Some (JStr EmptyString) => Ok []
               | Some (JList gs) => traverse load_gap gs
               | Some _ => Err (OtherError "TypeError")
               end) (fun gaps =>
  result_bind (item raw "schema_version") (fun v =>
  result_bind (py_int v) (fun schema_version =>
  result_bind (item raw "meta") (fun meta =>
  match meta with
  | JObj m =>
      result_bind (str_item m "currency") (fun currency =>
      Ok {| fs_schema_version := schema_version; fs_currency := currency;
            fs_instruments := instruments; fs_gaps := gaps |})
  | _ => Err (OtherError "TypeError")
  end)))))).

(** *** Adoption *)

(** What the document reads back as after [append_entry] wrote a block headed
    [[[instrument.<instrument>.<field>]]] at its end: one more element of that
    array of tables (TOML's rule). *)
Definition at_key (k : string) (f : json -> json) (kvs : list (string * json)) : list (string * json) :=
  map (fun kv => if String.eqb k kv.1 then (kv.1, f kv.2) else kv) kvs.

Definition in_table (f : list (string * json) -> list (string * json)) (v : json) : json :=
  match v with JObj kvs => JObj (f kvs) | v => v end.
Definition push (entry : json) (v : json) : json :=
  match v with JList l => JList (l ++ [entry]) | v => v end.

Definition append_entry (instrument field : string) (entry : json) (raw : list (string * json))
    : list (string * json) :=
  at_key "instrument" (in_table (at_key instrument (in_table (at_key field (push entry))))) raw.

(** ** fee_observations.py *)

Inductive ObservationKind := INDICATIVE_QUOTE | CHARGED.
#[global] Instance ObservationKind_eq_dec : EqDecision ObservationKind.
Proof. solve_decision. Defined.

(** The Bangkok calendar date; a naive time is read as UTC. *)
Definition venue_date (ts : PyDatetime) : date :=
  (as_utc ts + _VENUE_TZ_OFFSET) / DAY_US.

Definition venue_fee_month (ts : PyDatetime) : date := replace_day 1 (venue_date ts).

(** The first of the following month; dates are unbounded here, where Python's addition
    raises past the year 9999. *)
Definition next_fee_month (fee_month : date) : date :=
  replace_day 1 (replace_day 28 fee_month + 4).

Record FeeObservation := {
  ob_observed_at : PyDatetime;
  ob_kind : ObservationKind;
  ob_source : string;
  ob_broker : string;
  ob_account : string;
  ob_symbol : string;
  ob_contract_month : string;
  ob_side : string;
  ob_quantity : Z;
  ob_price : Decimal;
  ob_raw_response : json;
  ob_is_roll_boundary : bool;
  ob_commission : option Decimal;
  ob_exchange_fee : option Decimal;
  ob_clearing_fee : option Decimal;
  ob_vat : option Decimal;
  ob_total_fee : option Decimal;
  ob_month_to_date_contracts : option Z;
}.

Definition ob_fee_month (o : FeeObservation) : date := venue_fee_month (ob_observed_at o).

(** A stored row: the observation's columns (the instant as TIMESTAMPTZ keeps
    it), the derived month, and the comparison's three columns. *)
Record FeeObservationRow := {
  fo_id : Z;
  fo_observed_at : Z;
  fo_observation : FeeObservation;
  fo_fee_month : date;
  fo_basis_value : option Decimal;
  fo_basis_effective_from : option date;
  fo_verdict : option Verdict;
}.

(** [execution.fee_observations]: the rows in insertion order and the id
    sequence. *)
Record fee_table := { ft_rows : list FeeObservationRow; ft_next_id : Z }.

Section observations.
(** The table's CHECKs and the grant, which the database keeps, and the instant
    the driver stores for a datetime. *)
Context (fee_check : FeeObservation -> bool) (can_insert : bool) (instant : PyDatetime -> Z).

Definition insert_observation (o : FeeObservation) (comparison : option Comparison) (t : fee_table)
    : result exn Z * fee_table :=
  if negb can_insert || negb (fee_check o) then (Err RepositoryError, t)
  else
    let row := {| fo_id := ft_next_id t; fo_observed_at := instant (ob_observed_at o);
                  fo_observation := o; fo_fee_month := ob_fee_month o;
                  fo_basis_value := co_basis <$> comparison;
                  fo_basis_effective_from := co_basis_effective_from <$> comparison;
                  fo_verdict := co_verdict <$> comparison |} in
    (Ok (ft_next_id t), {| ft_rows := ft_rows t ++ [row]; ft_next_id := ft_next_id t + 1 |}).

Record Recorded := { rc_observation_id : Z; rc_comparison : Comparison }.

Definition record_observation (s : FeeSchedule) (o : FeeObservation) (instrument field : string)
    (observed_value : Decimal) (now : Z) (t : fee_table) : result exn Recorded * fee_table :=
  match compare s instrument field observed_value (venue_date (ob_observed_at o)) true now with
  | Err e => (Err e, t)
  | Ok comparison =>
      match insert_observation o (Some comparison) t with
      | (Err e, t') => (Err e, t')
      | (Ok row_id, t') => (Ok {| rc_observation_id := row_id; rc_comparison := comparison |}, t')
      end
  end.
End observations.

Definition fetch_observations (kind : ObservationKind) (fee_month : date) (symbol : string)
    (t : fee_table) : list FeeObservationRow :=
  sort_by fo_observed_at (List.filter (fun r =>
    bool_decide (ob_kind (fo_observation r) = kind) && (fo_fee_month r =? fee_month) &&
    String.eqb (ob_symbol (fo_observation r)) symbol) (ft_rows t)).

(** [ORDER BY observed_at DESC LIMIT 1]; among rows of one instant SQL leaves the
    choice open, here the last inserted. *)
Definition fetch_latest (kind : ObservationKind) (symbol : string) (t : fee_table)
    : option FeeObservationRow :=
  last (sort_by fo_observed_at (List.filter (fun r =>
    bool_decide (ob_kind (fo_observation r) = kind) &&
    String.eqb (ob_symbol (fo_observation r)) symbol) (ft_rows t))).

(** [(f.exec_ts AT TIME ZONE 'Asia/Bangkok')::date] *)
Definition bangkok_date (exec_ts : Z) : date := (exec_ts + _VENUE_TZ_OFFSET) / DAY_US.

(** The joined rows [_SUM_FILLED_QTY] adds up. *)
Definition month_fills (broker : Broker) (account : string) (market : Market) (lo hi : date) (d : db)
    : list FillRow :=
  List.filter (fun f =>
    match db_orders d !! fr_client_order_id f with
    | None => false
    | Some o => bool_decide (or_broker o = broker) && String.eqb (or_account o) account &&
                bool_decide (or_market o = market) &&
                (lo <=? bangkok_date (fr_exec_ts f)) && (bangkok_date (fr_exec_ts f) <? hi)
    end) (db_fills d).

Definition month_to_date_contracts (broker : Broker) (account : string) (market : Market)
    (fee_month : date) (d : db) : Z :=
  zsum (map fr_quantity (month_fills broker account market fee_month (next_fee_month fee_month) d)).
