(* ===== verification/FeesProps.v ===== *)
(** * FeesProps: the fee basis is a dated, append-only record *)

From S2P Require Import Prelude Decimals Contracts Digits StateMachine Events Store StoreInv Config Adapters PyTime PyIso PyFloat Liberator StreamingPro Fees.
From stdpp Require Import base gmap strings list sorting.
From Stdlib Require Import ZArith Lia.
Open Scope Z_scope.

(** ** The stable sort *)

Section sort_facts.
Context {A : Type} (key : A -> Z).
Abbreviation sorted := (StronglySorted (fun a b : A => key a <= key b)).
Abbreviation insert_by := (insert_by key).
Abbreviation sort_by := (sort_by key).

Lemma insert_by_perm x l : insert_by x l ≡ₚ x :: l.
Proof.
  induction l as [|y l IH]; simpl; [done|]. destruct (_ <=? _); [done|]. rewrite IH. constructor.
Qed.

Lemma sort_by_perm l : sort_by l ≡ₚ l.
Proof. induction l as [|x l IH]; simpl; [done|]. by rewrite insert_by_perm, IH. Qed.

Lemma insert_by_sorted x l : sorted l -> sorted (insert_by x l).
Proof.
  induction 1 as [|y l Hl IH Hy]; simpl; [repeat constructor|].
  destruct (Z.leb_spec (key x) (key y)) as [Hle|Hlt].
  - constructor; [by constructor|]. constructor; [done|]. eapply Forall_impl; [exact Hy|]. simpl. lia.
  - constructor; [done|]. rewrite insert_by_perm. constructor; [lia|done].
Qed.

Lemma sort_by_sorted l : sorted (sort_by l).
Proof. induction l; simpl; [constructor|]. by apply insert_by_sorted. Qed.

Lemma insert_by_first x l : Forall (fun y => key x <= key y) l -> insert_by x l = x :: l.
Proof. destruct 1 as [|y l Hy _]; simpl; [done|]. by rewrite (proj2 (Z.leb_le _ _) Hy). Qed.

Lemma insert_by_filter p x l : sorted l ->
  List.filter p (insert_by x l) = if p x then insert_by x (List.filter p l) else List.filter p l.
Proof.
  induction 1 as [|y l Hl IH Hy]; simpl; [done|].
  destruct (Z.leb_spec (key x) (key y)) as [Hle|Hlt]; simpl.
  - destruct (p x); [|done]. symmetry. apply insert_by_first.
    assert (Hall : Forall (fun z => key x <= key z) (y :: l)).
    { constructor; [done|]. eapply Forall_impl; [exact Hy|]. simpl. lia. }
    apply Forall_forall. rewrite Forall_forall in Hall. intros z Hz. apply Hall.
    change (z ∈ List.filter p (y :: l)) in Hz. apply list_elem_of_In, filter_In in Hz as [Hz _].
    by apply list_elem_of_In.
  - rewrite IH. destruct (p x), (p y); simpl; try done.
    by rewrite (proj2 (Z.leb_gt _ _)).
Qed.

Lemma sort_by_filter p l : List.filter p (sort_by l) = sort_by (List.filter p l).
Proof.
  induction l as [|x l IH]; simpl; [done|].
  rewrite insert_by_filter by apply sort_by_sorted. rewrite IH. by destruct (p x).
Qed.

(** The last of the sorted list, read off the unsorted one: the greatest key, the
    latest of equals. *)
Fixpoint latest (l : list A) : option A :=
  match l with
  | [] => None
  | x :: l' => match latest l' with
               | None => Some x
               | Some z => if key x <=? key z then Some z else Some x
               end
  end.

Lemma last_insert_by x l : sorted l ->
  last (insert_by x l) = match last l with
                         | None => Some x
                         | Some z => if key x <=? key z then Some z else Some x
                         end.
Proof.
  induction 1 as [|y l Hl IH Hy]; cbn [Fees.insert_by]; [done|].
  destruct (Z.leb_spec (key x) (key y)) as [Hle|Hlt].
  - destruct (last (y :: l)) as [z|] eqn:Hz; [|by apply last_None in Hz].
    change (last (x :: y :: l)) with (last (y :: l)). rewrite Hz.
    destruct (Z.leb_spec (key x) (key z)) as [|Hgt]; [done|]. exfalso.
    apply last_Some_elem_of in Hz. apply elem_of_cons in Hz as [->|Hz]; [lia|].
    rewrite Forall_forall in Hy. specialize (Hy z Hz). lia.
  - destruct (insert_by x l) as [|a l'] eqn:Hi.
    { pose proof (insert_by_perm x l) as Hp. rewrite Hi in Hp. by apply Permutation_nil_cons in Hp. }
    change (last (y :: a :: l')) with (last (a :: l')). rewrite IH.
    destruct l as [|b l]; simpl; [|done]. by rewrite (proj2 (Z.leb_gt _ _)).
Qed.

Lemma last_sort_by l : last (sort_by l) = latest l.
Proof.
  induction l as [|x l IH]; simpl; [done|]. rewrite last_insert_by, IH by apply sort_by_sorted.
  by destruct (latest l).
Qed.

Lemma latest_app l x :
  latest (l ++ [x]) = match latest l with
                      | None => Some x
                      | Some z => if key z <=? key x then Some x else Some z
                      end.
Proof.
  induction l as [|y l IH]; simpl; [done|]. rewrite IH.
  repeat case_match; simplify_eq; rewrite ?Z.leb_le, ?Z.leb_gt in *; try lia; done.
Qed.

Lemma latest_spec l x : latest l = Some x ->
  exists before after, l = before ++ x :: after /\
    Forall (fun y => key y <= key x) before /\ Forall (fun y => key y < key x) after.
Proof.
  revert x. induction l as [|y l IH]; simpl; intros x; [done|].
  destruct (latest l) as [z|] eqn:Hz.
  - destruct (IH z eq_refl) as (bef & aft & -> & Hb & Ha).
    destruct (Z.leb_spec (key y) (key z)); intros [= <-].
    + exists (y :: bef), aft. split; [done|]. split; [by constructor|done].
    + exists [], (bef ++ z :: aft). split; [done|]. split; [constructor|].
      apply Forall_app. split; [eapply Forall_impl; [exact Hb|]; simpl; lia|].
      constructor; [done|]. eapply Forall_impl; [exact Ha|]. simpl. lia.
  - intros [= <-]. destruct l as [|w l]; [by exists [], []|].
    simpl in Hz. destruct (latest l) as [z|]; [by destruct (_ <=? _)|done].
Qed.

Lemma latest_none l : latest l = None -> l = [].
Proof. destruct l as [|x l]; simpl; [done|]. destruct (latest l) as [z|]; [by destruct (_ <=? _)|done]. Qed.
End sort_facts.

(** ** Resolving *)

(** [e] is the entry of the file [parsed] in force on [on]: no applicable entry
    has a later date, and none after it in the file has the same. *)
Definition in_force (parsed : list FeeEntry) (on : date) (e : FeeEntry) : Prop :=
  exists before after, applicable on parsed = before ++ e :: after /\ e ∈ parsed /\
    fe_effective_from e <= on /\
    Forall (fun x => fe_effective_from x <= fe_effective_from e) before /\
    Forall (fun x => fe_effective_from x < fe_effective_from e) after.

Lemma last_applicable on parsed :
  last (applicable on (sort_by fe_effective_from parsed)) =
  latest fe_effective_from (applicable on parsed).
Proof. unfold applicable. by rewrite sort_by_filter, last_sort_by. Qed.

Lemma sort_by_nil {A} (key : A -> Z) l : sort_by key l = [] -> l = [].
Proof.
  intros E. pose proof (sort_by_perm key l) as Hp. rewrite E in Hp. by apply Permutation_nil in Hp.
Qed.

Lemma applicable_elem on l e : e ∈ applicable on l <-> e ∈ l /\ fe_effective_from e <= on.
Proof.
  unfold applicable. rewrite !list_elem_of_In, filter_In, Z.leb_le. done.
Qed.

(** a fee is read as of the date asked for.  Over a series loaded from a file
    in any order, resolving on a date gives the entry in force on that date, not
    the newest: of the entries effective by then the one with the latest date,
    and of those the last in the file.  It fails exactly when none was effective
    yet, or when that entry is past its age limit and the caller did not accept
    a stale figure; a stale figure is never returned silently. *)
Theorem resolve_in_force s instrument field on allow_stale now parsed u :
  series_for s instrument field = Ok (sort_by fe_effective_from parsed) ->
  Forall (fun e => exists t o, fe_recorded_utc e = Aware t o) parsed ->
  resolve s instrument field on allow_stale now = u ->
  match u with
  | Ok e => in_force parsed on e /\ (allow_stale = true \/ is_stale e now = Ok false)
  | Err x => (x = FeeScheduleStale /\ allow_stale = false /\
                exists e, in_force parsed on e /\ is_stale e now = Ok true) \/
             (Forall (fun e => on < fe_effective_from e) parsed /\ (x = KeyError \/ x = IndexError))
  end.
Proof.
  intros Hs Hut <-. unfold resolve. rewrite Hs. simpl. rewrite last_applicable.
  destruct (latest fe_effective_from (applicable on parsed)) as [e|] eqn:He.
  - destruct (latest_spec _ _ _ He) as (bef & aft & Hsplit & Hb & Ha).
    assert (Hin : e ∈ applicable on parsed) by (rewrite Hsplit; set_solver).
    apply applicable_elem in Hin as [Hin Hon].
    assert (Hf : in_force parsed on e) by (exists bef, aft; auto).
    rewrite Forall_forall in Hut. destruct (Hut e Hin) as (t & o & Ht).
    assert (exists b, is_stale e now = Ok b) as [b Hb'].
    { unfold is_stale, age_days. rewrite Ht. simpl. eauto. }
    rewrite Hb'. simpl. destruct b, allow_stale; simpl; eauto 10.
  - apply latest_none in He. 
    assert (Hall : Forall (fun e => on < fe_effective_from e) parsed).
    { apply Forall_forall. intros e Hin. destruct (Z.lt_ge_cases on (fe_effective_from e)); [done|].
      assert (Hx : e ∈ applicable on parsed) by (by apply applicable_elem).
      rewrite He in Hx. by apply not_elem_of_nil in Hx. }
    destruct (sort_by fe_effective_from parsed); auto.
Qed.

(** ** Adoption *)

Lemma dec_gtb_irrefl d : dec_gtb d d = false.
Proof. unfold dec_gtb, dec_ltb, dec_compare. by rewrite Z.compare_refl. Qed.

Lemma jassoc_at_key k k' f kvs :
  jassoc k' (at_key k f kvs) = (if String.eqb k k' then f else id) <$> jassoc k' kvs.
Proof.
  induction kvs as [|[a v] kvs IH]; simpl; [done|].
  destruct (String.eqb_spec k a), (String.eqb_spec k' a), (String.eqb_spec k k'); simplify_eq/=;
    repeat case_match; try done; by rewrite ?String.eqb_refl, ?String.eqb_neq, ?String.eqb_eq in *.
Qed.

Lemma result_bind_ok {A B} (x : result exn A) (k : A -> result exn B) b :
  result_bind x k = Ok b -> exists a, x = Ok a /\ k a = Ok b.
Proof. destruct x as [a|e]; [by exists a | done]. Qed.

(** Peel one [result_bind] off a successful load. *)
Ltac peel H :=
  let a := fresh "a" in let Ha := fresh "Ha" in
  apply result_bind_ok in H as (a & Ha & H); rewrite ?Ha.

Lemma traverse_snoc {A B} (f : A -> result exn B) l bs x b :
  traverse f l = Ok bs -> f x = Ok b -> traverse f (l ++ [x]) = Ok (bs ++ [b]).
Proof.
  intros Hl Hx. revert bs Hl. induction l as [|y l IH]; simpl; intros bs Hl.
  - injection Hl as <-. by rewrite Hx.
  - peel Hl. peel Hl. injection Hl as <-. simpl. by rewrite (IH _ Ha0).
Qed.

Section adoption.
Abbreviation load := load_fee_schedule.
Context (instrument field : string) (entry : json) (e : FeeEntry).
Hypothesis entry_ok : entry_of (instrument +:+ "." +:+ field) entry = Ok e.

(** The series of two loads: the adopted field's has one more entry, the rest are
    the same. *)
Definition one_more (old new : list (string * list FeeEntry)) : Prop :=
  (forall k, k <> field -> dict_get k new = dict_get k old) /\
  (forall l, dict_get field old = Some l -> exists parsed,
     l = sort_by fe_effective_from parsed /\
     dict_get field new = Some (sort_by fe_effective_from (parsed ++ [e]))).

Lemma load_fields_push block series :
  load_fields instrument block = Ok series -> exists series',
    load_fields instrument (at_key field (push entry) block) = Ok series' /\ one_more series series'.
Proof.
  revert series. induction block as [|[k v] block IH]; simpl; intros series Hl.
  - injection Hl as <-. exists []. by split; [|split].
  - destruct v as [| | | | |l|];
      try (destruct (String.eqb field k); simpl; by apply IH).
    peel Hl. peel Hl. injection Hl as <-. destruct (IH _ Ha0) as (rest & Hr & Hk & Hf).
    destruct (String.eqb_spec field k) as [<-|Hne]; simpl.
    + unfold load_series in Ha |- *. peel Ha. injection Ha as <-.
      rewrite (traverse_snoc _ _ _ _ _ Ha1 entry_ok). simpl. rewrite Hr. simpl.
      eexists. split; [done|]. split.
      * intros k' Hk'. simpl. rewrite (proj2 (String.eqb_neq k' field)) by done. by apply Hk.
      * intros l0. simpl. rewrite String.eqb_refl. intros [= <-]. by eexists.
    + rewrite Ha. simpl. rewrite Hr. simpl. eexists. split; [done|]. split.
      * intros k' Hk'. simpl. destruct (String.eqb k' k); [done|]. by apply Hk.
      * intros l0. simpl. rewrite (proj2 (String.eqb_neq field k)) by done. apply Hf.
Qed.

(** A string field of the block may read differently but is still there. *)
Lemma str_item_at_key k f block v :
  str_item block k = Ok v -> exists v', str_item (at_key field f block) k = Ok v'.
Proof.
  unfold str_item, item. rewrite jassoc_at_key. destruct (jassoc k block); [|done]. simpl. eauto.
Qed.

Lemma load_instrument_push v ins :
  load_instrument (instrument, v) = Ok ins -> exists ins',
    load_instrument (instrument, in_table (at_key field (push entry)) v) = Ok ins' /\
    ins'.1 = ins.1 /\ one_more (in_series ins.2) (in_series ins'.2).
Proof.
  unfold load_instrument. destruct v as [| | | | | |block]; try done. simpl. intros Hl.
  peel Hl. destruct (load_fields_push _ _ Ha) as (series' & -> & Hone). simpl.
  do 4 (apply result_bind_ok in Hl as (? & Hx & Hl);
        apply (str_item_at_key _ (push entry)) in Hx as [? ->]; simpl).
  injection Hl as <-. eexists. split; [done|]. done.
Qed.

Lemma load_instrument_key kv ins : load_instrument kv = Ok ins -> ins.1 = kv.1.
Proof.
  unfold load_instrument. destruct kv.2; try done. intros Hl. do 5 peel Hl. by injection Hl as <-.
Qed.

Lemma load_instruments_push kvs iss :
  traverse load_instrument kvs = Ok iss -> exists iss',
    traverse load_instrument
      (at_key instrument (in_table (at_key field (push entry))) kvs) = Ok iss' /\
    (forall k, k <> instrument -> dict_get k iss' = dict_get k iss) /\
    match dict_get instrument iss with
    | None => dict_get instrument iss' = None
    | Some i => exists i', dict_get instrument iss' = Some i' /\ one_more (in_series i) (in_series i')
    end.
Proof.
  revert iss. induction kvs as [|[k v] kvs IH]; simpl; intros iss Hl.
  - injection Hl as <-. by exists [].
  - peel Hl. peel Hl. injection Hl as <-. destruct (IH _ Ha0) as (rest & Hr & Hk & Hf).
    pose proof (load_instrument_key _ _ Ha) as Hkey. destruct a as [k0 i0]. simpl in Hkey. subst k0.
    destruct (String.eqb_spec instrument k) as [<-|Hne]; simpl.
    + destruct (load_instrument_push _ _ Ha) as ([k1 i1] & -> & Hk1 & Hone). simpl in *. subst k1.
      rewrite Hr. simpl. eexists. split; [done|]. simpl. rewrite String.eqb_refl. split; [|by exists i1].
      intros k' Hk'. rewrite (proj2 (String.eqb_neq k' instrument)) by done. by apply Hk.
    + rewrite Ha. simpl. rewrite Hr. simpl. eexists. split; [done|]. simpl.
      rewrite (proj2 (String.eqb_neq instrument k)) by done. split; [|done].
      intros k' Hk'. destruct (String.eqb k' k); [done|]. by apply Hk.
Qed.

Lemma load_append raw s :
  load raw = Ok s -> exists s', load (append_entry instrument field entry raw) = Ok s' /\
    (forall i f, (i, f) <> (instrument, field) -> series_for s' i f = series_for s i f) /\
    (forall l, series_for s instrument field = Ok l -> exists parsed,
       l = sort_by fe_effective_from parsed /\
       series_for s' instrument field = Ok (sort_by fe_effective_from (parsed ++ [e]))).
Proof.
  unfold load_fee_schedule, append_entry, item. intros Hl.
  peel Hl. destruct (jassoc "instrument" raw) as [v|] eqn:Hv; [|done].
  injection Ha as ->. rewrite !jassoc_at_key, Hv. simpl.
  destruct a as [| | | | | |kvs]; try done. peel Hl.
  destruct (load_instruments_push _ _ Ha) as (iss' & Hiss & Hother & Hone). simpl. rewrite Hiss. simpl.
  rewrite !option_fmap_id. peel Hl. simpl. peel Hl. simpl. peel Hl. simpl. peel Hl. simpl.
  destruct a3 as [| | | | | |meta]; try done. peel Hl. injection Hl as <-.
  eexists. split; [done|]. unfold series_for. simpl. split.
  - intros i f Hne. destruct (decide (i = instrument)) as [->|]; [|by rewrite Hother].
    destruct (dict_get instrument a) as [ins|]; [|by rewrite Hone].
    destruct Hone as (ins' & -> & Hk & _). rewrite Hk; [done|]. congruence.
  - intros l. destruct (dict_get instrument a) as [ins|]; [|done].
    destruct Hone as (ins' & -> & _ & Hf). destruct (dict_get field (in_series ins)); [|done].
    intros [= <-]. destruct (Hf _ eq_refl) as (parsed & -> & ->). by exists parsed.
Qed.

Lemma resolve_append s s' on allow_stale now :
  (forall i f, (i, f) <> (instrument, field) -> series_for s' i f = series_for s i f) ->
  (forall l, series_for s instrument field = Ok l -> exists parsed,
     l = sort_by fe_effective_from parsed /\
     series_for s' instrument field = Ok (sort_by fe_effective_from (parsed ++ [e]))) ->
  forall i f l, series_for s i f = Ok l -> l <> [] ->
  (i, f) <> (instrument, field) \/ on < fe_effective_from e ->
  resolve s' i f on allow_stale now = resolve s i f on allow_stale now.
Proof.
  intros Hother Hone i f l Hl Hne Hor. unfold resolve.
  destruct (decide ((i, f) = (instrument, field))) as [[= -> ->]|Hd]; [|by rewrite Hother].
  destruct Hor as [?|Hon]; [done|]. destruct (Hone l Hl) as (parsed & -> & Hs').
  rewrite Hl, Hs'. simpl. rewrite !last_applicable. unfold applicable. rewrite List.filter_app. simpl.
  rewrite (proj2 (Z.leb_gt (fe_effective_from e) on)) by done. rewrite app_nil_r.
  destruct (latest _ _); [done|]. destruct (sort_by fe_effective_from parsed); [done|].
  by destruct (sort_by fe_effective_from (parsed ++ [e])) eqn:E;
    [apply sort_by_nil, app_nil in E as []|].
Qed.

(** C25: adopting a fee never rewrites the past.  Appending an entry that loads to
    [e] gives a schedule that loads too, in which every other field, and this
    field on every date before [e] takes effect, resolves exactly as before; and
    from then on, unless a later entry was in force already, the adopted figure
    is the basis, so the observation it was adopted from no longer alerts. *)
Theorem adoption_keeps_history raw s l :
  load raw = Ok s -> series_for s instrument field = Ok l -> l <> [] ->
  exists s', load (append_entry instrument field entry raw) = Ok s' /\
    (forall i f l' on allow_stale now, series_for s i f = Ok l' -> l' <> [] ->
       (i, f) <> (instrument, field) \/ on < fe_effective_from e ->
       resolve s' i f on allow_stale now = resolve s i f on allow_stale now) /\
    (forall on now, fe_effective_from e <= on ->
       Forall (fun x => fe_effective_from x <= on -> fe_effective_from x <= fe_effective_from e) l ->
       forall c, compare s' instrument field (fe_value e) on true now = Ok c ->
       co_basis c = fe_value e /\ should_alert c = false).
Proof.
  intros Hload Hl Hne. destruct (load_append raw s Hload) as (s' & Hload' & Hother & Hone).
  exists s'. split; [done|]. split.
  - intros. by eapply resolve_append.
  - intros on now Hon Hnew c Hc. destruct (Hone l Hl) as (parsed & -> & Hs').
    unfold compare, resolve in Hc. rewrite Hs' in Hc. simpl in Hc. rewrite last_applicable in Hc.
    unfold applicable in Hc. rewrite List.filter_app in Hc. simpl in Hc.
    rewrite (proj2 (Z.leb_le (fe_effective_from e) on)), latest_app in Hc by done.
    destruct (latest _ _) as [z|] eqn:Hz.
    + assert (Hin : z ∈ applicable on parsed).
      { destruct (latest_spec _ _ _ Hz) as (bef & aft & Hsp & _). unfold applicable.
        rewrite Hsp. set_solver. }
      apply applicable_elem in Hin as [Hin Hzon]. rewrite sort_by_perm, Forall_forall in Hnew.
      rewrite (proj2 (Z.leb_le _ _) (Hnew z Hin Hzon)) in Hc.
      peel Hc. peel Ha. rewrite andb_false_r in Ha. simplify_eq/=. by rewrite dec_gtb_irrefl.
    + peel Hc. peel Ha. rewrite andb_false_r in Ha. simplify_eq/=. by rewrite dec_gtb_irrefl.
Qed.
End adoption.

(** ** Observations *)

(** an observation is stored with the check that gives it meaning.  Recording
    either fails and writes nothing, or appends exactly one row, leaving every
    earlier row as it is, filed under the Bangkok month of its own instant, whose
    basis is the entry in force on the observation's own Bangkok day and whose
    verdict is ABOVE exactly when the observed figure exceeds that basis; only
    then does it alert. *)
Theorem observation_recorded fee_check can_insert instant s o instrument field v now t u t' :
  record_observation fee_check can_insert instant s o instrument field v now t = (u, t') ->
  match u with
  | Err _ => t' = t
  | Ok rc => exists row entry,
      ft_rows t' = ft_rows t ++ [row] /\ fo_id row = ft_next_id t /\ rc_observation_id rc = fo_id row /\
      fo_observation row = o /\ fo_fee_month row = venue_fee_month (ob_observed_at o) /\
      resolve s instrument field (venue_date (ob_observed_at o)) true now = Ok entry /\
      fo_basis_value row = Some (fe_value entry) /\
      fo_basis_effective_from row = Some (fe_effective_from entry) /\
      fo_verdict row = Some (if dec_gtb v (fe_value entry) then ABOVE else AT_OR_BELOW) /\
      should_alert (rc_comparison rc) = dec_gtb v (fe_value entry)
  end.
Proof.
  unfold record_observation, compare, insert_observation.
  destruct (resolve s instrument field _ true now) as [entry|x] eqn:Hr; simpl; [|by intros [= <- <-]].
  destruct (negb can_insert || negb (fee_check o)); intros [= <- <-]; [done|].
  eexists _, entry. split_and!; try done. unfold should_alert. simpl. by destruct (dec_gtb _ _).
Qed.

(** ** Months *)

Lemma next_fee_month_eq d : next_fee_month d = next_month d.
Proof. reflexivity. Qed.

(** C28: the tier volume of a month counts each fill once, in its Bangkok month.
    For a first of month, the engine's month-to-date figure is the sum of the
    account's fills whose execution instant falls, in Bangkok, in that month, the
    same month an observation of that instant is filed under; the month after is
    the next calendar month, so consecutive months neither overlap nor leave a
    gap. *)
Theorem month_to_date_by_month broker account market fee_month (d : db) :
  replace_day 1 fee_month = fee_month ->
  month_to_date_contracts broker account market fee_month d =
    zsum (map fr_quantity (List.filter (fun f =>
      match db_orders d !! fr_client_order_id f with
      | None => false
      | Some o => bool_decide (or_broker o = broker) && String.eqb (or_account o) account &&
                  bool_decide (or_market o = market) &&
                  (venue_fee_month (utc (fr_exec_ts f)) =? fee_month)
      end) (db_fills d))) /\
  (let '(y, m, _) := date_ymd fee_month in
   date_ymd (next_fee_month fee_month) = (let '(y', m') := succ_month y m in (y', m', 1))).
Proof.
  intros Hf. split.
  - unfold month_to_date_contracts, month_fills. do 2 f_equal. apply List.filter_ext. intros f.
    destruct (db_orders d !! fr_client_order_id f); [|done]. rewrite <- !andb_assoc. do 3 f_equal.
    rewrite next_fee_month_eq.
    change (venue_fee_month (utc (fr_exec_ts f))) with (month_start (bangkok_date (fr_exec_ts f))).
    pose proof (month_unique fee_month (bangkok_date (fr_exec_ts f)) Hf) as Hu.
    apply eq_true_iff_eq. rewrite andb_true_iff, Z.leb_le, Z.ltb_lt, Z.eqb_eq. tauto.
  - destruct (date_cases fee_month) as (y & m & k & Hv & ->). rewrite (date_ymd_civil _ _ _ Hv).
    pose proof (next_month_civil y m k Hv) as Hn. unfold succ_month in *.
    pose proof (days_in_month_range (y + 1) 1). pose proof (days_in_month_range y (m + 1)).
    rewrite next_fee_month_eq.
    destruct (Z.eqb_spec m 12); rewrite Hn; apply date_ymd_civil; destruct Hv; unfold valid_ymd; lia.
Qed.
