(* ===== verification/PyText.v ===== *)
(** * PyText: printing decimals, and reading them back

    A printed decimal reads back as itself, digits and exponent; printed decimals,
    dates and stamps are plain text of the TOML the fee schedule is written in. *)

From S2P Require Import Prelude Decimals Contracts Digits PyTime PyIso Liberator LiberatorProps.
From stdpp Require Import base strings list sets.
From Stdlib Require Import ZArith Lia.
Open Scope Z_scope.

Example dec_str_3 : map dec_str [Dec 1250 (-2); Dec (-5) (-3); Dec 0 0; Dec 12 3; Dec 1 (-7); Dec 123 (-9)]
  = ["12.50"; "-0.005"; "0"; "1.2E+4"; "1E-7"; "1.23E-7"]%string.
Proof. reflexivity. Qed.

(** ** Decimal(str(d)) *)

Definition point : Ascii.ascii := Ascii.ascii_of_nat 46.
Definition minus : Ascii.ascii := Ascii.ascii_of_nat 45.
Definition plus : Ascii.ascii := Ascii.ascii_of_nat 43.
Definition letter_E : Ascii.ascii := Ascii.ascii_of_nat 69.

(** The characters of a sign, an exponent, a fraction. *)
Definition sign_chars (neg : bool) : list Ascii.ascii := if neg then [minus] else [].
Definition exp_chars (x : option Z) : list Ascii.ascii :=
  match x with
  | None => []
  | Some x => letter_E :: (if x <? 0 then minus else plus) :: chars (nat_str (Z.abs x))
  end.
Definition frac_chars (fp : option (list Ascii.ascii)) : list Ascii.ascii :=
  match fp with None => [] | Some fp => point :: fp end.

Lemma digits_plain l : all_digits l -> Forall plain l.
Proof. intros H. eapply Forall_impl; [exact H|apply plain_digit]. Qed.

Lemma exp_plain x : Forall plain (exp_chars x).
Proof.
  destruct x as [x|]; simpl; [|constructor]. repeat constructor.
  - destruct (x <? 0); by split.
  - destruct (x <? 0); by split.
  - apply digits_plain, nat_str_digits.
Qed.

Lemma frac_plain fp : match fp with Some fp => all_digits fp | None => True end -> Forall plain (frac_chars fp).
Proof. destruct fp; simpl; [|constructor]. intros H. constructor; [by split|by apply digits_plain]. Qed.

(** What the parser does with an exponent. *)
Lemma parse_exp x c e :
  match exp_chars x with
  | [] => Some (Dec c e)
  | a :: l' =>
      if memb (char_code a) [69; 101] then
        let '(es, l'') := take_sign l' in
        match span_digits l'' with
        | ([], _) => None
        | (xs, []) => Some (Dec c (e + es * digits_to_Z xs))
        | (_, _ :: _) => None
        end
      else None
  end = Some (Dec c (e + default 0 x)).
Proof.
  destruct x as [x|]; [|simpl; by rewrite Z.add_0_r]. cbn [exp_chars]. change (memb (char_code letter_E) [69; 101]) with true.
  assert (Hs : take_sign ((if x <? 0 then minus else plus) :: chars (nat_str (Z.abs x))) =
    (if x <? 0 then -1 else 1, chars (nat_str (Z.abs x)))) by (by destruct (x <? 0)).
  cbv beta iota. rewrite Hs. rewrite <- (app_nil_r (chars (nat_str _))) at 1.
  rewrite span_digits_app by (apply nat_str_digits || done).
  pose proof (nat_str_nonempty (Z.abs x)) as Hne. rewrite <- chars_length in Hne.
  destruct (chars (nat_str (Z.abs x))) as [|a l] eqn:E; [simpl in Hne; lia|]. rewrite <- E.
  change (digits_to_Z (chars (nat_str (Z.abs x)))) with (digits_from 0 (chars (nat_str (Z.abs x)))).
  rewrite nat_str_chars by lia. do 2 f_equal. simpl. destruct (Z.ltb_spec x 0); lia.
Qed.

Lemma parse_text s neg ip fp x :
  chars s = sign_chars neg ++ ip ++ frac_chars fp ++ exp_chars x ->
  all_digits ip -> match fp with Some fp => all_digits fp | None => True end -> ip <> [] ->
  decimal_of_string s =
    Some (Dec ((if neg then -1 else 1) * digits_from 0 (ip ++ default [] fp))
              (- Z.of_nat (length (default [] fp)) + default 0 x)).
Proof.
  intros Hs Hip Hfp Hne. unfold decimal_of_string. rewrite Hs, plain_clean.
  2:{ repeat (apply Forall_app; split); [destruct neg; repeat constructor| by apply digits_plain |
      by apply frac_plain | apply exp_plain]. }
  assert (Hsign : forall l, take_sign (sign_chars neg ++ ip ++ l) = (if neg then -1 else 1, ip ++ l)).
  { intros l. destruct neg; [done|]. cbn [sign_chars app]. by apply take_sign_digits. }
  rewrite Hsign. rewrite span_digits_app; [|done|by destruct fp, x].
  assert (Hf : match frac_chars fp ++ exp_chars x with
    | a :: l' => if char_code a =? 46 then span_digits l' else ([], frac_chars fp ++ exp_chars x)
    | [] => ([], []) end = (default [] fp, exp_chars x)).
  { destruct fp as [fp|]; simpl; [by apply span_digits_app; [|destruct x]|by destruct x]. }
  rewrite Hf. rewrite bool_decide_eq_false_2 by (by destruct ip). apply parse_exp.
Qed.

(** The same for a number laid out as [dec_str] does. *)
Lemma parse_body c e x body ip fp :
  chars body = ip ++ frac_chars fp -> all_digits ip ->
  match fp with Some fp => all_digits fp | None => True end -> ip <> [] ->
  digits_from 0 (ip ++ default [] fp) = Z.abs c -> - Z.of_nat (length (default [] fp)) + x = e ->
  decimal_of_string (sign_text c +:+ body +:+ exp_text x) = Some (Dec c e).
Proof.
  intros Hb Hip Hfp Hi Hv He.
  rewrite (parse_text _ (c <? 0) ip fp (if x =? 0 then None else Some x)); try done.
  - rewrite Hv. do 2 f_equal; [destruct (Z.ltb_spec c 0); lia|].
    rewrite <- He. f_equal. destruct (Z.eqb_spec x 0); simpl; lia.
  - rewrite !chars_app, Hb, <- !app_assoc. unfold sign_text, exp_text. f_equal; [by destruct (c <? 0)|].
    do 2 f_equal. destruct (x =? 0); [done|]. simpl. by destruct (x <? 0).
Qed.

(** A decimal read back from its text is the same coefficient and exponent. *)
Lemma dec_str_round_trip d : decimal_of_string (dec_str d) = Some d.
Proof.
  destruct d as [c e]. unfold dec_str. cbn [d_coeff d_exp]. cbv zeta.
  set (ds := nat_str (Z.abs c)). set (len := Z.of_nat (String.length ds)).
  set (dot := if (e <=? 0) && (-6 <? e + len) then e + len else 1).
  pose proof (nat_str_nonempty (Z.abs c)) as Hne. fold ds in Hne.
  assert (Hds : all_digits (chars ds)) by apply nat_str_digits.
  assert (Hval : digits_from 0 (chars ds) = Z.abs c) by (apply nat_str_chars; lia).
  pose proof (chars_length ds) as Hl.
  destruct (Z.leb_spec dot 0); [|destruct (Z.leb_spec len dot)].
  - apply (parse_body _ _ _ _ [digit_char 0] (Some (chars (zeros (Z.to_nat (- dot))) ++ chars ds))); try done.
    + by rewrite !chars_app.
    + by repeat constructor.
    + simpl. apply Forall_app; split; [apply zeros_digits|done].
    + change (default [] (Some ?l)) with l. rewrite !digits_from_app, digits_from_zeros.
      by rewrite Z.mul_0_l.
    + simpl. rewrite length_app, chars_zeros, Hl. unfold dot in *. destruct (_ && _); lia.
  - apply (parse_body _ _ _ _ (chars ds ++ chars (zeros (Z.to_nat (dot - len)))) None); try done.
    + by rewrite chars_app, app_nil_r.
    + apply Forall_app; split; [done|apply zeros_digits].
    + intros E. apply app_nil in E as [E _]. rewrite E in Hl. simpl in Hl. lia.
    + simpl. rewrite app_nil_r, digits_from_app, digits_from_zeros, Hval.
      replace (Z.to_nat (dot - len)) with 0%nat; [simpl; lia|]. unfold dot in *.
      destruct (Z.leb_spec e 0), (Z.ltb_spec (-6) (e + len)); simpl in *; lia.
    + simpl. unfold dot in *. destruct (Z.leb_spec e 0), (Z.ltb_spec (-6) (e + len)); simpl in *; lia.
  - apply (parse_body _ _ _ _ (take (Z.to_nat dot) (chars ds)) (Some (drop (Z.to_nat dot) (chars ds)))); try done.
    + rewrite !chars_app, !chars_substring, drop_0. f_equal. simpl. f_equal.
      apply take_ge. rewrite length_drop, Hl. lia.
    + by apply all_digits_take.
    + by apply all_digits_drop.
    + intros E. apply (f_equal length) in E. rewrite length_take, Hl in E. simpl in E. lia.
    + simpl. by rewrite take_drop.
    + simpl. rewrite length_drop, Hl. unfold dot in *. destruct (_ && _); lia.
Qed.

(** ** What a printed field is made of *)

(** No quote, backslash or control character: what a TOML basic string may hold
    without an escape. *)
Definition toml_plain (a : Ascii.ascii) : bool :=
  negb (memb (char_code a) [34; 92; 127]) && ((32 <=? char_code a) || (char_code a =? 9)).
Definition all_plain (s : string) : bool := forallb toml_plain (chars s).

Lemma all_plain_app s t : all_plain (s +:+ t) = all_plain s && all_plain t.
Proof. unfold all_plain. rewrite chars_app. apply forallb_app. Qed.

Lemma digits_all_plain s : all_digits (chars s) -> all_plain s = true.
Proof.
  intros H. apply forallb_forall. intros a Ha. rewrite <- list_elem_of_In in Ha.
  unfold all_digits in H. rewrite Forall_forall in H. specialize (H a Ha).
  unfold is_digit in H. apply andb_true_iff in H as [H1%Z.leb_le H2%Z.leb_le].
  unfold toml_plain. rewrite (proj2 (Z.leb_le 32 _)) by lia. rewrite andb_true_r. apply negb_true_iff.
  apply not_true_iff_false. rewrite memb_spec. set_unfold. lia.
Qed.

Lemma nat_str_plain n : all_plain (nat_str n) = true.
Proof. apply digits_all_plain, nat_str_digits. Qed.
Lemma zeros_plain k : all_plain (zeros k) = true.
Proof. apply digits_all_plain, zeros_digits. Qed.
Create Rewrite HintDb plain.
#[export] Hint Rewrite all_plain_app nat_str_plain zeros_plain : plain.

Lemma dec_str_plain d : all_plain (dec_str d) = true.
Proof.
  unfold dec_str. cbv zeta. autorewrite with plain. apply andb_true_iff. split.
  { unfold sign_text. by case_match. }
  apply andb_true_iff. split.
  2:{ unfold exp_text. destruct (_ =? 0); [done|]. autorewrite with plain. by destruct (_ <? 0). }
  assert (Hsub : forall i k, all_plain (String.substring i k (nat_str (Z.abs (d_coeff d)))) = true).
  { intros i k. apply digits_all_plain. rewrite chars_substring.
    apply all_digits_take, all_digits_drop, nat_str_digits. }
  repeat case_match; autorewrite with plain; rewrite ?Hsub; done.
Qed.

Lemma iso_date_plain d : all_plain (iso_date d) = true.
Proof.
  unfold iso_date. destruct (date_ymd d) as [[y m] day]. unfold pad. cbv zeta. by autorewrite with plain.
Qed.
Lemma utc_stamp_plain now : all_plain (utc_stamp now) = true.
Proof.
  unfold utc_stamp. cbv zeta. rewrite all_plain_app, iso_date_plain. unfold pad. cbv zeta.
  by autorewrite with plain.
Qed.
