(* ===== verification/FeeDoc.v ===== *)
(** * FeeDoc: the fee schedule as text
    ([reference/fee_schedule.py]: [render_entry]; [scripts/generate_fee_doc.py])

    The TOML block an adopted observation is written as, a reader for such blocks,
    and the Markdown mirror of the schedule with its drift check.  Texts are UTF-8. *)

From S2P Require Import Prelude Decimals Contracts Digits Config Adapters PyTime PyIso Liberator LiberatorProps StreamingPro Fees PyText.
From stdpp Require Import base strings list.
From Stdlib Require Import ZArith Lia.
Open Scope Z_scope.

Definition dq : Ascii.ascii := Ascii.ascii_of_nat 34.
Definition nl : Ascii.ascii := Ascii.ascii_of_nat 10.
Definition NL : string := String nl "".
Definition quoted (s : string) : string := String dq (s +:+ String dq "").
Definition quoted3 (s : string) : string :=
  String dq (String dq (String dq (s +:+ String dq (String dq (String dq ""))))).

(** ** The block of an adopted observation *)

Definition adopted_source (observed_on : date) : string :=
  "execution.fee_observations, observed " +:+ iso_date observed_on.

(** The text between the triple quotes; the newline after the opening ones is not
    part of the value. *)
Definition adopted_note (prior : Decimal) (effective_from : date) : string :=
  "🔴 ADOPTED AUTOMATICALLY because an observation EXCEEDED the prior basis of " +:+ dec_str prior +:+ "." +:+ NL +:+
  "The conservative basis had stopped being conservative, which means every strategy" +:+ NL +:+
  "calculation between " +:+ iso_date effective_from +:+ " and this entry was UNDERSTATING cost." +:+ NL +:+
  "The prior entry is retained above and stays resolvable for any period before" +:+ NL +:+
  iso_date effective_from +:+ " — results computed then must remain reconstructible.".

Definition render_entry (instrument field : string) (value : Decimal) (unit_ : string)
    (effective_from observed_on : date) (prior : Decimal) (now : Z) : string :=
  NL +:+ "  [[instrument." +:+ instrument +:+ "." +:+ field +:+ "]]" +:+
  (NL +:+ "  value        = ") +:+ quoted (dec_str value) +:+
  (NL +:+ "  effective_from = ") +:+ quoted (iso_date effective_from) +:+
  (NL +:+ "  unit         = ") +:+ quoted unit_ +:+
  (NL +:+ "  source_kind  = ") +:+ quoted "observed_adopted" +:+
  (NL +:+ "  source       = ") +:+ quoted (adopted_source observed_on) +:+
  (NL +:+ "  corroborated = ") +:+ "true" +:+
  (NL +:+ "  note = ") +:+ quoted3 (NL +:+ adopted_note prior effective_from) +:+
  (NL +:+ "  recorded_utc = ") +:+ quoted (utc_stamp now) +:+
  (NL +:+ "  max_age_days = ") +:+ "180" +:+ NL.

(** ** Reading a block

    The part of TOML such a block is written in: one array-of-tables header with
    bare keys, then key/value pairs whose values are basic or multi-line basic
    strings without escapes, booleans and whole numbers. *)

Fixpoint skip_blank (s : string) : string :=
  match s with
  | String a s' => if memb (char_code a) [9; 10; 32] then skip_blank s' else s
  | EmptyString => s
  end.

Definition is_bare (a : Ascii.ascii) : bool :=
  let c := char_code a in
  (48 <=? c) && (c <=? 57) || (65 <=? c) && (c <=? 90) || (97 <=? c) && (c <=? 122) || memb c [45; 95].

Fixpoint span_bare (s : string) : string * string :=
  match s with
  | String a s' => if is_bare a then let '(k, r) := span_bare s' in (String a k, r) else (""%string, s)
  | EmptyString => (""%string, s)
  end.

Fixpoint expect_text (p s : string) : option string :=
  match p, s with
  | EmptyString, _ => Some s
  | String a p', String b s' => if Ascii.eqb a b then expect_text p' s' else None
  | String _ _, EmptyString => None
  end.

(** [k1.k2.…]] ]: the keys, and what follows the brackets. *)
Fixpoint toml_path (fuel : nat) (s : string) : option (list string * string) :=
  match fuel with
  | O => None
  | S f =>
      let '(k, r) := span_bare s in
      if String.eqb k "" then None
      else match r with
           | String a r' =>
               if char_code a =? 46 then (fun p => (k :: p.1, p.2)) <$> toml_path f r'
               else (fun r'' => ([k], r'')) <$> expect_text "]]" r
           | EmptyString => None
           end
  end.

Fixpoint basic_string (s : string) : option (string * string) :=
  match s with
  | String a s' =>
      if Ascii.eqb a dq then Some (""%string, s')
      else if toml_plain a then (fun p => (String a p.1, p.2)) <$> basic_string s' else None
  | EmptyString => None
  end.

(** Up to the closing quotes; a single quote inside is outside this part of TOML. *)
Fixpoint multi_string (s : string) : option (string * string) :=
  match s with
  | String a s' =>
      if Ascii.eqb a dq then (fun r => (""%string, r)) <$> expect_text (String dq (String dq "")) s'
      else if toml_plain a || Ascii.eqb a nl
      then (fun p => (String a p.1, p.2)) <$> multi_string s' else None
  | EmptyString => None
  end.

Definition drop_newline (s : string) : string :=
  match s with String a s' => if Ascii.eqb a nl then s' else s | EmptyString => s end.

Definition str_value (p : string * string) : json * string := (JStr p.1, p.2).

Definition toml_value (s : string) : option (json * string) :=
  match expect_text (String dq (String dq (String dq ""))) s with
  | Some r => str_value <$> multi_string (drop_newline r)
  | None =>
      match s with
      | String a s' =>
          if Ascii.eqb a dq then str_value <$> basic_string s'
          else match expect_text "true" s, expect_text "false" s with
               | Some r, _ => Some (JBool true, r)
               | None, Some r => Some (JBool false, r)
               | None, None =>
                   let '(ds, r) := span_digits (chars s) in
                   match ds with
                   | [] => None
                   | _ => Some (JInt (digits_to_Z ds), String.string_of_list_ascii r)
                   end
               end
      | EmptyString => None
      end
  end.

(** A key, its [=] and the blanks around it. *)
Definition toml_key (s : string) : option (string * string) :=
  let '(k, r) := span_bare (skip_blank s) in
  if String.eqb k "" then None
  else (fun r => (k, skip_blank r)) <$> expect_text "=" (skip_blank r).

Fixpoint toml_pairs (fuel : nat) (s : string) : option (list (string * json)) :=
  match fuel with
  | O => None
  | S f =>
      if String.eqb (skip_blank s) "" then Some []
      else match toml_key s with
           | None => None
           | Some (k, r) =>
               match toml_value r with
               | None => None
               | Some (v, r') => (fun ps => (k, v) :: ps) <$> toml_pairs f r'
               end
           end
  end.

Definition toml_block (s : string) : option (list string * list (string * json)) :=
  match expect_text "[[" (skip_blank s) with
  | None => None
  | Some r =>
      match toml_path (S (String.length r)) r with
      | None => None
      | Some (path, r') => (fun ps => (path, ps)) <$> toml_pairs (S (String.length r')) r'
      end
  end.

(** The table an adopted entry is. *)
Definition adopted_table (value : Decimal) (unit_ : string) (effective_from observed_on : date)
    (prior : Decimal) (now : Z) : list (string * json) :=
  [("value", JStr (dec_str value)); ("effective_from", JStr (iso_date effective_from));
   ("unit", JStr unit_); ("source_kind", JStr "observed_adopted");
   ("source", JStr (adopted_source observed_on)); ("corroborated", JBool true);
   ("note", JStr (adopted_note prior effective_from)); ("recorded_utc", JStr (utc_stamp now));
   ("max_age_days", JInt 180)]%string.

(** ** generate_fee_doc.py *)

Definition _CANON : string :=
  "quant-execution-engine/src/quant_execution_engine/reference/fee_schedule.toml".

Definition _KIND : list (string * string) :=
  [("operator_supplied", "🗣️ operator-supplied"); ("venue_fetched", "🏛️ venue-fetched");
   ("derived", "🧮 derived")]%string.

(** [str.splitlines], over UTF-8: a line ends at LF, CR, CR LF, VT, FF, FS, GS, RS,
    NEL, LS or PS. *)
Fixpoint splitlines_go (s line : string) : list string :=
  match s with
  | EmptyString => if String.eqb line "" then [] else [line]
  | String a s' =>
      let more := splitlines_go s' (line +:+ String a "") in
      if memb (char_code a) [10; 11; 12; 28; 29; 30] then line :: splitlines_go s' ""
      else if char_code a =? 13 then
        match s' with
        | String b s'' => if char_code b =? 10 then line :: splitlines_go s'' ""
                          else line :: splitlines_go s' ""
        | EmptyString => [line]
        end
      else if char_code a =? 194 then
        match s' with
        | String b s'' => if char_code b =? 133 then line :: splitlines_go s'' "" else more
        | EmptyString => more
        end
      else if char_code a =? 226 then
        match s' with
        | String b (String c s'') =>
            if (char_code b =? 128) && memb (char_code c) [168; 169] then line :: splitlines_go s'' ""
            else more
        | _ => more
        end
      else more
  end.
Definition splitlines (s : string) : list string := splitlines_go s "".

Definition doc_head (s : FeeSchedule) : list string :=
  ["# Trading fee schedule — GENERATED, do not edit";
   "";
   "> 🔴 **This file is GENERATED. Every edit here is lost and a drift test will fail.**";
   "> The single source of truth is";
   "> [`" +:+ _CANON +:+ "`](../../" +:+ _CANON +:+ ").";
   ">";
   "> ```bash";
   "> cd quant-execution-engine && uv run python scripts/generate_fee_doc.py";
   "> ```";
   "";
   "🔴 **This is a POLICY, not a record of facts.** The broker runs promotions, so the rate";
   "actually charged varies day to day. This is a **fixed, deliberately conservative basis**";
   "pinned at the most expensive tier, so every strategy calculation is deterministic and";
   "never flatters itself. What is *actually* charged lives in `execution.fee_observations`";
   "and is checked against this **one-sidedly**: an observation at or below the basis is";
   "normal and silent; one **above** it means the basis has stopped being conservative,";
   "which alerts and appends a new dated entry.";
   "";
   "**Entries are an append-only dated series.** Resolve the entry in force for **the period";
   "you are computing over**, never simply the newest — that is what keeps an old result";
   "reconstructible. Adoption appends; it never overwrites.";
   "";
   "It still carries **no cost logic, no slippage model, and nothing conditioned on a";
   "strategy or an outcome**. Consumers keep their own logic and read the basis from here.";
   "";
   "Currency **" +:+ fs_currency s +:+ "** · schema v" +:+ int_str (fs_schema_version s);
   "";
   "## Why this exists";
   "";
   "An audit on 2026-09-04 found **five independent cost models** in this umbrella. Their";
   "multipliers and tick sizes were venue-correct; their **fees were not**, and the";
   "operator's real schedule existed only in conversation. The widest divergence, measured";
   "rather than repeated:";
   "";
   "| source | S50, per side | vs actual |";
   "|---|---|---|";
   "| operator's actual, all-in | **21.40** | — |";
   "| `tfex-s50-multi-tf-swing/backtest/costs.py` | 160 + 1 = **161** | **7.52×** (11.43× on commission alone) |";
   "";
   "## How to read provenance";
   "";
   "| marker | meaning |";
   "|---|---|";
   "| 🗣️ operator-supplied | Stated by the operator. **No published source, no in-tree corroboration.** |";
   "| 🏛️ venue-fetched | Read from the venue's own published page, quoted verbatim below. |";
   "| 🧮 derived | Computed from other entries in this file; the arithmetic is test-pinned. |";
   "";
   "**`corroborated: no` is not a defect** — it is the honest state of a figure only one";
   "person has stated. It is recorded so nobody later mistakes it for a fetched fact, which";
   "is precisely how the SSF coefficients in this tree came to be mis-described as *seeds*.";
   "";
   "🔴 **Stale figures are REFUSED, not returned.** Each entry carries a staleness window;";
   "reading past it raises `FeeScheduleStale`. A caller wanting a known-stale figure must";
   "pass `allow_stale=True`, so the decision appears in their code and in review."]%string.

(** A row of an instrument's table; a kind without a marker raises [KeyError]. *)
Definition doc_row (fk : string) (e : FeeEntry) : result exn string :=
  match dict_get (fe_source_kind e) _KIND with
  | None => Err KeyError
  | Some kind =>
      Ok ("| `" +:+ fk +:+ "` | `" +:+ iso_date (fe_effective_from e) +:+ "` | **" +:+ dec_str (fe_value e) +:+
          "** | " +:+ fe_unit e +:+ " | " +:+ kind +:+ " | " +:+
          (if fe_corroborated e then "yes" else "**no**") +:+ " | " +:+ strftime_day (fe_recorded_utc e) +:+
          " | " +:+ int_str (fe_max_age_days e) +:+ "d |")%string
  end.

Definition doc_rows (series : string * list FeeEntry) : result exn (list string) :=
  traverse (doc_row series.1) series.2.

(** The source, quotation and note of the newest entry of a field; [entries[-1]] of
    an empty series raises [IndexError]. *)
Definition doc_note (series : string * list FeeEntry) : result exn (list string) :=
  match last series.2 with
  | None => Err IndexError
  | Some e =>
      Ok (if String.eqb (fe_verbatim e) "" && String.eqb (fe_note e) "" then []
          else [""%string; ("**`" +:+ series.1 +:+ "`** — " +:+ fe_source e)%string] ++
               (if String.eqb (fe_verbatim e) "" then []
                else [""%string; ("> venue, verbatim: `" +:+ fe_verbatim e +:+ "`")%string]) ++
               (if String.eqb (fe_note e) "" then []
                else ""%string :: map (fun line => if String.eqb (py_strip line) "" then ">"%string
                                                   else ("> " +:+ line)%string) (splitlines (fe_note e))))
  end.

Definition doc_heading (key : string) (inst : Instrument) : list string :=
  ["";
   "## " +:+ in_label inst;
   "";
   "`" +:+ key +:+ "` · venue **" +:+ in_venue inst +:+ "** · ticker **" +:+ in_ticker inst +:+
     "** · broker **" +:+ in_broker inst +:+ "**";
   "";
   "| field | effective from | value | unit | provenance | corroborated | recorded | max age |";
   "|---|---|---|---|---|---|---|---|"]%string.

Definition doc_instrument (kv : string * Instrument) : result exn (list string) :=
  let '(key, inst) := kv in
  result_bind (traverse doc_rows (in_series inst)) (fun rows =>
  result_bind (traverse doc_note (in_series inst)) (fun notes =>
  Ok (doc_heading key inst ++ concat rows ++ concat notes))).

Definition doc_gap (g : Gap) : list string :=
  ["";
   "### " +:+ gp_label g +:+ " (`" +:+ gp_instrument g +:+ "`)";
   "";
   "- **what exists:** `" +:+ gp_what_exists g +:+ "`";
   "- **where:** `" +:+ gp_where g +:+ "`";
   "- **why not canonical:** " +:+ gp_why_not_canonical g;
   "- **what would close it:** " +:+ gp_what_would_close_it g]%string.

Definition doc_gaps_head : list string :=
  ["";
   "## Gaps — recorded, deliberately NOT filled";
   "";
   "These classes are modelled elsewhere in the umbrella but their fee facts do **not**";
   "reach the standard above. Nothing uncorroborated is made canonical; the gap is named";
   "instead, with what would close it."]%string.

Definition doc_foot : list string :=
  [""; "---"; "";
   "<sub>Generated from `" +:+ _CANON +:+ "` by `scripts/generate_fee_doc.py`. Do not edit.</sub>"; ""]%string.

Definition doc_lines (s : FeeSchedule) : result exn (list string) :=
  result_bind (traverse doc_instrument (fs_instruments s)) (fun sections =>
  Ok (doc_head s ++ concat sections ++ doc_gaps_head ++ concat (map doc_gap (fs_gaps s)) ++ doc_foot)).

Definition render (s : FeeSchedule) : result exn string :=
  result_bind (doc_lines s) (fun lines => Ok (String.concat NL lines)).

(** [main]: the exit code and the document on disk afterwards; [schedule] is what
    [load_fee_schedule()] gave, [out] the file, if it exists. *)
Definition main (schedule : result exn FeeSchedule) (check : bool) (out : option string)
    : result exn (Z * option string) :=
  result_bind schedule (fun s =>
  result_bind (render s) (fun want =>
  if check then
    let have := default ""%string out in
    Ok (if String.eqb have want then 0 else 1, out)
  else Ok (0, Some want))).
