(* ===== verification/FeeDocProps.v ===== *)
(** * FeeDocProps: the written fee entry reads back, and the mirror document *)

From S2P Require Import Prelude Decimals Contracts Digits Config Adapters PyTime PyIso Liberator LiberatorProps StreamingPro Fees FeesProps PyText FeeDoc.
From stdpp Require Import base strings list sets.
From Stdlib Require Import ZArith Lia.
Open Scope Z_scope.

(** ** Reading the pieces of a block *)

Lemma str_app_cons a s t : (String a s +:+ t)%string = String a (s +:+ t).
Proof. reflexivity. Qed.
Lemma str_app_nil s : ("" +:+ s)%string = s.
Proof. reflexivity. Qed.
Lemma str_app_assoc (a b c : string) : ((a +:+ b) +:+ c)%string = (a +:+ (b +:+ c))%string.
Proof. induction a as [|x a IH]; [done|]. by rewrite !str_app_cons, IH. Qed.

Lemma plain_not_quote a : toml_plain a = true -> Ascii.eqb a dq = false.
Proof. intros H. destruct (Ascii.eqb_spec a dq) as [->|]; [vm_compute in H; done|done]. Qed.

Lemma basic_string_app x r : all_plain x = true -> basic_string (x +:+ String dq r) = Some (x, r).
Proof.
  unfold all_plain. induction x as [|a x IH]; simpl; [done|].
  intros [Ha Hx]%andb_true_iff. by rewrite (plain_not_quote a Ha), Ha, (IH Hx).
Qed.

(** What may stand between triple quotes. *)
Definition multi_plain (x : string) : bool := forallb (fun a => toml_plain a || Ascii.eqb a nl) (chars x).

Lemma multi_plain_app s t : multi_plain (s +:+ t) = multi_plain s && multi_plain t.
Proof. unfold multi_plain. rewrite chars_app. apply forallb_app. Qed.

Lemma plain_multi x : all_plain x = true -> multi_plain x = true.
Proof.
  unfold all_plain, multi_plain. rewrite !forallb_forall. intros H a Ha. by rewrite (H a Ha).
Qed.

Lemma multi_string_app x r : multi_plain x = true ->
  multi_string (x +:+ String dq (String dq (String dq r))) = Some (x, r).
Proof.
  unfold multi_plain. induction x as [|a x IH]; simpl; [done|].
  intros [Ha Hx]%andb_true_iff. rewrite Ha.
  assert (Ascii.eqb a dq = false) as ->.
  { apply orb_true_iff in Ha as [Ha|Ha]; [by apply plain_not_quote|].
    apply Ascii.eqb_eq in Ha as ->. reflexivity. }
  by rewrite (IH Hx).
Qed.

(** A quoted value that a newline follows. *)
Lemma quoted_value x t r : all_plain x = true -> t = String nl r ->
  toml_value (quoted x +:+ t) = Some (JStr x, t).
Proof.
  intros Hx ->. unfold quoted. rewrite !str_app_cons, ?str_app_nil, str_app_assoc, !str_app_cons, ?str_app_nil.
  unfold toml_value. assert (Hn : expect_text (String dq (String dq (String dq "")))
    (String dq (x +:+ String dq (String nl r))) = None).
  { destruct x as [|a x]; [done|]. unfold all_plain in Hx. simpl in Hx. apply andb_true_iff in Hx as [Ha _].
    rewrite str_app_cons. cbn [expect_text]. by rewrite Ascii.eqb_refl, Ascii.eqb_sym, (plain_not_quote a Ha). }
  rewrite Hn. rewrite Ascii.eqb_refl. by rewrite basic_string_app.
Qed.

Lemma quoted3_value x r : multi_plain x = true ->
  toml_value (quoted3 (NL +:+ x) +:+ r) = Some (JStr x, r).
Proof.
  intros Hx. unfold quoted3, NL. rewrite !str_app_cons, ?str_app_nil, str_app_assoc, !str_app_cons, ?str_app_nil.
  unfold toml_value. cbn [expect_text]. rewrite !Ascii.eqb_refl. cbn [drop_newline]. rewrite Ascii.eqb_refl.
  by rewrite multi_string_app.
Qed.

Definition bare (k : string) : bool := negb (String.eqb k "") && forallb is_bare (chars k).

Lemma span_bare_app k r :
  forallb is_bare (chars k) = true -> match r with String a _ => is_bare a = false | _ => True end ->
  span_bare (k +:+ r) = (k, r).
Proof.
  intros Hk Hr. induction k as [|a k IH].
  - rewrite str_app_nil. destruct r as [|b r]; [done|]. simpl. by rewrite Hr.
  - simpl in Hk. apply andb_true_iff in Hk as [Ha Hk]. rewrite str_app_cons. cbn [span_bare].
    by rewrite Ha, (IH Hk).
Qed.

Lemma path_dot n k r : bare k = true ->
  toml_path (S n) (k +:+ String point r) = (fun p => (k :: p.1, p.2)) <$> toml_path n r.
Proof.
  intros [Hne%negb_true_iff Hk]%andb_true_iff. cbn [toml_path]. rewrite span_bare_app by done.
  rewrite Hne. reflexivity.
Qed.

Lemma path_end n k r : bare k = true -> toml_path (S n) (k +:+ "]]" +:+ r) = Some ([k], r).
Proof.
  intros [Hne%negb_true_iff Hk]%andb_true_iff. cbn [toml_path]. rewrite span_bare_app by done.
  rewrite Hne. reflexivity.
Qed.

(** One pair of a block. *)
Lemma pairs_step n lead k v val r :
  String.eqb (skip_blank (lead +:+ val)) "" = false -> toml_key (lead +:+ val) = Some (k, val) ->
  toml_value val = Some (v, r) ->
  toml_pairs (S n) (lead +:+ val) = (fun ps => (k, v) :: ps) <$> toml_pairs n r.
Proof. intros H1 H2 H3. cbn [toml_pairs]. by rewrite H1, H2, H3. Qed.

Lemma adopted_note_plain prior eff : multi_plain (adopted_note prior eff) = true.
Proof.
  unfold adopted_note. rewrite !multi_plain_app, (plain_multi _ (dec_str_plain prior)),
    (plain_multi _ (iso_date_plain eff)). vm_compute. reflexivity.
Qed.

Lemma adopted_source_plain d : all_plain (adopted_source d) = true.
Proof. unfold adopted_source. rewrite all_plain_app, iso_date_plain. reflexivity. Qed.

(** The block is read as the table it denotes. *)
Lemma block_reads instrument field value unit_ eff obs prior now :
  bare instrument = true -> bare field = true -> all_plain unit_ = true ->
  toml_block (render_entry instrument field value unit_ eff obs prior now) =
    Some (["instrument"%string; instrument; field], adopted_table value unit_ eff obs prior now).
Proof.
  intros Hi Hf Hu. unfold render_entry, toml_block. set (pairs := (_ +:+ quoted (dec_str value) +:+ _)%string).
  match goal with |- context [expect_text "[[" ?s] =>
    change (expect_text "[[" s) with
      (Some ("instrument" +:+ String point (instrument +:+ String point (field +:+ "]]" +:+ pairs)))%string) end.
  cbv iota beta. match goal with |- context [toml_path (S (String.length ?r))] =>
    assert (exists n, S (String.length r) = (3 + n)%nat) as [n ->] by (eexists; reflexivity) end.
  cbn [Nat.add]. rewrite path_dot by reflexivity. rewrite path_dot by done. rewrite path_end by done.
  cbn [fmap option_fmap option_map fst snd].
  assert (exists m, S (String.length pairs) = (10 + m)%nat) as [m ->] by (eexists; reflexivity).
  unfold pairs. cbn [Nat.add].
  do 5 (erewrite pairs_step; [|reflexivity|reflexivity|eapply quoted_value;
    [auto using dec_str_plain, iso_date_plain, adopted_source_plain|reflexivity]]).
  erewrite (pairs_step _ _ _ (JBool true)); [|reflexivity|reflexivity|reflexivity].
  erewrite pairs_step; [|reflexivity|reflexivity|apply quoted3_value, adopted_note_plain].
  erewrite pairs_step; [|reflexivity|reflexivity|eapply quoted_value; [apply utc_stamp_plain|reflexivity]].
  erewrite (pairs_step _ _ _ (JInt 180)); [|reflexivity|reflexivity|reflexivity].
  reflexivity.
Qed.

(** ** Loading the block *)

Lemma replace_Z_app s t : replace_Z (s +:+ t) = (replace_Z s +:+ replace_Z t)%string.
Proof.
  apply string_chars_inj. unfold replace_Z.
  rewrite !chars_app, !String.list_ascii_of_string_of_list_ascii.
  by rewrite map_app, concat_app.
Qed.

Lemma replace_Z_safe s : safe_text s -> replace_Z s = s.
Proof.
  intros H. apply string_chars_inj. unfold replace_Z. rewrite String.list_ascii_of_string_of_list_ascii.
  induction H as [|a l Ha _ IH]; [done|]. cbn [map concat].
  assert ((char_code a =? 90) = false) as -> by (unfold safe_char in Ha; lia). by rewrite IH.
Qed.

(** The stamp is read as its second. *)
Definition stamped (now : Z) : PyDatetime := utc (now / 1000000 * 1000000).

Lemma replace_Z_stamp now : year_ok (now / DAY_US) -> replace_Z (utc_stamp now) = isoformat (stamped now).
Proof.
  intros Hy. set (w := now / 1000000 * 1000000).
  assert (E : utc_stamp now = (iso_wall w +:+ "Z")%string).
  { unfold utc_stamp, iso_wall, iso_time. cbv zeta. rewrite !str_app_assoc.
    replace (w / DAY_US) with (now / 1000000 / 86400) by (unfold w, DAY_US; Z.div_mod_to_equations; lia).
    replace (w mod DAY_US / 1000000) with (now / 1000000 mod 86400)
      by (unfold w, DAY_US; Z.div_mod_to_equations; lia).
    replace (w mod DAY_US mod 1000000) with 0 by (unfold w, DAY_US; Z.div_mod_to_equations; lia).
    by rewrite Z.eqb_refl, str_app_nil. }
  rewrite E, replace_Z_app, replace_Z_safe by apply safe_iso_wall. unfold stamped, isoformat, utc. fold w.
  by rewrite Z.add_0_r.
Qed.

Lemma stamp_reads now : year_ok (now / DAY_US) -> fromisoformat (replace_Z (utc_stamp now)) = Some (stamped now).
Proof.
  intros H. rewrite replace_Z_stamp by done. apply fromisoformat_isoformat. split; [|unfold DAY_US; simpl; lia].
  unfold wall_of, stamped, utc. rewrite Z.add_0_r.
  replace (now / 1000000 * 1000000 / DAY_US) with (now / DAY_US); [done|].
  unfold DAY_US. Z.div_mod_to_equations. lia.
Qed.

(** The entry an adopted observation becomes. *)
Definition adopted_entry (key : string) (value : Decimal) (unit_ : string) (eff obs : date)
    (prior : Decimal) (recorded : PyDatetime) : FeeEntry :=
  {| fe_key := key; fe_value := value; fe_unit := unit_; fe_source_kind := "observed_adopted";
     fe_source := adopted_source obs; fe_corroborated := true; fe_effective_from := eff;
     fe_recorded_utc := recorded; fe_max_age_days := 180;
     fe_note := py_strip (adopted_note prior eff); fe_verbatim := "" |}.

Lemma adopted_table_loads key value unit_ eff obs prior now :
  year_ok eff -> year_ok (now / DAY_US) ->
  entry_of key (JObj (adopted_table value unit_ eff obs prior now)) =
    Ok (adopted_entry key value unit_ eff obs prior (stamped now)).
Proof.
  intros Hd Ht. unfold entry_of, _entry, adopted_table, str_item, item, str_get.
  cbn [jassoc String.eqb Ascii.eqb Bool.eqb result_bind py_str].
  change (memb "observed_adopted" _SOURCE_KINDS) with true. cbn [negb].
  rewrite dec_str_round_trip. cbn [result_bind]. rewrite date_fromisoformat_iso by done.
  cbn [or_value_error result_bind]. rewrite stamp_reads by done. reflexivity.
Qed.

(** C26: an adopted fee survives being written.  The TOML block printed for an
    observation, for an instrument and a field that are bare keys and a unit
    without quotes, backslashes or control characters, is read back as one entry
    of that field's array, and the entry loads with exactly the adopted value
    (coefficient and exponent), unit, effective date and provenance. *)
Theorem adopted_entry_reads_back instrument field value unit_ eff obs prior now :
  bare instrument = true -> bare field = true -> all_plain unit_ = true ->
  year_ok eff -> year_ok (now / DAY_US) ->
  exists table,
    toml_block (render_entry instrument field value unit_ eff obs prior now) =
      Some (["instrument"%string; instrument; field], table) /\
    forall key, entry_of key (JObj table) =
      Ok (adopted_entry key value unit_ eff obs prior (stamped now)).
Proof.
  intros Hi Hf Hu Hd Ht. eexists. split; [by apply block_reads|].
  intros key. by apply adopted_table_loads.
Qed.

(** ** The mirror document *)

Lemma traverse_Forall2 {A B} (f : A -> result exn B) l bs :
  traverse f l = Ok bs <-> Forall2 (fun a b => f a = Ok b) l bs.
Proof.
  split.
  - revert bs. induction l as [|x l IH]; simpl; intros bs H; [injection H as <-; constructor|].
    peel H. peel H. injection H as <-. constructor; auto.
  - induction 1 as [|x b l bs Hx _ IH]; simpl; [done|]. by rewrite Hx, IH.
Qed.

Lemma traverse_total {A B} (f : A -> result exn B) l :
  (forall x, x ∈ l -> exists b, f x = Ok b) -> exists bs, traverse f l = Ok bs.
Proof.
  induction l as [|x l IH]; simpl; intros H; [by eexists|].
  destruct (H x) as [b ->]; [set_solver|]. destruct IH as [bs ->]; [set_solver|]. by eexists.
Qed.

(** Every result of an element is there. *)
Lemma traverse_elem {A B} (f : A -> result exn B) l bs x :
  traverse f l = Ok bs -> x ∈ l -> exists b, f x = Ok b /\ b ∈ bs.
Proof.
  intros H%traverse_Forall2 [i Hi]%list_elem_of_lookup.
  destruct (Forall2_lookup_l _ _ _ _ _ H Hi) as (b & Hb & Hf). exists b. split; [done|].
  by eapply list_elem_of_lookup_2.
Qed.

Lemma elem_of_concat {A} (l : list A) ls x : x ∈ l -> l ∈ ls -> x ∈ concat ls.
Proof. rewrite !list_elem_of_In, in_concat. eauto. Qed.

Lemma dict_get_elem {A} k (v : A) d : Fees.dict_get k d = Some v -> (k, v) ∈ d.
Proof.
  induction d as [|[k0 v0] d IH]; simpl; [done|].
  destruct (String.eqb_spec k k0) as [->|]; [intros [= ->]; by left|]. intros H. right. auto.
Qed.

(** A field of an instrument of the schedule, with its entries. *)
Definition has_series (s : FeeSchedule) (fk : string) (entries : list FeeEntry) : Prop :=
  exists k i, (k, i) ∈ fs_instruments s /\ (fk, entries) ∈ in_series i.


Lemma instrument_renders k i :
  (forall fk entries, (fk, entries) ∈ in_series i -> entries <> [] /\
     forall e, e ∈ entries -> is_Some (dict_get (fe_source_kind e) _KIND)) ->
  exists lines, doc_instrument (k, i) = Ok lines.
Proof.
  intros H. unfold doc_instrument.
  destruct (traverse_total (doc_rows) (in_series i)) as [rows ->].
  { intros [fk entries] Hin. apply traverse_total. intros e He. destruct (H _ _ Hin) as [_ Hk].
    destruct (Hk e He) as [kind Hkind]. unfold doc_row. rewrite Hkind. by eexists. }
  destruct (traverse_total doc_note (in_series i)) as [notes ->]; [|by eexists].
  intros [fk entries] Hin. destruct (H _ _ Hin) as [Hne _]. unfold doc_note. simpl.
  destruct (last entries) eqn:E; [by eexists|]. by apply last_None in E.
Qed.

(** The rows of a rendered instrument. *)
Lemma instrument_rows k i lines fk entries :
  doc_instrument (k, i) = Ok lines -> (fk, entries) ∈ in_series i ->
  entries <> [] /\ forall e, e ∈ entries -> exists row, doc_row fk e = Ok row /\ row ∈ lines.
Proof.
  unfold doc_instrument. intros H Hin. peel H. peel H.
  assert (lines = doc_heading k i ++ concat a ++ concat a0) as -> by congruence. split.
  - destruct (traverse_elem _ _ _ _ Ha0 Hin) as (b & Hb & _). intros ->. done.
  - intros e He. destruct (traverse_elem _ _ _ _ Ha Hin) as (rows & Hrows & Hr).
    destruct (traverse_elem _ _ _ _ Hrows He) as (row & Hrow & Hx). exists row. split; [done|].
    apply elem_of_app. right. apply elem_of_app. left. by apply (elem_of_concat rows).
Qed.

Lemma doc_lines_rows s lines : doc_lines s = Ok lines -> forall fk entries, has_series s fk entries ->
  entries <> [] /\ forall e, e ∈ entries -> exists row, doc_row fk e = Ok row /\ row ∈ lines.
Proof.
  intros Hl fk entries (k & i & Hi & Hin). unfold doc_lines in Hl. peel Hl.
  assert (lines = doc_head s ++ concat a ++ doc_gaps_head ++ concat (map doc_gap (fs_gaps s)) ++ doc_foot)
    as -> by congruence.
  destruct (traverse_elem _ _ _ _ Ha Hi) as (ls & Hls & Hx).
  destruct (instrument_rows _ _ _ _ _ Hls Hin) as [Hne Hr]. split; [done|].
  intros e He. destruct (Hr e He) as (row & ? & Hrow). exists row. split; [done|].
  apply elem_of_app. right. apply elem_of_app. left. by apply (elem_of_concat ls).
Qed.

(** When a schedule renders. *)
Lemma renders_iff s :
  (exists text, render s = Ok text) <->
  forall fk entries, has_series s fk entries -> entries <> [] /\
    forall e, e ∈ entries -> is_Some (dict_get (fe_source_kind e) _KIND).
Proof.
  split.
  - intros [text Ht] fk entries Hs. unfold render in Ht. peel Ht.
    destruct (doc_lines_rows _ _ Ha _ _ Hs) as [Hne Hr]. split; [done|].
    intros e He. destruct (Hr e He) as (row & Hd & _).
    unfold doc_row in Hd. destruct (dict_get _ _KIND); [by eexists|done].
  - intros H. unfold render, doc_lines.
    destruct (traverse_total (doc_instrument) (fs_instruments s)) as [ll ->]; [|by eexists].
    intros [k i] Hi. apply instrument_renders. intros fk entries Hin. apply (H fk). by exists k, i.
Qed.

Lemma series_has s instrument field l : series_for s instrument field = Ok l -> has_series s field l.
Proof.
  unfold series_for. destruct (dict_get instrument (fs_instruments s)) as [i|] eqn:Hi; [|done].
  destruct (dict_get field (in_series i)) as [l'|] eqn:Hl; [|done]. intros [= ->].
  exists instrument, i. split; by apply dict_get_elem.
Qed.

(** the mirror document says everything the schedule says, or is not written at
    all.  Rendering succeeds exactly when no field of the schedule is without
    entries and every entry's provenance has a marker; and then every entry of
    every field is a row of the document, with its value, unit, date and
    provenance. *)
Theorem doc_complete s :
  ((exists text, render s = Ok text) <->
     forall fk entries, has_series s fk entries -> entries <> [] /\
       forall e, e ∈ entries -> is_Some (dict_get (fe_source_kind e) _KIND)) /\
  forall text, render s = Ok text -> exists lines,
    doc_lines s = Ok lines /\ text = String.concat NL lines /\
    forall fk entries e, has_series s fk entries -> e ∈ entries ->
      exists row, doc_row fk e = Ok row /\ row ∈ lines.
Proof.
  split; [apply renders_iff|]. intros text Ht. unfold render in Ht. peel Ht. injection Ht as <-.
  exists a. split; [done|]. split; [done|]. intros fk entries e Hs He. by apply (doc_lines_rows _ _ Ha _ _ Hs).
Qed.

(** the drift check accepts what the generator writes and nothing else.  After a
    run that writes, the check of the same schedule exits with 0, and a check
    exits with 1 exactly when the document, empty if it is missing, is not the
    schedule's text; a check never changes the document. *)
Theorem drift_check_exact s text out :
  render s = Ok text ->
  main (Ok s) false out = Ok (0, Some text) /\
  main (Ok s) true (Some text) = Ok (0, Some text) /\
  exists code, main (Ok s) true out = Ok (code, out) /\ (code = 0 \/ code = 1) /\
    (code = 1 <-> default ""%string out <> text).
Proof.
  intros Hr. unfold main. cbn [result_bind]. rewrite Hr. cbn [result_bind default]. rewrite String.eqb_refl.
  split; [done|]. split; [done|]. eexists. split; [done|].
  destruct (String.eqb_spec (default ""%string out) text); split; auto; split; congruence.
Qed.

(** C27: adopting an observed fee breaks the mirror document.  When an observation
    above the basis is rendered, appended and read back, as the module means it
    to be, the schedule loads, and from then on the generator raises instead of
    writing, and its drift check raises instead of answering, since an adopted
    entry's provenance has no marker. *)
Theorem adoption_breaks_doc instrument field value unit_ eff obs prior now raw s l :
  bare instrument = true -> bare field = true -> all_plain unit_ = true ->
  year_ok eff -> year_ok (now / DAY_US) ->
  load_fee_schedule raw = Ok s -> series_for s instrument field = Ok l ->
  exists table s',
    toml_block (render_entry instrument field value unit_ eff obs prior now) =
      Some (["instrument"%string; instrument; field], table) /\
    load_fee_schedule (append_entry instrument field (JObj table) raw) = Ok s' /\
    forall check out, exists e, main (Ok s') check out = Err e.
Proof.
  intros Hi Hf Hu Hd Ht Hload Hl. eexists. destruct (load_append instrument field
    (JObj (adopted_table value unit_ eff obs prior now)) _
    (adopted_table_loads _ value unit_ eff obs prior now Hd Ht)
    raw s Hload) as (s' & Hload' & _ & Hone).
  exists s'. split; [by apply block_reads|]. split; [done|]. intros check out.
  destruct (Hone l Hl) as (parsed & _ & Hs'). unfold main. cbn [result_bind].
  destruct (render s') as [text|e] eqn:Hr; [|by exists e]. exfalso.
  destruct (proj1 (renders_iff s') (ex_intro _ text Hr) field _ (series_has _ _ _ _ Hs')) as [_ Hk].
  destruct (Hk (adopted_entry (instrument +:+ "." +:+ field) value unit_ eff obs prior (stamped now))) as [kind Hkind].
  { rewrite sort_by_perm. set_solver. }
  done.
Qed.
