(* ===== verification/FeeDocExamples.v ===== *)
(** * FeeDocExamples: the fee theorems on a small schedule and its document *)

From S2P Require Import Prelude Decimals Contracts Digits StateMachine Events Store StoreInv StoreProps Config Cache Adapters Gates HandleRecovery Router RouterProps CancelAmend SimLifecycle RouterExamples PyTime PyIso PyFloat Liberator StreamingPro Fees FeesProps LiberatorProps PyText FeeDoc FeeDocProps.
From stdpp Require Import base gmap strings list sorting.
From Stdlib Require Import ZArith Lia.
Open Scope Z_scope.

Definition raw_entry (value effective_from : string) : json :=
  JObj [("value", JStr value); ("unit", JStr "THB per contract"); ("source_kind", JStr "derived");
        ("source", JStr "statement"); ("corroborated", JBool true);
        ("effective_from", JStr effective_from); ("recorded_utc", JStr "2026-09-04T10:00:00Z");
        ("max_age_days", JInt 180)]%string.

Definition raw_schedule : list (string * json) :=
  [("schema_version", JInt 1); ("meta", JObj [("currency", JStr "THB")]);
   ("instrument", JObj [("s50_futures",
      JObj [("label", JStr "SET50 Index Futures"); ("venue", JStr "TFEX"); ("ticker", JStr "S50");
            ("broker", JStr "liberator");
            ("commission", JList [raw_entry "14" "2026-09-04"; raw_entry "12" "2026-01-01"])])])]%string.

Abbreviation ex_load := (load_fee_schedule).
Definition ex_schedule : FeeSchedule :=
  match ex_load raw_schedule with Ok s => s | Err _ => Build_FeeSchedule 0 "" [] [] end.
Lemma ex_loads : ex_load raw_schedule = Ok ex_schedule.
Proof. vm_compute. reflexivity. Qed.

Definition ex_entry (value effective_from : string) : FeeEntry :=
  match entry_of "s50_futures.commission"
          (raw_entry value effective_from) with
  | Ok e => e
  | Err _ => Build_FeeEntry "" (Dec 0 0) "" "" "" false 0 (utc 0) 0 "" ""
  end.

Definition ex_now : Z := days_from_civil 2026 10 1 * DAY_US.

(** Mid-August is read at January's figure although September's is newer. *)
Lemma resolve_in_force_witness :
  in_force [ex_entry "14" "2026-09-04"; ex_entry "12" "2026-01-01"] (days_from_civil 2026 8 15)
    (ex_entry "12" "2026-01-01").
Proof.
  exact (proj1 (resolve_in_force ex_schedule "s50_futures" "commission" (days_from_civil 2026 8 15)
    true ex_now [ex_entry "14" "2026-09-04"; ex_entry "12" "2026-01-01"]
    (Ok (ex_entry "12" "2026-01-01")) ltac:(vm_compute; reflexivity)
    ltac:(repeat constructor; do 2 eexists; vm_compute; reflexivity) ltac:(vm_compute; reflexivity))).
Defined.

Lemma adoption_keeps_history_witness :
  exists s', ex_load (append_entry "s50_futures" "commission" (raw_entry "15" "2026-09-20") raw_schedule)
      = Ok s' /\
    resolve s' "s50_futures" "commission" (days_from_civil 2026 9 10) true ex_now
      = Ok (ex_entry "14" "2026-09-04").
Proof.
  destruct (adoption_keeps_history "s50_futures" "commission"
    (raw_entry "15" "2026-09-20") (ex_entry "15" "2026-09-20") ltac:(vm_compute; reflexivity)
    raw_schedule ex_schedule [ex_entry "12" "2026-01-01"; ex_entry "14" "2026-09-04"] ex_loads
    ltac:(vm_compute; reflexivity) ltac:(discriminate)) as (s' & Hl & Hpast & _).
  exists s'. split; [exact Hl|].
  rewrite (Hpast "s50_futures"%string "commission"%string
    [ex_entry "12" "2026-01-01"; ex_entry "14" "2026-09-04"]);
    [vm_compute; reflexivity | vm_compute; reflexivity | discriminate | right; vm_compute; reflexivity].
Defined.

(** 2026-08-31 20:00 UTC is already September in Bangkok. *)
Definition ex_observation : FeeObservation := {|
  ob_observed_at := utc (days_from_civil 2026 8 31 * DAY_US + 20 * 3600000000);
  ob_kind := CHARGED; ob_source := "blotter"; ob_broker := "liberator"; ob_account := "acct";
  ob_symbol := "S50U26"; ob_contract_month := "2026-09"; ob_side := "BUY"; ob_quantity := 1;
  ob_price := Dec 900 0; ob_raw_response := JObj []; ob_is_roll_boundary := false;
  ob_commission := Some (Dec 13 0); ob_exchange_fee := None; ob_clearing_fee := None;
  ob_vat := None; ob_total_fee := None; ob_month_to_date_contracts := None |}.

Lemma observation_recorded_witness :
  exists row, ft_rows (record_observation (fun _ => true) true as_utc ex_schedule ex_observation
      "s50_futures" "commission" (Dec 13 0) ex_now {| ft_rows := []; ft_next_id := 1 |}).2 = [row] /\
    date_ymd (fo_fee_month row) = (2026, 9, 1) /\ fo_verdict row = Some ABOVE /\
    fo_basis_value row = Some (Dec 12 0).
Proof.
  destruct (observation_recorded (fun _ => true) true as_utc ex_schedule ex_observation
    "s50_futures" "commission" (Dec 13 0) ex_now {| ft_rows := []; ft_next_id := 1 |} _ _ eq_refl)
    as (row & entry & Hrows & _ & _ & _ & Hm & He & Hb & _ & Hv & _).
  exists row. split; [exact Hrows|]. rewrite Hm, Hb, Hv. vm_compute in He. injection He as <-.
  split; [vm_compute; reflexivity|]. split; vm_compute; reflexivity.
Defined.

Lemma month_to_date_by_month_witness :
  month_to_date_contracts SIM "acct" SET_ (days_from_civil 1970 1 1) (w_db ex_w1) = 30 /\
  date_ymd (next_fee_month (days_from_civil 1970 1 1)) = (1970, 2, 1).
Proof.
  destruct (month_to_date_by_month SIM "acct" SET_ (days_from_civil 1970 1 1) (w_db ex_w1)
    ltac:(vm_compute; reflexivity)) as [Hs Hn].
  rewrite Hs. split; [vm_compute; reflexivity | exact Hn].
Defined.

Definition ex_eff : date := days_from_civil 2026 9 20.

Lemma adopted_entry_reads_back_witness :
  exists table,
    toml_block (render_entry "s50_futures" "commission" (Dec 1450 (-2)) "THB per contract" ex_eff ex_eff
      (Dec 14 0) ex_now) = Some (["instrument"; "s50_futures"; "commission"]%string, table) /\
    fe_value <$> match entry_of "s50_futures.commission" (JObj table) with
                 | Ok e => Some e | Err _ => None end = Some (Dec 1450 (-2)).
Proof.
  destruct (adopted_entry_reads_back "s50_futures" "commission"
    (Dec 1450 (-2)) "THB per contract" ex_eff ex_eff (Dec 14 0) ex_now) as (table & Hb & He);
    [vm_compute; solve [reflexivity | split; discriminate]..|].
  exists table. split; [exact Hb|]. rewrite He. reflexivity.
Defined.

(** The small schedule renders; an outdated file is drift. *)
Definition ex_doc : string := match render ex_schedule with Ok t => t | Err _ => "" end.

Lemma drift_check_exact_witness :
  main (Ok ex_schedule) true (Some ex_doc) = Ok (0, Some ex_doc) /\
  main (Ok ex_schedule) true None = Ok (1, None).
Proof.
  destruct (drift_check_exact ex_schedule ex_doc None) as (_ & H1 & code & H2 & _ & H3);
    [vm_compute; reflexivity|].
  split; [exact H1|]. rewrite H2. do 2 f_equal. apply H3. vm_compute. discriminate.
Defined.

(** The schedule after the block was appended. *)
Definition ex_schedule_reads (table : list (string * json)) (s' : FeeSchedule) : Prop :=
  load_fee_schedule
    (append_entry "s50_futures" "commission" (JObj table) raw_schedule) = Ok s'.

Lemma adoption_breaks_doc_witness :
  exists table s', ex_schedule_reads table s' /\ exists e, main (Ok s') true None = Err e.
Proof.
  destruct (adoption_breaks_doc "s50_futures" "commission"
    (Dec 1450 (-2)) "THB per contract" ex_eff ex_eff (Dec 14 0) ex_now raw_schedule
    ex_schedule [ex_entry "12" "2026-01-01"; ex_entry "14" "2026-09-04"]) as (table & s' & _ & Hl & Hm);
    [vm_compute; solve [reflexivity | split; discriminate]..|].
  exists table, s'. split; [exact Hl|apply Hm].
Defined.
