(* ===== verification/SpReconciler.v ===== *)
(** * SpReconciler: Streaming Pro's repair loop
    ([adapters/streaming_pro/reconciler.py])

    The twin of Liberator's loop over Streaming Pro's rows, polled per account and
    market.  [ReconcileAction] has the same fields in both modules and is shared;
    times are microseconds. *)

From S2P Require Import Prelude Decimals Contracts StateMachine Events Store StoreInv Config Adapters PyTime Liberator Reconciler StreamingPro.
From stdpp Require Import base gmap strings list relations.
From Stdlib Require Import ZArith Lia.
Open Scope Z_scope.

Definition sp_STUCK_PENDING : Z := 5000000.
Definition sp_ACK_LOST_TIMEOUT : Z := 60000000.
Definition sp_FUZZY_WINDOW : Z := 5000000.

Definition sp_fill_price_for (row : OrderRow) (item : VenueOrderRow) : option Decimal :=
  let local := match or_price row with Some p => Some p | None => or_stop_price row end in
  match vr_price item with
  | Some p => if dec_positive p then Some p else local
  | None => local
  end.

Definition sp_has_price (value : option Decimal) : bool :=
  match value with Some p => dec_positive p | None => false end.

Record SpMatchOutcome := { so_item : option VenueOrderRow; so_candidate_count : nat }.

Definition sp_ambiguous (m : SpMatchOutcome) : bool :=
  match so_item m with None => (1 <? so_candidate_count m)%nat | Some _ => false end.

(** [item.price != row.price] *)
Definition price_differs (a b : option Decimal) : bool :=
  match a, b with
  | Some p, Some q => negb (dec_eqb p q)
  | None, None => false
  | _, _ => true
  end.

(** Does a venue row resemble the order?  Subtracting the order's aware time from
    a naive venue time raises. *)
Definition sp_is_candidate (row : OrderRow) (claimed : gset string) (item : VenueOrderRow)
    : result exn bool :=
  if bool_decide (vr_order_no item ∈ claimed) then Ok false
  else if negb (String.eqb (vr_symbol item) (or_symbol row)) || negb (vr_volume item =? or_quantity row)
  then Ok false
  else if negb (bool_decide (sp_from_venue_side (vr_side item) = Some (or_side row))) then Ok false
  else if sp_has_price (vr_price item) && sp_has_price (or_price row) &&
          price_differs (vr_price item) (or_price row) then Ok false
  else match vr_entry_time item with
       | None => Ok false
       | Some t =>
           match dt_sub t (utc (or_created_at row)) with
           | Err e => Err e
           | Ok delta => Ok (Z.abs delta <=? sp_FUZZY_WINDOW)
           end
       end.

(** The matcher's loop. *)
Definition sp_candidates (row : OrderRow) (claimed : gset string) (items : list VenueOrderRow)
    : result exn (list VenueOrderRow) :=
  filter_r (sp_is_candidate row claimed) items.

Definition sp_fuzzy_match (row : OrderRow) (items : list VenueOrderRow) (claimed : gset string)
    : result exn SpMatchOutcome :=
  result_bind (sp_candidates row claimed items) (fun candidates =>
  Ok match candidates with
     | [item] => {| so_item := Some item; so_candidate_count := 1 |}
     | _ => {| so_item := None; so_candidate_count := length candidates |}
     end).

Definition sp_venue_terminal_actions (row : OrderRow) (item : VenueOrderRow) : list ReconcileAction :=
  match sp_classify_venue_state item with
  | VenueOrderState.CANCELLED => [ACancelTwoStep]
  | VenueOrderState.EXPIRED => [AExpire]
  | VenueOrderState.REJECTED =>
      let reason := py_strip ("streaming_pro reject " +:+
        str_or (vr_reject_reason item) (str_or (vr_status_show item) (vr_status item)))%string in
      if decide (or_status row = OrderState.PENDING_NEW) then [AReject reason]
      else [APostAckReject reason]
  | VenueOrderState.RESTING => []
  end.

(** [f"{item.order_no}:{item.matched}"] *)
Definition sp_fill_id (item : VenueOrderRow) : string :=
  (vr_order_no item +:+ ":" +:+ int_str (vr_matched item))%string.

(** The matched delta, then a venue terminal unless the order is fully matched. *)
Definition sp_plan_tail (row : OrderRow) (filled_qty : Z) (item : VenueOrderRow)
    : list ReconcileAction :=
  let delta := vr_matched item - filled_qty in
  (if 0 <? delta then
     match sp_fill_price_for row item with
     | None => []
     | Some price => [AFill delta price (sp_fill_id item) (or_quantity row)]
     end
   else []) ++
  (if vr_matched item <? or_quantity row then sp_venue_terminal_actions row item else []).

Definition sp_plan_actions (row : OrderRow) (filled_qty : Z) (item : option VenueOrderRow)
    (now : Z) (ambiguous : bool) : list ReconcileAction :=
  let age := now - or_created_at row in
  match item with
  | None =>
      match or_status row with
      | OrderState.PENDING_NEW =>
          if ambiguous then []
          else if sp_ACK_LOST_TIMEOUT <? age then [AReject "ack_lost_unmatched"] else []
      | OrderState.PENDING_CANCEL => [ACancelConfirm]
      | _ => []
      end
  | Some item =>
      match or_status row with
      | OrderState.PENDING_NEW =>
          match sp_venue_terminal_actions row item with
          | (AReject _ :: _) as terminal => terminal
          | _ => AAck (vr_order_no item) :: sp_plan_tail row filled_qty item
          end
      | OrderState.PENDING_CANCEL =>
          if memb (sp_classify_venue_state item) [VenueOrderState.CANCELLED; VenueOrderState.EXPIRED]
          then [ACancelConfirm] else []
      | _ => sp_plan_tail row filled_qty item
      end
  end.

Section reconciler.
Context {R V : Type} `{OrdersSchema}.
Abbreviation M := (M exn (world R V)).
(** [StreamingProAdapter.fetch_venue_orders] *)
Context (fetch : string -> Market -> M (list VenueOrderRow)).

Definition sp_execute (cid : string) (action : ReconcileAction) : M unit :=
  match action with
  | AAck b => ack_order cid b
  | AFill q p i tot =>
      let* now := gets w_now in
      apply_fill cid i p q now tot ;;; ret tt
  | ACancelTwoStep =>
      update_status cid OrderState.PENDING_CANCEL ;;; update_status cid OrderState.CANCELLED
  | ACancelConfirm => update_status cid OrderState.CANCELLED
  | AExpire => update_status cid OrderState.EXPIRED
  | AReject reason =>
      update_status cid OrderState.REJECTED ;;;
      set_reject_reason cid (str_or reason "rejected at venue")
  | APostAckReject reason =>
      set_reject_reason cid (str_or reason "rejected at venue") ;;;
      update_status cid OrderState.PENDING_CANCEL ;;; update_status cid OrderState.CANCELLED
  end.

(** [index.get(row.broker_order_id) if row.broker_order_id else None]; a later row
    of the snapshot wins. *)
Definition sp_direct (row : OrderRow) (items : list VenueOrderRow) : option VenueOrderRow :=
  match or_broker_order_id row with
  | Some b => if String.eqb b "" then None
              else List.find (fun i => String.eqb (vr_order_no i) b) (rev items)
  | None => None
  end.

(** The venue row of an order, whether the match was ambiguous, and the claims
    after it. *)
Definition sp_resolve (row : OrderRow) (items : list VenueOrderRow) (claimed : gset string) (now : Z)
    : result exn (option VenueOrderRow * bool * gset string) :=
  match sp_direct row items with
  | Some item => Ok (Some item, false, claimed)
  | None =>
      if bool_decide (or_status row = OrderState.PENDING_NEW) &&
         (sp_STUCK_PENDING <? now - or_created_at row)
      then
        result_bind (sp_fuzzy_match row items claimed) (fun outcome =>
        Ok (so_item outcome, sp_ambiguous outcome,
            match so_item outcome with Some i => {[vr_order_no i]} ∪ claimed | None => claimed end))
      else Ok (None, false, claimed)
  end.

(** Apply the plan; an action that fails is logged and the rest still run. *)
Definition sp_run_actions (cid : string) (actions : list ReconcileAction) : M Z :=
  fold_m actions 0 (fun applied action =>
    let* ok := catch (sp_execute cid action ;;; ret true) (fun _ => ret false) in
    ret (if ok : bool then applied + 1 else applied)).

(** The body of the loop over a group's rows. *)
Definition sp_apply_row (items : list VenueOrderRow) (now : Z) (acc : Z * gset string)
    (row : OrderRow) : M (Z * gset string) :=
  let '(applied, claimed) := acc in
  let* (item, amb, claimed) := lift_result (sp_resolve row items claimed now) in
  let* res := fetch_order_result (or_client_order_id row) in
  let filled_qty := match res with Some r => rr_filled_qty r | None => 0 end in
  let* n := sp_run_actions (or_client_order_id row)
              (sp_plan_actions row filled_qty item now amb) in
  ret (applied + n, claimed).

(** [by_group.setdefault((row.account, row.market), []).append(row)] *)
Fixpoint sp_group_add (row : OrderRow) (groups : list (string * Market * list OrderRow))
    : list (string * Market * list OrderRow) :=
  match groups with
  | [] => [(or_account row, or_market row, [row])]
  | (a, m, rows) :: groups' =>
      if String.eqb a (or_account row) && bool_decide (m = or_market row)
      then (a, m, rows ++ [row]) :: groups'
      else (a, m, rows) :: sp_group_add row groups'
  end.

Definition by_group (rows : list OrderRow) : list (string * Market * list OrderRow) :=
  fold_left (fun g r => sp_group_add r g) rows [].

Definition sp_claimed_of (rows : list OrderRow) : gset string :=
  list_to_set (omap or_broker_order_id rows).

Definition sp_reconcile_group (now : Z) (applied : Z) (group : string * Market * list OrderRow)
    : M Z :=
  let '(account, market, rows) := group in
  let* items := catch (let* i := fetch account market in ret (Some i))
    (fun e => match e with StreamingProTransportError _ => ret None | e => raise e end) in
  match items with
  | None => ret applied
  | Some items =>
      let* (n, _) := fold_m rows (applied, sp_claimed_of rows) (sp_apply_row items now) in
      ret n
  end.

Definition sp_reconcile_once : M Z :=
  let* rows := fetch_orders_for_reconcile STREAMING_PRO false in
  match rows with
  | [] => ret 0
  | _ =>
      let* now := gets w_now in
      fold_m (by_group rows) 0 (sp_reconcile_group now)
  end.
End reconciler.
