(* ===== verification/SpTime.v ===== *)
(** * SpTime: entry times and the Streaming Pro pass

    The lost-ack matcher subtracts the order's UTC creation time from the row's
    entry time.  With aware times it never raises; one naive time does, and the
    loop has no handler between the matcher and the pass. *)

From S2P Require Import Prelude Decimals Contracts StateMachine Events Store StoreInv Config Adapters PyTime Liberator Reconciler StreamingPro SpReconciler.
From stdpp Require Import base gmap strings list relations.
From Stdlib Require Import ZArith Lia.
Open Scope Z_scope.

Definition type_error : exn := OtherError "TypeError".

(** Everything the matcher compares but the time. *)
Definition resembles (row : OrderRow) (item : VenueOrderRow) : Prop :=
  vr_symbol item = or_symbol row /\ vr_volume item = or_quantity row /\
  sp_from_venue_side (vr_side item) = Some (or_side row) /\
  sp_has_price (vr_price item) && sp_has_price (or_price row) &&
    price_differs (vr_price item) (or_price row) = false.

Definition aware_or_none (item : VenueOrderRow) : Prop :=
  forall t, vr_entry_time item <> Some (Naive t).

Lemma is_candidate_cases row claimed item :
  sp_is_candidate row claimed item = Err type_error \/
  exists b, sp_is_candidate row claimed item = Ok b.
Proof.
  unfold sp_is_candidate. repeat case_match; eauto; simplify_eq.
  destruct p; simplify_eq/=. by left.
Qed.

Lemma is_candidate_aware row claimed item :
  aware_or_none item -> exists b, sp_is_candidate row claimed item = Ok b.
Proof.
  intros Ha. unfold sp_is_candidate. repeat case_match; eauto; simplify_eq.
  destruct p as [|t]; [done|]. by destruct (Ha t).
Qed.

Lemma is_candidate_naive row claimed item t :
  resembles row item -> vr_order_no item ∉ claimed -> vr_entry_time item = Some (Naive t) ->
  sp_is_candidate row claimed item = Err type_error.
Proof.
  intros (Hs & Hv & Hsd & Hp) Hc Ht. unfold sp_is_candidate.
  rewrite bool_decide_false by done. rewrite Hs, Hv, String.eqb_refl, Z.eqb_refl, Hsd, Ht.
  rewrite bool_decide_true by done. simpl. by rewrite Hp.
Qed.

Lemma candidates_aware row claimed items :
  Forall aware_or_none items -> exists l, sp_candidates row claimed items = Ok l.
Proof.
  intros H. apply filter_r_total. intros x Hx. apply is_candidate_aware.
  rewrite Forall_forall in H. apply H. by apply list_elem_of_In.
Qed.

Lemma candidates_naive row claimed items item t :
  item ∈ items -> resembles row item -> vr_order_no item ∉ claimed ->
  vr_entry_time item = Some (Naive t) -> sp_candidates row claimed items = Err type_error.
Proof.
  intros Hin Hr Hc Ht. apply (filter_r_raises _ _ item).
  - intros i. apply is_candidate_cases.
  - by apply list_elem_of_In.
  - by apply (is_candidate_naive row claimed item t).
Qed.

(** The first group of a pass starts with the first order read. *)
Lemma by_group_head r rest : exists more groups,
  by_group (r :: rest) = (or_account r, or_market r, r :: more) :: groups /\
  forall x, x ∈ more -> x ∈ rest.
Proof.
  change (by_group (r :: rest))
    with (fold_left (fun g r => sp_group_add r g) rest [(or_account r, or_market r, r :: [])]).
  assert (Hgen : forall l m gs, exists more groups,
    fold_left (fun g r => sp_group_add r g) l ((or_account r, or_market r, r :: m) :: gs) =
      (or_account r, or_market r, r :: more) :: groups /\ forall x, x ∈ more -> x ∈ m \/ x ∈ l).
  { induction l as [|y l IH]; intros m gs; simpl; [exists m, gs; auto|].
    destruct (_ && _).
    - destruct (IH (m ++ [y]) gs) as (more & gs' & -> & Hm). eexists _, _. split; [done|].
      intros x Hx. destruct (Hm x Hx) as [Hin|]; set_solver.
    - destruct (IH m (sp_group_add y gs)) as (more & gs' & -> & Hm). eexists _, _. split; [done|].
      intros x Hx. destruct (Hm x Hx); set_solver. }
  destruct (Hgen rest [] []) as (more & gs & -> & Hm). eexists _, _. split; [done|]. set_solver.
Qed.

Section pass.
Context {R V : Type} `{OrdersSchema}.
Abbreviation W := (world R V).
Context (fetch : string -> Market -> M exn W (list VenueOrderRow)).

(** C39: one naive timestamp stops the whole repair pass.  The matcher never
    raises when every row's time is aware or missing; but when the pass starts
    with an order whose ack was lost, and the account's list has an unclaimed row
    that resembles it with a naive time, the pass raises [TypeError]: nothing
    after the venue read runs, for this order or any order of any account. *)
Theorem naive_time_aborts_pass row rest items item t (w w1 : W) :
  (fetch_orders_for_reconcile STREAMING_PRO false w).1 = Ok (row :: rest) ->
  or_status row = OrderState.PENDING_NEW -> or_broker_order_id row = None ->
  sp_STUCK_PENDING < w_now w - or_created_at row ->
  fetch (or_account row) (or_market row) w = (Ok items, w1) ->
  (forall claimed now, Forall aware_or_none items ->
     exists x, sp_resolve row items claimed now = Ok x) /\
  (item ∈ items -> resembles row item -> vr_entry_time item = Some (Naive t) ->
   vr_order_no item ∉ sp_claimed_of (row :: rest) ->
   sp_reconcile_once fetch w = (Err type_error, w1)).
Proof.
  intros Hrows Hst Hb Hage Hf. split.
  - intros claimed now Ha. unfold sp_resolve, sp_direct, sp_fuzzy_match. rewrite Hb.
    destruct (_ && _); [|eauto]. destruct (candidates_aware row claimed items Ha) as [l ->]. simpl.
    eauto.
  - intros Hin Hr Ht Hc. unfold sp_reconcile_once.
    assert (Hq : fetch_orders_for_reconcile STREAMING_PRO false w = (Ok (row :: rest), w)).
    { unfold fetch_orders_for_reconcile, gets in *. simpl in *. by rewrite <- Hrows. }
    rewrite (bind_ok _ _ _ _ _ Hq). destruct (by_group_head row rest) as (more & gs & Hg & Hm).
    unfold bind, gets. rewrite Hg. cbn [fold_m]. unfold bind at 1, sp_reconcile_group at 1.
    unfold bind, catch. rewrite Hf. unfold ret. cbn [fold_m]. unfold bind, sp_apply_row at 1.
    assert (Hbad : sp_resolve row items (sp_claimed_of (row :: more)) (w_now w) = Err type_error).
    { unfold sp_resolve, sp_direct, sp_fuzzy_match. rewrite Hb, bool_decide_true by done.
      rewrite (proj2 (Z.ltb_lt _ _) Hage). simpl.
      rewrite (candidates_naive _ _ _ item t); [done..| |done].
      unfold sp_claimed_of in *. rewrite elem_of_list_to_set in *. intros Hx. apply Hc.
      apply list_elem_of_omap in Hx as (y & Hy & Hyb). apply list_elem_of_omap. exists y.
      split; [|done]. set_solver. }
    rewrite Hbad. done.
Qed.
End pass.
