(* ===== verification/SpProps.v ===== *)
(** * SpProps: Streaming Pro's loop is the reference loop, and Liberator's twin *)

From S2P Require Import Prelude Decimals Contracts StateMachine Events Store StoreInv StoreProps Config Cache Adapters PyTime CancelAmend SimLifecycle Liberator Reconciler ReconcileCore ReconcileCoreProps ReconcilerProps StreamingPro SpReconciler.
From stdpp Require Import base gmap strings list relations.
From Stdlib Require Import ZArith Lia.
Import OrderState.
Open Scope Z_scope.

(** ** The instance *)

Definition sp_candidate (row : OrderRow) (claimed : gset string) (item : VenueOrderRow) : bool :=
  holds (sp_is_candidate row claimed item).

Definition sp_reject_reason (item : VenueOrderRow) : string :=
  py_strip ("streaming_pro reject " +:+
    str_or (vr_reject_reason item) (str_or (vr_status_show item) (vr_status item)))%string.

Lemma sp_candidate_unclaimed r cl i : sp_candidate r cl i = true -> vr_order_no i ∉ cl.
Proof. unfold sp_candidate, sp_is_candidate. by case_bool_decide. Qed.

Lemma sp_fill_price_terms r r' i : terms r' = terms r ->
  Ok (E := exn) (sp_fill_price_for r' i) = Ok (sp_fill_price_for r i).
Proof. unfold terms, sp_fill_price_for. intros [= ? Hp Hs ? ?]. by rewrite Hp, Hs. Qed.

#[export] Instance streaming_pro_row : VenueRow VenueOrderRow := {|
  v_order_no := vr_order_no;
  v_matched := vr_matched;
  v_state := sp_classify_venue_state;
  v_reject_reason := sp_reject_reason;
  v_fill_price := fun r i => Ok (sp_fill_price_for r i);
  v_candidate := sp_candidate;
  v_absence_confirms := fun _ _ => true;
  v_candidate_unclaimed := sp_candidate_unclaimed;
  v_fill_price_terms := sp_fill_price_terms;
|}.

(** ** The code equals the reference *)

Lemma sp_plan_tail_core row filled (item : VenueOrderRow) :
  core_tail row filled item = Ok (sp_plan_tail row filled item).
Proof.
  unfold core_tail, core_fill, sp_plan_tail. simpl.
  destruct (0 <? _); [|done]. by destruct (sp_fill_price_for row item).
Qed.

Lemma sp_plan_actions_core row filled (item : option VenueOrderRow) now amb :
  core_plan row filled item now amb = Ok (sp_plan_actions row filled item now amb).
Proof.
  unfold core_plan, sp_plan_actions. change sp_ACK_LOST_TIMEOUT with _ACK_LOST_TIMEOUT.
  destruct item as [i|].
  - rewrite sp_plan_tail_core. change (core_terminal row i) with (sp_venue_terminal_actions row i).
    destruct (or_status row); try done; [|simpl; by destruct (memb _ _)].
    destruct (sp_venue_terminal_actions row i) as [|[]]; done.
  - destruct (or_status row); try done. destruct amb; [done|]. by destruct (_ <? _).
Qed.

Lemma sp_candidates_core row claimed items l :
  sp_candidates row claimed items = Ok l -> l = List.filter (sp_candidate row claimed) items.
Proof. apply filter_r_ok. Qed.

Lemma sp_resolve_core row items claimed now x :
  sp_resolve row items claimed now = Ok x -> x = core_resolve row items claimed now true.
Proof.
  unfold sp_resolve, core_resolve. change (sp_direct row items) with (core_direct row items).
  change sp_STUCK_PENDING with _STUCK_PENDING. rewrite orb_false_r.
  destruct (core_direct row items) as [i|]; [by intros [= <-]|].
  destruct (_ && _); [|by intros [= <-]].
  unfold sp_fuzzy_match, core_match. change (v_candidate row claimed) with (sp_candidate row claimed).
  destruct (sp_candidates row claimed items) as [l|] eqn:Hl; simpl; [|done].
  apply sp_candidates_core in Hl as ->. intros [= <-].
  by destruct (List.filter (sp_candidate row claimed) items) as [|i [|j l]].
Qed.

Section loop.
Context {R V : Type} `{OrdersSchema}.
Abbreviation W := (world R V).

(** A row step either raises in the matcher, leaving the store alone, or is the
    reference step. *)
Lemma sp_apply_row_core items now acc row (w : W) :
  (exists e, sp_resolve row items acc.2 now = Err e /\ sp_apply_row items now acc row w = (Err e, w)) \/
  sp_apply_row items now acc row w = core_step items now acc row w.
Proof.
  destruct acc as [applied claimed]. unfold sp_apply_row, core_step, core_apply_row. simpl.
  destruct (sp_resolve row items claimed now) as [x|e] eqn:Hres; [right|left].
  - apply sp_resolve_core in Hres as <-. destruct x as [[item amb] claimed'].
    unfold bind, lift_result, ret. simpl. rewrite sp_plan_actions_core.
    change (sp_run_actions (R := R) (V := V)) with (run_actions (R := R) (V := V)).
    by destruct (run_actions _ _ _) as [[]].
  - exists e. split; [done|]. done.
Qed.

End loop.

(** ** The two planners agree *)

(** Equal up to the text a venue reject is recorded with. *)
Inductive same_action : ReconcileAction -> ReconcileAction -> Prop :=
  | same_refl a : same_action a a
  | same_reject m n : same_action (AReject m) (AReject n)
  | same_post_ack m n : same_action (APostAckReject m) (APostAckReject n).

(** A Streaming Pro row and a Liberator row that report the same thing about an
    order. *)
Definition rows_agree (r : OrderRow) (i : option VenueOrderRow) (j : option VenueOrderItem) : Prop :=
  match i, j with
  | None, None => True
  | Some i, Some j =>
      vr_order_no i = vi_order_no j /\ vr_matched i = vi_matched j /\
      sp_classify_venue_state i = classify_venue_state j /\
      fill_price_for r j = Ok (sp_fill_price_for r i)
  | _, _ => False
  end.

Lemma Forall2_same l : Forall2 same_action l l.
Proof. induction l; constructor; auto using same_refl. Qed.

Lemma terminals_agree r i j : sp_classify_venue_state i = classify_venue_state j ->
  Forall2 same_action (sp_venue_terminal_actions r i) (_venue_terminal_actions r j).
Proof.
  intros Hc. unfold sp_venue_terminal_actions, _venue_terminal_actions. rewrite Hc.
  destruct (classify_venue_state j); try apply Forall2_same.
  case_decide; repeat constructor.
Qed.

Lemma tails_agree r filled i j : rows_agree r (Some i) (Some j) ->
  exists acts, plan_tail r filled j = Ok acts /\
    Forall2 same_action (sp_plan_tail r filled i) acts.
Proof.
  intros (Hn & Hm & Hc & Hp). unfold plan_tail, plan_fill, sp_plan_tail. rewrite Hm, Hp.
  assert (Hid : sp_fill_id i = fill_id_for j) by (unfold sp_fill_id, fill_id_for; by rewrite Hn, Hm).
  assert (Ht : Forall2 same_action
    (if vi_matched j <? or_quantity r then sp_venue_terminal_actions r i else [])
    (if vi_matched j <? or_quantity r then _venue_terminal_actions r j else [])).
  { destruct (_ <? _); [by apply terminals_agree | constructor]. }
  destruct (0 <? _); [|by eauto].
  destruct (sp_fill_price_for r i); rewrite ?Hid; eexists; (split; [done|]); [|exact Ht].
  by apply Forall2_app; [apply Forall2_same|].
Qed.

(** C12: the two repair loops plan alike.  For rows that report the same thing the
    Streaming Pro planner and the Liberator planner plan the same steps in the same
    order, up to the wording of a reject reason, on every state of the order; they
    part in exactly one case: a pending cancel absent from the venue's list of a
    later day, which Liberator leaves alone and Streaming Pro confirms. *)
Theorem planners_agree r filled i j now amb :
  rows_agree r i j ->
  exists acts, plan_actions r filled j now amb = Ok acts /\
    if bool_decide (i = None) && bool_decide (or_status r = PENDING_CANCEL) &&
       negb (absence_is_informative r now)
    then acts = [] /\ sp_plan_actions r filled i now amb = [ACancelConfirm]
    else Forall2 same_action (sp_plan_actions r filled i now amb) acts.
Proof.
  destruct i as [i|], j as [j|]; [|done|done|intros _].
  - intros Hag. rewrite bool_decide_false by done. simpl.
    pose proof Hag as (Hn & _ & Hc & _). destruct (tails_agree r filled i j Hag) as (tl & Htl & Hs).
    pose proof (terminals_agree r i j Hc) as Ht. unfold plan_actions, sp_plan_actions.
    rewrite Htl, <- Hc, Hn. destruct (or_status r); eauto.
    + destruct Ht as [|a b l k Hab Ht]; [eexists; split; [done|]; by constructor; [constructor|]|].
      destruct Hab as [[]| |]; eexists; (split; [done|]); repeat constructor; done.
    + destruct (memb _ _); eexists; (split; [done|]); repeat constructor.
  - unfold plan_actions, sp_plan_actions. change sp_ACK_LOST_TIMEOUT with _ACK_LOST_TIMEOUT.
    rewrite bool_decide_true by done. simpl.
    destruct (or_status r) eqn:Hs; simpl; try (eexists; split; [done|]; apply Forall2_same).
    + destruct amb; [eexists; split; [done|]; constructor|].
      destruct (_ <? _); eexists; (split; [done|]); repeat constructor.
    + destruct (absence_is_informative r now); eexists; (split; [done|]); [repeat constructor | done].
Qed.

(** ** What the loop promises *)

Section promises.
Context {R V : Type} `{OrdersSchemaSpec}.
Abbreviation W := (world R V).
Abbreviation ev := (on_db (R := R) (V := V) evolves).

Lemma sp_apply_row_respects items now acc r : respects ev (sp_apply_row (R := R) (V := V) items now acc r).
Proof.
  intros w. destruct (sp_apply_row_core items now acc r w) as [(e & _ & ->)| ->]; [simpl; reflexivity|].
  assert (respects ev (core_step (R := R) (V := V) items now acc r)) as Hs
    by (unfold core_step; respects_tac). apply Hs.
Qed.
Hint Resolve sp_apply_row_respects : engine.

Context (fetch : string -> Market -> M exn W (list VenueOrderRow)).

Lemma sp_reconcile_once_respects :
  (forall a m, respects ev (fetch a m)) -> respects ev (sp_reconcile_once fetch).
Proof.
  intros Hf. unfold sp_reconcile_once, fetch_orders_for_reconcile, sp_reconcile_group. respects_tac.
Qed.


Hypothesis fetch_reads : forall a m, respects (on_db eq) (fetch a m).

(** A pass over one account and market never binds one venue order to two orders of
    its working set, also when a row of it raises. *)
Lemma sp_pass_binds_once now applied account market rows (w : W) :
  (forall r, r ∈ rows -> db_orders (w_db w) !! or_client_order_id r = Some r) ->
  List.NoDup (map or_client_order_id rows) ->
  handles_distinct rows (w_db w) ->
  handles_distinct rows (w_db (sp_reconcile_group fetch now applied (account, market, rows) w).2).
Proof.
  intros Hcur Hnd Hdis. unfold sp_reconcile_group. set (m := catch _ _).
  assert (respects (on_db eq) m) as Hm by (unfold m; respects_tac).
  specialize (Hm w). unfold bind. destruct (m w) as [[[items|]|e] w1]; unfold on_db in Hm; simpl in *;
    try (by rewrite <- Hm).
  rewrite Hm in Hcur, Hdis.
  destruct (fold_m_prefix (sp_apply_row items now) (core_step items now) rows
    (applied, sp_claimed_of rows) w1) as (todo & Hpre & Heq).
  { intros acc row w'. destruct (sp_apply_row_core items now acc row w') as [(e & _ & ->)|]; eauto. }
  pose proof (core_pass_binds_once items now applied rows todo w1 Hpre Hcur Hnd Hdis) as Hpass.
  change (claimed_of rows) with (sp_claimed_of rows) in Hpass. rewrite <- Heq in Hpass.
  by destruct (fold_m rows _ (sp_apply_row items now) w1) as [[[]|] ?].
Qed.
End promises.
