(* ===== verification/SpWire.v ===== *)
(** * SpWire: what the Streaming Pro adapter reads and writes

    The two markets' row dialects, the payloads, the SET cancel identifier, and
    the promise the router relies on ([adapter_ok]). *)

From S2P Require Import Prelude Decimals Contracts StateMachine Events Store StoreInv StoreProps Config Cache Adapters Gates HandleRecovery Router RouterProps PyTime Liberator Reconciler ReconcileCore ReconcileCoreProps ReconcilerProps LiberatorProps StreamingPro.
From stdpp Require Import base gmap strings list relations.
From Stdlib Require Import ZArith Lia.
Open Scope Z_scope.

(** ** One row model for two dialects *)

(** The five keys SET spells differently from TFEX. *)
Definition dialect : list (string * string) :=
  [("vol", "qty"); ("matched", "matchQty"); ("balance", "balanceQty");
   ("cancelled", "cancelQty"); ("showOrderStatus", "showStatus")]%string.

Fixpoint rename_key (d : list (string * string)) (k : string) : string :=
  match d with
  | [] => k
  | (a, b) :: d' => if String.eqb k a then b else rename_key d' k
  end.

(** A SET row respelled with TFEX's keys. *)
Definition as_tfex (data : list (string * json)) : list (string * json) :=
  map (fun kv => (rename_key dialect kv.1, kv.2)) data.

(** A row that uses none of TFEX's spellings. *)
Definition set_spelled (data : list (string * json)) : Prop :=
  forall k, k ∈ dialect.*2 -> jassoc k data = None.

Lemma rename_cases d k :
  (exists b, (k, b) ∈ d /\ rename_key d k = b) \/ (k ∉ d.*1 /\ rename_key d k = k).
Proof.
  induction d as [|[a b] d IH]; simpl; [right; set_solver|].
  destruct (String.eqb_spec k a) as [->|]; [left; exists b; set_solver|].
  destruct IH as [(b' & ? & ?)|[? ?]]; [left; exists b'; set_solver|right; set_solver].
Qed.

(** The dialect is one-to-one, and no key is in both spellings. *)
Lemma dialect_inj a a' b : (a, b) ∈ dialect -> (a', b) ∈ dialect -> a = a'.
Proof. unfold dialect. set_solver. Qed.
Lemma dialect_fun a b b' : (a, b) ∈ dialect -> (a, b') ∈ dialect -> b = b'.
Proof. unfold dialect. set_solver. Qed.
Lemma dialect_disjoint a : a ∈ dialect.*1 -> a ∈ dialect.*2 -> False.
Proof. unfold dialect. set_solver. Qed.

Lemma set_spelled_cons k v data :
  set_spelled ((k, v) :: data) -> set_spelled data /\ k ∉ dialect.*2.
Proof.
  intros Hs. split.
  - intros x Hx. specialize (Hs x Hx). simpl in Hs. by destruct (String.eqb x k).
  - intros Hx. specialize (Hs k Hx). simpl in Hs. by rewrite String.eqb_refl in Hs.
Qed.

Lemma jassoc_respelled a b data : set_spelled data -> (a, b) ∈ dialect ->
  jassoc b (as_tfex data) = jassoc a data /\ jassoc a (as_tfex data) = None.
Proof.
  intros Hs Hab. induction data as [|[k v] data IH]; [done|].
  apply set_spelled_cons in Hs as [Hs Hk]. destruct (IH Hs) as [IH1 IH2].
  change (as_tfex ((k, v) :: data)) with ((rename_key dialect k, v) :: as_tfex data).
  cbn [jassoc]. rewrite IH1, IH2.
  assert (Ha : a ∈ dialect.*1) by (by apply (list_elem_of_fmap_2 fst _ (a, b))).
  assert (Hb : b ∈ dialect.*2) by (by apply (list_elem_of_fmap_2 snd _ (a, b))).
  destruct (rename_cases dialect k) as [(b' & Hkb & ->)|[Hni ->]].
  - assert (b' ∈ dialect.*2) by (by apply (list_elem_of_fmap_2 snd _ (k, b'))).
    destruct (String.eqb_spec a b') as [->|]; [by destruct (dialect_disjoint b')|].
    destruct (String.eqb_spec b b') as [->|Hne], (String.eqb_spec a k) as [->|Hne']; try done.
    + destruct Hne'. by apply (dialect_inj _ _ _ Hab Hkb).
    + destruct Hne. by apply (dialect_fun _ _ _ Hab Hkb).
  - destruct (String.eqb_spec b k) as [->|], (String.eqb_spec a k) as [->|]; done.
Qed.

Lemma jassoc_kept k data : set_spelled data -> k ∉ dialect.*1 -> k ∉ dialect.*2 ->
  jassoc k (as_tfex data) = jassoc k data.
Proof.
  intros Hs H1 H2. induction data as [|[k' v] data IH]; [done|].
  apply set_spelled_cons in Hs as [Hs Hk'].
  change (as_tfex ((k', v) :: data)) with ((rename_key dialect k', v) :: as_tfex data).
  cbn [jassoc]. rewrite (IH Hs).
  destruct (rename_cases dialect k') as [(b & Hkb & ->)|[Hni ->]]; [|done].
  assert (b ∈ dialect.*2) by (by apply (list_elem_of_fmap_2 snd _ (k', b))).
  assert (k' ∈ dialect.*1) by (by apply (list_elem_of_fmap_2 fst _ (k', b))).
  rewrite (proj2 (String.eqb_neq k b)), (proj2 (String.eqb_neq k k')) by congruence. done.
Qed.

Lemma result_bind_inv {A B} (x : result exn A) (k : A -> result exn B) b :
  result_bind x k = Ok b -> exists a, x = Ok a /\ k a = Ok b.
Proof. destruct x as [a|e]; [by exists a | done]. Qed.

(** Facts about literal keys. *)
Ltac by_dialect := apply (bool_decide_unpack _); vm_compute; exact I.

Section dialects.
Context `{Coercions}.

Lemma field_of_kept keys data :
  set_spelled data -> Forall (fun k => k ∉ dialect.*1 /\ k ∉ dialect.*2) keys ->
  field_of keys (as_tfex data) = field_of keys data.
Proof.
  intros Hs. induction 1 as [|k keys [H1 H2] _ IH]; [done|]. simpl. by rewrite jassoc_kept, IH.
Qed.

Lemma field_kept {A} (co : json -> option A) d keys data :
  set_spelled data -> Forall (fun k => k ∉ dialect.*1 /\ k ∉ dialect.*2) keys ->
  field co d keys (as_tfex data) = field co d keys data.
Proof.
  intros Hs Hk. unfold field. by rewrite field_of_kept.
Qed.

(** The aliases of one concept: both spellings, then possibly the field's name. *)
Lemma field_respelled {A} (co : json -> option A) d a b rest data :
  set_spelled data -> (a, b) ∈ dialect ->
  Forall (fun k => k ∉ dialect.*1 /\ k ∉ dialect.*2) rest ->
  field co d (b :: a :: rest) (as_tfex data) = field co d (b :: a :: rest) data.
Proof.
  intros Hs Hab Hr. pose proof (field_kept co d rest data Hs Hr) as Hrest.
  destruct (jassoc_respelled a b data Hs Hab) as [H1 H2].
  assert (Hb : jassoc b data = None).
  { apply Hs. by apply (list_elem_of_fmap_2 snd _ (a, b)). }
  unfold field in *. cbn [field_of]. rewrite H1, H2, Hb. by destruct (jassoc a data).
Qed.

(** the two markets' order rows are one row.  A SET row and the same row
    respelled with TFEX's keys validate to the same [VenueOrderRow] or fail
    alike, so no counter of either market silently reads as its default; and
    when both counters of a row are integers on the wire they are read as
    those. *)
Theorem dialects_agree `{!CoercionsSpec} data row :
  set_spelled data -> VenueOrderRow_validate data = Ok row ->
  VenueOrderRow_validate (as_tfex data) = Ok row /\
  (forall z, jassoc "vol" data = Some (JInt z) -> vr_volume row = z) /\
  (forall z, jassoc "matched" data = Some (JInt z) -> vr_matched row = z).
Proof.
  intros Hs Hv.
  assert (Hval : VenueOrderRow_validate (as_tfex data) = VenueOrderRow_validate data).
  { unfold VenueOrderRow_validate, str_field, int_field, row_entry_time, _compose_entry_time, entry_date, jget.
    rewrite !field_kept, !field_respelled, !jassoc_kept, field_of_kept,
      (field_kept (nullable pd_datetime)) by (exact Hs || by_dialect). reflexivity. }
  split; [by rewrite Hval|].
  unfold VenueOrderRow_validate in Hv.
  do 18 (apply result_bind_inv in Hv as (? & ? & Hv)). injection Hv as <-. simpl.
  assert (Hint : forall a b rest z n, (a, b) ∈ dialect -> jassoc a data = Some (JInt z) ->
    int_field 0 (b :: a :: rest) data = Ok n -> n = z).
  { intros a b rest z n Hab Ha. unfold int_field, field. cbn [field_of].
    rewrite (Hs b) by (by apply (list_elem_of_fmap_2 snd _ (a, b))). rewrite Ha, pd_int_int.
    by intros [= ->]. }
  split; intros z Hz; (eapply Hint; [|exact Hz|eassumption]); by_dialect.
Qed.
End dialects.

(** ** The payloads *)

(** For a contract-valid order the Streaming Pro capability gate admits, a place
    payload always exists and carries the order verbatim; the price string parses
    back to the very price, and is left out exactly when the order has none. *)
Record sp_payload_reads (o : NormalizedOrder) (payload : list (string * json)) : Prop := {
  spr_symbol : jget "symbol" payload = JStr (no_symbol o);
  spr_account : jget "account" payload = JStr (no_account o);
  spr_volume : jget "volume" payload = JInt (no_quantity o);
  spr_side : exists s, jget "side" payload = JStr s /\ sp_from_venue_side s = Some (no_side o);
  spr_type : exists s, jget "price_type" payload = JStr s /\
    sp_READ_PRICE_TYPES (token s) = Some (no_order_type o);
  spr_position : forall pe, no_position_effect o = Some pe -> no_market o = TFEX ->
    exists s, jget "position" payload = JStr s /\ sp_READ_POSITIONS (token s) = Some pe;
  spr_price : match no_price o with
    | Some p => exists s d, jget "price" payload = JStr s /\ decimal_of_string s = Some d /\
        dec_eqb d p = true
    | None => no_order_type o = MARKET /\ (no_stop_price o = None -> jassoc "price" payload = None)
    end;
}.

Lemma sp_payload_faithful o cap :
  order_wf o -> lookup_caps STREAMING_PRO (no_market o) = Ok cap ->
  assert_supports cap (no_order_type o) (no_tif o) (no_position_effect o) = Ok tt ->
  exists payload, sp_to_place_payload o = Ok payload /\ sp_payload_reads o payload.
Proof.
  intros Hwf Hcap Hsup.
  assert (Ht : no_order_type o = MARKET \/ no_order_type o = LIMIT).
  { destruct (no_market o); injection Hcap as <-; destruct (no_order_type o); auto; discriminate Hsup. }
  assert (Hpr : match no_price o with
    | Some p => exists d, _wire_price o = Some (format_f p) /\
        decimal_of_string (format_f p) = Some d /\ dec_eqb d p = true
    | None => no_order_type o = MARKET /\ (no_stop_price o = None -> _wire_price o = None)
    end).
  { unfold _wire_price. destruct (no_price o) as [p|] eqn:Hp.
    - destruct (decimal_format_f p) as (d & Hd & He); [|by exists d].
      apply dec_positive_coeff. by apply (wf_price o Hwf).
    - split; [|by intros ->]. destruct Ht as [Ht|Ht]; [done|].
      destruct (wf_priced o Hwf) as [p Hp']; [by left | congruence]. }
  unfold sp_to_place_payload. destruct (no_market o) eqn:Hm.
  - eexists. split; [reflexivity|]. unfold sp_to_set_payload, price_entry.
    split; try reflexivity; try (by eexists; split; [reflexivity|]; destruct Ht as [-> | ->] || destruct (no_side o)).
    + by rewrite Hm.
    + destruct (no_price o) as [p|]; [destruct Hpr as (d & -> & ?); by eexists _, d|].
      destruct Hpr as [? Hn]. split; [done|]. intros Hs. by rewrite (Hn Hs).
  - destruct (proj1 (wf_tfex o Hwf) Hm) as [pe Hpe]. unfold sp_to_tfex_payload. rewrite Hpe.
    eexists. split; [reflexivity|]. unfold price_entry.
    split; try reflexivity; try (by eexists; split; [reflexivity|]; destruct Ht as [-> | ->] || destruct (no_side o)).
    + intros pe' [= <-] _. eexists. split; [reflexivity|]. by destruct pe.
    + destruct (no_price o) as [p|]; [destruct Hpr as (d & -> & ?); by eexists _, d|].
      destruct Hpr as [? Hn]. split; [done|]. intros Hs. by rewrite (Hn Hs).
Qed.

(** ** The adapter *)

Section adapter_props.
Context `{Coercions} {R V : Type} (sess : V -> StreamingProSession)
        (put_sess : StreamingProSession -> V -> V).
Abbreviation W := (world R V).
Context (post : string -> list (string * json) -> M exn W (list (string * json)))
        (get_json : string -> M exn W json)
        (validate_place : list (string * json) -> result exn BridgePlace) (acquire : M exn W unit)
        (resolve_order : option (string -> M exn W (option OrderRef))).
Abbreviation place := (sp_place sess put_sess post validate_place acquire).
Abbreviation cancel := (sp_cancel sess post get_json validate_place resolve_order).
Abbreviation fetch := (sp_fetch_venue_orders get_json).

Section any_relation.
Context (Q : relation db) `{!PreOrder Q}.
(* the HTTP client, the limiter and the resolver do not write the store *)
Hypothesis post_ok : forall p b, respects (on_db Q) (post p b).
Hypothesis get_ok : forall p, respects (on_db Q) (get_json p).
Hypothesis acquire_ok : respects (on_db Q) acquire.
Hypothesis resolve_ok : forall f, resolve_order = Some f -> forall c, respects (on_db Q) (f c).

Lemma sp_session_modify_respects f :
  respects (on_db Q) (sp_session_modify (R := R) sess put_sess f).
Proof. apply respects_modify. intros w. unfold on_db. simpl. reflexivity. Qed.

Lemma sp_fetch_respects a m : respects (on_db Q) (fetch a m).
Proof. unfold sp_fetch_venue_orders. respects_tac. Qed.

Lemma lookup_ext_respects a m n : respects (on_db Q) (_lookup_ext_order_no get_json a m n).
Proof. unfold _lookup_ext_order_no. pose proof sp_fetch_respects. respects_tac. Qed.

Lemma sp_heartbeat_respects : respects (on_db Q) (sp_heartbeat sess put_sess get_json).
Proof. unfold sp_heartbeat. pose proof sp_session_modify_respects. respects_tac. Qed.

Lemma streaming_pro_adapter_ok oid :
  adapter_ok Q (StreamingProAdapter sess put_sess post get_json validate_place acquire
                  resolve_order oid).
Proof.
  pose proof sp_session_modify_respects as Hs. pose proof lookup_ext_respects as Hl.
  split; intros; simpl; unfold sp_place, sp_cancel, sp_amend.
  - respects_tac.
  - destruct resolve_order as [f|]; [specialize (resolve_ok f eq_refl)|]; respects_tac.
  - respects_tac.
Qed.
End any_relation.

Hypothesis sess_put : forall s v, sess (put_sess s v) = s.

(** The venue's identifier of a SET cancel: the order's own row's, never another's. *)
Definition ext_of (order_no : string) (rows : list VenueOrderRow) : option string :=
  match List.find (fun r => String.eqb (vr_order_no r) order_no) rows with
  | None => None
  | Some row =>
      let ext := str_or (vr_ext_order_no row) (vr_order_no_fis row) in
      if String.eqb ext "" then None else Some ext
  end.

(** Sending the cancel request and reading its answer. *)
Definition send_cancel (o : NormalizedOrder) (order_no : string) (ext : option string) (w : W)
    : result exn CancelAck * W :=
  match post sp_cancel_path
          (sp_to_cancel_payload order_no (no_market o) (no_account o) (Some (no_symbol o)) ext) w with
  | (Ok body, w2) =>
      match jget "ok" body with
      | JBool true => (Ok {| ca_ok := true; ca_reason := None |}, w2)
      | _ => match validate_place body with
             | Ok p => (Ok {| ca_ok := false; ca_reason := Some (bridge_reject_reason p) |}, w2)
             | Err e => (Err e, w2)
             end
      end
  | (Err (StreamingProTransportError m), w2) => (Ok {| ca_ok := false; ca_reason := Some m |}, w2)
  | (Err e, w2) => (Err e, w2)
  end.

(** a Streaming Pro cancel names the order it cancels.  After a place the
    venue accepted as [n], cancelling a TFEX order sends one request, for [n];
    cancelling a SET order first reads the account's SET list and sends one
    request, for [n] with the external number of [n]'s own row; when the list
    cannot be read, or has no such row, or the row carries neither number, nothing
    is sent and the cancel is unconfirmed. *)
Theorem sp_cancel_names_order o (w w1 : W) ack n :
  place o w = (Ok ack, w1) -> pa_broker_order_id ack = Some n ->
  cancel (no_client_order_id o) w1 =
    match no_market o with
    | TFEX => send_cancel o n None w1
    | SET_ =>
        let refusal := Ok {| ca_ok := false; ca_reason := Some set_cancel_refusal |} in
        match fetch (no_account o) SET_ w1 with
        | (Ok rows, w2) =>
            match ext_of n rows with
            | Some ext => send_cancel o n (Some ext) w2
            | None => (refusal, w2)
            end
        | (Err (StreamingProTransportError _ | ValidationError), w2) => (refusal, w2)
        | (Err e, w2) => (Err e, w2)
        end
    end.
Proof.
  intros Hplace Hack. unfold sp_place in Hplace.
  destruct (sp_to_place_payload o) as [payload|e] eqn:Hpay;
    [|destruct e; unfold ret, raise in Hplace; simplify_eq/=; done].
  rewrite <- bind_assoc in Hplace. inv_ok Hplace. inv_ok Hplace.
  unfold lift_result in *. simplify_eq.
  destruct (bp_order_no a0) as [n'|]; [|unfold ret in Hplace; by simplify_eq].
  destruct (bp_ok a0); [|unfold ret in Hplace; by simplify_eq].
  unfold bind, sp_session_modify, modify, ret in Hplace. simplify_eq/=.
  unfold sp_cancel, bind, gets, ret. simpl. rewrite sess_put. simpl. rewrite lookup_insert_eq.
  unfold send_cancel, raise, catch, lift_result. destruct (no_market o); simpl.
  - unfold _lookup_ext_order_no, ext_of, bind, catch, ret, raise.
    destruct (fetch (no_account o) SET_ _) as [[rows|e] wa]; [|by destruct e].
    destruct (List.find _ rows) as [row|]; [|done].
    destruct (String.eqb (str_or _ _) ""); [done|]. simpl.
    destruct (post _ _ wa) as [[body|e] wb]; [|by destruct e].
    destruct (jget "ok" body) as [|[]| | | | |]; try done; by destruct (validate_place body).
  - destruct (post _ _ _) as [[body|e] wb]; [|by destruct e].
    destruct (jget "ok" body) as [|[]| | | | |]; try done; by destruct (validate_place body).
Qed.
End adapter_props.

(** ** Positions *)

Section positions.
Context {R V : Type}.
Abbreviation W := (world R V).
Context (get_json : string -> M exn W json).

(** The TFEX front's answer for an account it holds: an object under [raw]
    without an error code. *)
Definition tfex_accepts (body : json) : option (list (string * json)) :=
  match body with
  | JObj b => match jget "raw" b with
              | JObj raw => match jassoc "code" raw with None => Some raw | Some _ => None end
              | _ => None
              end
  | _ => None
  end.

Lemma sp_position_nonzero account raw p :
  sp_position account raw = Ok (Some p) -> ps_net_qty p ≠ 0 /\ ps_market p = SET_.
Proof.
  unfold sp_position. intros E. apply result_bind_inv in E as (q & _ & E).
  destruct (jget "symbol" raw); try done. destruct q as [q|]; [|done].
  destruct (Z.eqb_spec q 0) as [|Hq]; [done|].
  do 4 (apply result_bind_inv in E as (? & _ & E)). by injection E as <-.
Qed.

Lemma sp_positions_spec account rows ps : sp_positions_of account rows = Ok ps ->
  (forall p, p ∈ ps <-> exists raw, JObj raw ∈ rows /\ sp_position account raw = Ok (Some p)).
Proof.
  revert ps. induction rows as [|j rows IH]; intros ps; simpl; [intros [= <-]; set_solver|].
  destruct j as [| | | | | |raw];
    try (intros E p; rewrite (IH _ E p); split; intros (x & Hx & ?); exists x; set_solver).
  intros E p. apply result_bind_inv in E as (q & Hq & E). apply result_bind_inv in E as (qs & Hqs & E).
  injection E as <-. specialize (IH _ Hqs p). destruct q as [q|]; [rewrite elem_of_cons|]; rewrite IH.
  - split.
    + intros [->|(x & Hx & ?)]; [exists raw | exists x]; set_solver.
    + intros (x & [[= ->]|Hx]%elem_of_cons & E); [left; congruence | right; eauto].
  - split; [intros (x & Hx & ?); exists x; set_solver|].
    intros (x & [[= ->]|Hx]%elem_of_cons & E); [congruence | eauto].
Qed.

(** An account is reported to hold exactly what the front that accepts it lists:
    nothing when the TFEX front accepts it with an empty list, never less when
    that list is not empty (the read refuses instead), and otherwise the SET
    front's non-zero rows. *)
Lemma sp_positions_reported account (w w' : W) ps :
  sp_get_positions get_json account w = (Ok ps, w') ->
  exists tfex w1, get_json (tfex_portfolio_path account) w = (Ok tfex, w1) /\
  match tfex_accepts tfex with
  | Some raw => jget "portfolioList" raw = JList [] /\ ps = [] /\ w' = w1
  | None => exists body rows, get_json (portfolio_path account) w1 = (Ok (JObj body), w') /\
      jget "positions" body = JList rows /\
      (forall p, p ∈ ps <-> exists raw, JObj raw ∈ rows /\ sp_position account raw = Ok (Some p)) /\
      (forall p, p ∈ ps -> ps_net_qty p ≠ 0)
  end.
Proof.
  intros E. unfold sp_get_positions in E. inv_ok E.
  assert (Hset : set_positions get_json account w0 = (Ok ps, w') ->
    exists body rows, get_json (portfolio_path account) w0 = (Ok (JObj body), w') /\
      jget "positions" body = JList rows /\
      (forall p, p ∈ ps <-> exists raw, JObj raw ∈ rows /\ sp_position account raw = Ok (Some p)) /\
      (forall p, p ∈ ps -> ps_net_qty p ≠ 0)).
  { clear E. intros E. unfold set_positions in E. inv_ok E.
    destruct a0 as [| | | | | |b]; try discriminate E. destruct (jget "positions" b) as [| | | | |rows|] eqn:Hp;
      try discriminate E. unfold lift_result in E. injection E as E ->.
    pose proof (sp_positions_spec _ _ _ E) as Hs. exists b, rows. split_and!; try done.
    intros p Hpin. apply Hs in Hpin as (raw & _ & Hr). by apply sp_position_nonzero in Hr as [? _]. }
  eexists _, _. split; [eassumption|]. unfold tfex_accepts.
  destruct a as [| | | | | |b]; try (by apply Hset).
  destruct (jget "raw" b) as [| | | | | |raw]; try (by apply Hset).
  destruct (jassoc "code" raw); [by apply Hset|].
  destruct (jget "portfolioList" raw) as [| | | | |[|]|]; try discriminate E.
  unfold ret in E. by simplify_eq.
Qed.
End positions.
