(* ===== verification/Transport.v ===== *)
(** * Transport: the two bridges over HTTP
    ([adapters/liberator/transport.py], [adapters/streaming_pro/transport.py])

    The HTTP client is a parameter: a request is answered with a status and a body
    (its JSON, or nothing when it is not JSON) or fails with an [httpx.HTTPError],
    of which the code keeps the printed form. *)

From S2P Require Import Prelude Decimals Contracts StateMachine Events Store StoreInv Config Adapters PyTime Liberator StreamingPro.
From stdpp Require Import base gmap strings list relations.
From Stdlib Require Import ZArith Lia.
Open Scope Z_scope.

Record Response := { rs_status_code : Z; rs_json : option json }.

Inductive HttpOutcome :=
  | Answered (r : Response)
  | HttpError (repr : string).

(** [key.lower()] *)
Definition ascii_lower (a : Ascii.ascii) : Ascii.ascii :=
  let c := char_code a in
  if (65 <=? c) && (c <=? 90) then Ascii.ascii_of_nat (Z.to_nat (c + 32)) else a.
Definition py_lower (s : string) : string :=
  String.string_of_list_ascii (map ascii_lower (String.list_ascii_of_string s)).

Definition lib_SENSITIVE_KEYS : list string :=
  ["pin"; "accountno"; "account_no"; "password"; "apitoken"; "api_key"].
Definition sp_SENSITIVE_KEYS : list string :=
  ["pin"; "accountno"; "account"; "account_no"; "password"; "api_key"].

(** What a debug log line shows of a payload. *)
Definition redact_payload (sensitive : list string) (payload : list (string * json))
    : list (string * json) :=
  map (fun kv => (kv.1, if memb (py_lower kv.1) sensitive then JStr "***" else kv.2)) payload.

(** [base_url.rstrip("/") + "/" + path.lstrip("/")] *)
Definition is_slash (a : Ascii.ascii) : bool := char_code a =? 47.
Definition rstrip_slash (s : string) : string :=
  String.string_of_list_ascii (rev (lstrip_with is_slash (rev (String.list_ascii_of_string s)))).
Definition lstrip_slash (s : string) : string :=
  String.string_of_list_ascii (lstrip_with is_slash (String.list_ascii_of_string s)).
Definition _url (base_url path : string) : string :=
  (rstrip_slash base_url +:+ "/" +:+ lstrip_slash path)%string.

Section transports.
Context {R V : Type}.
Abbreviation M := (M exn (world R V)).
Context (client_post : string -> list (string * json) -> M HttpOutcome)
        (client_get : string -> M HttpOutcome) (base_url : string).

(** *** Streaming Pro *)

Definition sp_json (path : string) (response : Response) : M json :=
  match rs_json response with
  | Some body => ret body
  | None => raise (StreamingProTransportError ("streaming_pro " +:+ path +:+
      " returned non-JSON (HTTP " +:+ int_str (rs_status_code response) +:+ ")")%string)
  end.

Definition sp_answer (verb path : string) (outcome : HttpOutcome) : M json :=
  match outcome with
  | HttpError e => raise (StreamingProTransportError
      ("streaming_pro " +:+ verb +:+ " " +:+ path +:+ " failed: " +:+ e)%string)
  | Answered response =>
      if 500 <=? rs_status_code response
      then raise (StreamingProTransportError ("streaming_pro " +:+ verb +:+ " " +:+ path +:+
             " upstream error HTTP " +:+ int_str (rs_status_code response))%string)
      else sp_json path response
  end.

Definition sp_post (path : string) (payload : list (string * json)) : M (list (string * json)) :=
  let* outcome := client_post (_url base_url path) payload in
  let* body := sp_answer "POST" path outcome in
  match body with
  | JObj o => ret o
  | _ => raise (StreamingProTransportError
           ("streaming_pro POST " +:+ path +:+ " returned a non-object body")%string)
  end.

Definition sp_get_json (path : string) : M json :=
  let* outcome := client_get (_url base_url path) in
  sp_answer "GET" path outcome.

(** *** Liberator *)

(** [LiberatorEnvelope.model_validate] (pydantic) *)
Context (validate_envelope : list (string * json) -> result exn LiberatorEnvelope).

Definition _parse_envelope (path : string) (response : Response) : M LiberatorEnvelope :=
  match rs_json response with
  | None => raise (LiberatorTransportError ("liberator POST " +:+ path +:+
      " returned non-JSON (HTTP " +:+ int_str (rs_status_code response) +:+ ")")%string)
  | Some (JObj o) => lift_result (validate_envelope o)
  | Some _ => raise (LiberatorTransportError ("liberator POST " +:+ path +:+
      " returned a non-object body (HTTP " +:+ int_str (rs_status_code response) +:+ ")")%string)
  end.

Definition lib_post (path : string) (payload : list (string * json)) : M LiberatorEnvelope :=
  let* outcome := client_post (_url base_url path) payload in
  match outcome with
  | HttpError e => raise (LiberatorTransportError
      ("liberator POST " +:+ path +:+ " failed: " +:+ e)%string)
  | Answered response =>
      if 500 <=? rs_status_code response
      then raise (LiberatorTransportError ("liberator POST " +:+ path +:+
             " upstream error HTTP " +:+ int_str (rs_status_code response))%string)
      else _parse_envelope path response
  end.

Definition lib_get_json (path : string) : M json :=
  let* outcome := client_get (_url base_url path) in
  match outcome with
  | HttpError e => raise (LiberatorTransportError
      ("liberator GET " +:+ path +:+ " failed: " +:+ e)%string)
  | Answered response =>
      if 500 <=? rs_status_code response
      then raise (LiberatorTransportError ("liberator GET " +:+ path +:+
             " upstream error HTTP " +:+ int_str (rs_status_code response))%string)
      else match rs_json response with
           | Some body => ret body
           | None => raise (LiberatorTransportError
               ("liberator GET " +:+ path +:+ " returned non-JSON")%string)
           end
  end.
End transports.

(** ** Facts *)

Lemma redact_spec sensitive payload k v :
  (k, v) ∈ redact_payload sensitive payload <->
  exists v0, (k, v0) ∈ payload /\
    v = (if memb (py_lower k) sensitive then JStr "***" else v0).
Proof.
  unfold redact_payload. rewrite list_elem_of_fmap. split.
  - intros ([k0 v0] & E & Hin). simpl in E. simplify_eq. by exists v0.
  - intros (v0 & Hin & ->). by exists (k, v0).
Qed.

(** The account of a Streaming Pro payload is masked in the log line. *)
Lemma account_redacted payload v :
  ("account"%string, v) ∈ redact_payload sp_SENSITIVE_KEYS payload -> v = JStr "***".
Proof. intros Hin. by apply redact_spec in Hin as (v0 & _ & ->). Qed.

Section transport_facts.
Context {R V : Type}.
Abbreviation W := (world R V).
Context (client_post : string -> list (string * json) -> M exn W HttpOutcome)
        (client_get : string -> M exn W HttpOutcome) (base_url : string)
        (validate_envelope : list (string * json) -> result exn LiberatorEnvelope).

(** what counts as a transport failure.  A bridge call fails with a transport
    error exactly when the request failed, the bridge answered 5xx, or the answer
    was not a JSON object; any answer below 500 with one, 4xx rejections included,
    is returned to the adapter, which turns it into a rejected ack. *)
Theorem post_failures path payload (w w1 : W) outcome :
  client_post (_url base_url path) payload w = (Ok outcome, w1) ->
  let parsed := match outcome with
                | Answered r => if rs_status_code r <? 500 then
                    match rs_json r with Some (JObj o) => Some o | _ => None end else None
                | HttpError _ => None
                end in
  match parsed with
  | Some o => sp_post client_post base_url path payload w = (Ok o, w1) /\
      lib_post client_post base_url validate_envelope path payload w = (validate_envelope o, w1)
  | None =>
      (exists m, sp_post client_post base_url path payload w = (Err (StreamingProTransportError m), w1)) /\
      (exists m, lib_post client_post base_url validate_envelope path payload w
                 = (Err (LiberatorTransportError m), w1))
  end.
Proof.
  intros Hc. unfold sp_post, lib_post. rewrite !(bind_ok _ _ _ _ _ Hc).
  destruct outcome as [[st body]|e]; simpl; [|by split; eexists].
  unfold _parse_envelope, sp_json. simpl.
  destruct (Z.ltb_spec st 500), (Z.leb_spec 500 st); try lia; [|by split; eexists].
  destruct body as [[]|]; simpl; by split; eexists.
Qed.

Context (Q : relation db) `{!PreOrder Q}.
Hypothesis post_ok : forall u p, respects (on_db Q) (client_post u p).
Hypothesis get_ok : forall u, respects (on_db Q) (client_get u).

Lemma sp_transport_respects :
  (forall p b, respects (on_db Q) (sp_post client_post base_url p b)) /\
  (forall p, respects (on_db Q) (sp_get_json client_get base_url p)).
Proof.
  split; intros; unfold sp_post, sp_get_json, sp_answer, sp_json; respects_tac.
Qed.

Lemma lib_transport_respects :
  (forall p b, respects (on_db Q) (lib_post client_post base_url validate_envelope p b)) /\
  (forall p, respects (on_db Q) (lib_get_json client_get base_url p)).
Proof. split; intros; unfold lib_post, lib_get_json, _parse_envelope; respects_tac. Qed.
End transport_facts.
