(* ===== verification/SpExamples.v ===== *)
(** * SpExamples: the Streaming Pro theorems on concrete rows and answers *)

From S2P Require Import Prelude Decimals Contracts StateMachine Events Store StoreInv StoreProps Config Adapters Router RouterProps CancelAmend SimLifecycle PyTime Liberator Reconciler ReconcileCore ReconcileCoreProps ReconcilerProps ReconcilerExamples LiberatorProps LiberatorExamples StreamingPro SpReconciler SpTime SpProps SpWire Transport.
From stdpp Require Import base gmap strings list relations.
From Stdlib Require Import ZArith Lia.
Import OrderState.
Open Scope Z_scope.

(** A strict reading of the documented coercions: only values already of the
    field's type are taken. *)
#[global] Instance strict_coercions : Coercions := {|
  pd_str := fun v => match v with JStr s => Some s | _ => None end;
  pd_int := fun v => match v with JInt z => Some z | _ => None end;
  pd_decimal := fun v => match v with JStr s => decimal_of_string s | _ => None end;
  pd_datetime := fun _ => None |}.
#[global] Instance strict_coercions_spec : CoercionsSpec.
Proof. split; reflexivity. Qed.

Definition sp_order (cid : string) : NormalizedOrder :=
  {| no_client_order_id := cid; no_broker := STREAMING_PRO;
     no_account := "acct"; no_market := SET_; no_symbol := "AOT"; no_side := BUY;
     no_order_type := LIMIT; no_price := Some (Dec 605 (-1)); no_stop_price := None;
     no_quantity := 100; no_display_qty := None; no_tif := DAY; no_position_effect := None;
     no_metadata := [] |}.

(** A venue row that resembles [sp_order]. *)
Definition sp_row (n : string) (matched balance cancelled : Z) (show : string) (t : PyDatetime)
    : VenueOrderRow :=
  {| vr_order_no := n; vr_account_no := "acct"; vr_ext_order_no := ""; vr_order_no_fis := "F1";
     vr_symbol := "AOT"; vr_side := "BUY"; vr_position := None; vr_price_type := "LIMIT";
     vr_price := Some (Dec 605 (-1)); vr_status := ""; vr_reject_reason := "";
     vr_validity_type := "DAY"; vr_volume := 100; vr_matched := matched; vr_balance := balance;
     vr_cancelled := cancelled; vr_status_show := show; vr_entry_time := Some t |}.

Definition sp_lost : world unit unit := (insert_order (sp_order "c1") None ex_world).2.
Definition sp_row_c1 : OrderRow := new_row 1000 (sp_order "c1") None.


Lemma planners_agree_witness :
  exists acts, plan_actions sp_row_c1 0 (Some (venue_row "V1" 40 60 0 "M")) minute false = Ok acts /\
    Forall2 same_action
      (sp_plan_actions sp_row_c1 0 (Some (sp_row "V1" 40 60 0 "M" (utc 2000))) minute false) acts /\
    length acts = 2%nat.
Proof.
  destruct (planners_agree sp_row_c1 0 (Some (sp_row "V1" 40 60 0 "M" (utc 2000)))
    (Some (venue_row "V1" 40 60 0 "M")) minute false) as (acts & Hp & Hs).
  - repeat split; vm_compute; reflexivity.
  - exists acts. split; [exact Hp|]. split; [exact Hs|]. vm_compute in Hp. by injection Hp as <-.
Defined.


(** ** The wire *)

Definition set_wire_row : list (string * json) :=
  [("orderNo", JStr "V1"); ("symbol", JStr "AOT"); ("side", JStr "BUY"); ("vol", JInt 100);
   ("matched", JInt 40); ("balance", JInt 60); ("cancelled", JInt 0);
   ("showOrderStatus", JStr "Matched"); ("entryDate", JStr "2026-09-29");
   ("entryTime", JStr "10:15:30")]%string.

Lemma set_wire_spelled : set_spelled set_wire_row.
Proof.
  intros k Hk. unfold dialect in Hk. simpl in Hk.
  repeat (apply elem_of_cons in Hk as [->|Hk]; [reflexivity|]). by apply not_elem_of_nil in Hk.
Qed.

Lemma dialects_agree_witness :
  exists row, VenueOrderRow_validate set_wire_row = Ok row /\
    VenueOrderRow_validate (as_tfex set_wire_row) = Ok row /\
    vr_volume row = 100 /\ vr_matched row = 40.
Proof.
  destruct (VenueOrderRow_validate set_wire_row) as [row|e] eqn:E; [|vm_compute in E; discriminate E].
  exists row. destruct (dialects_agree set_wire_row row set_wire_spelled E) as (Ht & Hv & Hm).
  split; [reflexivity|]. split; [exact Ht|]. split; [by apply Hv | by apply Hm].
Defined.

Definition sp_fresh : StreamingProSession :=
  {| ss_breaker := SessionCircuitBreaker_new 3; ss_order_ref_cache := ∅; ss_last_heartbeat_ok := None |}.
Definition sp_session_world : world unit StreamingProSession :=
  {| w_db := db_empty; w_hub := None; w_redis := tt; w_venue := sp_fresh; w_now := 1000;
     w_entropy := 0 |}.

(** The bridge accepts the place as [V1] and every cancel; its list has [V1]'s row. *)
Definition sp_ex_post (_ : string) (_ : list (string * json))
    : M exn (world unit StreamingProSession) (list (string * json)) :=
  ret [("ok"%string, JBool true)].
Definition sp_ex_get (_ : string) : M exn (world unit StreamingProSession) json :=
  ret (JList [JObj (("orderNoFis"%string, JStr "F1") :: set_wire_row)]).
Definition sp_ex_place (_ : list (string * json)) : result exn BridgePlace :=
  Ok {| bp_ok := true; bp_order_no := Some "V1"%string; bp_ext_order_no := None; bp_status := None;
        bp_reason := None; bp_detail := JNull |}.

Lemma sp_cancel_names_order_witness :
  let w1 := (sp_place id (fun s _ => s) sp_ex_post sp_ex_place (ret tt) (sp_order "c1")
               sp_session_world).2 in
  sp_cancel id sp_ex_post sp_ex_get sp_ex_place None "c1" w1 =
    send_cancel sp_ex_post sp_ex_place (sp_order "c1") "V1" (Some "F1"%string) w1.
Proof.
  intros w1.
  exact (sp_cancel_names_order id (fun s _ => s) sp_ex_post sp_ex_get sp_ex_place (ret tt) None
    (fun _ _ => eq_refl) (sp_order "c1") sp_session_world w1 _ "V1" eq_refl eq_refl).
Defined.

(** A bridge that answers 503 with a JSON body. *)
Definition busy_post (_ : string) (_ : list (string * json))
    : M exn (world unit unit) HttpOutcome :=
  ret (Answered {| rs_status_code := 503; rs_json := Some (JObj []) |}).

Lemma post_failures_witness :
  exists m, sp_post busy_post "http://bridge/" "/order/cancel" [] ex_world
    = (Err (StreamingProTransportError m), ex_world).
Proof.
  exact (proj1 (post_failures busy_post "http://bridge/" (fun _ => Ok (accepted JNull))
    "/order/cancel" [] ex_world ex_world _ eq_refl)).
Defined.

(** ** A naive timestamp *)

Definition sp_stuck : world unit unit := set_now 10001000 sp_lost.

Lemma naive_time_aborts_pass_witness :
  sp_reconcile_once (fun _ _ => ret [sp_row "V1" 40 60 0 "M" (Naive 2000)]) sp_stuck
    = (Err type_error, sp_stuck).
Proof.
  destruct (naive_time_aborts_pass (fun _ _ => ret [sp_row "V1" 40 60 0 "M" (Naive 2000)]) sp_row_c1 []
    [sp_row "V1" 40 60 0 "M" (Naive 2000)] (sp_row "V1" 40 60 0 "M" (Naive 2000)) 2000
    sp_stuck sp_stuck) as [_ Habort]; [vm_compute; reflexivity ..|].
  apply Habort; [by apply list_elem_of_singleton | | reflexivity |].
  - repeat split; vm_compute; reflexivity.
  - apply (bool_decide_unpack _). vm_compute. exact I.
Defined.
