(* ===== verification/Runtime.v ===== *)
(** * Runtime: the broker singletons and their workers
    ([adapters/liberator/runtime.py], [adapters/streaming_pro/runtime.py])

    When each adapter exists, what the cancel path falls back to, what a tripped
    breaker does and which background workers run.  The process's two adapter
    singletons are a record; cancelling tasks and closing clients is not
    modelled. *)

From S2P Require Import Prelude Decimals Contracts StateMachine Events Store StoreInv StoreProps Config Cache Adapters Gates HandleRecovery Router RouterProps PyTime Liberator Reconciler ReconcileCore ReconcileCoreProps ReconcilerProps LiberatorProps StreamingPro SpReconciler SpProps SpWire.
From stdpp Require Import base gmap strings list relations.
From Stdlib Require Import ZArith Lia.
Open Scope Z_scope.

Definition _BROKER_STAGES : list Stage.t := [Stage.PAPER; Stage.MICRO_LIVE; Stage.LIVE].
Definition _RECONCILE_STAGES : list Stage.t := [Stage.MICRO_LIVE; Stage.LIVE].

Definition liberator_enabled (settings : Settings) : bool :=
  memb (s_stage settings) _BROKER_STAGES && negb (s_public_mode settings) &&
  negb (bool_decide (s_liberator_api_key settings = None)).

Definition streaming_pro_enabled (settings : Settings) : bool :=
  memb (s_stage settings) _BROKER_STAGES && negb (s_public_mode settings) &&
  negb (bool_decide (s_streaming_pro_api_key settings = None)).

(** The module-level singletons. *)
Record Runtimes (A B : Type) := {
  rn_liberator : option A;
  rn_reconciler : bool;                 (* is [_reconciler] set? *)
  rn_streaming_pro : option B;
}.
Arguments rn_liberator {A B}.
Arguments rn_reconciler {A B}.
Arguments rn_streaming_pro {A B}.

Definition set_liberator {A B} (a : option A) (rs : Runtimes A B) : Runtimes A B :=
  {| rn_liberator := a; rn_reconciler := rn_reconciler rs; rn_streaming_pro := rn_streaming_pro rs |}.
Definition set_reconciler {A B} (b : bool) (rs : Runtimes A B) : Runtimes A B :=
  {| rn_liberator := rn_liberator rs; rn_reconciler := b; rn_streaming_pro := rn_streaming_pro rs |}.
Definition set_streaming_pro {A B} (a : option B) (rs : Runtimes A B) : Runtimes A B :=
  {| rn_liberator := rn_liberator rs; rn_reconciler := rn_reconciler rs; rn_streaming_pro := a |}.

(** [make] builds the adapter from the settings. *)
Definition create_liberator_runtime {A B} (make : Settings -> A) (settings : Settings)
    (rs : Runtimes A B) : option A * Runtimes A B :=
  match rn_liberator rs with
  | Some a => (Some a, rs)
  | None =>
      if negb (liberator_enabled settings) then (None, rs)
      else (Some (make settings), set_liberator (Some (make settings)) rs)
  end.

Definition create_streaming_pro_runtime {A B} (make : Settings -> B) (settings : Settings)
    (rs : Runtimes A B) : option B * Runtimes A B :=
  match rn_streaming_pro rs with
  | Some a => (Some a, rs)
  | None =>
      if negb (streaming_pro_enabled settings) then (None, rs)
      else (Some (make settings), set_streaming_pro (Some (make settings)) rs)
  end.

Inductive Worker := LiberatorHeartbeat | LiberatorLoop | StreamingProHeartbeat | StreamingProLoop.
#[global] Instance Worker_eq_dec : EqDecision Worker.
Proof. solve_decision. Defined.

Definition start_liberator_workers {A B} (settings : Settings) (rs : Runtimes A B)
    : list Worker * Runtimes A B :=
  match rn_liberator rs with
  | None => ([], rs)
  | Some _ =>
      if memb (s_stage settings) _RECONCILE_STAGES
      then ([LiberatorHeartbeat; LiberatorLoop], set_reconciler true rs)
      else ([LiberatorHeartbeat], rs)
  end.

Definition start_streaming_pro_workers {A B} (settings : Settings) (rs : Runtimes A B)
    : list Worker * Runtimes A B :=
  match rn_streaming_pro rs with
  | None => ([], rs)
  | Some _ =>
      if memb (s_stage settings) _RECONCILE_STAGES
      then ([StreamingProHeartbeat; StreamingProLoop], rs)
      else ([StreamingProHeartbeat], rs)
  end.

Definition close_liberator_runtime {A B} (rs : Runtimes A B) : Runtimes A B :=
  set_liberator None (set_reconciler false rs).
Definition close_streaming_pro_runtime {A B} (rs : Runtimes A B) : Runtimes A B :=
  set_streaming_pro None rs.

Definition get_liberator_handle_resolver {A B X} (resolve_order_now : X) (rs : Runtimes A B)
    : option X :=
  if rn_reconciler rs then Some resolve_order_now else None.

Section store_backed.
Context {R V : Type} `{RedisOps R} `{OrdersSchema}.
Abbreviation M := (M exn (world R V)).

Definition lib_resolve_order_from_store (client_order_id : string) : M (option (string * Market)) :=
  let* row := fetch_order client_order_id in
  ret (match row with
       | None => None
       | Some r => match or_broker_order_id r with
                   | None => None
                   | Some b => Some (b, or_market r)
                   end
       end).

Definition sp_resolve_order_from_store (client_order_id : string) : M (option OrderRef) :=
  let* row := fetch_order client_order_id in
  ret (match row with
       | None => None
       | Some r => match or_broker_order_id r with
                   | None => None
                   | Some b => Some (b, or_market r, or_account r, or_symbol r)
                   end
       end).

(** The router a trip builds: only the tripped broker's adapter, and the default
    SIM adapter. *)
Definition trip_router (rt : OrderRouter R V) (liberator streaming_pro : option (BrokerAdapter R V))
    : OrderRouter R V := {|
  rt_settings := rt_settings rt; rt_redis := rt_redis rt; rt_sim := rt_sim rt;
  rt_liberator := liberator; rt_streaming_pro := streaming_pro;
  rt_last_close := None; rt_handle_resolver := None;
  rt_sleep := rt_sleep rt; rt_uuid4_hex := rt_uuid4_hex rt |}.

Definition liberator_on_trip (rt : OrderRouter R V) (adapter : BrokerAdapter R V) : M unit :=
  mass_cancel (trip_router rt (Some adapter) None) ;;; ret tt.
Definition streaming_pro_on_trip (rt : OrderRouter R V) (adapter : BrokerAdapter R V) : M unit :=
  mass_cancel (trip_router rt None (Some adapter)) ;;; ret tt.
End store_backed.
