(* ===== verification/Engine.v ===== *)
(** * Engine: the process as the lifespan puts it together
    ([api/main.py], [api/deps.py], the two [runtime.py])

    Both broker adapters over their HTTP transports, with the durable store as
    the cancel fallback; the router each request is given; the background workers
    (heartbeats that sweep on a trip, reconcilers); start-up, shutdown and restart.
    The HTTP clients, the limiters' waits and pydantic's validators are parameters
    collected in [Wiring]. *)

From S2P Require Import Prelude Decimals Contracts StateMachine Events Store StoreInv StoreProps Config Cache Adapters Gates HandleRecovery Router RouterProps PyTime Liberator Reconciler ReconcileCore ReconcileCoreProps ReconcilerProps LiberatorProps StreamingPro SpReconciler SpProps SpWire Transport Runtime.
From stdpp Require Import base gmap strings list relations.
From Stdlib Require Import ZArith Lia.
Open Scope Z_scope.

Section engine.
Context {R V : Type} `{Coercions} `{RedisOps R} `{OrdersSchema}.
Abbreviation W := (world R V).
Abbreviation M := (M exn W).

(** Where the adapters keep their sessions, and the code outside the repository
    they call. *)
Record Wiring := {
  wi_lib : V -> LiberatorSession;
  wi_put_lib : LiberatorSession -> V -> V;
  wi_sp : V -> StreamingProSession;
  wi_put_sp : StreamingProSession -> V -> V;
  wi_lib_post : string -> list (string * json) -> M HttpOutcome;
  wi_lib_get : string -> M HttpOutcome;
  wi_sp_post : string -> list (string * json) -> M HttpOutcome;
  wi_sp_get : string -> M HttpOutcome;
  wi_lib_acquire : M unit;
  wi_sp_acquire : M unit;
  wi_validate_envelope : list (string * json) -> result exn LiberatorEnvelope;
  wi_validate_item : list (string * json) -> result exn VenueOrderItem;
  wi_validate_place : list (string * json) -> result exn BridgePlace;
  wi_worker_sleep : Z -> M unit;            (* asyncio.sleep of the workers, seconds *)
}.

Context (wi : Wiring).

(** *** The adapters over their transports *)

Abbreviation lib_json settings := (lib_get_json (wi_lib_get wi) (s_liberator_base_url settings)).
Abbreviation sp_jsonget settings := (sp_get_json (wi_sp_get wi) (s_streaming_pro_base_url settings)).

Definition make_liberator (settings : Settings) : BrokerAdapter R V :=
  LiberatorAdapter (wi_lib wi) (wi_put_lib wi)
    (lib_post (wi_lib_post wi) (s_liberator_base_url settings) (wi_validate_envelope wi))
    (lib_json settings) (wi_lib_acquire wi) (Some lib_resolve_order_from_store)
    (wi_validate_item wi) 1.

Definition make_streaming_pro (settings : Settings) : BrokerAdapter R V :=
  StreamingProAdapter (wi_sp wi) (wi_put_sp wi)
    (sp_post (wi_sp_post wi) (s_streaming_pro_base_url settings))
    (sp_jsonget settings) (wi_validate_place wi) (wi_sp_acquire wi)
    (Some sp_resolve_order_from_store) 2.

Definition lib_fetch (settings : Settings) : string -> M (list VenueOrderItem) :=
  fetch_venue_orders (lib_json settings) (wi_validate_item wi).
Definition sp_fetch (settings : Settings) : string -> Market -> M (list VenueOrderRow) :=
  sp_fetch_venue_orders (sp_jsonget settings).

Definition LiberatorSession_new (breaker_threshold : Z) : LiberatorSession :=
  {| ls_breaker := SessionCircuitBreaker_new breaker_threshold; ls_order_no_cache := ∅;
     ls_awaiting_order_no := ∅; ls_last_heartbeat_ok := None |}.
Definition StreamingProSession_new (breaker_threshold : Z) : StreamingProSession :=
  {| ss_breaker := SessionCircuitBreaker_new breaker_threshold; ss_order_ref_cache := ∅;
     ss_last_heartbeat_ok := None |}.

(** *** The process *)

Abbreviation Adapters := (Runtimes (BrokerAdapter R V) (BrokerAdapter R V)).
Definition no_runtimes : Adapters :=
  {| rn_liberator := None; rn_reconciler := false; rn_streaming_pro := None |}.

Record Node := {
  nd_settings : Settings;              (* [get_settings()]: read once per process *)
  nd_runtimes : Adapters;
  nd_workers : list Worker;
  nd_world : W;
}.

Definition with_world (w : W) (n : Node) : Node :=
  {| nd_settings := nd_settings n; nd_runtimes := nd_runtimes n; nd_workers := nd_workers n;
     nd_world := w |}.

(** [create_event_hub] *)
Definition create_event_hub (settings : Settings) (w : W) : W :=
  match w_hub w with
  | Some _ => w
  | None => set_hub (Some (EventHub_new (Z.to_nat (s_stream_ring_buffer_size settings))
                             (s_stream_subscriber_queue_size settings))) w
  end.

(** A created adapter starts with a fresh session: breaker closed, caches empty. *)
Definition fresh_sessions (settings : Settings) (rs rs' : Adapters) (w : W) : W :=
  let lib := match rn_liberator rs, rn_liberator rs' with
             | None, Some _ =>
                 wi_put_lib wi (LiberatorSession_new (s_liberator_circuit_breaker_threshold settings))
             | _, _ => id
             end in
  let sp := match rn_streaming_pro rs, rn_streaming_pro rs' with
            | None, Some _ =>
                wi_put_sp wi (StreamingProSession_new (s_streaming_pro_circuit_breaker_threshold settings))
            | _, _ => id
            end in
  set_venue (sp (lib (w_venue w))) w.

(** [lifespan], up to the yield. *)
Definition lifespan_start (settings : Settings) (n : Node) : result exn Node :=
  match assert_startup_declaration settings with
  | Err e => Err e
  | Ok _ =>
      let w := create_event_hub settings (nd_world n) in
      let rs0 := nd_runtimes n in
      let (_, rs1) := create_liberator_runtime make_liberator settings rs0 in
      let (ws1, rs2) := start_liberator_workers settings rs1 in
      let (_, rs3) := create_streaming_pro_runtime make_streaming_pro settings rs2 in
      let (ws2, rs4) := start_streaming_pro_workers settings rs3 in
      Ok {| nd_settings := settings; nd_runtimes := rs4; nd_workers := nd_workers n ++ ws1 ++ ws2;
            nd_world := fresh_sessions settings rs0 rs4 w |}
  end.

(** [lifespan], after the yield. *)
Definition lifespan_stop (n : Node) : Node :=
  {| nd_settings := nd_settings n;
     nd_runtimes := close_liberator_runtime (close_streaming_pro_runtime (nd_runtimes n));
     nd_workers := []; nd_world := set_hub None (nd_world n) |}.

(** [get_router_dep]; [base] gives what every router of the process shares (Redis,
    the sim adapter with its pricer, the market-data client, the clock). *)
Definition get_router_dep (n : Node) (base : OrderRouter R V) : OrderRouter R V := {|
  rt_settings := nd_settings n; rt_redis := rt_redis base; rt_sim := rt_sim base;
  rt_liberator := rn_liberator (nd_runtimes n);
  rt_streaming_pro := rn_streaming_pro (nd_runtimes n);
  rt_last_close := rt_last_close base;
  rt_handle_resolver := get_liberator_handle_resolver
    (resolve_order_now (lib_fetch (nd_settings n))) (nd_runtimes n);
  rt_sleep := rt_sleep base; rt_uuid4_hex := rt_uuid4_hex base |}.

(** [liberator/heartbeat.py] *)
Definition lib_heartbeat_pass (settings : Settings) (on_trip : M unit) : M bool :=
  heartbeat_pass (fun v => ls_breaker (wi_lib wi v))
    (fun b v => wi_put_lib wi (ls_set_breaker b (wi_lib wi v)) v)
    (lib_heartbeat (wi_lib wi) (wi_put_lib wi) (lib_json settings)) on_trip.

(** One iteration of a worker's [while True]: the pass, whatever it raises caught and
    logged, then the sleep, here an answer of the outside world. *)
Definition loop_iteration {A} (sleep : Z -> M unit) (interval_seconds : Z) (pass : M A) : M unit :=
  catch (pass ;;; ret tt) (fun _ => ret tt) ;;; sleep interval_seconds.

Definition lib_heartbeat_loop (sleep : Z -> M unit) (settings : Settings) (on_trip : M unit) : M unit :=
  loop_iteration sleep (s_liberator_heartbeat_interval_seconds settings)
    (lib_heartbeat_pass settings on_trip).
Definition lib_run (sleep : Z -> M unit) (settings : Settings) : M unit :=
  loop_iteration sleep (s_liberator_reconcile_interval_seconds settings)
    (reconcile_once (lib_fetch settings)).
Definition sp_heartbeat_loop (sleep : Z -> M unit) (settings : Settings) (on_trip : M unit) : M unit :=
  loop_iteration sleep (s_streaming_pro_heartbeat_interval_seconds settings)
    (sp_heartbeat_pass (wi_sp wi) (wi_put_sp wi) (sp_jsonget settings) on_trip).
Definition sp_run (sleep : Z -> M unit) (settings : Settings) : M unit :=
  loop_iteration sleep (s_streaming_pro_reconcile_interval_seconds settings)
    (sp_reconcile_once (sp_fetch settings)).

(** What the workers do, one iteration each. *)
Definition worker_pass (n : Node) (base : OrderRouter R V) (k : Worker) : M unit :=
  let settings := nd_settings n in
  let router := get_router_dep n base in
  match k, rn_liberator (nd_runtimes n), rn_streaming_pro (nd_runtimes n) with
  | LiberatorHeartbeat, Some a, _ =>
      lib_heartbeat_loop (wi_worker_sleep wi) settings (liberator_on_trip router a)
  | LiberatorLoop, Some _, _ => lib_run (wi_worker_sleep wi) settings
  | StreamingProHeartbeat, _, Some a =>
      sp_heartbeat_loop (wi_worker_sleep wi) settings (streaming_pro_on_trip router a)
  | StreamingProLoop, _, Some _ => sp_run (wi_worker_sleep wi) settings
  | _, _, _ => ret tt
  end.

(** One step of the process: a start (a failed one leaves the process down), a
    stop, a request through a router of this process, one pass of a running
    worker, or the outside world moving on. *)
Inductive engine_step (bases : OrderRouter R V -> Prop) : Node -> Node -> Prop :=
  | st_start settings n n' : nd_runtimes n = no_runtimes -> nd_workers n = [] ->
      lifespan_start settings n = Ok n' -> engine_step bases n n'
  | st_stop n : engine_step bases n (lifespan_stop n)
  | st_request base n w' : bases base ->
      request (eq (get_router_dep n base)) (nd_world n) w' ->
      engine_step bases n (with_world w' n)
  | st_worker base k n : bases base -> k ∈ nd_workers n ->
      engine_step bases n (with_world (worker_pass n base k (nd_world n)).2 n).

Definition powered_off (n : Node) : Prop :=
  nd_runtimes n = no_runtimes /\ nd_workers n = [] /\ w_db (nd_world n) = db_empty.
End engine.
