(* ===== verification/EngineProps.v ===== *)
(** * EngineProps: the composed process

    Every step of the process respects the store, whatever the two brokers
    answer; and which adapters and workers a process has follows from its
    settings alone. *)

From S2P Require Import Prelude Decimals Contracts StateMachine Events Store StoreInv StoreProps Config Cache Adapters Gates HandleRecovery Router RouterProps PyTime Liberator Reconciler ReconcileCore ReconcileCoreProps ReconcilerProps LiberatorProps StreamingPro SpReconciler SpProps SpWire Transport Runtime Engine.
From stdpp Require Import base gmap strings list relations.
From Stdlib Require Import ZArith Lia.
Open Scope Z_scope.

Section engine_props.
Context {R V : Type} `{Coercions} `{RedisOps R} `{OrdersSchemaSpec}.
Abbreviation W := (world R V).
Abbreviation ev := (on_db evolves).
Context (wi : Wiring (R := R) (V := V)).

(** The HTTP clients and the limiters do not write the engine's database. *)
Record wiring_ok : Prop := {
  wo_lib_post u b : respects (on_db eq) (wi_lib_post wi u b);
  wo_lib_get u : respects (on_db eq) (wi_lib_get wi u);
  wo_sp_post u b : respects (on_db eq) (wi_sp_post wi u b);
  wo_sp_get u : respects (on_db eq) (wi_sp_get wi u);
  wo_lib_acquire : respects (on_db eq) (wi_lib_acquire wi);
  wo_sp_acquire : respects (on_db eq) (wi_sp_acquire wi);
  wo_sleep n : respects (on_db eq) (wi_worker_sleep wi n);
}.

Lemma respects_venue_modify (f : V -> V) :
  respects (on_db eq) (modify (E := exn) (fun w : W => set_venue (f (w_venue w)) w)).
Proof. apply respects_modify. intros w. reflexivity. Qed.

(** A heartbeat pass writes the store only through its trip hook. *)
Lemma heartbeat_pass_respects get put (heartbeat : M exn W bool) on_trip :
  respects ev heartbeat -> respects ev on_trip ->
  respects ev (heartbeat_pass get put heartbeat on_trip).
Proof.
  intros Hh Ht. unfold heartbeat_pass.
  assert (Hm : forall g : V -> V, respects ev (modify (E := exn) (fun w : W => set_venue (g (w_venue w)) w))).
  { intros g. apply (respects_eq_any evolves), respects_venue_modify. }
  respects_tac;
    first [apply (Hm (fun v => put (record_success (get v)) v))
          |apply (Hm (fun v => put (record_failure (get v)) v))].
Qed.

Context (Hwi : wiring_ok).

Lemma make_liberator_ok settings : adapter_ok evolves (make_liberator wi settings).
Proof.
  destruct Hwi. destruct (lib_transport_respects (wi_lib_post wi) (wi_lib_get wi)
    (s_liberator_base_url settings) (wi_validate_envelope wi) eq) as [Hp Hg]; [done..|].
  apply liberator_adapter_ok; [apply _ | intros; apply (respects_eq_any evolves); auto ..|].
  intros f [= <-] c. unfold lib_resolve_order_from_store, fetch_order. respects_tac.
Qed.

Lemma make_streaming_pro_ok settings : adapter_ok evolves (make_streaming_pro wi settings).
Proof.
  destruct Hwi. destruct (sp_transport_respects (wi_sp_post wi) (wi_sp_get wi)
    (s_streaming_pro_base_url settings) eq) as [Hp Hg]; [done..|].
  apply streaming_pro_adapter_ok; [apply _ | intros; apply (respects_eq_any evolves); auto ..|].
  intros f [= <-] c. unfold sp_resolve_order_from_store, fetch_order. respects_tac.
Qed.

Lemma lib_fetch_respects settings a : respects ev (lib_fetch wi settings a).
Proof.
  destruct Hwi. destruct (lib_transport_respects (wi_lib_post wi) (wi_lib_get wi)
    (s_liberator_base_url settings) (wi_validate_envelope wi) eq) as [Hp Hg]; [done..|].
  apply fetch_venue_orders_respects; [apply _|]. intros p. apply (respects_eq_any evolves), Hg.
Qed.

Lemma sp_get_respects settings p :
  respects ev (sp_get_json (wi_sp_get wi) (s_streaming_pro_base_url settings) p).
Proof.
  destruct Hwi. apply (respects_eq_any evolves).
  by apply (sp_transport_respects (wi_sp_post wi) (wi_sp_get wi) (s_streaming_pro_base_url settings) eq).
Qed.

Lemma lib_get_respects settings p :
  respects ev (lib_get_json (wi_lib_get wi) (s_liberator_base_url settings) p).
Proof.
  destruct Hwi. apply (respects_eq_any evolves).
  by apply (lib_transport_respects (wi_lib_post wi) (wi_lib_get wi)
    (s_liberator_base_url settings) (wi_validate_envelope wi) eq).
Qed.

Lemma lib_heartbeat_respects settings :
  respects ev (lib_heartbeat (wi_lib wi) (wi_put_lib wi)
    (lib_get_json (wi_lib_get wi) (s_liberator_base_url settings))).
Proof.
  unfold lib_heartbeat. pose proof (lib_get_respects settings).
  pose proof (session_modify_respects (R := R) (wi_lib wi) (wi_put_lib wi) evolves). respects_tac.
Qed.

(** *** What a start builds *)

(** The adapters and workers a process with these settings has. *)
Definition runtimes_of (s : Settings) : Runtimes (BrokerAdapter R V) (BrokerAdapter R V) := {|
  rn_liberator := if liberator_enabled s then Some (make_liberator wi s) else None;
  rn_reconciler := liberator_enabled s && memb (s_stage s) _RECONCILE_STAGES;
  rn_streaming_pro := if streaming_pro_enabled s then Some (make_streaming_pro wi s) else None;
|}.

Definition workers_of (s : Settings) : list Worker :=
  let loop (b : bool) (k : Worker) := if b && memb (s_stage s) _RECONCILE_STAGES then [k] else [] in
  let beat (b : bool) (k : Worker) := if b then [k] else [] in
  beat (liberator_enabled s) LiberatorHeartbeat ++ loop (liberator_enabled s) LiberatorLoop ++
  beat (streaming_pro_enabled s) StreamingProHeartbeat ++
  loop (streaming_pro_enabled s) StreamingProLoop.

Lemma lifespan_start_builds s n n' :
  nd_runtimes n = no_runtimes -> nd_workers n = [] -> lifespan_start wi s n = Ok n' ->
  assert_startup_declaration s = Ok tt /\ nd_settings n' = s /\ nd_runtimes n' = runtimes_of s /\
  nd_workers n' = workers_of s /\ w_db (nd_world n') = w_db (nd_world n).
Proof.
  intros Hr Hk. unfold lifespan_start. rewrite Hr, Hk.
  destruct (assert_startup_declaration s) as [[]|e]; [|done].
  unfold create_liberator_runtime, create_streaming_pro_runtime, runtimes_of, workers_of. simpl.
  destruct (liberator_enabled s); simpl; destruct (streaming_pro_enabled s); simpl;
    unfold start_liberator_workers, start_streaming_pro_workers; simpl;
    destruct (memb (s_stage s) _RECONCILE_STAGES); simpl; intros [= <-]; split_and!; try done;
    unfold create_event_hub; simpl; by destruct (w_hub (nd_world n)).
Qed.

(** Down, or up as its settings say. *)
Definition node_ok (n : Node) : Prop :=
  (nd_runtimes n = no_runtimes /\ nd_workers n = []) \/
  (assert_startup_declaration (nd_settings n) = Ok tt /\
   nd_runtimes n = runtimes_of (nd_settings n) /\ nd_workers n = workers_of (nd_settings n)).

Lemma router_dep_ok n base : node_ok n -> router_ok base -> router_ok (get_router_dep wi n base).
Proof.
  intros Hn [Hs1 _ _ Hs2 _ Hs3]. split; simpl; try done; destruct Hn as [[-> _]|(_ & -> & _)]; simpl; try done.
  - intros a. destruct (liberator_enabled _); intros [= <-]. apply make_liberator_ok.
  - intros a. destruct (streaming_pro_enabled _); intros [= <-]. apply make_streaming_pro_ok.
  - unfold get_liberator_handle_resolver. simpl. intros f Hf c. case_match; simplify_eq.
    apply resolve_order_now_respects. intros a. apply lib_fetch_respects.
Qed.

Lemma trip_router_ok (rt : OrderRouter R V) l p :
  router_ok rt -> (forall a, l = Some a -> adapter_ok evolves a) ->
  (forall a, p = Some a -> adapter_ok evolves a) -> router_ok (trip_router rt l p).
Proof. intros [Hs1 _ _ Hs2 _ Hs3] Hl Hp. by split. Qed.

Lemma on_trip_respects (rt : OrderRouter R V) a :
  router_ok rt -> adapter_ok evolves a ->
  respects ev (liberator_on_trip rt a) /\ respects ev (streaming_pro_on_trip rt a).
Proof.
  intros Hrt Ha. unfold liberator_on_trip, streaming_pro_on_trip. split;
    (apply respects_bind; [apply _|apply mass_cancel_respects|intros; respects_tac]);
    apply trip_router_ok; try done; by intros ? [= <-].
Qed.

(** The sleep and the caught pass of an iteration. *)
Lemma loop_respects {A} n (pass : M exn W A) :
  respects ev pass -> respects ev (loop_iteration (wi_worker_sleep wi) n pass).
Proof.
  intros Hp. destruct Hwi. unfold loop_iteration.
  apply respects_bind; [apply _| |intros; apply (respects_eq_any evolves); auto]. respects_tac.
Qed.

(** An iteration ends normally whatever its pass raises. *)
Lemma loop_survives {A} sleep n (pass : M exn W A) w :
  (forall w, (sleep n w).1 = Ok tt) -> (loop_iteration sleep n pass w).1 = Ok tt.
Proof.
  intros Hs. unfold loop_iteration, bind, catch, ret. by destruct (pass w) as [[a|e] w']; apply Hs.
Qed.

Lemma worker_pass_evolves n base k (w : W) :
  node_ok n -> router_ok base -> ev w (worker_pass wi n base k w).2.
Proof.
  intros Hn Hb. pose proof (router_dep_ok n base Hn Hb) as Hrt. unfold worker_pass.
  destruct k, (rn_liberator (nd_runtimes n)) as [l|] eqn:Hl,
    (rn_streaming_pro (nd_runtimes n)) as [p|] eqn:Hp; try reflexivity.
  all: try (assert (Hal := ro_liberator _ Hrt l Hl)); try (assert (Hap := ro_streaming_pro _ Hrt p Hp)).
  all: apply loop_respects.
  1,2: apply heartbeat_pass_respects; [apply lib_heartbeat_respects | by apply on_trip_respects].
  1,2: apply reconcile_once_respects; intros a; apply lib_fetch_respects.
  1,2: apply heartbeat_pass_respects; [|by apply on_trip_respects];
    apply sp_heartbeat_respects; [apply _|]; intros; apply sp_get_respects.
  all: apply sp_reconcile_once_respects; intros a m; apply sp_fetch_respects; [apply _|];
    intros; apply sp_get_respects.
Qed.

Lemma step_ok bases n n' :
  (forall b, bases b -> router_ok b) -> node_ok n -> engine_step wi bases n n' ->
  node_ok n' /\ ev (nd_world n) (nd_world n').
Proof.
  intros Hb Hn Hs. destruct Hs as [s n n' Hr Hk Hst|n|base n w' Hbase Hreq|base k n Hbase Hk].
  - destruct (lifespan_start_builds s n n' Hr Hk Hst) as (Ha & <- & Hrs & Hws & Hdb).
    split; [by right|]. unfold on_db. by rewrite Hdb.
  - split; [by left|]. unfold on_db. simpl. reflexivity.
  - split; [done|]. apply (requests_evolve (eq (get_router_dep wi n base))); [|by apply rtc_once].
    intros rt <-. by apply router_dep_ok, Hb.
  - split; [done|]. by apply worker_pass_evolves, Hb.
Qed.

Lemma steps_ok bases n n' :
  (forall b, bases b -> router_ok b) -> node_ok n -> rtc (engine_step wi bases) n n' ->
  node_ok n' /\ ev (nd_world n) (nd_world n').
Proof.
  intros Hb Hn. induction 1 as [n|a b c Hs _ IH]; [by split|].
  destruct (step_ok _ _ _ Hb Hn Hs) as [Hn' He]. destruct (IH Hn') as [? ?].
  split; [done|]. by etrans.
Qed.

(** C2: the engine's durable truth survives both its brokers and its own repair
    loops.  A process that starts, serves any requests through its routers, runs
    its Liberator and Streaming Pro heartbeats (a trip sweeps every open order)
    and reconcilers, stops and restarts under other settings, in any order, and
    whatever the bridges answer: the store stays well-formed and evolves legally
    (orders only along frozen edges, handles and terminal rows for ever, fills
    and audit append-only), provided only that the HTTP clients themselves do not
    write the database. *)
Theorem attached_engine_durable bases n n1 n2 :
  (forall b, bases b -> router_ok b) -> powered_off n ->
  rtc (engine_step wi bases) n n1 -> rtc (engine_step wi bases) n1 n2 ->
  db_wf (w_db (nd_world n1)) /\ db_wf (w_db (nd_world n2)) /\
  evo (w_db (nd_world n1)) (w_db (nd_world n2)).
Proof.
  intros Hb (Hr & Hk & Hdb) Hs1 Hs2.
  destruct (steps_ok _ _ _ Hb (or_introl (conj Hr Hk)) Hs1) as [Hn1 [Hw1 _]];
    [rewrite Hdb; apply db_wf_empty|].
  destruct (steps_ok _ _ _ Hb Hn1 Hs2) as [_ [Hw2 He]]; auto.
Qed.







End engine_props.
