(* ===== verification/EngineExamples.v ===== *)
(** * EngineExamples: one live process, from boot to a reconciled fill *)

From S2P Require Import Prelude Decimals Contracts StateMachine Events Store StoreInv StoreProps Config Cache Adapters Gates HandleRecovery Router RouterProps CancelAmend SimLifecycle RouterExamples PyTime Liberator Reconciler ReconcilerExamples LiberatorExamples StreamingPro SpReconciler Transport SpExamples Runtime Engine EngineProps.
From stdpp Require Import base gmap strings list relations.
From Stdlib Require Import ZArith Lia.
Open Scope Z_scope.

Definition Sessions : Type := LiberatorSession * StreamingProSession.
Abbreviation W := (world ExRedis Sessions).

(** The Liberator bridge accepts without an order number; its book lists the
    order, unmatched for thirty seconds and then 40 of 100. *)
Definition ex_book (matched : Z) : json :=
  JObj [("data"%string, JObj [("result"%string, JObj [("list"%string, JList [JObj [("m"%string, JInt matched)]])])])].

(** Stands for pydantic's row validation of the one-row book above. *)
Definition ex_validate (raw : list (string * json)) : result exn VenueOrderItem :=
  match jget "m" raw with
  | JInt m => Ok (venue_row "V7" m (100 - m) 0 "O")
  | _ => Err (ValueError "invalid row")
  end.

Definition answers (body : json) : HttpOutcome :=
  Answered {| rs_status_code := 200; rs_json := Some body |}.

Definition ex_wiring : Wiring (R := ExRedis) (V := Sessions) := {|
  wi_lib := fst; wi_put_lib := fun s v => (s, v.2);
  wi_sp := snd; wi_put_sp := fun s v => (v.1, s);
  wi_lib_post := fun _ _ => ret (answers (JObj []));
  wi_lib_get := fun _ w => (Ok (answers (ex_book (if w_now w <? 30000000 then 0 else 40))), w);
  wi_sp_post := fun _ _ => ret (HttpError "ConnectError()");
  wi_sp_get := fun _ => ret (HttpError "ConnectError()");
  wi_lib_acquire := ret tt; wi_sp_acquire := ret tt;
  wi_validate_envelope := fun _ => Ok (accepted JNull);
  wi_validate_item := ex_validate;
  wi_validate_place := fun _ => Err ValidationError;
  wi_worker_sleep := fun _ => ret tt |}.

Lemma ex_wiring_ok : wiring_ok ex_wiring.
Proof. split; intros; try apply (respects_ret (on_db eq)). intros w. reflexivity. Qed.

Definition ex_live_settings : Settings :=
  deployment false Stage.MICRO_LIVE ["acct"%string] (Some "full"%string) None
    (Some "lib-key"%string) (Some "sp-key"%string) Settings_default.

Definition ex_shared : OrderRouter ExRedis Sessions := {|
  rt_settings := ex_live_settings; rt_redis := true; rt_sim := ex_sim;
  rt_liberator := None; rt_streaming_pro := None; rt_last_close := None;
  rt_handle_resolver := None; rt_sleep := ex_sleep;
  rt_uuid4_hex := fun _ => "token"%string |}.

Lemma ex_shared_ok : router_ok ex_shared.
Proof.
  split; try discriminate.
  - apply sim_adapter_ok, _.
  - intros d. apply respects_modify. intros w. unfold on_db. reflexivity.
Qed.

(** Off, booted, an order submitted, forty seconds later, reconciled. *)
Definition ex_off : Node := {|
  nd_settings := Settings_default; nd_runtimes := no_runtimes; nd_workers := [];
  nd_world := {| w_db := db_empty; w_hub := None; w_redis := w_redis ex_rworld;
                 w_venue := (LiberatorSession_new 3, StreamingProSession_new 3);
                 w_now := 1000; w_entropy := 0 |} |}.
Definition ex_up : Node :=
  match lifespan_start ex_wiring ex_live_settings ex_off with Ok n => n | Err _ => ex_off end.
Definition ex_placed : Node :=
  with_world (submit (get_router_dep ex_wiring ex_up ex_shared) (lib_order "c1") None (nd_world ex_up)).2
    ex_up.
Definition ex_minute_on : Node := with_world (set_now 40000000 (nd_world ex_placed)) ex_placed.
Definition ex_settled : Node :=
  with_world (worker_pass ex_wiring ex_minute_on ex_shared LiberatorLoop (nd_world ex_minute_on)).2
    ex_minute_on.

Abbreviation step := (engine_step ex_wiring (eq ex_shared)).

Lemma ex_boots : rtc step ex_off ex_up.
Proof.
  apply rtc_once, (st_start _ _ ex_live_settings); [reflexivity..|]. unfold ex_up, lifespan_start.
  assert (assert_startup_declaration ex_live_settings = Ok tt) as -> by (vm_compute; reflexivity).
  by repeat case_match.
Qed.

Lemma ex_serves : rtc step ex_off ex_placed.
Proof.
  eapply rtc_r; [exact ex_boots|]. apply (st_request _ _ ex_shared); [reflexivity|].
  apply rq_submit. reflexivity.
Qed.

Lemma ex_repairs : rtc step ex_placed ex_settled.
Proof.
  apply (rtc_l _ _ ex_minute_on).
  - apply (st_request _ _ ex_shared); [reflexivity|]. by apply rq_world.
  - apply rtc_once, (st_worker _ _ ex_shared); [reflexivity|].
    apply memb_spec. vm_compute. reflexivity.
Qed.

Lemma ex_powered_off : powered_off ex_off.
Proof. by split. Qed.

Lemma ex_shared_only b : ex_shared = b -> router_ok b.
Proof. intros <-. exact ex_shared_ok. Qed.

Lemma attached_engine_durable_witness :
  db_wf (w_db (nd_world ex_settled)) /\
  evo (w_db (nd_world ex_placed)) (w_db (nd_world ex_settled)) /\
  in_state "c1" OrderState.NEW (w_db (nd_world ex_placed)) /\
  in_state "c1" OrderState.PARTIALLY_FILLED (w_db (nd_world ex_settled)).
Proof.
  destruct (attached_engine_durable ex_wiring ex_wiring_ok (eq ex_shared) ex_off ex_placed ex_settled
    ex_shared_only ex_powered_off ex_serves ex_repairs) as (_ & Hw & He).
  split; [exact Hw|]. split; [exact He|]. split; vm_compute; reflexivity.
Defined.

