(* ===== verification/Api.v ===== *)
(** * Api: authentication, error envelopes, audit and order history
    ([api/deps.py], [api/error_handlers.py], [api/audit.py] and the history route
    of [api/routes.py] over [fetch_account_orders])

    A request is its headers.  [hmac.compare_digest] is equality of ASCII strings.
    The history cursor is the pair it encodes. *)

From S2P Require Import Prelude Decimals Contracts StateMachine Events Store StoreInv StoreProps Config.
From stdpp Require Import base gmap strings list sorting relations.
From Stdlib Require Import ZArith Lia.
Open Scope Z_scope.

(** ** deps.py *)

(** [request.headers.get(k)] *)
Definition Headers : Type := string -> option string.

Definition _is_read_key (provided : string) (settings : Settings) : bool :=
  match s_read_api_key settings with
  | None => false
  | Some read_key =>
      if String.eqb read_key "" then false
      else match s_api_key settings with
           | Some api_key => if String.eqb read_key api_key then false else String.eqb provided read_key
           | None => String.eqb provided read_key
           end
  end.

Definition require_api_key (request : Headers) (settings : Settings) : result exn unit :=
  match s_api_key settings with
  | None => Err (HTTPException 503)
  | Some api_key =>
      let provided := default "" (request "X-API-Key") in
      if String.eqb provided api_key then Ok tt
      else if _is_read_key provided settings then Err ReadKeyForbidden
      else Err (HTTPException 401)
  end.

Definition require_read_or_full_key (request : Headers) (settings : Settings) : result exn unit :=
  match s_api_key settings with
  | None => Err (HTTPException 503)
  | Some api_key =>
      let provided := default "" (request "X-API-Key") in
      if String.eqb provided api_key || _is_read_key provided settings then Ok tt
      else Err (HTTPException 401)
  end.

Definition require_owner_mode (settings : Settings) : result exn unit :=
  if s_public_mode settings then Err PublicModeRejected else Ok tt.

(** [dependencies=[Depends(require_api_key), Depends(require_owner_mode)]], the
    guard of every order write; the first dependency that raises answers. *)
Definition order_write_guard (request : Headers) (settings : Settings) : result exn unit :=
  match require_api_key request settings with
  | Ok _ => require_owner_mode settings
  | Err e => Err e
  end.

(** The same for the account reads. *)
Definition account_read_guard (request : Headers) (settings : Settings) : result exn unit :=
  match require_read_or_full_key request settings with
  | Ok _ => require_owner_mode settings
  | Err e => Err e
  end.

Definition _STRATEGY_ID_MAX_LEN : Z := 64.

(** [^[A-Za-z0-9._-]+$] with [match]; [$] also matches before a final newline,
    which [strip] removed. *)
Definition slug_char (a : Ascii.ascii) : bool :=
  let c := char_code a in
  ((65 <=? c) && (c <=? 90)) || ((97 <=? c) && (c <=? 122)) || ((48 <=? c) && (c <=? 57)) ||
  memb c [46; 95; 45].
Definition slug (s : string) : bool :=
  negb (String.eqb s "") && forallb slug_char (String.list_ascii_of_string s).

Definition get_strategy_id (request : Headers) : result exn (option string) :=
  match request "X-Strategy-Id" with
  | None => Ok None
  | Some raw =>
      let value := py_strip raw in
      if String.eqb value "" then Ok None
      else if (_STRATEGY_ID_MAX_LEN <? Z.of_nat (String.length value)) || negb (slug value)
      then Err (HTTPException 422) else Ok (Some value)
  end.

Definition get_operator_id (request : Headers) : string :=
  match request "X-Operator-Id" with
  | None => "anonymous"
  | Some raw => if String.eqb (py_strip raw) "" then "anonymous" else py_strip raw
  end.

(** ** error_handlers.py *)

Fixpoint str_assoc {A} (k : string) (l : list (string * A)) : option A :=
  match l with
  | [] => None
  | (k', v) :: l' => if String.eqb k k' then Some v else str_assoc k l'
  end.

Definition _STATUS_BY_CODE (code : string) : option Z :=
  str_assoc code
    [("public_mode", 403); ("read_key_forbidden", 403); ("venue_orders_unavailable", 501);
     ("kill_switch_engaged", 503); ("kill_switch_env_pinned", 409);
     ("kill_switch_not_engaged", 409); ("stage_rejected", 403);
     ("real_routing_not_authorized", 409); ("capability_unsupported", 422);
     ("risk_rejected", 422); ("price_band_exceeded", 422); ("duplicate_burst_detected", 409);
     ("order_not_found", 404); ("order_book_unavailable", 404);
     ("liberator_account_not_found", 404); ("streaming_pro_account_unavailable", 404);
     ("liberator_positions_uncaptured", 501); ("streaming_pro_positions_uncaptured", 501);
     ("order_stream_unavailable", 503); ("illegal_transition", 409);
     ("store_constraint_violated", 422); ("submit_in_flight", 409); ("amend_rejected", 409);
     ("broker_circuit_open", 503)]%string.

(** The HTTP status of an exception a handler lets out: the envelope's for an
    [OrderRejectedError], its own for an [HTTPException], 500 otherwise. *)
Definition _status_for (e : exn) : Z :=
  match e with
  | HTTPException s => s
  | RiskRejected cap _ =>
      if String.eqb cap "rate_limit" then 429 else default 400 (_STATUS_BY_CODE "risk_rejected")
  | e => match exn_code e with
         | Some code => default 400 (_STATUS_BY_CODE code)
         | None => 500
         end
  end.

(** ** audit.py *)

Definition event_type_for (from_status : option OrderState.t) (to_status : OrderState.t) : string :=
  match from_status with
  | None => "create"
  | Some f =>
      match to_status with
      | OrderState.NEW => if decide (f = OrderState.PENDING_REPLACE) then "replace" else "ack"
      | OrderState.PARTIALLY_FILLED | OrderState.FILLED => "fill"
      | OrderState.PENDING_CANCEL => "cancel_request"
      | OrderState.CANCELLED => "cancel"
      | OrderState.PENDING_REPLACE => "replace_request"
      | OrderState.REJECTED => "reject"
      | OrderState.EXPIRED => "expire"
      | OrderState.PENDING_NEW => "create"
      end
  end.

Record AuditEvent := {
  ae_seq : Z;
  ae_from_status : option OrderState.t;
  ae_to_status : OrderState.t;
  ae_broker_order_id : json;
  ae_event_type : string;
  ae_occurred_at : Z;
  ae_metadata : list (string * json);
}.

Definition _synthesize_event (seq : Z) (row : OrderEventRow) : AuditEvent :=
  {| ae_seq := seq; ae_from_status := oe_from_status row; ae_to_status := oe_to_status row;
     ae_broker_order_id := jget "broker_order_id" (oe_event row);
     ae_event_type := event_type_for (oe_from_status row) (oe_to_status row);
     ae_occurred_at := oe_created_at row; ae_metadata := oe_event row |}.

Section audit.
Context {R V : Type} `{OrdersSchema}.
Abbreviation M := (M exn (world R V)).

(** The broker, symbol and events of the response body. *)
Definition order_audit (client_order_id : string) : M (Broker * string * list AuditEvent) :=
  let* header := fetch_order client_order_id in
  match header with
  | None => raise (OrderNotFound (Some client_order_id))
  | Some row =>
      let* rows := fetch_order_events client_order_id in
      ret (or_broker row, or_symbol row,
           imap (fun i r => _synthesize_event (Z.of_nat i + 1) r) rows)
  end.

(** *** The export: every event joined to its order, in event order *)

Record ExportRow := {
  xr_event : OrderEventRow;
  xr_strategy_id : option string;
}.

(** The WHERE clause: [from_ts] inclusive, [to_ts] exclusive, the strategy exact. *)
Definition _export_query (from_ts to_ts : option Z) (strategy_id : option string) (r : ExportRow) : bool :=
  match from_ts with Some t => t <=? oe_created_at (xr_event r) | None => true end &&
  match to_ts with Some t => oe_created_at (xr_event r) <? t | None => true end &&
  match strategy_id with Some s => bool_decide (xr_strategy_id r = Some s) | None => true end.

(** [order_events e JOIN orders o USING (client_order_id)] *)
Definition export_join (d : db) : list ExportRow :=
  omap (fun e => (fun row => {| xr_event := e; xr_strategy_id := or_strategy_id row |}) <$>
                 db_orders d !! oe_client_order_id e) (db_events d).

Definition stream_order_events (from_ts to_ts : option Z) (strategy_id : option string)
    : M (list ExportRow) :=
  gets (fun w => List.filter (_export_query from_ts to_ts strategy_id) (export_join (w_db w))).
End audit.

(** ** The order history *)

Section history.
(* the database collation of client_order_id *)
Context (cid_le : relation string) `{!forall a b, Decision (cid_le a b)}.

(** [(created_at, client_order_id)] of a row. *)
Definition row_key (r : OrderRow) : Z * string := (or_created_at r, or_client_order_id r).

(** The order of a page: newest first, ties by descending id. *)
Definition newer_eq (a b : OrderRow) : Prop :=
  or_created_at b < or_created_at a \/
  (or_created_at b = or_created_at a /\ cid_le (or_client_order_id b) (or_client_order_id a)).

#[export] Instance newer_eq_dec a b : Decision (newer_eq a b).
Proof. unfold newer_eq. apply _. Defined.

(** [(o.created_at, o.client_order_id) < ($5, $6)] *)
Definition row_before (before : option (Z * string)) (r : OrderRow) : Prop :=
  match before with
  | None => True
  | Some (ts, cid) =>
      or_created_at r < ts \/
      (or_created_at r = ts /\ cid_le (or_client_order_id r) cid /\ or_client_order_id r ≠ cid)
  end.

#[export] Instance row_before_dec before r : Decision (row_before before r).
Proof. unfold row_before. destruct before as [[? ?]|]; apply _. Defined.

(** The WHERE clause that does not depend on the page. *)
Definition in_window (account : string) (broker : Broker) (since until : Z) (r : OrderRow) : Prop :=
  or_account r = account /\ or_broker r = broker /\ since <= or_created_at r /\ or_created_at r < until.

Definition fetch_account_orders (account : string) (broker : Broker) (since until : Z)
    (before : option (Z * string)) (limit : nat) (d : db) : list OrderResultRow :=
  omap (fun r => order_result (or_client_order_id r) d)
    (take limit (merge_sort newer_eq
      (filter (fun r => in_window account broker since until r /\ row_before before r)
         (map_to_list (db_orders d)).*2))).

(** One page of [get_order_history]: the rows and the next cursor. *)
Definition history_page (account : string) (broker : Broker) (since until : Z)
    (cursor : option (Z * string)) (limit : nat) (d : db)
    : list OrderResultRow * option (Z * string) :=
  let rows := fetch_account_orders account broker since until cursor (limit + 1) d in
  let page := take limit rows in
  (page, if (limit <? length rows)%nat then row_key ∘ rr_row <$> last page else None).

(** A client that follows [next_cursor]; [None] when it ran out of fuel. *)
Fixpoint history_all (fuel : nat) (account : string) (broker : Broker) (since until : Z)
    (cursor : option (Z * string)) (limit : nat) (d : db) : option (list OrderResultRow) :=
  match fuel with
  | O => None
  | S fuel =>
      let '(page, next) := history_page account broker since until cursor limit d in
      match next with
      | None => Some page
      | Some c => (app page) <$> history_all fuel account broker since until (Some c) limit d
      end
  end.
End history.
