(* ===== verification/Cursor.v ===== *)
(** * Cursor: the opaque history cursor ([api/routes.py])

    URL-safe base64 of the order's creation time and id, without padding; the
    decoder is CPython's lenient one (foreign characters are skipped).  A string
    is its UTF-8 bytes. *)

From S2P Require Import Prelude Decimals Contracts Digits PyTime PyIso.
From stdpp Require Import base strings list.
From Stdlib Require Import ZArith Lia.
Open Scope Z_scope.

Definition byte_of (a : Ascii.ascii) : Z := char_code a.
Definition chr (n : Z) : Ascii.ascii := Ascii.ascii_of_nat (Z.to_nat n).

(** ** base64 *)

(** The URL-safe alphabet. *)
Definition b64_char (n : Z) : Ascii.ascii :=
  chr (if n <? 26 then 65 + n else if n <? 52 then 71 + n else if n <? 62 then n - 4
       else if n =? 62 then 45 else 95).

(** The value of a character once [-_] became [+/]. *)
Definition b64_val (a : Ascii.ascii) : option Z :=
  let c := char_code a in
  if (65 <=? c) && (c <=? 90) then Some (c - 65)
  else if (97 <=? c) && (c <=? 122) then Some (c - 71)
  else if (48 <=? c) && (c <=? 57) then Some (c + 4)
  else if memb c [43; 45] then Some 62
  else if memb c [47; 95] then Some 63
  else None.

(** [urlsafe_b64encode(raw).rstrip("=")]: the final group's padding is left out. *)
Fixpoint b64_encode (bytes : list Z) : list Ascii.ascii :=
  match bytes with
  | x :: y :: z :: r =>
      b64_char (x / 4) :: b64_char (x mod 4 * 16 + y / 16) ::
      b64_char (y mod 16 * 4 + z / 64) :: b64_char (z mod 64) :: b64_encode r
  | [x; y] => [b64_char (x / 4); b64_char (x mod 4 * 16 + y / 16); b64_char (y mod 16 * 4)]
  | [x] => [b64_char (x / 4); b64_char (x mod 4 * 16)]
  | [] => []
  end.

(** [binascii.a2b_base64], not strict: [quad] characters of the group are read,
    [left] holds their unused bits, [pads] the [=] signs in a row. *)
Fixpoint a2b (l : list Ascii.ascii) (quad left pads : Z) : option (list Z) :=
  match l with
  | [] => if quad =? 0 then Some [] else None
  | a :: l' =>
      if char_code a =? 61 then
        if (2 <=? quad) && (4 <=? quad + pads + 1) then Some []
        else a2b l' quad left (if 2 <=? quad then pads + 1 else pads)
      else match b64_val a with
           | None => a2b l' quad left pads
           | Some v =>
               if quad =? 0 then a2b l' 1 v 0
               else if quad =? 1 then cons (left * 4 + v / 16) <$> a2b l' 2 (v mod 16) 0
               else if quad =? 2 then cons (left * 16 + v / 4) <$> a2b l' 3 (v mod 4) 0
               else cons (left * 64 + v) <$> a2b l' 0 0 0
           end
  end.

(** ["=" * (-len(cursor) % 4)] *)
Definition padding (l : list Ascii.ascii) : list Ascii.ascii :=
  replicate (Z.to_nat ((- Z.of_nat (length l)) mod 4)) (chr 61).

Definition b64_decode (l : list Ascii.ascii) : option (list Z) := a2b (l ++ padding l) 0 0 0.

(** [bytes.decode()]: valid UTF-8 (no overlong form, no surrogate). *)
Fixpoint utf8_valid (fuel : nat) (l : list Z) : bool :=
  match fuel with
  | O => bool_decide (l = [])
  | S f =>
      let cont b := (128 <=? b) && (b <=? 191) in
      match l with
      | [] => true
      | a :: r =>
          if a <? 128 then utf8_valid f r
          else match r with
          | b :: r =>
              if (194 <=? a) && (a <=? 223) then cont b && utf8_valid f r
              else match r with
              | c :: r =>
                  if (224 <=? a) && (a <=? 239)
                  then cont b && cont c && (negb (a =? 224) || (160 <=? b)) &&
                       (negb (a =? 237) || (b <=? 159)) && utf8_valid f r
                  else match r with
                  | d :: r =>
                      (240 <=? a) && (a <=? 244) && cont b && cont c && cont d &&
                      (negb (a =? 240) || (144 <=? b)) && (negb (a =? 244) || (b <=? 143)) &&
                      utf8_valid f r
                  | [] => false
                  end
              | [] => false
              end
          | [] => false
          end
      end
  end.

Definition bytes_of (s : string) : list Z := map byte_of (String.list_ascii_of_string s).
Definition string_of_bytes (l : list Z) : string := String.string_of_list_ascii (map chr l).

(** ** The cursor *)

(** [raw.partition("|")]: before, whether it was found, after. *)
Fixpoint partition_bar (l : list Ascii.ascii) : list Ascii.ascii * bool * list Ascii.ascii :=
  match l with
  | [] => ([], false, [])
  | a :: l' => if char_code a =? 124 then ([], true, l')
               else let '(x, b, y) := partition_bar l' in (a :: x, b, y)
  end.

Definition _encode_cursor (created_at : Z) (client_order_id : string) : string :=
  String.string_of_list_ascii
    (b64_encode (bytes_of (isoformat (utc created_at) +:+ "|" +:+ client_order_id))).

(** [None] is no cursor; malformed is a 422. *)
Definition parse_history_cursor (cursor : option string) : result exn (option (Z * string)) :=
  match cursor with
  | None | Some EmptyString => Ok None
  | Some c =>
      let malformed := Err (HTTPException 422) in
      match b64_decode (String.list_ascii_of_string c) with
      | None => malformed
      | Some bytes =>
          if negb (utf8_valid (length bytes) bytes) then malformed
          else
            let '(ts, sep, cid) := partition_bar (map chr bytes) in
            match fromisoformat (String.string_of_list_ascii ts) with
            | Some (Aware t _) =>
                if negb sep || bool_decide (cid = []) then malformed
                else Ok (Some (t, String.string_of_list_ascii cid))
            | _ => malformed
            end
      end
  end.

Example b64_1 : String.string_of_list_ascii (b64_encode (bytes_of "a+b|c?")) = "YStifGM_"%string.
Proof. reflexivity. Qed.
Example b64_2 : b64_decode (String.list_ascii_of_string "YWI") = Some (bytes_of "ab").
Proof. reflexivity. Qed.
Example b64_3 : b64_decode (String.list_ascii_of_string "YWIxx") = None.
Proof. reflexivity. Qed.

(** ** The round trip *)

Lemma triple_ind {A} (P : list A -> Prop) :
  P [] -> (forall x, P [x]) -> (forall x y, P [x; y]) ->
  (forall x y z r, P r -> P (x :: y :: z :: r)) -> forall l, P l.
Proof.
  intros H0 H1 H2 H3. fix IH 1. intros [|x [|y [|z r]]]; [exact H0|apply H1|apply H2|].
  apply H3, IH.
Qed.

(** A fact about every sextet, by cases. *)
Lemma sextets (p : Z -> bool) :
  forallb p (map Z.of_nat (seq 0 64)) = true -> forall v, 0 <= v < 64 -> p v = true.
Proof.
  intros Hall v Hv. rewrite List.forallb_forall in Hall. apply Hall. apply in_map_iff.
  exists (Z.to_nat v). split; [lia|]. apply in_seq. lia.
Qed.

Definition url_safe (a : Ascii.ascii) : bool :=
  let c := char_code a in
  ((65 <=? c) && (c <=? 90)) || ((97 <=? c) && (c <=? 122)) || ((48 <=? c) && (c <=? 57)) ||
  (c =? 45) || (c =? 95).

Lemma b64_char_ok v : 0 <= v < 64 ->
  b64_val (b64_char v) = Some v /\ (char_code (b64_char v) =? 61) = false /\
  url_safe (b64_char v) = true.
Proof.
  intros Hv. pose proof (sextets (fun v => bool_decide (b64_val (b64_char v) = Some v) &&
    negb (char_code (b64_char v) =? 61) && url_safe (b64_char v)) eq_refl v Hv) as H.
  rewrite !andb_true_iff, negb_true_iff, bool_decide_eq_true in H. tauto.
Qed.

Lemma a2b_char v l quad left pads : 0 <= v < 64 ->
  a2b (b64_char v :: l) quad left pads =
  if quad =? 0 then a2b l 1 v 0
  else if quad =? 1 then cons (left * 4 + v / 16) <$> a2b l 2 (v mod 16) 0
  else if quad =? 2 then cons (left * 16 + v / 4) <$> a2b l 3 (v mod 4) 0
  else cons (left * 64 + v) <$> a2b l 0 0 0.
Proof. intros Hv. destruct (b64_char_ok v Hv) as (Hval & Hne & _). cbn [a2b]. by rewrite Hne, Hval. Qed.

Abbreviation byte := (fun b => 0 <= b < 256).

Lemma padding_length l k : Z.of_nat (length l) mod 4 = Z.of_nat (length k) mod 4 ->
  padding l = padding k.
Proof. intros E. unfold padding. do 2 f_equal. Z.div_mod_to_equations. lia. Qed.

Lemma b64_roundtrip bytes : Forall byte bytes -> b64_decode (b64_encode bytes) = Some bytes.
Proof.
  unfold b64_decode. induction bytes as [|x|x y|x y z r IH] using triple_ind; intros Hb; [done|..].
  - apply Forall_cons in Hb as [Hx _]. cbn [b64_encode app].
    rewrite !a2b_char by (Z.div_mod_to_equations; lia). simpl. do 2 f_equal.
    Z.div_mod_to_equations. lia.
  - apply Forall_cons in Hb as [Hx Hb]. apply Forall_cons in Hb as [Hy _]. cbn [b64_encode app].
    rewrite !a2b_char by (Z.div_mod_to_equations; lia). simpl.
    do 2 f_equal; [|f_equal]; Z.div_mod_to_equations; lia.
  - apply Forall_cons in Hb as [Hx Hb]. apply Forall_cons in Hb as [Hy Hb].
    apply Forall_cons in Hb as [Hz Hb]. cbn [b64_encode].
    rewrite (padding_length _ (b64_encode r)) by (simpl length; Z.div_mod_to_equations; lia).
    cbn [app]. rewrite !a2b_char by (Z.div_mod_to_equations; lia). simpl. rewrite (IH Hb). simpl.
    do 2 f_equal; [|f_equal; [|f_equal]]; Z.div_mod_to_equations; lia.
Qed.

Lemma b64_url_safe bytes : Forall byte bytes -> Forall (fun a => url_safe a = true) (b64_encode bytes).
Proof.
  induction bytes as [|x|x y|x y z r IH] using triple_ind; intros Hb; cbn [b64_encode];
    repeat (apply Forall_cons in Hb as [? Hb]);
    repeat (apply Forall_cons; split; [apply b64_char_ok; Z.div_mod_to_equations; lia|]); auto.
Qed.

Lemma char_code_byte a : byte (char_code a).
Proof. unfold char_code. pose proof (Ascii.nat_ascii_bounded a). lia. Qed.

Lemma bytes_of_byte s : Forall byte (bytes_of s).
Proof. unfold bytes_of. apply Forall_map, Forall_forall. intros a _. apply char_code_byte. Qed.

Lemma chr_bytes s : map chr (bytes_of s) = String.list_ascii_of_string s.
Proof.
  unfold bytes_of. rewrite map_map. rewrite <- (map_id (String.list_ascii_of_string s)) at 2.
  apply map_ext. intros a. unfold chr, byte_of, char_code. rewrite Nat2Z.id.
  apply Ascii.ascii_nat_embedding.
Qed.

Lemma utf8_ascii l n : Forall (fun b => b < 128) l -> (length l <= n)%nat -> utf8_valid n l = true.
Proof.
  intros Hl. revert n. induction Hl as [|b l Hb _ IH]; intros n Hn; [by destruct n|].
  destruct n as [|n]; simpl in *; [lia|]. rewrite (proj2 (Z.ltb_lt _ _)) by done. apply IH. lia.
Qed.

Lemma partition_bar_app l r : Forall (fun a => char_code a <> 124) l ->
  partition_bar (l ++ chr 124 :: r) = (l, true, r).
Proof.
  induction 1 as [|a l Ha _ IH]; simpl; [done|]. by rewrite (proj2 (Z.eqb_neq _ _) Ha), IH.
Qed.

Lemma list_ascii_app s t : String.list_ascii_of_string (s +:+ t) =
  String.list_ascii_of_string s ++ String.list_ascii_of_string t.
Proof. induction s as [|a s IH]; simpl; [done|]. by rewrite IH. Qed.

Definition ascii_only (s : string) : Prop :=
  Forall (fun a => char_code a < 128) (String.list_ascii_of_string s).

Lemma cursor_reads_back t cid :
  datetime_ok (utc t) -> ascii_only cid -> cid <> EmptyString ->
  let cursor := _encode_cursor t cid in
  parse_history_cursor (Some cursor) = Ok (Some (t, cid)) /\
  Forall (fun a => url_safe a = true) (String.list_ascii_of_string cursor).
Proof.
  intros Ht Hc Hne cursor. pose proof (fromisoformat_isoformat (utc t) Ht) as Hiso.
  assert (Hbar : Forall (fun a => char_code a <> 124) (String.list_ascii_of_string (isoformat (utc t)))).
  { eapply Forall_impl; [apply safe_isoformat|]. intros a Ha. unfold safe_char in Ha. simpl in *. lia. }
  assert (Hi : ascii_only (isoformat (utc t))).
  { eapply Forall_impl; [apply safe_isoformat|]. intros a Ha. unfold safe_char in Ha. simpl in *. lia. }
  set (raw := (isoformat (utc t) +:+ "|" +:+ cid)%string).
  assert (Hl : String.list_ascii_of_string cursor = b64_encode (bytes_of raw))
    by apply String.list_ascii_of_string_of_list_ascii.
  split; [|rewrite Hl; apply b64_url_safe, bytes_of_byte].
  assert (Hraw : String.list_ascii_of_string raw =
    String.list_ascii_of_string (isoformat (utc t)) ++ chr 124 :: String.list_ascii_of_string cid)
    by (unfold raw; by rewrite list_ascii_app).
  assert (Hnil : cursor <> EmptyString).
  { intros E. rewrite E in Hl. simpl in Hl. apply (f_equal (fun l => b64_decode l)) in Hl.
    rewrite b64_roundtrip in Hl by apply bytes_of_byte. unfold bytes_of in Hl. rewrite Hraw in Hl.
    rewrite map_app in Hl. injection Hl as Hl. by apply (f_equal length) in Hl; rewrite length_app in Hl; simpl in Hl; lia. }
  unfold parse_history_cursor. destruct cursor as [|c0 c1] eqn:Ec; [done|]. rewrite <- Ec in *.
  rewrite Hl, b64_roundtrip by apply bytes_of_byte.
  rewrite utf8_ascii; [|unfold bytes_of; apply Forall_map; rewrite Hraw; apply Forall_app;
    split; [exact Hi|constructor; [done|exact Hc]]|done].
  simpl. rewrite chr_bytes, Hraw, partition_bar_app by done.
  rewrite !String.string_of_list_ascii_of_string, Hiso.
  rewrite bool_decide_false; [done|]. by destruct cid.
Qed.

(** the history cursor survives the trip to the client and back.  The cursor
    the engine hands out for an order's creation time and id is made of URL-safe
    characters only, so no query string alters it, and reading it back gives that
    very time and id, to the microsecond, whatever the length of the text (the
    padding taken off is put back). *)
Theorem cursor_roundtrip t cid :
  datetime_ok (utc t) -> ascii_only cid -> cid <> EmptyString ->
  let cursor := _encode_cursor t cid in
  parse_history_cursor (Some cursor) = Ok (Some (t, cid)) /\
  Forall (fun a => url_safe a = true) (String.list_ascii_of_string cursor).
Proof. apply cursor_reads_back. Qed.

Lemma cursor_roundtrip_witness :
  parse_history_cursor (Some (_encode_cursor 1788169261000001 "c1")) = Ok (Some (1788169261000001, "c1"%string)).
Proof.
  apply (cursor_roundtrip 1788169261000001 "c1"); [|unfold ascii_only; apply (bool_decide_unpack _); vm_compute; exact I|discriminate].
  split; vm_compute; repeat split; intros [=].
Defined.
