(* ===== verification/Routes.v ===== *)
(** * Routes: the HTTP handlers and the route table
    ([api/routes.py], [api/schemas.py], [api/audit.py], [api/main.py])

    A handler is its guard followed by its body over the request's router; a reply
    is a status and the value whose dump is the body.  The app is its routes in
    registration order; the first that matches method and path serves. *)

From S2P Require Import Prelude Decimals Contracts StateMachine Events Store StoreInv StoreProps Config Cache Adapters Gates HandleRecovery Router OrderBook BookService PyTime PyIso Fees Runtime Api Cursor.
From stdpp Require Import base gmap strings list sorting relations.
From Stdlib Require Import ZArith Lia.
Open Scope Z_scope.

(** ** schemas.py *)

Record AmendOrderRequest := {
  am_new_price : option Decimal;
  am_new_qty : option Z;
  am_new_client_order_id : option string;
}.

(** The validators: a positive quantity, a positive price that was not a float, a
    UUIDv4 id when one is given, and at least one change.  [uuid_version] is the
    version of a parsed [uuid.UUID], [None] when it does not parse. *)
Definition AmendOrderRequest_new (uuid_version : string -> option Z) (price_was_float : bool)
    (new_price : option Decimal) (new_qty : option Z) (new_client_order_id : option string)
    : result exn AmendOrderRequest :=
  if price_was_float then Err ValidationError
  else if match new_price with Some p => negb (dec_gtb p dec_zero) | None => false end
  then Err ValidationError
  else if match new_qty with Some q => q <=? 0 | None => false end then Err ValidationError
  else if match new_client_order_id with
          | Some c => negb (bool_decide (uuid_version c = Some 4))
          | None => false
          end
  then Err ValidationError
  else match new_price, new_qty with
       | None, None => Err ValidationError
       | _, _ => Ok {| am_new_price := new_price; am_new_qty := new_qty;
                       am_new_client_order_id := new_client_order_id |}
       end.

Record BrokerRuntimeHealth := { bh_breaker_state : BreakerState.t; bh_session_healthy : option bool }.

Record OrderBookHealth (Source : Type) := {
  oh_active_provider : Source;
  oh_providers : list Source;
  oh_cached_symbols : Z;
  oh_subscribers : Z;
}.
Arguments Build_OrderBookHealth {Source}.

Record HealthResponse (Source : Type) := {
  hr_version : string;
  hr_stage : Stage.t;
  hr_public_mode : bool;
  hr_brokers : option (list (string * BrokerRuntimeHealth));
  hr_order_book : option (OrderBookHealth Source);
}.
Arguments Build_HealthResponse {Source}.

Record CapabilitiesResponse := {
  cr_stage : Stage.t;
  cr_capabilities : list CapabilitySet;
  cr_brokers : option (list (string * BrokerRuntimeHealth));
}.

Record KillSwitchEngageResponse := {
  ke_engaged : bool;
  ke_already_engaged : bool;
  ke_cancelled_count : Z;
  ke_cancelled : list string;
  ke_failed : list string;
}.

Record Reply (A : Type) := { rp_status : Z; rp_body : A }.
Arguments rp_status {A}.
Arguments rp_body {A}.
Definition reply {A} (status : Z) (body : A) : Reply A := {| rp_status := status; rp_body := body |}.

(** ** routes.py *)

Definition _routable_now {A B} (rs : Runtimes A B) (broker : Broker) : bool :=
  match broker with
  | SIM => true
  | LIBERATOR => bool_decide (is_Some (rn_liberator rs))
  | STREAMING_PRO => bool_decide (is_Some (rn_streaming_pro rs))
  end.

(** Per configured broker; [None] when there is none. *)
Definition _broker_runtime_health {A B} (rs : Runtimes A B) (lib sp : BrokerRuntimeHealth)
    : option (list (string * BrokerRuntimeHealth)) :=
  match (match rn_liberator rs with Some _ => [("liberator"%string, lib)] | None => [] end) ++
        (match rn_streaming_pro rs with Some _ => [("streaming_pro"%string, sp)] | None => [] end) with
  | [] => None
  | l => Some l
  end.

Definition cached_symbol_count {Source} `{Countable Source} (s : ServiceState Source) : Z := Z.of_nat (length (sv_cache s)).
Definition subscriber_count {Source} `{Countable Source} (s : ServiceState Source) : Z :=
  map_fold (fun _ queues n => Z.of_nat (length queues) + n) 0 (sv_subscribers s).

(** The service and the provider router are created and closed together. *)
Definition _order_book_health {Source} `{Countable Source}
    (service : option (ServiceConfig Source * ServiceState Source))
    : option (OrderBookHealth Source) :=
  match service with
  | None => None
  | Some (cfg, s) =>
      Some {| oh_active_provider := pr_active s; oh_providers := sc_providers cfg;
              oh_cached_symbols := cached_symbol_count s; oh_subscribers := subscriber_count s |}
  end.

Definition health {A B Source} `{Countable Source} (version : string) (settings : Settings)
    (rs : Runtimes A B) (lib sp : BrokerRuntimeHealth)
    (service : option (ServiceConfig Source * ServiceState Source)) : HealthResponse Source :=
  {| hr_version := version; hr_stage := s_stage settings; hr_public_mode := s_public_mode settings;
     hr_brokers := _broker_runtime_health rs lib sp;
     hr_order_book := _order_book_health service |}.

(** The rows of the matrix, with what this deployment can route. *)
Definition installed_rows {A B} (rs : Runtimes A B) : list CapabilitySet :=
  map (fun row => {| cap_broker := cap_broker row; cap_market := cap_market row;
                     cap_order_types := cap_order_types row; cap_tifs := cap_tifs row;
                     cap_position_effects := cap_position_effects row; cap_amend := cap_amend row;
                     cap_adapter_installed := _routable_now rs (cap_broker row) |})
    CAPABILITY_MATRIX.

Definition capabilities {A B} (request : Headers) (settings : Settings) (rs : Runtimes A B)
    (lib sp : BrokerRuntimeHealth) : result exn CapabilitiesResponse :=
  match require_api_key request settings with
  | Err e => Err e
  | Ok _ => Ok {| cr_stage := s_stage settings; cr_capabilities := installed_rows rs;
                  cr_brokers := _broker_runtime_health rs lib sp |}
  end.

(** A missing bound takes the default, a naive one is refused. *)
Definition _aware (value : option PyDatetime) (dflt : PyDatetime) : result exn PyDatetime :=
  match value with
  | None => Ok dflt
  | Some (Aware t o) => Ok (Aware t o)
  | Some (Naive _) => Err (HTTPException 422)
  end.

Section handlers.
Context {R V : Type} `{RedisOps R} `{OrdersSchema}.
Abbreviation M := (M exn (world R V)).
Context (rt : OrderRouter R V) (request : Headers).
Abbreviation settings := (rt_settings rt).

Definition writes {A} (body : M A) : M A := lift_result (order_write_guard request settings) ;;; body.
Definition reads {A} (body : M A) : M A := lift_result (account_read_guard request settings) ;;; body.

Definition submit_order (order : NormalizedOrder)
    : M (Reply (NormalizedOrderResult * HandleResolution.t)) :=
  writes (
    let* strategy_id := lift_result (get_strategy_id request) in
    let* outcome := submit rt order strategy_id in
    ret (reply (if so_duplicate outcome then 200 else 201)
           (so_result outcome, so_resolution outcome))).

Definition get_order (client_order_id : string) : M (Reply NormalizedOrderResult) :=
  lift_result (require_api_key request settings) ;;;
  let* result := Router.get client_order_id in ret (reply 200 result).

Definition get_account_route (account : string) (broker : Broker) : M (Reply AccountInfo) :=
  reads (let* info := get_account rt broker account in ret (reply 200 info)).
Definition get_positions_route (account : string) (broker : Broker) : M (Reply (list Position)) :=
  reads (let* positions := get_positions rt broker account in ret (reply 200 positions)).
Definition get_open_orders_route (account : string) (broker : Broker)
    : M (Reply (list NormalizedOrder)) :=
  reads (let* orders := get_open_orders rt broker account in ret (reply 200 orders)).
Definition get_venue_orders_route (account : string) (broker : Broker)
    : M (Reply (list VenueOrderView)) :=
  reads (let* views := get_venue_orders rt broker account in ret (reply 200 views)).

Definition cancel_order (client_order_id : string) : M (Reply NormalizedOrderResult) :=
  writes (let* result := Router.cancel rt client_order_id in ret (reply 200 result)).

Definition amend_order (client_order_id : string) (body : AmendOrderRequest)
    : M (Reply NormalizedOrderResult) :=
  writes (
    let* outcome := amend rt client_order_id (am_new_client_order_id body) (am_new_price body)
                      (am_new_qty body) in
    ret (reply 200 (so_result outcome))).

(** *** Kill switch *)

Definition kill_switch_state : M (Reply (bool * option KillSource)) :=
  writes (let* s := ks_status settings (rt_redis rt) in ret (reply 200 s)).

Definition kill_switch_engage : M (Reply KillSwitchEngageResponse) :=
  writes (
    let* (engaged, _) := ks_status settings (rt_redis rt) in
    if engaged : bool
    then ret (reply 200 {| ke_engaged := true; ke_already_engaged := true; ke_cancelled_count := 0;
                           ke_cancelled := []; ke_failed := [] |})
    else
      catch (engage (rt_redis rt))
        (fun e => match e with CacheError => raise (HTTPException 503) | e => raise e end) ;;;
      let* (cancelled, failed) := mass_cancel rt in
      ret (reply 200 {| ke_engaged := true; ke_already_engaged := false;
                        ke_cancelled_count := Z.of_nat (length cancelled);
                        ke_cancelled := cancelled; ke_failed := failed |})).

Definition kill_switch_disengage : M (Reply (bool * option KillSource)) :=
  writes (
    let* (engaged, _) := ks_status settings (rt_redis rt) in
    if negb engaged then raise KillSwitchNotEngagedError
    else
      disengage settings (rt_redis rt) ;;;
      let* s := ks_status settings (rt_redis rt) in ret (reply 200 s)).

(** *** Order history *)

Section history_route.
Context (cid_le : relation string) `{!forall a b, Decision (cid_le a b)}.

(** Every fill of the given orders, by order, in execution order. *)
Definition fetch_fills_for_orders (cids : list string) (d : db) : list (string * list FillRow) :=
  map (fun cid => (cid, sort_by fr_exec_ts (fills_of cid d))) cids.

(** [SELECT min(created_at)] *)
Definition fetch_first_order_at (d : db) : option Z :=
  match map (fun kv => or_created_at kv.2) (map_to_list (db_orders d)) with
  | [] => None
  | t :: ts => Some (fold_left Z.min ts t)
  end.

(** [OrderRouter.get_order_history]: the adapter is resolved and not used. *)
Definition router_order_history (broker : Broker) (account : string) (since until : Z)
    (before : option (Z * string)) (limit : nat)
    : M (list OrderResultRow * list (string * list FillRow) * option Z) :=
  let* _ := route rt broker account AdapterIntent.READ in
  gets (fun w =>
    let rows := fetch_account_orders cid_le account broker since until before limit (w_db w) in
    (rows, fetch_fills_for_orders (map (or_client_order_id ∘ rr_row) rows) (w_db w),
     fetch_first_order_at (w_db w))).

Record HistoryBody := {
  hb_complete_since : option Z;
  hb_since : PyDatetime;
  hb_until : PyDatetime;
  hb_orders : list (OrderResultRow * PublicOrderStatus.t * list FillRow);
  hb_next_cursor : option string;
}.

(** One order of the page: its row, public status and fills. *)
Definition history_entry (fills : list (string * list FillRow)) (row : OrderResultRow)
    : result exn (OrderResultRow * PublicOrderStatus.t * list FillRow) :=
  match to_public_status (or_status (rr_row row)) (rr_filled_qty row) with
  | None => Err (ValueError "PublicOrderStatus")
  | Some s => Ok (row, s, default [] (str_assoc (or_client_order_id (rr_row row)) fills))
  end.

Definition get_order_history_route (account : string) (broker : Broker) (since until : option PyDatetime)
    (limit : Z) (cursor : option string) : M (Reply HistoryBody) :=
  reads (
    if (limit <? 1) || (500 <? limit) then raise (HTTPException 422)
    else
    let* now := gets w_now in
    let* lo := lift_result (_aware since (utc 0)) in
    let* hi := lift_result (_aware until (utc now)) in
    let* before := lift_result (parse_history_cursor cursor) in
    let* (rows, fills, first_at) :=
      router_order_history broker account (as_utc lo) (as_utc hi) before (Z.to_nat limit + 1) in
    let page := take (Z.to_nat limit) rows in
    let* orders := lift_result (traverse (history_entry fills) page) in
    let last_row := if (Z.to_nat limit <? length rows)%nat then last page else None in
    ret (reply 200 {| hb_complete_since := first_at; hb_since := lo; hb_until := hi;
                      hb_orders := orders;
                      hb_next_cursor := (fun r => _encode_cursor (or_created_at (rr_row r))
                                            (or_client_order_id (rr_row r))) <$> last_row |})).
End history_route.
End handlers.

(** ** The route table *)

Inductive Handler :=
  | HOrderBookSnapshot | HOrderBookStream | HOrderStream                      (* streams.py *)
  | HAuditExport | HOrderAudit                                                (* audit.py *)
  | HHealth | HCapabilities | HSubmitOrder | HGetOrder | HGetAccount | HGetPositions
  | HGetOpenOrders | HGetOrderHistory | HGetVenueOrders | HCancelOrder | HAmendOrder
  | HKillSwitchState | HKillSwitchEngage | HKillSwitchDisengage.              (* routes.py *)

#[global] Instance Handler_eq_dec : EqDecision Handler.
Proof. solve_decision. Defined.

(** A segment of a path template. *)
Inductive Seg := Lit (s : string) | Param (name : string).
#[global] Instance Seg_eq_dec : EqDecision Seg.
Proof. solve_decision. Defined.

Inductive Guard := Public | ApiKey | ApiKeyOwner | ReadKeyOwner.

Definition guard_of (g : Guard) (request : Headers) (settings : Settings) : result exn unit :=
  match g with
  | Public => Ok tt
  | ApiKey => require_api_key request settings
  | ApiKeyOwner => order_write_guard request settings
  | ReadKeyOwner => account_read_guard request settings
  end.

Record Route := {
  ro_method : string;
  ro_path : list Seg;
  ro_guard : Guard;
  ro_handler : Handler;
}.
Definition mk_route (m : string) (p : list Seg) (g : Guard) (h : Handler) : Route :=
  {| ro_method := m; ro_path := p; ro_guard := g; ro_handler := h |}.

Definition streams_router : list Route := [
  mk_route "GET" [Lit "order-book"; Param "symbol"] ApiKey HOrderBookSnapshot;
  mk_route "GET" [Lit "order-book"; Param "symbol"; Lit "stream"] ApiKey HOrderBookStream;
  mk_route "GET" [Lit "orders"; Lit "stream"] ApiKey HOrderStream ]%string.

Definition audit_router : list Route := [
  mk_route "GET" [Lit "admin"; Lit "audit"; Lit "export"] ApiKeyOwner HAuditExport;
  mk_route "GET" [Lit "admin"; Lit "orders"; Param "client_order_id"; Lit "audit"] ApiKeyOwner HOrderAudit ]%string.

Definition core_router : list Route := [
  mk_route "GET" [Lit "health"] Public HHealth;
  mk_route "GET" [Lit "capabilities"] ApiKey HCapabilities;
  mk_route "POST" [Lit "orders"] ApiKeyOwner HSubmitOrder;
  mk_route "GET" [Lit "orders"; Param "client_order_id"] ApiKey HGetOrder;
  mk_route "GET" [Lit "accounts"; Param "account"] ReadKeyOwner HGetAccount;
  mk_route "GET" [Lit "accounts"; Param "account"; Lit "positions"] ReadKeyOwner HGetPositions;
  mk_route "GET" [Lit "accounts"; Param "account"; Lit "open-orders"] ReadKeyOwner HGetOpenOrders;
  mk_route "GET" [Lit "accounts"; Param "account"; Lit "orders"] ReadKeyOwner HGetOrderHistory;
  mk_route "GET" [Lit "accounts"; Param "account"; Lit "venue-orders"] ReadKeyOwner HGetVenueOrders;
  mk_route "DELETE" [Lit "orders"; Param "client_order_id"] ApiKeyOwner HCancelOrder;
  mk_route "PATCH" [Lit "orders"; Param "client_order_id"] ApiKeyOwner HAmendOrder;
  mk_route "GET" [Lit "admin"; Lit "kill-switch"] ApiKeyOwner HKillSwitchState;
  mk_route "POST" [Lit "admin"; Lit "kill-switch"; Lit "engage"] ApiKeyOwner HKillSwitchEngage;
  mk_route "POST" [Lit "admin"; Lit "kill-switch"; Lit "disengage"] ApiKeyOwner HKillSwitchDisengage ]%string.

Definition READ_KEY_ROUTES : list (string * list Seg) :=
  [("GET", [Lit "accounts"; Param "account"]);
   ("GET", [Lit "accounts"; Param "account"; Lit "positions"]);
   ("GET", [Lit "accounts"; Param "account"; Lit "open-orders"]);
   ("GET", [Lit "accounts"; Param "account"; Lit "orders"]);
   ("GET", [Lit "accounts"; Param "account"; Lit "venue-orders"])]%string.

Definition GATEWAY_PROXY_PREFIX : list Seg :=
  [Lit "api"; Lit "v2"; Lit "engines"; Lit "execution"]%string.
Definition ALIAS_EXCLUDED_PREFIX : string := "admin".

(** [route.path == "/admin" or route.path.startswith("/admin/")] *)
Definition excluded (r : Route) : bool :=
  match ro_path r with
  | Lit s :: _ => String.eqb s ALIAS_EXCLUDED_PREFIX
  | _ => false
  end.

Definition _gateway_alias_router : list Route :=
  List.filter (fun r => negb (excluded r)) (streams_router ++ core_router).

Definition with_prefix (prefix : list Seg) (r : Route) : Route :=
  {| ro_method := ro_method r; ro_path := prefix ++ ro_path r; ro_guard := ro_guard r;
     ro_handler := ro_handler r |}.

(** [create_app]: streams, audit, core, then the alias. *)
Definition native_routes : list Route := streams_router ++ audit_router ++ core_router.
Definition create_app : list Route :=
  native_routes ++ map (with_prefix GATEWAY_PROXY_PREFIX) _gateway_alias_router.

(** A parameter matches one non-empty segment. *)
Fixpoint path_matches (template : list Seg) (path : list string) : bool :=
  match template, path with
  | [], [] => true
  | Lit s :: t, x :: p => String.eqb s x && path_matches t p
  | Param _ :: t, x :: p => negb (String.eqb x "") && path_matches t p
  | _, _ => false
  end.

Definition dispatch (routes : list Route) (method : string) (path : list string) : option Route :=
  List.find (fun r => String.eqb (ro_method r) method && path_matches (ro_path r) path) routes.
