(* ===== verification/RoutesProps.v ===== *)
(** * RoutesProps: what the HTTP surface guarantees *)

From S2P Require Import Prelude Decimals Contracts StateMachine Events Store StoreInv StoreProps Config Cache Adapters Gates HandleRecovery Router RouterProps CancelAmend SimLifecycle RouterExamples OrderBook BookService PyTime PyIso Fees Runtime Api Cursor Routes.
From stdpp Require Import base gmap strings list sorting relations.
From Stdlib Require Import ZArith Lia.
Open Scope Z_scope.

(** ** The route table *)

Definition gateway_path : list string := ["api"; "v2"; "engines"; "execution"]%string.

(** Every native route starts with a literal that is not the gateway's. *)
Definition first_lit (r : Route) : option string :=
  match ro_path r with Lit s :: _ => Some s | _ => None end.

Lemma native_first r : r ∈ native_routes ->
  exists s, first_lit r = Some s /\ s <> "api"%string /\ (excluded r = true <-> s = "admin"%string).
Proof.
  intros Hr. assert (Hall : Forall (fun r => exists s, first_lit r = Some s /\ s <> "api"%string /\
    (excluded r = true <-> s = "admin"%string)) native_routes).
  { repeat (constructor; [eexists; split; [reflexivity|]; split; [discriminate|]; simpl;
      split; intros; done|]). constructor. }
  rewrite Forall_forall in Hall. auto.
Qed.

Lemma matches_first r s p : first_lit r = Some s -> path_matches (ro_path r) p = true ->
  exists p', p = s :: p'.
Proof.
  unfold first_lit. destruct (ro_path r) as [|[x|x] t]; try done. intros [= ->].
  destruct p as [|y p]; simpl; [done|]. rewrite andb_true_iff, String.eqb_eq. intros [-> _]. eauto.
Qed.

Lemma path_matches_prefix p t :
  path_matches (GATEWAY_PROXY_PREFIX ++ t) (gateway_path ++ p) = path_matches t p.
Proof. reflexivity. Qed.

Lemma find_none {A} (f : A -> bool) l : (forall x, x ∈ l -> f x = false) -> List.find f l = None.
Proof.
  induction l as [|x l IH]; simpl; intros Hf; [done|]. rewrite (Hf x) by set_solver.
  apply IH. intros y Hy. apply Hf. set_solver.
Qed.

Lemma find_app {A} (f : A -> bool) l k :
  List.find f (l ++ k) = match List.find f l with Some x => Some x | None => List.find f k end.
Proof. induction l as [|x l IH]; simpl; [done|]. by destruct (f x). Qed.

Lemma find_filter_neg {A} (f g : A -> bool) l :
  (forall x, x ∈ l -> g x = false -> f x = false) -> List.find f (List.filter g l) = List.find f l.
Proof.
  induction l as [|x l IH]; simpl; intros Hf; [done|]. destruct (g x) eqn:Hg; simpl.
  - destruct (f x); [done|]. apply IH. set_solver.
  - rewrite (Hf x) by (done || set_solver). apply IH. set_solver.
Qed.

Lemma find_map_prefix m p l :
  List.find (fun r => String.eqb (ro_method r) m && path_matches (ro_path r) (gateway_path ++ p))
    (map (with_prefix GATEWAY_PROXY_PREFIX) l) =
  with_prefix GATEWAY_PROXY_PREFIX <$>
    List.find (fun r => String.eqb (ro_method r) m && path_matches (ro_path r) p) l.
Proof.
  induction l as [|r l IH]; [done|]. cbn [map List.find].
  change (ro_method (with_prefix GATEWAY_PROXY_PREFIX r)) with (ro_method r).
  change (ro_path (with_prefix GATEWAY_PROXY_PREFIX r)) with (GATEWAY_PROXY_PREFIX ++ ro_path r).
  rewrite path_matches_prefix. by destruct (_ && _).
Qed.

(** the gateway alias is the native surface without the admin routes.  A request
    under the gateway's prefix is served by exactly the route that serves the same
    path without it, behind the same guard, and by none when that route is an
    admin route; and natively the literal order stream outranks the route of a
    single order, which serves every other id. *)
Theorem alias_is_native m p :
  dispatch create_app m (gateway_path ++ p) =
    match dispatch native_routes m p with
    | Some r => if excluded r then None else Some (with_prefix GATEWAY_PROXY_PREFIX r)
    | None => None
    end /\
  (ro_handler <$> dispatch create_app "GET" ["orders"; "stream"]%string = Some HOrderStream) /\
  (forall cid, cid <> ""%string -> cid <> "stream"%string ->
     ro_handler <$> dispatch create_app "GET" ["orders"%string; cid] = Some HGetOrder).
Proof.
  split; [|split; [reflexivity|]].
  - unfold dispatch at 1, create_app. rewrite find_app, find_none, find_map_prefix.
    2:{ intros r Hr. destruct (native_first r Hr) as (s & Hs & Hne & _). apply andb_false_iff. right.
        apply not_true_is_false. intros Hm. destruct (matches_first _ _ _ Hs Hm) as [p' Hp].
        simpl in Hp. congruence. }
    change _gateway_alias_router with (List.filter (fun r => negb (excluded r)) native_routes).
    destruct (decide (head p = Some "admin"%string)) as [Ha|Ha].
    + rewrite find_none.
      * unfold dispatch. destruct (List.find _ native_routes) as [r|] eqn:Hr; [|done].
        apply List.find_some in Hr as [Hin Hm]. apply andb_true_iff in Hm as [_ Hm].
        destruct (native_first r) as (s & Hs & _ & Hex); [by apply list_elem_of_In|].
        destruct (matches_first _ _ _ Hs Hm) as [p' ->]. simpl in Ha. simplify_eq.
        by rewrite (proj2 Hex eq_refl).
      * intros r Hr. apply list_elem_of_In, filter_In in Hr as [Hin Hex].
        apply negb_true_iff in Hex. apply andb_false_iff. right. apply not_true_is_false. intros Hm.
        destruct (native_first r) as (s & Hs & _ & Hx); [by apply list_elem_of_In|].
        destruct (matches_first _ _ _ Hs Hm) as [p' ->]. simpl in Ha. simplify_eq.
        by rewrite (proj2 Hx eq_refl) in Hex.
    + rewrite find_filter_neg.
      * unfold dispatch. destruct (List.find _ native_routes) as [r|] eqn:Hr; [|done]. simpl.
        apply List.find_some in Hr as [Hin Hm]. apply andb_true_iff in Hm as [_ Hm].
        destruct (native_first r) as (s & Hs & _ & Hex); [by apply list_elem_of_In|].
        destruct (excluded r); [|done]. rewrite (proj1 Hex eq_refl) in Hs.
        by destruct (matches_first _ _ _ Hs Hm) as [p' ->].
      * intros r Hin Hex. apply negb_false_iff in Hex. apply andb_false_iff. right.
        apply not_true_is_false. intros Hm. destruct (native_first r Hin) as (s & Hs & _ & Hx).
        rewrite (proj1 Hx Hex) in Hs. by destruct (matches_first _ _ _ Hs Hm) as [p' ->].
  - intros cid He Hs.
    assert (E1 : path_matches [Lit "orders"; Lit "stream"] ["orders"%string; cid] = false).
    { cbn [path_matches]. rewrite (proj2 (String.eqb_neq "stream" cid)) by congruence. reflexivity. }
    assert (E2 : path_matches [Lit "orders"; Param "client_order_id"] ["orders"%string; cid] = true).
    { cbn [path_matches]. rewrite (proj2 (String.eqb_neq cid "")) by done. reflexivity. }
    unfold dispatch, create_app, native_routes, streams_router, audit_router, core_router.
    cbn [app List.find mk_route ro_method ro_path]. rewrite E1, E2. reflexivity.
Qed.

(** ** Who may call what *)

(** The account reads, natively or under the alias. *)
Definition read_key_route (r : Route) : bool :=
  memb (ro_method r, ro_path r) READ_KEY_ROUTES ||
  memb (ro_method r, ro_path r) (map (fun mp => (mp.1, GATEWAY_PROXY_PREFIX ++ mp.2)) READ_KEY_ROUTES).

Lemma guards_by_route r : r ∈ create_app ->
  match ro_guard r with
  | Public => ro_handler r = HHealth
  | ReadKeyOwner => read_key_route r = true
  | ApiKey | ApiKeyOwner => read_key_route r = false
  end.
Proof.
  assert (Hall : forallb (fun r => match ro_guard r with
    | Public => bool_decide (ro_handler r = HHealth)
    | ReadKeyOwner => read_key_route r
    | ApiKey | ApiKeyOwner => negb (read_key_route r) end) create_app = true) by reflexivity.
  intros Hr. rewrite List.forallb_forall in Hall. apply list_elem_of_In in Hr.
  specialize (Hall r Hr). destruct (ro_guard r); rewrite ?negb_true_iff in Hall; try done.
  by apply bool_decide_eq_true in Hall.
Qed.

Lemma key_guard request s key :
  s_api_key s <> None -> request "X-API-Key"%string = Some key ->
  Some key <> s_api_key s -> require_api_key request s <> Ok tt.
Proof.
  intros Hk Hr Hne. unfold require_api_key. rewrite Hr. simpl.
  destruct (s_api_key s) as [k|]; [|done]. rewrite (proj2 (String.eqb_neq key k)) by congruence.
  by destruct (_is_read_key key s).
Qed.

(** C24: the read key reads accounts and nothing else.  On a node with a full key, a
    request that presents any other key and still passes the guard of the route
    that serves it either asks for the health probe or presents the configured
    read key to one of the five account reads (natively or through the gateway
    alias), in owner mode; every order write, amend, cancel, kill-switch and
    audit route refuses it. *)
Theorem read_key_scope m p r request s key :
  s_api_key s <> None -> request "X-API-Key"%string = Some key -> Some key <> s_api_key s ->
  dispatch create_app m p = Some r -> guard_of (ro_guard r) request s = Ok tt ->
  ro_handler r = HHealth \/
  (read_key_route r = true /\ s_read_api_key s = Some key /\ s_public_mode s = false).
Proof.
  intros Hk Hr Hne Hd Hg. apply List.find_some in Hd as [Hin _].
  pose proof (guards_by_route r) as Hro. pose proof (key_guard request s key Hk Hr Hne) as Hno.
  rewrite list_elem_of_In in Hro. specialize (Hro Hin).
  destruct (ro_guard r); simpl in Hg; [by left|done| |].
  - unfold order_write_guard in Hg. by destruct (require_api_key request s) as [[]|].
  - right. split; [done|]. unfold account_read_guard, require_read_or_full_key, require_owner_mode in Hg.
    rewrite Hr in Hg. simpl in Hg. unfold _is_read_key in Hg.
    destruct (s_api_key s) as [k|]; [|done]. rewrite (proj2 (String.eqb_neq key k)) in Hg by congruence.
    simpl in Hg. destruct (s_read_api_key s) as [rk|]; [|done].
    destruct (String.eqb rk ""); [done|]. destruct (String.eqb rk k); [done|].
    destruct (String.eqb_spec key rk) as [->|]; [|done]. by destruct (s_public_mode s).
Qed.

(** ** The kill-switch route *)

Section kill_switch.
Context {R V : Type} `{RS : RedisSpec R} `{OrdersSchemaSpec}.
Abbreviation W := (world R V).

Lemma engage_db (w w2 : W) x redis : engage redis w = (x, w2) -> w_db w2 = w_db w.
Proof.
  unfold engage. destruct redis; simpl; [|by intros [= _ <-]]. unfold redis_call.
  destruct (redis_set _ _ _ _). by intros [= _ <-].
Qed.

Lemma ks_status_db s redis (w : W) :
  exists b src w1, ks_status s redis w = (Ok (b, src), w1) /\ w_db w1 = w_db w /\ w_now w1 = w_now w.
Proof.
  unfold ks_status. destruct (s_kill_switch_engaged s); [by eexists _, _, _|].
  destruct redis; [|by eexists _, _, _]. unfold bind, catch, redis_call, ret.
  destruct (redis_get _ _ _) as [[v|e] r]; [|by eexists _, _, _].
  case_bool_decide; by eexists _, _, _.
Qed.

(** C10: engaging the kill switch halts first and sweeps second.  An authorised
    engage of a switch that reads engaged answers so and touches nothing.
    Otherwise it trips the switch before any cancel is sent: in the world the
    sweep starts from, every submit at any later time is refused as long as Redis
    answers.  Then it sweeps: every order resting at that moment is reported
    exactly once as cancelled or failed, the count is the number cancelled, and
    each of those is CANCELLED in the store.  When the trip cannot be recorded
    nothing is swept and the store is untouched (503 without Redis). *)
Theorem kill_switch_engage_halts_then_sweeps (rt : OrderRouter R V) request (w : W) :
  router_ok rt -> db_wf (w_db w) -> order_write_guard request (rt_settings rt) = Ok tt ->
  exists engaged src w1, ks_status (rt_settings rt) (rt_redis rt) w = (Ok (engaged, src), w1) /\
    w_db w1 = w_db w /\
    if engaged : bool then
      kill_switch_engage rt request w =
        (Ok (reply 200 {| ke_engaged := true; ke_already_engaged := true; ke_cancelled_count := 0;
                          ke_cancelled := []; ke_failed := [] |}), w1)
    else
      match engage (rt_redis rt) w1 with
      | (Ok _, w2) =>
          w_db w2 = w_db w /\
          (forall t v r o s, w_now w <= t -> redis_get t KILL_SWITCH_KEY (w_redis w2) = (Ok v, r) ->
             (submit rt o s (set_now t w2)).1 = Err KillSwitchEngagedError) /\
          exists cancelled failed w3,
            kill_switch_engage rt request w =
              (Ok (reply 200 {| ke_engaged := true; ke_already_engaged := false;
                                ke_cancelled_count := Z.of_nat (length cancelled);
                                ke_cancelled := cancelled; ke_failed := failed |}), w3) /\
            mass_cancel rt w2 = (Ok (cancelled, failed), w3) /\
            cancelled ++ failed ≡ₚ map or_client_order_id
              (select_orders (fun r => memb (or_status r) [OrderState.NEW; OrderState.PARTIALLY_FILLED])
                 (w_db w)) /\
            (forall c, c ∈ cancelled -> in_state c OrderState.CANCELLED (w_db w3))
      | (Err e, w2) =>
          w_db w2 = w_db w /\
          kill_switch_engage rt request w =
            (Err (match e with CacheError => HTTPException 503 | e => e end), w2)
      end.
Proof.
  intros Hrt Hw Hg. destruct (ks_status_db (rt_settings rt) (rt_redis rt) w) as (b & src & w1 & Hs & Hdb & Hnow).
  exists b, src, w1. split; [done|]. split; [done|].
  assert (Hrun : forall A (m : M exn W A), writes rt request m w = m w).
  { intros A m. unfold writes. rewrite Hg. done. }
  unfold kill_switch_engage. rewrite Hrun, (bind_ok _ _ _ _ _ Hs). destruct b; [done|].
  destruct (engage (rt_redis rt) w1) as [[u|e] w2] eqn:He.
  - pose proof (engage_db _ _ _ _ He) as Hdb2. rewrite Hdb in Hdb2. split; [done|]. split.
    + intros t v r o s Ht Hget. destruct u.
      destruct (rt_redis rt) eqn:Hred; [|unfold engage in He; done].
      pose proof (engaged_blocks (rt_settings rt) w1 w2 t v r He ltac:(lia) Hget) as Hblk.
      unfold submit, bind. rewrite Hred. destruct (assert_disengaged _ _ _) as [[x|x] wx]; simpl in Hblk; [done|].
      injection Hblk as ->. done.
    + rewrite <- Hdb2 in Hw. destruct (mass_cancel_sweeps rt Hrt w2 Hw) as (cs & fs & w3 & Hm & Hp & Hc).
      exists cs, fs, w3. rewrite Hdb2 in Hp. split; [|done]. unfold bind, catch. by rewrite He, Hm.
  - pose proof (engage_db _ _ _ _ He) as Hdb2. split; [congruence|].
    unfold bind, catch. rewrite He. by destruct e.
Qed.
End kill_switch.

(** ** The history route *)

Section history_route.
Context {R V : Type} `{RedisOps R} `{OrdersSchema}.
Abbreviation W := (world R V).
Context (cid_le : relation string) `{!forall a b, Decision (cid_le a b)}.

Abbreviation route_reply rt request :=
  (get_order_history_route rt request cid_le).
Abbreviation page_at := (history_page cid_le).

Lemma traverse_rows fills page orders :
  traverse (history_entry fills) page = Ok orders -> map (fun x => x.1.1) orders = page.
Proof.
  revert orders. induction page as [|r page IH]; simpl; intros orders Ht.
  - by injection Ht as <-.
  - unfold history_entry in Ht at 1. destruct (to_public_status _ _); [|done]. simpl in Ht.
    destruct (traverse (history_entry fills) page) as [os|]; [|done]. injection Ht as <-. simpl.
    by rewrite (IH os eq_refl).
Qed.

(** A bound that was accepted is accepted again. *)
Lemma _aware_again value t dflt lo : _aware value (utc t) = Ok lo -> _aware (Some lo) dflt = Ok lo.
Proof. destruct value as [[]|]; simpl; by intros [= <-]. Qed.

(** A served page is the store's page at the cursor the request carried. *)
Lemma history_served (rt : OrderRouter R V) request account broker since until limit cursor (w : W) body w' :
  route_reply rt request account broker since until limit cursor w = (Ok body, w') ->
  exists before, parse_history_cursor cursor = Ok before /\ w' = w /\ 1 <= limit <= 500 /\
    _aware since (utc 0) = Ok (hb_since (rp_body body)) /\
    _aware until (utc (w_now w)) = Ok (hb_until (rp_body body)) /\
    let '(page, next) := page_at account broker (as_utc (hb_since (rp_body body))) (as_utc (hb_until (rp_body body)))
                           before (Z.to_nat limit) (w_db w) in
    map (fun x => x.1.1) (hb_orders (rp_body body)) = page /\
    hb_next_cursor (rp_body body) = (fun k => _encode_cursor k.1 k.2) <$> next.
Proof.
  unfold get_order_history_route, reads, router_order_history, route. intros Hs.
  inv_ok Hs. unfold lift_result in Hm. injection Hm as _ <-.
  destruct ((limit <? 1) || (500 <? limit)) eqn:Hlim; [done|].
  apply orb_false_iff in Hlim as [Hl1%Z.ltb_ge Hl2%Z.ltb_ge].
  unfold bind, gets, lift_result, ret in Hs.
  destruct (_aware since (utc 0)) as [lo|] eqn:Hlo; [|done].
  destruct (_aware until (utc (w_now w))) as [hi|] eqn:Hhi; [|done].
  destruct (parse_history_cursor cursor) as [before|]; [|done].
  destruct (_resolve_adapter _ _ _ _ _ _ _) as [ad|]; [|done].
  exists before. split; [done|]. cbv zeta in Hs.
  destruct (traverse _ _) as [orders|] eqn:Ht; [|done]. injection Hs as <- <-.
  split; [done|]. split; [lia|]. split; [done|]. split; [done|].
  unfold history_page. simpl. split; [by eapply traverse_rows|].
  destruct (_ <? _)%nat; simpl; [|done]. by destruct (last _).
Qed.

(** A served response states the store's first order. *)
Lemma history_states_first (rt : OrderRouter R V) request account broker since until limit cursor (w : W) body w' :
  route_reply rt request account broker since until limit cursor w = (Ok body, w') ->
  hb_complete_since (rp_body body) = fetch_first_order_at (w_db w).
Proof.
  unfold get_order_history_route, reads, router_order_history, route. intros Hs.
  inv_ok Hs. unfold lift_result in Hm. injection Hm as _ <-. destruct (_ || _); [done|].
  unfold bind, gets, lift_result, ret in Hs.
  destruct (_aware since _); [|done]. destruct (_aware until _); [|done].
  destruct (parse_history_cursor cursor); [|done]. destruct (_resolve_adapter _ _ _ _ _ _ _); [|done].
  cbv zeta in Hs. destruct (traverse _ _); [|done]. by injection Hs as <- _.
Qed.

Lemma account_row account broker lo hi before limit d row :
  row ∈ fetch_account_orders cid_le account broker lo hi before limit d ->
  exists k, db_orders d !! k = Some (rr_row row).
Proof.
  unfold fetch_account_orders. intros (r & _ & Hr)%list_elem_of_omap.
  exists (or_client_order_id r). unfold order_result in Hr.
  destruct (db_orders d !! or_client_order_id r); simpl in Hr; [|done]. by simplify_eq.
Qed.

(** the cursor the history route hands out continues the page.  When a request
    was served with a next cursor, a request that passes it back (same window,
    any page size) is served the rows that follow the last one served, in the
    store's order: exactly the page of [history_page] at that row.  The limit is
    between 1 and 500 and serving changes nothing. *)
Theorem history_cursor_continues (rt : OrderRouter R V) request account broker since until limit limit'
    cursor c (w w1 : W) body body' w' :
  (forall k r, db_orders (w_db w) !! k = Some r -> datetime_ok (utc (or_created_at r)) /\
     ascii_only (or_client_order_id r) /\ or_client_order_id r <> EmptyString) ->
  route_reply rt request account broker since until limit cursor w = (Ok body, w1) ->
  hb_next_cursor (rp_body body) = Some c ->
  route_reply rt request account broker (Some (hb_since (rp_body body)))
    (Some (hb_until (rp_body body))) limit' (Some c) w1 = (Ok body', w') ->
  w1 = w /\ w' = w /\ exists last_row,
    last (map (fun x => x.1.1) (hb_orders (rp_body body))) = Some last_row /\
    map (fun x => x.1.1) (hb_orders (rp_body body')) =
      (page_at account broker (as_utc (hb_since (rp_body body))) (as_utc (hb_until (rp_body body)))
         (Some (row_key (rr_row last_row))) (Z.to_nat limit') (w_db w)).1.
Proof.
  intros Hids Hr1 Hc Hr2.
  destruct (history_served _ _ _ _ _ _ _ _ _ _ _ Hr1) as (b1 & _ & -> & _ & Hlo1 & Hhi1 & P1).
  destruct (history_served _ _ _ _ _ _ _ _ _ _ _ Hr2) as (b2 & Hb2 & -> & _ & Hlo & Hhi & P2).
  split; [done|]. split; [done|]. rewrite (_aware_again _ _ _ _ Hlo1) in Hlo.
  rewrite (_aware_again _ _ _ _ Hhi1) in Hhi. injection Hlo as Hlo. injection Hhi as Hhi.
  rewrite <- Hlo, <- Hhi in P2.
  destruct (page_at account broker _ _ b1 _ (w_db w)) as [page next] eqn:Hp.
  destruct P1 as [Hpage Hnext]. rewrite Hc in Hnext. destruct next as [k|]; [|done]. injection Hnext as ->.
  unfold history_page in Hp. injection Hp as Hpg Hnx. destruct (_ <? _)%nat; [|done].
  rewrite Hpg in Hnx. destruct (last page) as [row|] eqn:Hlast; [|done]. injection Hnx as <-.
  exists row. split; [by rewrite Hpage|].
  assert (Hrow : row ∈ page) by (by eapply last_Some_elem_of). rewrite <- Hpg in Hrow.
  apply elem_of_take in Hrow as (i & Hrow & _). apply list_elem_of_lookup_2, account_row in Hrow as [k Hk].
  destruct (Hids _ _ Hk) as (Hiso & Hasc & Hne).
  destruct (cursor_reads_back (or_created_at (rr_row row))
    (or_client_order_id (rr_row row))) as [Hread _]; try done.
  simpl in Hread. unfold row_key in Hb2. simpl in Hb2. rewrite Hread in Hb2. injection Hb2 as <-.
  unfold row_key. destruct (page_at account broker _ _ (Some _) _ (w_db w)) as [page2 next2].
  by destruct P2 as [-> _].
Qed.
End history_route.

(** ** Concrete requests *)

Definition owner_settings : Settings :=
  deployment false Stage.SIM [] (Some "full"%string) (Some "read"%string) None None Settings_default.
Definition key_header (key : string) : Headers :=
  fun h => if String.eqb h "X-API-Key" then Some key else None.

Lemma read_key_scope_witness :
  exists r, dispatch create_app "GET" ["accounts"; "123"; "positions"]%string = Some r /\
    read_key_route r = true /\ s_public_mode owner_settings = false.
Proof.
  destruct (dispatch create_app "GET" ["accounts"; "123"; "positions"]%string) as [r|] eqn:Hd;
    [|vm_compute in Hd; discriminate Hd].
  exists r. split; [reflexivity|].
  destruct (read_key_scope "GET" ["accounts"; "123"; "positions"]%string r (key_header "read")
    owner_settings "read") as [Hh|(Hr & _ & Hp)]; try discriminate; try exact Hd; try reflexivity.
  - vm_compute in Hd. injection Hd as <-. reflexivity.
  - vm_compute in Hd. injection Hd as <-. discriminate Hh.
  - split; [exact Hr | exact Hp].
Defined.

(** The paper router of the router examples, behind the write guard. *)
Definition owner_router : OrderRouter ExRedis unit := {|
  rt_settings := owner_settings; rt_redis := true; rt_sim := ex_sim;
  rt_liberator := None; rt_streaming_pro := None; rt_last_close := None;
  rt_handle_resolver := None; rt_sleep := ex_sleep;
  rt_uuid4_hex := fun _ => "token"%string |}.

Lemma owner_router_ok : router_ok owner_router.
Proof.
  split; try discriminate.
  - apply sim_adapter_ok, _.
  - intros d. apply respects_modify. intros w. unfold on_db. reflexivity.
Qed.

Lemma kill_switch_engage_witness :
  exists body w3, kill_switch_engage owner_router (key_header "full") ex_w1 = (Ok body, w3) /\
    ke_cancelled (rp_body body) ++ ke_failed (rp_body body) ≡ₚ [ex_cid].
Proof.
  destruct (kill_switch_engage_halts_then_sweeps owner_router (key_header "full") ex_w1 owner_router_ok
    ex_w1_wf eq_refl) as (b & src & w1 & Hs & _ & Hcase).
  vm_compute in Hs. injection Hs as <- <- <-.
  destruct (engage (rt_redis owner_router) _) as [[u|e] w2] eqn:He; [|vm_compute in He; discriminate He].
  destruct Hcase as (_ & _ & cs & fs & w3 & Hk & _ & Hp & _).
  eexists _, w3. split; [exact Hk|]. simpl. rewrite Hp. vm_compute. reflexivity.
Defined.
