(* ===== verification/Streams.v ===== *)
(** * Streams: the streaming read surface ([api/streams.py])

    The two SSE generators as what one resumption emits: opening a stream (the
    subscription, the replay or the snapshot, up to the first wait) and taking
    the next item of its queue, or timing out.  Between two resumptions the rest
    of the process runs.  A frame is a value; [frame_text] is what is sent. *)

From S2P Require Import Prelude Decimals Contracts Digits StateMachine Events Store Config OrderBook BookService Liberator PyFloat Api.
From stdpp Require Import base gmap strings list relations.
From Stdlib Require Import ZArith Lia.
Open Scope Z_scope.

(** ** Order book *)

Definition _PROBE_MARKETS : list Market := [SET_; TFEX].

Section order_book.
Context {Source : Type} `{Countable Source} (cfg : ServiceConfig Source).
Abbreviation Service := (ServiceState Source).

Definition _require_service (service : option Service) : result exn Service :=
  match service with Some s => Ok s | None => Err OrderBookUnavailable end.

(** Probing reads the cache, which moves a hit to the recent end. *)
Fixpoint probe (now : Z) (symbol : string) (markets : list Market) (s : Service)
    : result exn OrderBook * Service :=
  match markets with
  | [] => (Err OrderBookUnavailable, s)
  | m :: markets' =>
      match get_book cfg now (symbol, m) s with
      | (Some b, s') => (Ok b, s')
      | (None, s') => probe now symbol markets' s'
      end
  end.

Definition _snapshot (now : Z) (symbol : string) (market : option Market) (s : Service)
    : result exn OrderBook * Service :=
  probe now symbol (match market with Some m => [m] | None => _PROBE_MARKETS end) s.

Definition order_book_snapshot (service : option Service) (now : Z) (symbol : string)
    (market : option Market) : result exn OrderBook * option Service :=
  match _require_service service with
  | Err e => (Err e, service)
  | Ok s => let (r, s') := _snapshot now symbol market s in (r, Some s')
  end.

Inductive BookFrame := BookData (b : OrderBook) | BookKeepAlive.

(** [_order_book_events]: entering the subscription and the snapshot. *)
Definition book_stream_open (now : Z) (k : Key) (id : nat) (s : Service) : list BookFrame * Service :=
  let s1 := _acquire cfg k id s in
  match get_book cfg now k s1 with
  | (Some b, s2) => ([BookData b], s2)
  | (None, s2) => ([], s2)
  end.

(** The route: a typed refusal when the service is off, else the generator's first run. *)
Definition order_book_stream (service : option Service) (now : Z) (symbol : string) (market : Market) (id : nat)
    : result exn (list BookFrame) * option Service :=
  match _require_service service with
  | Err e => (Err e, service)
  | Ok s => let (frames, s') := book_stream_open now (symbol, market) id s in (Ok frames, Some s')
  end.

(** One turn of its loop: the oldest queued book, or the keep-alive timeout. *)
Definition book_stream_next (k : Key) (id : nat) (s : Service) : list BookFrame * Service :=
  match List.find (fun q => Nat.eqb (q_id q) id) (default [] (sv_subscribers s !! k)) with
  | Some q => match q_items q with
              | b :: _ => ([BookData b], take_book k id s)
              | [] => ([BookKeepAlive], s)
              end
  | None => ([BookKeepAlive], s)
  end.
End order_book.

(** ** Order updates *)

Definition _require_hub (hub : option EventHub) : result exn EventHub :=
  match hub with Some h => Ok h | None => Err OrderStreamUnavailable end.

Definition _parse_cursor (request : Headers) (last_event_id : option Z) : result exn Z :=
  match request "Last-Event-ID"%string with
  | None => Ok (default 0 last_event_id)
  | Some raw => match py_int_of_string raw with
                | Some n => Ok n
                | None => Err (HTTPException 422)
                end
  end.

Inductive Frame :=
  | EventFrame (e : OrderUpdateEvent)
  | ResyncRequired (after_seq : Z)
  | GapFrame (dropped : Z)
  | KeepAlive.

(** A line feed, and the text of a frame; [dumps] is [json.dumps(e.wire_dump())]. *)
Definition nl : string := String (Ascii.ascii_of_nat 10) EmptyString.
Definition dq : string := String (Ascii.ascii_of_nat 34) EmptyString.
Definition _event_frame (dumps : OrderUpdateEvent -> string) (e : OrderUpdateEvent) : string :=
  ("id: " +:+ int_str (ev_seq e) +:+ nl +:+ "event: " +:+ OrderState.value (ev_engine_state e) +:+ nl +:+
   "data: " +:+ dumps e +:+ nl +:+ nl)%string.
Definition frame_text (dumps : OrderUpdateEvent -> string) (f : Frame) : string :=
  match f with
  | EventFrame e => _event_frame dumps e
  | ResyncRequired n => ("event: resync_required" +:+ nl +:+ "data: {" +:+ dq +:+ "after_seq" +:+ dq +:+
                         ": " +:+ int_str n +:+ "}" +:+ nl +:+ nl)%string
  | GapFrame n => ("event: gap" +:+ nl +:+ "data: {" +:+ dq +:+ "dropped" +:+ dq +:+ ": " +:+
                   int_str n +:+ "}" +:+ nl +:+ nl)%string
  | KeepAlive => (": keep-alive" +:+ nl +:+ nl)%string
  end.

Section order_stream.
Context (strategy_id client_order_id : option string).

(** The filter, and the set of ids it remembers. *)
Definition _matches (event : OrderUpdateEvent) (seeded : gset string) : bool * gset string :=
  if match client_order_id with
     | Some c => negb (String.eqb (ev_client_order_id event) c)
     | None => false
     end
  then (false, seeded)
  else match strategy_id with
       | Some s =>
           if bool_decide (ev_strategy_id event = Some s) ||
              bool_decide (ev_client_order_id event ∈ seeded)
           then (true, {[ev_client_order_id event]} ∪ seeded)
           else (false, seeded)
       | None => (true, seeded)
       end.

(** The frames of a run of events, and the remembered set after it. *)
Fixpoint emit (events : list OrderUpdateEvent) (seeded : gset string)
    : list OrderUpdateEvent * gset string :=
  match events with
  | [] => ([], seeded)
  | e :: events' =>
      let '(m, seeded1) := _matches e seeded in
      let '(out, seeded2) := emit events' seeded1 in
      (if m : bool then e :: out else out, seeded2)
  end.

(** The generator's local state. *)
Record Stream := { sm_id : nat; sm_max_replayed : Z; sm_seeded : gset string }.

Definition max_seq (events : list OrderUpdateEvent) : Z :=
  fold_left (fun m e => Z.max m (ev_seq e)) events 0.

(** Subscribe first, then replay. *)
Definition stream_open (after_seq : Z) (seeded : gset string) (hub : EventHub)
    : list Frame * Stream * EventHub :=
  let (id, hub1) := subscribe hub in
  let (events, gap) := replay hub1 after_seq in
  let (out, seeded1) := emit events seeded in
  ((if gap : bool then [ResyncRequired after_seq] else []) ++ map EventFrame out,
   {| sm_id := id; sm_max_replayed := max_seq events; sm_seeded := seeded1 |}, hub1).

Definition find_sub (id : nat) (hub : EventHub) : option Subscription :=
  List.find (fun s => Nat.eqb (sub_id s) id) (hub_subs hub).

Definition put_sub (s : Subscription) (hub : EventHub) : EventHub :=
  {| hub_ring := hub_ring hub; hub_ring_size := hub_ring_size hub;
     hub_queue_size := hub_queue_size hub; hub_seq := hub_seq hub;
     hub_subs := map (fun x => if Nat.eqb (sub_id x) (sub_id s) then s else x) (hub_subs hub);
     hub_strategies := hub_strategies hub; hub_next_id := hub_next_id hub |}.

(** One turn of the loop. *)
Definition stream_next (st : Stream) (hub : EventHub) : list Frame * Stream * EventHub :=
  match find_sub (sm_id st) hub with
  | None => ([KeepAlive], st, hub)
  | Some s =>
      match sub_queue s with
      | [] => ([KeepAlive], st, hub)
      | IGapMarker _ :: q =>
          let (n, s') := take_dropped (sub_set s q (sub_dropped s) (sub_gap_pending s)) in
          ([GapFrame n], st, put_sub s' hub)
      | IEvent e :: q =>
          let hub' := put_sub (sub_set s q (sub_dropped s) (sub_gap_pending s)) hub in
          if ev_seq e <=? sm_max_replayed st then ([], st, hub')
          else
            let (m, seeded) := _matches e (sm_seeded st) in
            (if m : bool then [EventFrame e] else [],
             {| sm_id := sm_id st; sm_max_replayed := sm_max_replayed st; sm_seeded := seeded |}, hub')
      end
  end.
End order_stream.

(** The route: the cursor, the durable seed of the strategy's orders, then the
    generator's first run on the process's hub. *)
Section route.
Context {R V : Type} `{OrdersSchema}.
Abbreviation M := (M exn (world R V)).

Definition order_stream (request : Headers) (strategy_id client_order_id : option string)
    (last_event_id : option Z) : M (list Frame * Stream) :=
  let* hub := gets w_hub in
  let* _ := lift_result (_require_hub hub) in
  let* after_seq := lift_result (_parse_cursor request last_event_id) in
  let* seeded := match strategy_id with
                 | Some s => fetch_client_order_ids_for_strategy s
                 | None => ret ∅
                 end in
  fun w =>
    match w_hub w with
    | None => (Err OrderStreamUnavailable, w)
    | Some h =>
        let '(frames, st, h') := stream_open strategy_id client_order_id after_seq seeded h in
        (Ok (frames, st), set_hub (Some h') w)
    end.
End route.
