(* ===== verification/StreamsProps.v ===== *)
(** * StreamsProps: what an order-update stream delivers

    A stream against everything the hub ever published, with the rest of the
    process publishing, subscribing and streaming in between. *)

From S2P Require Import Prelude Decimals Contracts StateMachine Events Store Config OrderBook BookService Api Streams.
From stdpp Require Import base gmap strings list relations.
From Stdlib Require Import ZArith Lia.
Open Scope Z_scope.

(** ** The events of a queue and of a run of frames *)

Definition item_event (i : Item) : option OrderUpdateEvent :=
  match i with IEvent e => Some e | IGapMarker _ => None end.
Definition queued (s : Subscription) : list OrderUpdateEvent := omap item_event (sub_queue s).

Definition frame_event (f : Frame) : option OrderUpdateEvent :=
  match f with EventFrame e => Some e | _ => None end.
Definition sent (out : list Frame) : list OrderUpdateEvent := omap frame_event out.

Definition is_gap (f : Frame) : bool := match f with GapFrame _ => true | _ => false end.

Lemma sent_app a b : sent (a ++ b) = sent a ++ sent b.
Proof. apply omap_app. Qed.
Lemma sent_events l : sent (map EventFrame l) = l.
Proof. induction l as [|e l IH]; [done|]. change (e :: sent (map EventFrame l) = e :: l). by rewrite IH. Qed.

Lemma offer_id s e : sub_id (offer s e) = sub_id s.
Proof.
  unfold offer, _ensure_gap_marker, _drop_oldest, put_nowait. by repeat (case_match; simplify_eq/=).
Qed.

(** An offer appends the event or loses something, and then a gap is pending. *)
Lemma offer_queued s e : sub_wf s ->
  queued (offer s e) `sublist_of` queued s ++ [e] /\
  (sub_gap_pending (offer s e) = false ->
     sub_gap_pending s = false /\ queued (offer s e) = queued s ++ [e]).
Proof.
  intros Hwf. unfold queued.
  destruct (offer_cases s e Hwf) as
    [(_ & ->)|[(x & q & _ & _ & Hq & ->)|[(x & q & _ & _ & Hq & ->)|(x & q & _ & _ & Hq & ->)]]];
    simpl; rewrite ?Hq, ?omap_app; simpl; rewrite ?app_nil_r; (split; [|done]); try done.
  - apply sublist_cons, sublist_inserts_r. done.
  - by apply sublist_cons.
  - by apply sublist_inserts_r.
Qed.

(** ** Finding one's subscription *)

Lemma find_map_id id (f : Subscription -> Subscription) l :
  (forall s, sub_id (f s) = sub_id s) ->
  List.find (fun s => Nat.eqb (sub_id s) id) (map f l) =
  f <$> List.find (fun s => Nat.eqb (sub_id s) id) l.
Proof. intros Hf. induction l as [|s l IH]; simpl; [done|]. rewrite Hf. by destruct (Nat.eqb _ _). Qed.

Lemma find_snoc {A} (p : A -> bool) l x y : List.find p l = Some y -> List.find p (l ++ [x]) = Some y.
Proof. induction l as [|z l IH]; simpl; [done|]. by destruct (p z). Qed.

Lemma find_fresh l x n : Forall (fun s => (sub_id s < n)%nat) l -> sub_id x = n ->
  List.find (fun s => Nat.eqb (sub_id s) n) (l ++ [x]) = Some x.
Proof.
  intros Hl Hx. induction Hl as [|s l Hs _ IH]; simpl; [by rewrite Hx, Nat.eqb_refl|].
  by rewrite (proj2 (Nat.eqb_neq _ _)) by lia.
Qed.

Lemma find_filter_other id i l : id <> i ->
  List.find (fun s => Nat.eqb (sub_id s) id)
    (List.filter (fun s => negb (Nat.eqb (sub_id s) i)) l) =
  List.find (fun s => Nat.eqb (sub_id s) id) l.
Proof.
  intros Hne. induction l as [|s l IH]; simpl; [done|].
  destruct (Nat.eqb_spec (sub_id s) i) as [<-|]; simpl; destruct (Nat.eqb_spec (sub_id s) id);
    done || congruence.
Qed.

Lemma find_put id s h : find_sub id (put_sub s h) =
  if Nat.eqb (sub_id s) id then (fun _ => s) <$> find_sub id h else find_sub id h.
Proof.
  unfold find_sub, put_sub. simpl. induction (hub_subs h) as [|x l IH]; simpl; [by case_match|].
  destruct (Nat.eqb_spec (sub_id x) (sub_id s)) as [->|]; simpl;
    [destruct (Nat.eqb_spec (sub_id s) id); done|].
  destruct (Nat.eqb_spec (sub_id x) id), (Nat.eqb_spec (sub_id s) id); done || congruence.
Qed.

Lemma find_sub_id id h s : find_sub id h = Some s -> sub_id s = id.
Proof. intros Hf. apply List.find_some in Hf as [_ Hf]. by apply Nat.eqb_eq. Qed.

(** ** The replay is the end of the history *)

Lemma filter_after_drop hist after :
  (forall i e, hist !! i = Some e -> ev_seq e = Z.of_nat i + 1) -> 0 <= after ->
  List.filter (fun e => after <? ev_seq e) hist = drop (Z.to_nat after) hist.
Proof.
  intros Hs Ha. rewrite (filter_after_suffix hist (Z.to_nat after) after Hs) by lia.
  apply List.forallb_filter_id, List.forallb_forall. intros e He.
  apply list_elem_of_In, list_elem_of_lookup in He as [i Hi]. rewrite lookup_drop in Hi.
  rewrite (Hs _ _ Hi). apply Z.ltb_lt. lia.
Qed.

Lemma replay_suffix h hist after : hub_hist h hist ->
  exists n, (replay h after).1 = drop n hist /\ (n <= length hist)%nat /\
    (after <= 0 -> n = length hist /\ (replay h after).2 = false) /\
    (0 < after -> Z.of_nat (length hist) <= after ->
       n = length hist /\ (replay h after).2 = false) /\
    ((0 < hub_ring_size h)%nat -> 0 < after -> after <= Z.of_nat (length hist) ->
       (replay h after).2 = false -> n = Z.to_nat after).
Proof.
  intros Hh. pose proof Hh as [Hs Hn Hr]. unfold replay.
  destruct (Z.leb_spec after 0) as [Hle|Hgt].
  { exists (length hist). rewrite drop_ge by lia. split_and!; simpl; try done; lia. }
  set (k := (length hist - hub_ring_size h)%nat) in *.
  assert (Hev : List.filter (fun e => after <? ev_seq e) (hub_ring h) =
                drop (Nat.max k (Z.to_nat after)) hist).
  { rewrite Hr. destruct (Z.le_gt_cases (Z.of_nat k) after) as [Hk|Hk].
    - rewrite <- (filter_after_suffix hist k after Hs Hk), (filter_after_drop hist after Hs) by lia.
      f_equal. lia.
    - replace (Nat.max k (Z.to_nat after)) with k by lia.
      apply List.forallb_filter_id, List.forallb_forall. intros e He.
      apply list_elem_of_In, list_elem_of_lookup in He as [i Hi]. rewrite lookup_drop in Hi.
      rewrite (Hs _ _ Hi). apply Z.ltb_lt. lia. }
  assert (Hgap : match hub_ring h with [] => false | o :: _ => after <? ev_seq o - 1 end = true ->
                 after < Z.of_nat k).
  { destruct (hub_ring h) as [|o l] eqn:Ho; [done|].
    rewrite (hub_hist_oldest h hist o l Hh Ho), Z.ltb_lt. fold k. lia. }
  exists (Nat.min (length hist) (Nat.max k (Z.to_nat after))). simpl. rewrite Hev. split_and!.
  - destruct (Nat.le_ge_cases (Nat.max k (Z.to_nat after)) (length hist)) as [Hm|Hm];
      [by rewrite Nat.min_r | rewrite Nat.min_l, !drop_ge by lia; done].
  - lia.
  - lia.
  - intros _ Hbig. split; [lia|]. apply not_true_is_false. intros Hg. apply Hgap in Hg. lia.
  - intros Hsz _ Hsm Hng. destruct (hub_ring h) as [|o l] eqn:Ho.
    + assert (Hk0 : length (drop k hist) = 0%nat) by (by rewrite <- Hr). rewrite length_drop in Hk0.
      lia.
    + rewrite (hub_hist_oldest h hist o l Hh Ho) in Hng. fold k in Hng. apply Z.ltb_ge in Hng. lia.
Qed.

(** ** A stream among the rest of the process *)

Section stream.
Context (strategy_id client_order_id : option string).
Abbreviation emit := (emit strategy_id client_order_id).

(** The hub, everything published on it, the generator's state, what was sent. *)
Record Run := {
  rn_hub : EventHub;
  rn_hist : list OrderUpdateEvent;
  rn_stream : Stream;
  rn_out : list Frame;
}.

Definition set_rn_hub (h : EventHub) (r : Run) : Run :=
  {| rn_hub := h; rn_hist := rn_hist r; rn_stream := rn_stream r; rn_out := rn_out r |}.

(** The process publishes, registers a strategy, opens or closes another stream or
    lets one run a turn; or this stream runs a turn. *)
Inductive run_step : Run -> Run -> Prop :=
  | rs_publish r now c st a b p q f : run_step r
      {| rn_hub := publish (rn_hub r) now c st a b p q f;
         rn_hist := rn_hist r ++ [publish_event (rn_hub r) now c st a b p q f];
         rn_stream := rn_stream r; rn_out := rn_out r |}
  | rs_register r c s : run_step r (set_rn_hub (register_strategy (rn_hub r) c s) r)
  | rs_subscribe r : run_step r (set_rn_hub (subscribe (rn_hub r)).2 r)
  | rs_unsubscribe r i : i <> sm_id (rn_stream r) ->
      run_step r (set_rn_hub (unsubscribe (rn_hub r) i) r)
  | rs_other r s c st : sm_id st <> sm_id (rn_stream r) ->
      run_step r (set_rn_hub (stream_next s c st (rn_hub r)).2 r)
  | rs_turn r frames st h :
      stream_next strategy_id client_order_id (rn_stream r) (rn_hub r) = (frames, st, h) ->
      run_step r {| rn_hub := h; rn_hist := rn_hist r; rn_stream := st;
                    rn_out := rn_out r ++ frames |}.

Lemma emit_app l k seeded :
  emit (l ++ k) seeded =
  ((emit l seeded).1 ++ (emit k (emit l seeded).2).1, (emit k (emit l seeded).2).2).
Proof.
  revert seeded. induction l as [|e l IH]; intros seeded; simpl; [by destruct (emit k seeded)|].
  destruct (_matches strategy_id client_order_id e seeded) as [m s1]. rewrite IH.
  destruct (emit l s1) as [o s2]. simpl. by destruct m.
Qed.

(** What holds throughout: the events taken so far and those still queued are, in
    order, events of the history past [base], and all of them unless a gap was
    reported or is pending. *)
Record run_inv (base : nat) (seeded : gset string) (r : Run) (s : Subscription)
    (taken : list OrderUpdateEvent) : Prop := {
  ri_hist : hub_hist (rn_hub r) (rn_hist r);
  ri_base : (base <= length (rn_hist r))%nat;
  ri_sub : find_sub (sm_id (rn_stream r)) (rn_hub r) = Some s;
  ri_wf : sub_wf s;
  ri_sent : sent (rn_out r) = (emit taken seeded).1;
  ri_seeded : sm_seeded (rn_stream r) = (emit taken seeded).2;
  ri_order : taken ++ queued s `sublist_of` drop base (rn_hist r);
  ri_all : forallb (fun f => negb (is_gap f)) (rn_out r) = true -> sub_gap_pending s = false ->
           taken ++ queued s = drop base (rn_hist r);
  ri_new : forall e, e ∈ queued s -> sm_max_replayed (rn_stream r) < ev_seq e;
  ri_max : sm_max_replayed (rn_stream r) <= Z.of_nat (length (rn_hist r));
}.

Lemma hub_hist_same h h' hist : hub_hist h hist ->
  hub_ring h' = hub_ring h -> hub_ring_size h' = hub_ring_size h -> hub_seq h' = hub_seq h ->
  hub_hist h' hist.
Proof. intros [H1 H2 H3] Hr Hz Hs. split; [done|by rewrite Hs|by rewrite Hr, Hz]. Qed.

(** Steps of the process that leave the ring and this subscription alone. *)
Lemma run_inv_hub base seeded r s taken h' :
  run_inv base seeded r s taken ->
  hub_ring h' = hub_ring (rn_hub r) -> hub_ring_size h' = hub_ring_size (rn_hub r) ->
  hub_seq h' = hub_seq (rn_hub r) -> find_sub (sm_id (rn_stream r)) h' = Some s ->
  run_inv base seeded (set_rn_hub h' r) s taken.
Proof. intros [] Hr Hz Hs Hf. split; try done. by eapply hub_hist_same. Qed.

Lemma run_inv_publish base seeded r s taken now c st a b p q f :
  run_inv base seeded r s taken ->
  run_inv base seeded
    {| rn_hub := publish (rn_hub r) now c st a b p q f;
       rn_hist := rn_hist r ++ [publish_event (rn_hub r) now c st a b p q f];
       rn_stream := rn_stream r; rn_out := rn_out r |}
    (offer s (publish_event (rn_hub r) now c st a b p q f)) taken.
Proof.
  intros [Hh Hb Hf Hw Hse Hsd Ho Ha Hn Hm]. set (e := publish_event (rn_hub r) now c st a b p q f).
  destruct (offer_queued s e Hw) as [Hsub Hall].
  assert (He : ev_seq e = Z.of_nat (length (rn_hist r)) + 1) by apply (hh_next _ _ Hh).
  split; simpl; try done.
  - by apply hub_hist_publish.
  - rewrite length_app. lia.
  - unfold find_sub in *. simpl. rewrite find_map_id by (intros; apply offer_id). by rewrite Hf.
  - by apply offer_wf.
  - rewrite drop_app_le by done. etrans; [apply sublist_app; [reflexivity|exact Hsub]|].
    rewrite app_assoc. by apply sublist_app.
  - intros Hng Hg. destruct (Hall Hg) as [Hg' ->]. rewrite app_assoc, Ha by done.
    by rewrite drop_app_le.
  - intros x Hx. eapply sublist_subseteq in Hx; [|exact Hsub].
    apply elem_of_app in Hx as [Hx|Hx]; [by apply Hn|].
    apply list_elem_of_singleton in Hx as ->. lia.
  - rewrite length_app. lia.
Qed.

Lemma is_gap_app a b :
  forallb (fun f => negb (is_gap f)) (a ++ b) = true ->
  forallb (fun f => negb (is_gap f)) a = true /\ forallb (fun f => negb (is_gap f)) b = true.
Proof. rewrite List.forallb_app, andb_true_iff. done. Qed.

(** Taking the head of the queue. *)
Lemma sub_wf_tail s i q : sub_wf s -> sub_queue s = i :: q ->
  match i with
  | IEvent _ => sub_wf (sub_set s q (sub_dropped s) (sub_gap_pending s))
  | IGapMarker _ => sub_wf (take_dropped (sub_set s q (sub_dropped s) (sub_gap_pending s))).2
  end.
Proof.
  intros [Hm Hl Hk] Hq. rewrite Hq in Hl, Hk. rewrite n_markers_cons in Hk. simpl in Hl.
  destruct i; split; simpl in *; try lia.
  destruct (sub_gap_pending s); pose proof (Nat2Z.is_nonneg (length (List.filter (fun i => negb (is_event i)) q)));
    unfold n_markers in *; lia.
Qed.

Lemma run_inv_turn base seeded r s taken frames st h :
  run_inv base seeded r s taken ->
  stream_next strategy_id client_order_id (rn_stream r) (rn_hub r) = (frames, st, h) ->
  exists s' taken', sm_id st = sm_id (rn_stream r) /\
    run_inv base seeded {| rn_hub := h; rn_hist := rn_hist r; rn_stream := st;
                           rn_out := rn_out r ++ frames |} s' taken'.
Proof.
  intros [Hh Hb Hf Hw Hse Hsd Ho Ha Hn Hm]. unfold stream_next. rewrite Hf.
  pose proof (find_sub_id _ _ _ Hf) as Hid.
  destruct (sub_queue s) as [|[e|d] q] eqn:Hq.
  - intros [= <- <- <-]. exists s, taken. split; [done|]. split; cbn [rn_hub rn_hist rn_stream rn_out sm_id sm_seeded sm_max_replayed]; try done.
    + by rewrite sent_app, Hse, app_nil_r.
    + intros Hg. by apply Ha, (is_gap_app _ _ Hg).
  - assert (Hqe : queued s = e :: queued (sub_set s q (sub_dropped s) (sub_gap_pending s)))
      by (unfold queued; by rewrite Hq).
    rewrite (proj2 (Z.leb_gt _ _)) by (apply Hn; rewrite Hqe; set_solver).
    destruct (_matches _ _ e (sm_seeded (rn_stream r))) as [m sd] eqn:Hma. intros [= <- <- <-].
    exists (sub_set s q (sub_dropped s) (sub_gap_pending s)), (taken ++ [e]). split; [done|].
    assert (Hem : emit (taken ++ [e]) seeded =
      ((emit taken seeded).1 ++ (if m then [e] else []), sd)).
    { rewrite emit_app. simpl. rewrite <- Hsd, Hma. by destruct m. }
    split; cbn [rn_hub rn_hist rn_stream rn_out sm_id sm_seeded sm_max_replayed]; try done.
    + by eapply hub_hist_same.
    + rewrite find_put, Hf. cbn [sub_id sub_set]. by rewrite Hid, Nat.eqb_refl.
    + by apply (sub_wf_tail s (IEvent e) q).
    + rewrite sent_app, Hse, Hem. simpl. by destruct m.
    + by rewrite Hem.
    + rewrite <- app_assoc. simpl. by rewrite <- Hqe.
    + intros Hg Hp. rewrite <- app_assoc. simpl. rewrite <- Hqe. by apply Ha, Hp; apply (is_gap_app _ _ Hg).
    + intros x Hx. apply Hn. rewrite Hqe. set_solver.
  - intros [= <- <- <-]. exists (take_dropped (sub_set s q (sub_dropped s) (sub_gap_pending s))).2, taken.
    split; [done|].
    assert (Hqe : queued s = queued (sub_set s q (sub_dropped s) (sub_gap_pending s)))
      by (unfold queued; by rewrite Hq).
    split; cbn [rn_hub rn_hist rn_stream rn_out sm_id sm_seeded sm_max_replayed]; try done.
    + by eapply hub_hist_same.
    + rewrite find_put, Hf. cbn [sub_id sub_set take_dropped snd]. rewrite Hid, Nat.eqb_refl. reflexivity.
    + by apply (sub_wf_tail s (IGapMarker d) q).
    + by rewrite sent_app, Hse, app_nil_r.
    + change (queued _) with (queued (sub_set s q (sub_dropped s) (sub_gap_pending s))).
      by rewrite <- Hqe.
    + intros Hg. by apply is_gap_app in Hg as [_ Hg].
    + intros x Hx. apply Hn. by rewrite Hqe.
Qed.

Lemma run_inv_step base seeded r r' s taken :
  run_inv base seeded r s taken -> run_step r r' -> exists s' taken',
    sm_id (rn_stream r') = sm_id (rn_stream r) /\ run_inv base seeded r' s' taken'.
Proof.
  intros Hi Hs. pose proof (ri_sub _ _ _ _ _ Hi) as Hf.
  destruct Hs as [r now c st a b p q f|r c x|r|r i Hne|r x c st Hne|r frames st h Hn].
  - eexists _, taken. split; [done|]. by apply run_inv_publish.
  - exists s, taken. split; [done|]. by apply run_inv_hub.
  - exists s, taken. split; [done|]. apply run_inv_hub; try done. by apply find_snoc.
  - exists s, taken. split; [done|]. apply run_inv_hub; try done.
    unfold find_sub. simpl. by rewrite find_filter_other.
  - exists s, taken. split; [done|]. unfold stream_next.
    destruct (find_sub (sm_id st) (rn_hub r)) as [y|] eqn:Hy; [|by apply run_inv_hub].
    pose proof (find_sub_id _ _ _ Hy) as Hid.
    assert (Hput : forall z, sub_id z = sub_id y ->
      run_inv base seeded (set_rn_hub (put_sub z (rn_hub r)) r) s taken).
    { intros z Hz. apply run_inv_hub; try done. rewrite find_put, Hz, Hid.
      by rewrite (proj2 (Nat.eqb_neq _ _)). }
    destruct (sub_queue y) as [|[e|d] q]; simpl; [by apply run_inv_hub| |by apply Hput].
    destruct (_ <=? _); [by apply Hput|]. destruct (_matches _ _ _ _). by apply Hput.
  - by eapply run_inv_turn.
Qed.

Lemma max_seq_le l m n : m <= n -> (forall e, e ∈ l -> ev_seq e <= n) ->
  fold_left (fun m e => Z.max m (ev_seq e)) l m <= n.
Proof.
  revert m. induction l as [|e l IH]; simpl; intros m Hm Hl; [done|].
  apply IH; [apply Z.max_lub; [done|apply Hl; set_solver]|]. intros x Hx. apply Hl. set_solver.
Qed.

Lemma run_inv_open h hist after seeded frames st h1 :
  hub_hist h hist -> 0 < hub_queue_size h ->
  Forall (fun s => (sub_id s < hub_next_id h)%nat) (hub_subs h) ->
  stream_open strategy_id client_order_id after seeded h = (frames, st, h1) ->
  exists n s, (replay h after).1 = drop n hist /\ sm_id st = hub_next_id h /\
    (after <= 0 -> n = length hist /\ (replay h after).2 = false) /\
    (0 < after -> Z.of_nat (length hist) <= after -> n = length hist /\ (replay h after).2 = false) /\
    ((0 < hub_ring_size h)%nat -> 0 < after -> after <= Z.of_nat (length hist) ->
       (replay h after).2 = false -> n = Z.to_nat after) /\
    run_inv n seeded {| rn_hub := h1; rn_hist := hist; rn_stream := st; rn_out := frames |} s
      (drop n hist).
Proof.
  intros Hh Hq Hids. destruct (replay_suffix h hist after Hh) as (n & Hev & Hn & Hc).
  unfold stream_open. destruct (subscribe h) as [id h2] eqn:Hsub. unfold subscribe in Hsub.
  assert (Hrep : replay h2 after = replay h after) by (by injection Hsub as _ <-).
  rewrite Hrep. destruct (replay h after) as [evs gap]. simpl in Hev. subst evs.
  destruct (Streams.emit _ _ (drop n hist) seeded) as [out sd] eqn:Hem. intros [= <- <- <-].
  injection Hsub as <- <-. eexists n, _. split; [done|]. split; [done|].
  destruct Hc as (Hc1 & Hc2 & Hc3). split; [done|]. split; [done|]. split; [done|].
  assert (Hseq : forall e, e ∈ hist -> ev_seq e <= Z.of_nat (length hist)).
  { intros e [i Hi]%list_elem_of_lookup. pose proof (lookup_lt_Some _ _ _ Hi).
    rewrite (hh_seq _ _ Hh _ _ Hi). lia. }
  split; cbn [rn_hub rn_hist rn_stream rn_out sm_id sm_seeded sm_max_replayed].
  - by eapply hub_hist_same.
  - done.
  - by apply find_fresh.
  - split; simpl; try done; lia.
  - rewrite sent_app, sent_events, Hem. by destruct gap.
  - by rewrite Hem.
  - unfold queued. simpl. by rewrite app_nil_r.
  - intros _ _. unfold queued. simpl. by rewrite app_nil_r.
  - unfold queued. simpl. set_solver.
  - unfold max_seq. apply max_seq_le; [lia|]. intros e He. apply Hseq.
    by apply (subseteq_drop n).
Qed.

(** Opening a stream and any run from there. *)
Lemma stream_runs h hist after seeded frames st h1 r :
  hub_hist h hist -> 0 < hub_queue_size h -> (0 < hub_ring_size h)%nat ->
  Forall (fun s => (sub_id s < hub_next_id h)%nat) (hub_subs h) ->
  stream_open strategy_id client_order_id after seeded h = (frames, st, h1) ->
  rtc run_step {| rn_hub := h1; rn_hist := hist; rn_stream := st; rn_out := frames |} r ->
  exists base s taken, sm_id (rn_stream r) = sm_id st /\ run_inv base seeded r s taken /\
    (base <= length hist)%nat /\
    (after <= 0 -> base = length hist) /\
    (0 < after <= Z.of_nat (length hist) -> (forall n, ResyncRequired n ∉ frames) ->
       base = Z.to_nat after).
Proof.
  intros Hh Hq Hz Hids Hopen Hrun.
  destruct (run_inv_open _ _ _ _ _ _ _ Hh Hq Hids Hopen) as (n & s & Hev & Hid & Hc1 & _ & Hc3 & Hi).
  assert (Hgen : forall r0 r, rtc run_step r0 r -> forall s taken, run_inv n seeded r0 s taken ->
    exists s' taken', sm_id (rn_stream r) = sm_id (rn_stream r0) /\ run_inv n seeded r s' taken').
  { induction 1 as [r0|r0 r1 r2 Hs _ IH]; intros s0 t0 Hi0; [by eexists _, _|].
    destruct (run_inv_step _ _ _ _ _ _ Hi0 Hs) as (s1 & t1 & E1 & Hi1).
    destruct (IH _ _ Hi1) as (s2 & t2 & E2 & Hi2). exists s2, t2. split; [congruence|done]. }
  destruct (Hgen _ _ Hrun _ _ Hi) as (s' & taken & Eid & Hi').
  exists n, s', taken. split_and!; try done; [by destruct Hi | intros Ha; by apply Hc1|].
  intros [Ha1 Ha2] Hno. apply Hc3; try done. unfold stream_open in Hopen.
  destruct (subscribe h) as [id h2] eqn:Hsub. injection Hsub as Hs1 Hs2. subst h2.
  change (replay _ after) with (replay h after) in Hopen.
  destruct (replay h after) as [evs gap] eqn:Hr. destruct gap; [|done]. exfalso.
  destruct (Streams.emit _ _ evs seeded). injection Hopen as <- _ _. apply (Hno after). simpl. set_solver.
Qed.

Lemma run_step_hist r r' : rtc run_step r r' -> exists more, rn_hist r' = rn_hist r ++ more.
Proof.
  induction 1 as [r|r r1 r2 Hs _ [more IH]]; [by exists []; rewrite app_nil_r|].
  assert (exists m, rn_hist r1 = rn_hist r ++ m) as [m Hm].
  { destruct Hs; simpl; first [by eexists | by exists []; rewrite app_nil_r]. }
  exists (m ++ more). by rewrite IH, Hm, app_assoc.
Qed.

(** C13: an order-update stream loses nothing silently and repeats nothing.  Open a
    stream on a hub with history [hist], and let the process publish, subscribe,
    unsubscribe and run other streams in any interleaving with its turns.  The
    events it has taken and those still queued are, in publication order and each
    once, published events past a point [base] of the history, and the frames sent
    are exactly those of them the filter admits; and unless a gap frame was sent
    or a gap is pending they are ALL the published events past [base].  [base] is
    the client's cursor when that lies within the history and no resync frame was
    sent, and the moment of opening for a live-only stream. *)
Theorem stream_complete h hist after seeded frames st h1 r :
  hub_hist h hist -> 0 < hub_queue_size h -> (0 < hub_ring_size h)%nat ->
  Forall (fun s => (sub_id s < hub_next_id h)%nat) (hub_subs h) ->
  stream_open strategy_id client_order_id after seeded h = (frames, st, h1) ->
  rtc run_step {| rn_hub := h1; rn_hist := hist; rn_stream := st; rn_out := frames |} r ->
  exists base s taken,
    find_sub (sm_id st) (rn_hub r) = Some s /\
    sent (rn_out r) = (emit taken seeded).1 /\
    taken ++ queued s `sublist_of` drop base (rn_hist r) /\
    (forallb (fun f => negb (is_gap f)) (rn_out r) = true -> sub_gap_pending s = false ->
       taken ++ queued s = drop base (rn_hist r)) /\
    (after <= 0 -> base = length hist) /\
    (0 < after <= Z.of_nat (length hist) -> (forall n, ResyncRequired n ∉ frames) ->
       base = Z.to_nat after).
Proof.
  intros Hh Hq Hz Hids Hopen Hrun.
  destruct (stream_runs _ _ _ _ _ _ _ _ Hh Hq Hz Hids Hopen Hrun) as (n & s & taken & Eid & [] & _ & Hb1 & Hb2).
  exists n, s, taken. rewrite Eid in *. done.
Qed.

(** a cursor from before a restart is not recognised.  When the client's cursor
    is past every event the hub has published (the hub counts from 1 again after a
    restart), opening replays nothing and sends no resync frame, whatever the new
    history holds: the client is told nothing of the events it missed. *)
Theorem stale_cursor_silent h hist after seeded frames st h1 :
  hub_hist h hist -> Z.of_nat (length hist) < after ->
  stream_open strategy_id client_order_id after seeded h = (frames, st, h1) -> frames = [].
Proof.
  intros Hh Hlt Hopen. destruct (replay_suffix h hist after Hh) as (n & Hev & _ & _ & Hc & _).
  destruct Hc as [-> Hg]; [lia..|]. rewrite drop_ge in Hev by lia.
  unfold stream_open in Hopen. destruct (subscribe h) as [id h2] eqn:Hsub.
  assert (Hrep : replay h2 after = replay h after) by (by injection Hsub as _ <-).
  rewrite Hrep in Hopen. destruct (replay h after) as [evs gap]. simpl in *. subst.
  by injection Hopen as <- _ _.
Qed.
End stream.

(** ** Concrete streams *)

Lemma ex_hub_hist : hub_hist (ex_hub 3) [ex_event 1; ex_event 2; ex_event 3].
Proof.
  apply (hub_hist_publish (ex_hub 2) [ex_event 1; ex_event 2]).
  apply (hub_hist_publish (ex_hub 1) [ex_event 1]).
  apply (hub_hist_publish (ex_hub 0) []), hub_hist_new.
Qed.

Definition ex_opened : Run :=
  let '(frames, st, h) := stream_open None None 1 ∅ (ex_hub 3) in
  {| rn_hub := h; rn_hist := [ex_event 1; ex_event 2; ex_event 3]; rn_stream := st; rn_out := frames |}.
Definition ex_published : Run :=
  {| rn_hub := publish (rn_hub ex_opened) 0 "A" OrderState.NEW None None None None None;
     rn_hist := rn_hist ex_opened ++
       [publish_event (rn_hub ex_opened) 0 "A" OrderState.NEW None None None None None];
     rn_stream := rn_stream ex_opened; rn_out := rn_out ex_opened |}.
Definition ex_delivered : Run :=
  let '(frames, st, h) := stream_next None None (rn_stream ex_published) (rn_hub ex_published) in
  {| rn_hub := h; rn_hist := rn_hist ex_published; rn_stream := st;
     rn_out := rn_out ex_published ++ frames |}.

(** Two events replayed after the cursor, a third published and delivered live. *)
Lemma stream_complete_witness :
  exists base s taken, find_sub 0 (rn_hub ex_delivered) = Some s /\
    sent (rn_out ex_delivered) = (emit None None taken ∅).1 /\
    taken ++ queued s = drop base (rn_hist ex_delivered) /\ base = 1%nat /\
    map ev_seq (sent (rn_out ex_delivered)) = [2; 3; 4].
Proof.
  destruct (stream_complete None None (ex_hub 3) [ex_event 1; ex_event 2; ex_event 3] 1 ∅
    (rn_out ex_opened) (rn_stream ex_opened) (rn_hub ex_opened) ex_delivered ex_hub_hist)
    as (base & s & taken & Hf & Hsent & _ & Hall & _ & Hb).
  - simpl. lia.
  - simpl. lia.
  - constructor.
  - reflexivity.
  - apply (rtc_l _ _ ex_published); [apply rs_publish|]. apply rtc_once. apply rs_turn. reflexivity.
  - exists base, s, taken. vm_compute in Hf. injection Hf as <-.
    split; [reflexivity|]. split; [exact Hsent|]. split; [by apply Hall|].
    split; [|reflexivity]. apply Hb; [simpl; lia|]. intros n Hin. vm_compute in Hin.
    repeat (apply elem_of_cons in Hin as [Hin|Hin]; [discriminate Hin|]). by apply not_elem_of_nil in Hin.
Defined.

Lemma stale_cursor_silent_witness :
  (stream_open None None 500 ∅ (ex_hub 3)).1.1 = [].
Proof.
  exact (stale_cursor_silent None None (ex_hub 3) [ex_event 1; ex_event 2; ex_event 3] 500 ∅ _ _ _
    ex_hub_hist ltac:(simpl; lia) eq_refl).
Defined.
