(* ===== verification/Wire.v ===== *)
(** * Wire: what the streams and the export put on the wire

    The bodies ([wire_dump] of [events/models.py] and [order_book/models.py], the
    records of [stream_order_events]), the text of the frames and of the NDJSON
    export, and the client: the event-stream reader of the HTML standard, which
    remembers the last event id and sends it back as [Last-Event-ID]. *)

From S2P Require Import Prelude Decimals Contracts Digits Json PyTime PyIso PyText Events Store OrderBook Api Streams.
From stdpp Require Import base gmap strings list.
From Stdlib Require Import ZArith Lia.
Open Scope Z_scope.

Definition opt_json {A} (f : A -> json) (o : option A) : json :=
  match o with Some x => f x | None => JNull end.

(** A decimal crosses as a string, never in scientific notation. *)
Definition WireDecimal (d : Decimal) : json := JStr (format_f d).

(** A JSONB column arrives as text unless it was decoded already. *)
Definition decode_jsonb (raw : json) : result exn json :=
  match raw with
  | JStr text => match json_loads text with Some j => Ok j | None => Err (ValueError "JSONDecodeError") end
  | _ => Ok raw
  end.

(** ** Bodies *)

(** [stamp] is how pydantic writes a UTC [datetime] in JSON mode. *)
Section wire_dump.
Context (stamp : Z -> string).

Definition fill_wire (f : FillEvent) : json :=
  JObj [("broker_fill_id", JStr (fe_broker_fill_id f)); ("price", WireDecimal (fe_price f));
        ("quantity", JInt (fe_quantity f)); ("exec_ts", JStr (stamp (fe_exec_ts f)))]%string.

Definition event_wire_dump (e : OrderUpdateEvent) : json :=
  JObj [("seq", JInt (ev_seq e)); ("client_order_id", JStr (ev_client_order_id e));
        ("strategy_id", opt_json JStr (ev_strategy_id e));
        ("engine_state", JStr (OrderState.value (ev_engine_state e)));
        ("status", opt_json (fun s => JStr (PublicOrderStatus.value s)) (ev_status e));
        ("broker_order_id", opt_json JStr (ev_broker_order_id e));
        ("price", opt_json WireDecimal (ev_price e));
        ("quantity", opt_json JInt (ev_quantity e)); ("fill", opt_json fill_wire (ev_fill e));
        ("ts", JStr (stamp (ev_ts e)))]%string.

Definition level_wire (l : OrderBookLevel) : json :=
  JObj [("price", WireDecimal (obl_price l)); ("volume", JInt (obl_volume l))]%string.

(** The flags are never set, and there is one source. *)
Definition book_wire_dump (b : OrderBook) : json :=
  JObj [("symbol", JStr (ob_symbol b)); ("market", JStr (Market_value (ob_market b)));
        ("bid_levels", JList (map level_wire (ob_bid_levels b)));
        ("ask_levels", JList (map level_wire (ob_ask_levels b)));
        ("bid_flag", JStr "NORMAL"); ("ask_flag", JStr "NORMAL"); ("sequence", JInt (ob_sequence b));
        ("source", JStr "liberator"); ("received_at", JStr (stamp (ob_received_at b)))]%string.

(** ** Frames *)

Definition _sse_frame (b : OrderBook) : string :=
  ("data: " +:+ json_dumps (book_wire_dump b) +:+ nl +:+ nl)%string.
Definition book_frame_text (f : BookFrame) : string :=
  match f with BookData b => _sse_frame b | BookKeepAlive => (": keep-alive" +:+ nl +:+ nl)%string end.

Definition order_frame_text : Frame -> string := frame_text (fun e => json_dumps (event_wire_dump e)).

(** What a connection carried. *)
Definition sse_body {F} (frame : F -> string) (fs : list F) : string :=
  foldr (fun f s => frame f +:+ s)%string ""%string fs.
End wire_dump.

(** ** The client: an event-stream reader *)

(** The complete lines; a line ends at LF, CR or CRLF, and an unfinished one is dropped. *)
Fixpoint sse_lines (cur l : list Z) : list (list Z) :=
  match l with
  | [] => []
  | c :: r =>
      if c =? 10 then rev cur :: sse_lines [] r
      else if c =? 13 then
        match r with
        | d :: r' => if d =? 10 then rev cur :: sse_lines [] r' else rev cur :: sse_lines [] r
        | [] => [rev cur]
        end
      else sse_lines (c :: cur) r
  end.

Fixpoint split_colon (l : list Z) : option (list Z * list Z) :=
  match l with
  | [] => None
  | c :: r => if c =? 58 then Some ([], r)
              else match split_colon r with Some (n, v) => Some (c :: n, v) | None => None end
  end.

Record Message := { me_id : list Z; me_event : list Z; me_data : list Z }.
Record Reader := { rd_data : list (list Z); rd_event : list Z; rd_last_id : list Z; rd_out : list Message }.
Definition reader_new : Reader := {| rd_data := []; rd_event := []; rd_last_id := []; rd_out := [] |}.

Definition field (name value : list Z) (s : Reader) : Reader :=
  if bool_decide (name = codes "event") then
    {| rd_data := rd_data s; rd_event := value; rd_last_id := rd_last_id s; rd_out := rd_out s |}
  else if bool_decide (name = codes "data") then
    {| rd_data := rd_data s ++ [value]; rd_event := rd_event s; rd_last_id := rd_last_id s; rd_out := rd_out s |}
  else if bool_decide (name = codes "id") then
    if memb 0 value then s
    else {| rd_data := rd_data s; rd_event := rd_event s; rd_last_id := value; rd_out := rd_out s |}
  else s.

Definition dispatch (s : Reader) : Reader :=
  {| rd_data := []; rd_event := []; rd_last_id := rd_last_id s;
     rd_out := match rd_data s with
               | [] => rd_out s
               | _ => rd_out s ++ [{| me_id := rd_last_id s;
                                      me_event := match rd_event s with [] => codes "message" | e => e end;
                                      me_data := join_codes [10] (rd_data s) |}]
               end |}.

Definition read_line (line : list Z) (s : Reader) : Reader :=
  match line with
  | [] => dispatch s
  | c :: _ =>
      if c =? 58 then s
      else match split_colon line with
           | Some (name, v) =>
               field name (match v with d :: v' => if d =? 32 then v' else v | [] => [] end) s
           | None => field line [] s
           end
  end.

Definition sse_read (body : string) : Reader :=
  fold_left (fun s line => read_line line s) (sse_lines [] (codes body)) reader_new.

(** ** The export *)

(** One dict [stream_order_events] yields. *)
Definition export_record (r : ExportRow) : json :=
  let e := xr_event r in
  JObj [("event_id", JInt (oe_event_id e)); ("client_order_id", JStr (oe_client_order_id e));
        ("from_status", opt_json (fun s => JStr (OrderState.value s)) (oe_from_status e));
        ("to_status", JStr (OrderState.value (oe_to_status e))); ("event", JObj (oe_event e));
        ("strategy_id", opt_json JStr (xr_strategy_id r));
        ("created_at", JStr (isoformat (utc (oe_created_at e))))]%string.

Section export.
Context {R V : Type} `{OrdersSchema}.
Abbreviation M := (M exn (world R V)).

(** The instant the database driver takes a bound for. *)
Context (instant : PyDatetime -> Z).

(** The file name of the [Content-Disposition] header, by the bounds' own dates, and
    the lines of the body. *)
Definition export_filename (from_ts to_ts : option PyDatetime) : string :=
  let bound (t : option PyDatetime) :=
    match t with Some t => iso_date (wall_of t / DAY_US) | None => "all"%string end in
  ("audit_" +:+ bound from_ts +:+ "_" +:+ bound to_ts +:+ ".ndjson")%string.

Definition audit_export (from_ts to_ts : option PyDatetime) (strategy_id : option string) : M (string * string) :=
  let* rows := stream_order_events (instant <$> from_ts) (instant <$> to_ts) strategy_id in
  ret (export_filename from_ts to_ts,
       sse_body (fun r => json_dumps (export_record r) +:+ nl)%string rows).
End export.

(** A consumer of NDJSON: one value per line. *)
Definition ndjson_read (body : string) : list (option json) :=
  map (fun l => json_loads (of_codes l)) (sse_lines [] (codes body)).

(** ** The audit trail's body *)

(** A naive time is read as UTC. *)
Definition _to_utc_iso (ts : PyDatetime) : string :=
  isoformat (utc (as_utc ts)).

Definition audit_event_wire (e : AuditEvent) : json :=
  JObj [("seq", JInt (ae_seq e)); ("from_status", opt_json (fun s => JStr (OrderState.value s)) (ae_from_status e));
        ("to_status", JStr (OrderState.value (ae_to_status e))); ("broker_order_id", ae_broker_order_id e);
        ("event_type", JStr (ae_event_type e)); ("occurred_at", JStr (_to_utc_iso (utc (ae_occurred_at e))));
        ("metadata", JObj (ae_metadata e))]%string.

Section audit_body.
Context {R V : Type} `{OrdersSchema}.
Abbreviation M := (M exn (world R V)).

Definition order_audit_body (client_order_id : string) : M json :=
  let* r := order_audit client_order_id in
  let '(broker, symbol, events) := r in
  ret (JObj [("client_order_id", JStr client_order_id); ("broker", JStr (Broker_value broker));
             ("symbol", JStr symbol); ("events", JList (map audit_event_wire events))]%string).
End audit_body.

(** ** The error envelope *)

Definition exn_client_order_id (e : exn) : option string :=
  match e with
  | RiskRejected _ c | PriceBandExceeded c | DuplicateBurstDetected c | OrderNotFound c | IllegalTransition c
  | StoreConstraintViolated c | ConcurrentSubmit c | AmendRejected _ c => c
  | _ => None
  end.

(** [exc.detail]: a [RiskRejected] names its cap ahead of what it was given. *)
Definition exn_detail (detail : list (string * json)) (e : exn) : list (string * json) :=
  match e with
  | RiskRejected cap _ => match jassoc "cap" detail with
                          | Some c => ("cap"%string, c) :: List.filter (fun kv => negb (String.eqb kv.1 "cap")) detail
                          | None => ("cap"%string, JStr cap) :: detail
                          end
  | _ => detail
  end.

(** [_handle_rejection]: registered for [OrderRejectedError] alone; [message] and
    [detail] are what the exception was raised with. *)
Definition _handle_rejection (message : string) (detail : list (string * json)) (e : exn) : option (Z * json) :=
  match exn_code e with
  | None => None
  | Some code =>
      let cid := match exn_client_order_id e with Some c => [("client_order_id", JStr c)]%string | None => [] end in
      let det := match exn_detail detail e with [] => [] | d => [("detail", JObj d)]%string end in
      Some (_status_for e,
            JObj [("error", JObj ([("code", JStr code); ("message", JStr message)] ++ cid ++ det))]%string)
  end.

(** One entry of [exc.errors()]. *)
Record FieldError := { fe_loc : list string; fe_msg : string; fe_type : string }.
Definition _handle_validation (errors : list FieldError) : Z * json :=
  (422, JObj [("error", JObj [("code", JStr "validation_error"); ("message", JStr "request validation failed");
     ("detail", JObj [("errors", JList (map (fun e =>
        JObj [("loc", JList (map JStr (fe_loc e))); ("msg", JStr (fe_msg e)); ("type", JStr (fe_type e))]) errors))])])]%string).

(** What a consumer reads off a body: [body["error"][k]]. *)
Definition error_field (k : string) (body : json) : json :=
  match body with
  | JObj kvs => match jget "error" kvs with JObj e => jget k e | _ => JNull end
  | _ => JNull
  end.
