(* ===== verification/WireProps.v ===== *)
(** * WireProps: what the client reads is what was sent *)

From S2P Require Import Prelude Decimals Contracts Digits Liberator LiberatorProps Json JsonProps PyTime PyIso PyText PyFloat SyntheticId Events Store StoreInv OrderBook Api Streams StreamsProps Wire.
From stdpp Require Import base gmap strings list relations.
From Stdlib Require Import ZArith Lia.
Open Scope Z_scope.

(** ** Text *)

Lemma codes_nl : codes nl = [10].
Proof. reflexivity. Qed.
Lemma codes_nil : codes "" = [].
Proof. reflexivity. Qed.
Create Rewrite HintDb codes.
#[export] Hint Rewrite codes_app codes_nl codes_nil : codes.

Lemma codes_body {F} (frame : F -> string) fs : codes (sse_body frame fs) = concat (map (fun f => codes (frame f)) fs).
Proof. unfold sse_body. induction fs as [|f fs IH]; simpl; [done|]. by rewrite codes_app, IH. Qed.

(** No character below 32: what a line may hold. *)
Definition line_safe (l : list Z) : Prop := Forall (fun c => 32 <= c) l.

Lemma printable_line l : Forall printable l -> line_safe l.
Proof. intros H. eapply Forall_impl; [exact H|]. unfold printable. lia. Qed.

Lemma sse_line l cur rest : line_safe l -> sse_lines cur (l ++ 10 :: rest) = (rev cur ++ l) :: sse_lines [] rest.
Proof.
  intros H. revert cur. induction H as [|c l Hc _ IH]; intros cur; cbn [app sse_lines].
  - by rewrite app_nil_r.
  - rewrite (proj2 (Z.eqb_neq c 10)), (proj2 (Z.eqb_neq c 13)) by lia. rewrite IH. simpl. by rewrite <- app_assoc.
Qed.

Lemma sse_lines_joined ls : Forall line_safe ls -> sse_lines [] (concat (map (fun l => l ++ [10]) ls)) = ls.
Proof.
  induction 1 as [|l ls Hl _ IH]; [done|]. cbn [map concat]. rewrite <- app_assoc. cbn [app].
  rewrite sse_line by done. by rewrite IH.
Qed.

Lemma ascii_codes_app s t : Forall (fun c => c < 128) (codes s) -> Forall (fun c => c < 128) (codes t) ->
  Forall (fun c => c < 128) (codes (s +:+ t)).
Proof. intros. rewrite codes_app. by apply Forall_app_2. Qed.

Lemma digits_ascii s : all_digits (chars s) -> Forall (fun c => c < 128) (codes s).
Proof.
  intros H. apply Forall_fmap. eapply Forall_impl; [exact H|]. intros a Ha. unfold is_digit in Ha. simpl. lia.
Qed.

Ltac ascii := repeat first
  [ apply ascii_codes_app | apply digits_ascii, nat_str_digits | apply digits_ascii, zeros_digits
  | solve [by repeat constructor] ].

Lemma format_f_text d : is_text (format_f d).
Proof.
  apply ascii_is_text. unfold format_f. cbv zeta.
  assert (Hsub : forall i k n m, Forall (fun c => c < 128)
            (codes (String.substring i k (zeros n +:+ nat_str m)))).
  { intros i k n m. apply digits_ascii. rewrite chars_substring, chars_app.
    apply all_digits_take, all_digits_drop, Forall_app. split; [apply zeros_digits|apply nat_str_digits]. }
  repeat case_match; ascii; apply Hsub.
Qed.

Lemma isoformat_text t : is_text (isoformat t).
Proof.
  apply ascii_is_text. unfold codes. apply List.Forall_map. eapply Forall_impl; [apply safe_isoformat|].
  intros a Ha. unfold safe_char in Ha. simpl in *. lia.
Qed.

Lemma to_utc_iso_text t : is_text (_to_utc_iso t).
Proof. apply isoformat_text. Qed.

Lemma state_text s : is_text (OrderState.value s).
Proof. apply ascii_is_text. by destruct s; repeat constructor. Qed.
Lemma status_text s : is_text (PublicOrderStatus.value s).
Proof. apply ascii_is_text. by destruct s; repeat constructor. Qed.
Lemma market_text m : is_text (Market_value m).
Proof. apply ascii_is_text. by destruct m; repeat constructor. Qed.

Lemma literal_text s : forallb (fun c => c <? 128) (codes s) = true -> is_text s.
Proof.
  intros H. apply ascii_is_text, Forall_forall. intros c Hc. rewrite forallb_forall in H.
  rewrite list_elem_of_In in Hc. specialize (H c Hc). lia.
Qed.

Lemma WireDecimal_clean d : clean (WireDecimal d).
Proof. constructor. apply format_f_text. Qed.

#[local] Arguments isoformat : simpl never.
#[local] Arguments _to_utc_iso : simpl never.
Create HintDb wire.
#[export] Hint Constructors clean : wire.
#[export] Hint Resolve WireDecimal_clean format_f_text isoformat_text to_utc_iso_text state_text status_text market_text : wire.
#[export] Hint Extern 1 (is_text _) => (apply literal_text; vm_compute; reflexivity) : wire.

Lemma clean_fields kvs : bool_decide (NoDup (map fst kvs)) = true ->
  Forall (fun kv => is_text kv.1 /\ clean kv.2) kvs -> clean (JObj kvs).
Proof.
  intros Hk%bool_decide_eq_true H. constructor; [done|..]; (eapply Forall_impl; [exact H|]); intros kv [? ?]; done.
Qed.
Lemma clean_opt {A} (f : A -> json) o : (forall x, o = Some x -> clean (f x)) -> clean (opt_json f o).
Proof. destruct o; simpl; eauto with wire. Qed.

Ltac clean_obj := apply clean_fields; [vm_compute; reflexivity|]; repeat (apply Forall_cons_2; [split; [cbn; auto with wire|cbn]|]); [..|apply Forall_nil_2];
  auto with wire.

(** ** Bodies *)

Definition opt_text (o : option string) : Prop := forall s, o = Some s -> is_text s.

(** The strings of an event are text. *)
Definition event_text (e : OrderUpdateEvent) : Prop :=
  is_text (ev_client_order_id e) /\ opt_text (ev_strategy_id e) /\ opt_text (ev_broker_order_id e) /\
  opt_text (fe_broker_fill_id <$> ev_fill e).

Definition row_text (r : ExportRow) : Prop :=
  is_text (oe_client_order_id (xr_event r)) /\ opt_text (xr_strategy_id r) /\ clean (JObj (oe_event (xr_event r))).

Lemma export_record_clean r : row_text r -> clean (export_record r).
Proof.
  intros (Hc & Hs & He). unfold export_record. cbv zeta. clean_obj.
  - apply clean_opt; auto with wire.
  - apply clean_opt; auto with wire.
Qed.

Section stream.
Context (stamp : Z -> string).
Hypothesis stamp_text : forall t, is_text (stamp t).

Lemma event_clean e : event_text e -> clean (event_wire_dump stamp e).
Proof.
  intros (Hc & Hs & Hb & Hf). unfold event_wire_dump. clean_obj; try (apply clean_opt; auto with wire).
  intros f Ef. unfold fill_wire. clean_obj. constructor. apply Hf. by rewrite Ef.
Qed.

Lemma book_clean b : is_text (ob_symbol b) -> clean (book_wire_dump stamp b).
Proof.
  intros Hs. assert (Hl : forall ls, clean (JList (map level_wire ls))).
  { intros ls. constructor. apply Forall_fmap, Forall_true. intros l. unfold level_wire. simpl. clean_obj. }
  unfold book_wire_dump. clean_obj.
Qed.

(** ** Frames *)

(** The frames the client hears of: its event name and its body. *)
Definition frame_body (f : Frame) : option (string * json) :=
  match f with
  | EventFrame e => Some (OrderState.value (ev_engine_state e), event_wire_dump stamp e)
  | ResyncRequired n => Some ("resync_required", JObj [("after_seq", JInt n)])
  | GapFrame n => Some ("gap", JObj [("dropped", JInt n)])
  | KeepAlive => None
  end%string.

Definition frame_lines (f : Frame) : list (list Z) :=
  match f with
  | EventFrame e => [codes "id: " ++ codes (int_str (ev_seq e))]
  | KeepAlive => [codes ": keep-alive"]
  | _ => []
  end ++
  match frame_body f with
  | Some (name, body) => [codes "event: " ++ codes name; codes "data: " ++ dump body]
  | None => []
  end ++ [[]].

Definition frame_ok (f : Frame) : Prop := match f with EventFrame e => event_text e | _ => True end.

Lemma frame_body_clean f name body : frame_ok f -> frame_body f = Some (name, body) -> clean body.
Proof.
  destruct f as [e|n|n|]; simpl; intros Hf [= <- <-]; [by apply event_clean|clean_obj|clean_obj].
Qed.

Lemma frame_text_lines f : frame_ok f ->
  codes (order_frame_text stamp f) = concat (map (fun l => l ++ [10]) (frame_lines f)).
Proof.
  intros Hf. pose proof (frame_body_clean f) as Hc. unfold order_frame_text, frame_lines.
  destruct f as [e|n|n|]; cbn [frame_text frame_body] in *; unfold _event_frame;
    autorewrite with codes; cbn [map concat app]; rewrite ?app_nil_r.
  - rewrite dump_codes by (by eapply Hc). rewrite <- !app_assoc. reflexivity.
  - change (dump _) with (codes "{" ++ (dump_string "after_seq" ++ codes ": " ++ codes (int_str n)) ++ codes "}").
    rewrite <- !app_assoc. reflexivity.
  - change (dump _) with (codes "{" ++ (dump_string "dropped" ++ codes ": " ++ codes (int_str n)) ++ codes "}").
    rewrite <- !app_assoc. reflexivity.
  - reflexivity.
Qed.

Lemma frame_lines_safe f : frame_ok f -> Forall line_safe (frame_lines f).
Proof.
  intros Hf. unfold frame_lines. assert (Hs : forall s, forallb (fun c => 32 <=? c) (codes s) = true -> line_safe (codes s)).
  { intros s H. apply Forall_forall. intros c Hc. rewrite forallb_forall in H. rewrite list_elem_of_In in Hc.
    specialize (H c Hc). lia. }
  assert (Hint : forall z, line_safe (codes (int_str z))).
  { intros z. apply printable_line, numeric_printable, int_codes. }
  apply Forall_app_2; [|apply Forall_app_2; [|repeat constructor]].
  - destruct f; [apply Forall_cons_2; [apply Forall_app_2; [by apply Hs|apply Hint]|constructor]|constructor|constructor|].
    apply Forall_cons_2; [by apply Hs|constructor].
  - destruct (frame_body f) as [[name body]|] eqn:E; [|constructor].
    pose proof (frame_body_clean f name body Hf E) as Hc%dump_printable%printable_line.
    apply Forall_cons_2; [|apply Forall_cons_2; [|constructor]]; (apply Forall_app_2; [by apply Hs|]); [|done].
    apply Hs. destruct f as [e| | |]; simpl in E; [injection E as <- _; by destruct (ev_engine_state e)|..];
      by injection E as <- _ || discriminate.
Qed.

(** The reader between two frames. *)
Definition reader_at (last : list Z) (out : list Message) : Reader :=
  {| rd_data := []; rd_event := []; rd_last_id := last; rd_out := out |}.

(** What a frame gives the client: the id it remembers and the messages it hears. *)
Definition id_after (last : list Z) (f : Frame) : list Z :=
  match f with EventFrame e => codes (int_str (ev_seq e)) | _ => last end.
Definition heard (last : list Z) (f : Frame) : list Message :=
  match frame_body f with
  | Some (name, body) => [{| me_id := last; me_event := codes name; me_data := dump body |}]
  | None => []
  end.

Lemma no_nul z : memb 0 (codes (int_str z)) = false.
Proof.
  apply not_true_is_false. rewrite memb_spec. intros H. destruct (int_codes z) as [Hd _].
  rewrite Forall_forall in Hd. by specialize (Hd _ H).
Qed.

Lemma read_event name body last out : codes name <> [] ->
  fold_left (fun s l => read_line l s) [codes "event: " ++ codes name; codes "data: " ++ body; []] (reader_at last out) =
  reader_at last (out ++ [{| me_id := last; me_event := codes name; me_data := body |}]).
Proof. intros Hn. unfold reader_at. cbn. destruct (codes name); [done|]. reflexivity. Qed.

Lemma read_frame f last out :
  fold_left (fun s l => read_line l s) (frame_lines f) (reader_at last out) =
  reader_at (id_after last f) (out ++ heard (id_after last f) f).
Proof.
  destruct f as [e|n|n|]; unfold frame_lines, heard; cbn [frame_body app].
  - cbn [fold_left]. replace (read_line _ (reader_at last out)) with (reader_at (codes (int_str (ev_seq e))) out).
    + apply read_event. by destruct (ev_engine_state e).
    + change (read_line _ (reader_at last out))
        with (if memb 0 (codes (int_str (ev_seq e))) then reader_at last out
              else reader_at (codes (int_str (ev_seq e))) out). by rewrite no_nul.
  - by apply read_event.
  - by apply read_event.
  - by rewrite app_nil_r.
Qed.

Lemma read_frames fs last out : Forall frame_ok fs ->
  fold_left (fun s l => read_line l s) (concat (map frame_lines fs)) (reader_at last out) =
  reader_at (fold_left id_after fs last)
    (out ++ concat (imap (fun i f => heard (fold_left id_after (take (S i) fs) last) f) fs)).
Proof.
  revert last out. induction fs as [|f fs IH]; intros last out Hf; cbn [map concat fold_left imap].
  - by rewrite app_nil_r.
  - apply Forall_cons in Hf as [Hf Hfs]. rewrite fold_left_app, read_frame, IH by done.
    rewrite <- app_assoc. reflexivity.
Qed.

Lemma sse_read_frames fs : Forall frame_ok fs ->
  sse_read (sse_body (order_frame_text stamp) fs) =
  reader_at (fold_left id_after fs [])
    (concat (imap (fun i f => heard (fold_left id_after (take (S i) fs) []) f) fs)).
Proof.
  intros Hf. unfold sse_read. rewrite codes_body.
  replace (concat (map (fun f => codes (order_frame_text stamp f)) fs))
    with (concat (map (fun l => l ++ [10]) (concat (map frame_lines fs)))).
  - rewrite sse_lines_joined; [by apply (read_frames fs [] [])|].
    rewrite Forall_concat, Forall_fmap. eapply Forall_impl; [exact Hf|]. apply frame_lines_safe.
  - induction Hf as [|f fs Hf _ IH]; [done|]. cbn [map concat]. rewrite map_app, concat_app, IH.
    by rewrite frame_text_lines.
Qed.

(** ** The cursor the client sends back *)

Lemma digits_int l : all_digits l -> l <> [] ->
  forallb (fun a => is_digit a || (char_code a =? 95)) l && underscores_ok false l = true.
Proof.
  intros H _. generalize false. induction H as [|a l Ha _ IH]; intros b; [done|]. cbn [forallb underscores_ok].
  assert ((char_code a =? 95) = false) as -> by (unfold is_digit in Ha; lia). rewrite Ha. apply IH.
Qed.

Lemma py_int_str z : py_int_of_string (int_str z) = Some z.
Proof.
  pose proof (nat_str_digits (Z.abs z)) as Hd. pose proof (nat_str_nonempty (Z.abs z)) as Hn.
  pose proof (nat_str_chars (Z.abs z) ltac:(lia)) as Hv. rewrite <- chars_length in Hn.
  assert (Hne : chars (nat_str (Z.abs z)) <> []) by (intros E; rewrite E in Hn; simpl in Hn; lia).
  assert (Hfold : forall l v, all_digits l -> fold_left (fun acc a => if is_digit a then 10 * acc + (char_code a - 48)
            else acc) l v = digits_from v l).
  { intros l v Hl. revert v. induction Hl as [|a l Ha _ IH]; intros v; [done|]. cbn [fold_left]. rewrite Ha.
    unfold digits_from in *. simpl. apply IH. }
  assert (Hsp : forall a, is_digit a = true -> is_space a = false).
  { intros [[] [] [] [] [] [] [] []]; vm_compute; congruence. }
  assert (chars (int_str z) = (if z <? 0 then [PyText.minus] else []) ++ chars (nat_str (Z.abs z))) as Hc.
  { unfold int_str. destruct (Z.ltb_spec z 0); [rewrite Z.abs_neq by lia|by rewrite Z.abs_eq by lia].
    by rewrite chars_app. }
  unfold py_int_of_string. fold (chars (int_str z)). rewrite Hc, strip_none.
  2:{ apply Forall_app_2; [by destruct (z <? 0); repeat constructor|]. eapply Forall_impl; [exact Hd|]. auto. }
  destruct (Z.ltb_spec z 0).
  - cbn [app take_sign]. change (char_code PyText.minus =? 45) with true. cbv iota.
    rewrite digits_int, Hfold, Hv by done. destruct (chars _); [done|]. f_equal. lia.
  - cbn [app]. rewrite <- (app_nil_r (chars _)), take_sign_digits, app_nil_r by done.
    rewrite digits_int, Hfold, Hv by done. destruct (chars _); [done|]. f_equal. lia.
Qed.

Definition last_id (fs : list Frame) : list Z := fold_left id_after fs [].

Lemma last_id_snoc fs f : last_id (fs ++ [f]) = id_after (last_id fs) f.
Proof. unfold last_id. by rewrite fold_left_app. Qed.

(** The id the client remembers is the seq of the last event it was sent. *)
Lemma last_id_event fs : last_id fs = match last (sent fs) with Some e => codes (int_str (ev_seq e)) | None => [] end.
Proof.
  induction fs as [|f fs IH] using rev_ind; [done|]. rewrite last_id_snoc, sent_app, IH.
  destruct f; simpl; [by rewrite last_snoc|by rewrite app_nil_r..].
Qed.

Lemma messages_bodies fs k : Forall frame_ok fs ->
  map (fun m => (of_codes (me_event m), json_loads (of_codes (me_data m))))
    (concat (imap (fun i f => heard (k i) f) fs)) =
  map (fun p => (p.1, Some p.2)) (omap frame_body fs).
Proof.
  intros Hf. revert k. induction Hf as [|f fs Hf _ IH]; intros k; [done|]. cbn [imap concat]. rewrite map_app.
  cbn [omap list_omap]. unfold heard at 1. pose proof (frame_body_clean f) as Hc.
  change (imap _ fs) with (imap (fun i f => heard (k (S i)) f) fs). rewrite (IH (fun i => k (S i))).
  destruct (frame_body f) as [[name body]|] eqn:E; [|done]. cbn [map app fst snd me_event me_data]. f_equal.
  rewrite of_codes_codes. f_equal. apply loads_dumps. by eapply Hc.
Qed.

(** C15: whatever the order-update route sends, a client following the event-stream
    standard reads back: read the bytes of any sequence of frames and the messages
    are, in order, the events, resync and gap notices sent (keep-alives are not
    heard), each under its event name with a data field that [json.loads] decodes to
    the very body that was dumped; and the [Last-Event-ID] the client would
    reconnect with is parsed by the route as the seq of the last event sent. *)
Theorem client_reads_stream fs : Forall frame_ok fs ->
  let client := sse_read (sse_body (order_frame_text stamp) fs) in
  map (fun m => (of_codes (me_event m), json_loads (of_codes (me_data m)))) (rd_out client) =
    map (fun p => (p.1, Some p.2)) (omap frame_body fs) /\
  forall e request q, last (sent fs) = Some e ->
    request "Last-Event-ID"%string = Some (of_codes (rd_last_id client)) ->
    _parse_cursor request q = Ok (ev_seq e).
Proof.
  intros Hf client. unfold client. rewrite sse_read_frames by done. cbn [reader_at rd_out rd_last_id].
  split; [by apply messages_bodies|]. intros e request q He Hr. unfold _parse_cursor. fold (last_id fs) in Hr.
  rewrite Hr, last_id_event, He, of_codes_codes, py_int_str. done.
Qed.
End stream.

(** ** Reconnecting *)

Section reconnect.
Variables (strategy_id client_order_id : option string).

(** The ids of the strategy's orders, when the stream filters by strategy. *)
Variable mine : string -> bool.

Definition admits_id (e : OrderUpdateEvent) : bool :=
  match client_order_id with Some c => String.eqb (ev_client_order_id e) c | None => true end.

(** What the stream is for: the events of the requested order, or of the strategy's orders. *)
Definition admits (e : OrderUpdateEvent) : bool :=
  admits_id e && match strategy_id with Some _ => mine (ev_client_order_id e) | None => true end.

(** Of the strategy's orders, each event's order is in the seed or was attributed by an
    event of these, itself or an earlier one. *)
Definition attributed (s : string) (seeded : gset string) (l : list OrderUpdateEvent) : Prop :=
  forall pre e post, l = pre ++ e :: post -> mine (ev_client_order_id e) = true ->
    ev_client_order_id e ∈ seeded \/
    exists e', e' ∈ pre ++ [e] /\ ev_client_order_id e' = ev_client_order_id e /\ ev_strategy_id e' = Some s.

(** The seed of a stream opened after [hist] is right for the history [all]: only the
    strategy's orders are seeded or attributed to it, an order with an event in [hist]
    is in the seed or attributed by each such event, and an order that shows up later is
    attributed by the first event that names it. *)
Definition seed_right (seeded : gset string) (hist all : list OrderUpdateEvent) : Prop :=
  match strategy_id with
  | None => True
  | Some s =>
      (forall c, c ∈ seeded -> mine c = true) /\
      (forall e, e ∈ all -> ev_strategy_id e = Some s -> mine (ev_client_order_id e) = true) /\
      (forall e, e ∈ hist -> mine (ev_client_order_id e) = true ->
         ev_client_order_id e ∈ seeded \/ ev_strategy_id e = Some s) /\
      attributed s seeded (drop (length hist) all)
  end.

Lemma emit_attributed s seeded l : strategy_id = Some s ->
  (forall c, c ∈ seeded -> mine c = true) ->
  (forall e, e ∈ l -> ev_strategy_id e = Some s -> mine (ev_client_order_id e) = true) ->
  (forall pre e post, l = pre ++ e :: post -> admits e = true -> ev_client_order_id e ∈ seeded \/
    exists e', e' ∈ pre ++ [e] /\ ev_client_order_id e' = ev_client_order_id e /\ ev_strategy_id e' = Some s) ->
  (emit strategy_id client_order_id l seeded).1 = List.filter admits l.
Proof.
  intros Es. revert seeded. induction l as [|e l IH]; intros seeded Hs Hl Hatt; [done|]. cbn [emit List.filter].
  assert (Htail : forall seeded1, seeded ⊆ seeded1 -> (forall c, c ∈ seeded1 -> mine c = true) ->
    (admits e = true -> ev_strategy_id e = Some s -> ev_client_order_id e ∈ seeded1) ->
    (emit strategy_id client_order_id l seeded1).1 = List.filter admits l).
  { intros seeded1 Hsub Hs1 Hin. apply IH; [done | set_solver|]. intros pre e1 post -> Ha.
    destruct (Hatt (e :: pre) e1 post eq_refl Ha) as [?|(e' & He' & Hc & Hst)]; [set_solver|].
    cbn [app] in He'. apply elem_of_cons in He' as [->|He']; [|eauto]. left. rewrite <- Hc. apply Hin; [|done].
    unfold admits, admits_id in *. by rewrite Hc. }
  assert (Hm : _matches strategy_id client_order_id e seeded =
    if admits e then (true, {[ev_client_order_id e]} ∪ seeded) else (false, seeded)).
  { unfold _matches, admits, admits_id. rewrite Es.
    assert (Hx : bool_decide (ev_strategy_id e = Some s) || bool_decide (ev_client_order_id e ∈ seeded) = true ->
      mine (ev_client_order_id e) = true).
    { intros [?%bool_decide_eq_true_1|?%bool_decide_eq_true_1]%orb_true_iff; [apply Hl; set_solver | auto]. }
    assert (Hy : admits e = true ->
      bool_decide (ev_strategy_id e = Some s) || bool_decide (ev_client_order_id e ∈ seeded) = true).
    { intros Ha. apply orb_true_iff. destruct (Hatt [] e l eq_refl Ha) as [?|(e' & He' & _ & ?)];
        [right | left]; apply bool_decide_eq_true_2; [done|]. apply list_elem_of_singleton in He'. by subst. }
    unfold admits, admits_id in Hy. rewrite Es in Hy.
    destruct client_order_id as [c|]; [destruct (String.eqb _ _)|]; cbn [negb andb] in *; try done;
      destruct (mine _), (_ || _); cbn in *; intuition discriminate. }
  rewrite Hm. destruct (admits e) eqn:Ha.
  - destruct (emit _ _ l _) as [out s2] eqn:E. cbn. f_equal.
    rewrite <- (Htail ({[ev_client_order_id e]} ∪ seeded)); [by rewrite E | set_solver | | set_solver].
    intros c [->%elem_of_singleton|?]%elem_of_union; [|auto].
    unfold admits in Ha. rewrite Es in Ha. by apply andb_true_iff in Ha as [_ ?].
  - destruct (emit _ _ l _) as [out s2] eqn:E. cbn. rewrite <- (Htail seeded); [by rewrite E | done..].
Qed.

(** With the right seed a stream's frames are the events it is for. *)
Lemma emit_admits seeded hist all base taken rest : (base <= length hist)%nat ->
  hist `prefix_of` all -> taken ++ rest = drop base all -> seed_right seeded hist all ->
  (emit strategy_id client_order_id taken seeded).1 = List.filter admits taken.
Proof.
  intros Hb [later ->] Ht Hseed. unfold seed_right in Hseed. destruct strategy_id as [s|] eqn:Es.
  - rewrite <- Es. destruct Hseed as (H1 & H2 & H3 & H4). rewrite drop_app_length in H4.
    rewrite drop_app_le in Ht by done.
    assert (Hin : forall e, e ∈ taken -> e ∈ hist ++ later).
    { intros e He. assert (e ∈ drop base hist ++ later) as Hd by (rewrite <- Ht; set_solver).
      apply elem_of_app in Hd as [Hd|?]; [|set_solver]. apply elem_of_app. left. by apply (subseteq_drop base). }
    apply (emit_attributed s); [done | done | naive_solver|].
    intros pre e post -> Ha. unfold admits in Ha. rewrite Es in Ha. apply andb_true_iff in Ha as [_ Ha].
    rewrite <- app_assoc in Ht. cbn [app] in Ht.
    apply app_eq_inv in Ht as [(k & Hp & Hk)|(k & Hp & Hk)].
    + destruct (H4 k e (post ++ rest)) as [?|(e' & He' & ?)]; [done | done | by left|right].
      exists e'. split; [set_solver | done].
    + destruct k as [|e0 k]; cbn [app] in Hk.
      * destruct (H4 [] e (post ++ rest) (eq_sym Hk) Ha) as [?|(e' & He' & ?)]; [by left|right].
        exists e'. split; [set_solver | done].
      * injection Hk as -> Hk. destruct (H3 e0) as [?|?]; [|done|by left|right; exists e0; set_solver].
        apply (subseteq_drop base). rewrite Hp. set_solver.
  - clear -Es. revert seeded. induction taken as [|e l IH]; intros seeded; [done|].
    cbn [emit List.filter]. specialize (IH seeded).
    assert (Ha : admits e = admits_id e) by (unfold admits; rewrite Es; apply andb_true_r).
    assert (Hm : _matches None client_order_id e seeded = (admits_id e, seeded))
      by (unfold _matches, admits_id; destruct client_order_id; [by destruct (String.eqb _ _) | done]).
    rewrite Hm, Ha. destruct (emit _ _ l seeded) as [out s2]. simpl in *. by destruct (admits_id e); rewrite <- IH.
Qed.

(** A hub a stream can be opened on. *)
Record hub_ready (h : EventHub) (hist : list OrderUpdateEvent) : Prop := {
  hr_hist : hub_hist h hist;
  hr_queue : 0 < hub_queue_size h;
  hr_ring : (0 < hub_ring_size h)%nat;
  hr_ids : Forall (fun s => (sub_id s < hub_next_id h)%nat) (hub_subs h);
}.

(** A connection: opened at [after] with the seed the route read, run to [r] without a
    resync or a gap. *)
Record connection (seeded : gset string) (h : EventHub) (hist : list OrderUpdateEvent) (after : Z)
    (r : Run) : Prop := {
  cn_ready : hub_ready h hist;
  cn_run : exists frames st h1, stream_open strategy_id client_order_id after seeded h = (frames, st, h1) /\
    (forall n, ResyncRequired n ∉ frames) /\
    rtc (run_step strategy_id client_order_id)
      {| rn_hub := h1; rn_hist := hist; rn_stream := st; rn_out := frames |} r;
  cn_no_gap : forallb (fun f => negb (is_gap f)) (rn_out r) = true;
  cn_no_pending : forall s, find_sub (sm_id (rn_stream r)) (rn_hub r) = Some s -> sub_gap_pending s = false;
  cn_seed : seed_right seeded hist (rn_hist r);
}.

(** What is still queued for the connection. *)
Definition pending (r : Run) : list OrderUpdateEvent :=
  match find_sub (sm_id (rn_stream r)) (rn_hub r) with Some s => queued s | None => [] end.

Lemma connection_taken seeded h hist after r : connection seeded h hist after r ->
  exists base taken more, rn_hist r = hist ++ more /\ (base <= length (rn_hist r))%nat /\
    hub_hist (rn_hub r) (rn_hist r) /\
    sent (rn_out r) = List.filter admits taken /\ taken ++ pending r = drop base (rn_hist r) /\
    (after <= 0 -> base = length hist) /\ (0 < after <= Z.of_nat (length hist) -> base = Z.to_nat after).
Proof.
  intros [[Hh Hq Hz Hi] (frames & st & h1 & Hopen & Hno & Hrun) Hg Hp Hseed].
  destruct (stream_runs _ _ _ _ _ _ _ _ _ _ Hh Hq Hz Hi Hopen Hrun)
    as (n & s & taken & Eid & Hinv & Hn & Hb1 & Hb2).
  destruct (run_step_hist _ _ _ _ Hrun) as [more Hm]. cbn [rn_hist] in Hm. destruct Hinv. exists n, taken, more.
  unfold pending. rewrite ri_sub. specialize (ri_all Hg (Hp s ri_sub)).
  split_and!; auto. rewrite ri_sent. eapply (emit_admits seeded hist (rn_hist r)); [done | | done..].
  rewrite Hm. by eexists.
Qed.

Lemma last_filter_split {A} (p : A -> bool) l x : last (List.filter p l) = Some x ->
  exists pre post, l = pre ++ x :: post /\ List.filter p post = [].
Proof.
  induction l as [|a l IH] using rev_ind; simpl; [done|]. rewrite List.filter_app. simpl. destruct (p a) eqn:E.
  - rewrite last_snoc. intros [= ->]. by exists l, [].
  - rewrite app_nil_r. intros (pre & post & -> & Hp)%IH. exists pre, (post ++ [a]).
    rewrite <- app_assoc. split; [done|]. by rewrite List.filter_app, Hp; simpl; rewrite E.
Qed.

(** C14: a reconnect loses nothing and repeats nothing, within one life of the process.
    A client reads a stream filtered by order, by strategy, by both or not at all, is
    cut off at any point, and reconnects with the [Last-Event-ID] its reader kept (or,
    having heard no event, with its first cursor), while the engine goes on
    publishing.  What the two connections sent, followed by what the second still has
    queued, is exactly the published events past the first one's starting point that
    the filter admits, each once and in order, for as long as neither was told of a gap
    or a resync.  By strategy, [admits] is independent of the remembered ids: it is the
    events of the strategy's orders, given at each opening the seed the durable read
    gives ([seed_right], the two seeds may differ).  A live-only stream cut before its
    first event has no cursor to come back with and is not covered. *)
Theorem reconnect_loses_nothing stamp (stamp_text : forall t, is_text (stamp t))
    seeded h hist request q after r1 seeded2 h2 more request2 cursor r2 :
  _parse_cursor request q = Ok after -> connection seeded h hist after r1 ->
  Forall frame_ok (rn_out r1) -> sent (rn_out r1) <> [] \/ 0 < after ->
  request2 "Last-Event-ID"%string =
    (if decide (sent (rn_out r1) = []) then request "Last-Event-ID"%string
     else Some (of_codes (rd_last_id (sse_read (sse_body (order_frame_text stamp) (rn_out r1)))))) ->
  _parse_cursor request2 q = Ok cursor ->
  connection seeded2 h2 (rn_hist r1 ++ more) cursor r2 ->
  exists base,
    sent (rn_out r1) ++ sent (rn_out r2) ++ List.filter admits (pending r2) =
      List.filter admits (drop base (rn_hist r2)) /\
    (after <= 0 -> base = length hist) /\ (0 < after <= Z.of_nat (length hist) -> base = Z.to_nat after).
Proof.
  intros Hfirst H1 Hok Hne Hreq Hcur H2.
  destruct (connection_taken _ _ _ _ _ H1) as (b1 & t1 & m1 & Hm1 & Hb1 & Hh1 & Hs1 & Ht1 & Hbase).
  destruct (connection_taken _ _ _ _ _ H2) as (b2 & t2 & m2 & Hm2 & _ & _ & Hs2 & Ht2 & _ & Hb2).
  case_decide as Hnil.
  { exists b2. rewrite Hnil in Hne |- *. destruct Hne as [?|Hpos]; [done|].
    assert (cursor = after) as -> by (unfold _parse_cursor in *; rewrite Hreq in Hcur; congruence).
    cbn [app]. rewrite Hs2, <- List.filter_app, Ht2. split; [done|]. split; [lia|].
    intros [_ Hle]. apply Hb2. rewrite length_app, Hm1, length_app. lia. }
  destruct (last (sent (rn_out r1))) as [e|] eqn:He; [|by apply last_None in He].
  rewrite sse_read_frames in Hreq by done. cbn [reader_at rd_last_id] in Hreq. fold (last_id (rn_out r1)) in Hreq.
  unfold _parse_cursor in Hcur. rewrite Hreq, last_id_event, He, of_codes_codes, py_int_str in Hcur.
  injection Hcur as <-. rewrite Hs1 in He. apply last_filter_split in He as (pre & post & -> & Hpost).
  assert (Hi : rn_hist r1 !! (b1 + length pre)%nat = Some e).
  { rewrite <- lookup_drop, <- Ht1, <- app_assoc, lookup_app_r by lia. by rewrite Nat.sub_diag. }
  pose proof (lookup_lt_Some _ _ _ Hi) as Hlt. pose proof (hh_seq _ _ Hh1 _ _ Hi) as Hseq.
  exists b1. split; [|done]. rewrite Hb2 in Ht2 by (rewrite length_app; lia).
  assert (Hd : drop b1 (rn_hist r2) = pre ++ e :: post ++ pending r1 ++ more ++ m2).
  { rewrite Hm2, <- app_assoc, drop_app_le, <- Ht1 by lia. by rewrite <- !app_assoc. }
  assert (Hd2 : drop (Z.to_nat (ev_seq e)) (rn_hist r2) = post ++ pending r1 ++ more ++ m2).
  { replace (Z.to_nat (ev_seq e)) with (b1 + S (length pre))%nat by lia. rewrite <- drop_drop, Hd.
    rewrite drop_app_ge by lia. by replace (S (length pre) - length pre)%nat with 1%nat by lia. }
  rewrite Hs1, Hs2, <- List.filter_app, Ht2, Hd2, Hd, <- List.filter_app.
  rewrite <- app_assoc. cbn [app]. rewrite !List.filter_app. cbn [List.filter]. rewrite !List.filter_app, Hpost.
  done.
Qed.
End reconnect.

(** ** Book streams and the export *)

Lemma joined_lines {A} (g : A -> list Z) l : Forall (fun x => line_safe (g x)) l ->
  sse_lines [] (concat (map (fun x => g x ++ [10]) l)) = map g l.
Proof.
  intros H. rewrite <- (sse_lines_joined (map g l)) by (by apply Forall_fmap). by rewrite map_map.
Qed.

(** C29: the NDJSON export is one JSON value per line, the lines are the selected rows
    in order, and each line decodes to its row: no string of a row, an operator's
    note or a venue's message with line breaks in it, can break the framing. *)
Theorem export_reads_back {R V} `{OrdersSchema} (w : world R V) instant from_ts to_ts strategy_id :
  (forall r, r ∈ export_join (w_db w) -> row_text r) ->
  exists rows name body,
    stream_order_events (instant <$> from_ts) (instant <$> to_ts) strategy_id w = (Ok rows, w) /\
    audit_export instant from_ts to_ts strategy_id w = (Ok (name, body), w) /\
    ndjson_read body = map (fun r => Some (export_record r)) rows.
Proof.
  intros Htext. eexists _, _, _. split; [reflexivity|]. split; [reflexivity|].
  unfold ndjson_read. rewrite codes_body.
  set (rows := List.filter _ _).
  assert (Hc : Forall (fun r => clean (export_record r)) rows).
  { apply Forall_forall. intros r Hr. apply export_record_clean, Htext. unfold rows in Hr.
    rewrite list_elem_of_In, filter_In, <- list_elem_of_In in Hr. apply Hr. }
  replace (map (fun r => codes _) rows) with (map (fun r => dump (export_record r) ++ [10]) rows).
  - rewrite joined_lines, map_map.
    + clear Htext. induction Hc as [|r l Hr _ IH]; [done|]. cbn [map]. f_equal; [by apply loads_dumps|done].
    + eapply Forall_impl; [exact Hc|]. intros r Hr. by apply printable_line, dump_printable.
  - clear Htext. induction Hc as [|r l Hr _ IH]; [done|]. cbn [map]. f_equal; [|done].
    rewrite codes_app. f_equal. by rewrite dump_codes.
Qed.

(** What was written to a JSONB column is what is read from it. *)
Lemma jsonb_round_trip j : clean j -> decode_jsonb (JStr (json_dumps j)) = Ok j.
Proof. intros Hj. unfold decode_jsonb. by rewrite loads_dumps. Qed.

(** What a subscriber of a book hears. *)
Lemma client_reads_books stamp (stamp_text : forall t, is_text (stamp t)) bs :
  Forall (fun f => match f with BookData b => is_text (ob_symbol b) | BookKeepAlive => True end) bs ->
  map (fun m => json_loads (of_codes (me_data m))) (rd_out (sse_read (sse_body (book_frame_text stamp) bs))) =
  map (fun b => Some (book_wire_dump stamp b))
    (omap (fun f => match f with BookData b => Some b | BookKeepAlive => None end) bs).
Proof.
  intros H. unfold sse_read. rewrite codes_body.
  set (lines f := match f with BookData b => [codes "data: " ++ dump (book_wire_dump stamp b)]
                  | BookKeepAlive => [codes ": keep-alive"] end ++ [[]]).
  replace (concat (map (fun f => codes (book_frame_text stamp f)) bs))
    with (concat (map (fun l => l ++ [10]) (concat (map lines bs)))).
  - rewrite sse_lines_joined.
    + enough (Hout : forall out, map (fun m => json_loads (of_codes (me_data m)))
        (rd_out (fold_left (fun s l => read_line l s) (concat (map lines bs)) (reader_at [] out))) =
        map (fun m => json_loads (of_codes (me_data m))) out ++ map (fun b => Some (book_wire_dump stamp b))
          (omap (fun f => match f with BookData b => Some b | BookKeepAlive => None end) bs)) by apply (Hout []).
      induction H as [|f bs Hf _ IH]; intros out; cbn [map concat fold_left].
      * by rewrite app_nil_r.
      * rewrite fold_left_app. destruct f as [b|].
        -- change (fold_left _ (lines (BookData b)) (reader_at [] out)) with (reader_at [] (out ++
             [{| me_id := []; me_event := codes "message"; me_data := dump (book_wire_dump stamp b) |}])).
           rewrite IH, map_app, <- app_assoc. cbn [omap list_omap map app me_data]. do 2 f_equal.
           by apply loads_dumps, book_clean.
        -- apply IH.
    + rewrite Forall_concat, Forall_fmap. eapply Forall_impl; [exact H|]. intros [b|] Hb.
      * apply Forall_cons_2; [|by repeat constructor]. apply Forall_app_2; [by repeat constructor|].
        by apply printable_line, dump_printable, book_clean.
      * by repeat constructor.
  - induction H as [|f bs Hf _ IH]; [done|]. cbn [map concat]. rewrite map_app, concat_app, IH. f_equal.
    destruct f as [b|]; [|reflexivity]. cbn [book_frame_text]. unfold _sse_frame. autorewrite with codes.
    rewrite dump_codes by (by apply book_clean). cbn [lines app map concat]. rewrite <- !app_assoc. reflexivity.
Qed.

(** ** The error envelope *)

Definition TYPED_STATUSES : list Z := [403; 404; 409; 422; 429; 501; 503].

(** the error contract.  An exception is answered through the envelope exactly
    when it is one of the typed rejections, and then: the status is never the 400
    default nor a 500, so no rejection is missing from the table; it is 429 exactly
    for the rate cap; the body carries the rejection's stable code, the message, the
    order's id when the exception names one and [null] otherwise; a risk rejection's
    detail names its cap; and no rejection can be taken for a validation error. *)
Theorem rejections_typed message detail e :
  (is_Some (_handle_rejection message detail e) <-> is_Some (exn_code e)) /\
  forall status body, _handle_rejection message detail e = Some (status, body) ->
    status ∈ TYPED_STATUSES /\
    (status = 429 <-> exists c, e = RiskRejected "rate_limit" c) /\
    error_field "code" body = opt_json JStr (exn_code e) /\
    error_field "code" body <> error_field "code" (_handle_validation []).2 /\
    error_field "message" body = JStr message /\
    error_field "client_order_id" body = opt_json JStr (exn_client_order_id e) /\
    (forall cap c, e = RiskRejected cap c -> jassoc "cap" detail = None ->
       exists d, error_field "detail" body = JObj d /\ jget "cap" d = JStr cap).
Proof.
  unfold _handle_rejection. split.
  { destruct (exn_code e); split; by intros [? ?]. }
  intros status body. destruct (exn_code e) as [code|] eqn:E; [|done]. intros [= <- <-].
  assert (Hf : forall k l, error_field k (JObj [("error"%string, JObj l)]) = jget k l) by done.
  rewrite !Hf. split; [|split; [|split; [done|split; [|split; [done|split]]]]].
  - destruct e; try discriminate E; simpl in E; injection E as <-; try (vm_compute; set_solver).
    unfold _status_for. case_match; vm_compute; set_solver.
  - destruct e; try discriminate E; simpl in E; injection E as <-;
      try (split; [vm_compute; congruence|by intros [? [=]]]).
    unfold _status_for. destruct (String.eqb_spec cap "rate_limit") as [->|Hn]; [split; [by eexists|done]|].
    split; [vm_compute; congruence|]. by intros [? [=]].
  - destruct e; try discriminate E; simpl in E; injection E as <-; discriminate.
  - by destruct (exn_client_order_id e), (exn_detail detail e).
  - intros cap c -> Hno. unfold exn_detail. rewrite Hno. simpl. eexists. split; [by destruct c|done].
Qed.
