(* ===== verification/WireExamples.v ===== *)
(** * WireExamples: concrete streams read by a client *)

From S2P Require Import Prelude Decimals Contracts PyTime PyIso Json JsonProps PyText Events Store StoreProps Cache RouterExamples Api Streams StreamsProps Wire WireProps.
From stdpp Require Import base gmap strings list relations.
From Stdlib Require Import ZArith Lia.
Open Scope Z_scope.

Lemma ex_event_text n : event_text (ex_event n).
Proof. split_and!; [apply literal_text; vm_compute; reflexivity|done..]. Qed.

(** A resync notice, two events around a keep-alive, and the cursor sent back. *)
Definition ex_frames : list Frame := [ResyncRequired 1; EventFrame (ex_event 2); KeepAlive; EventFrame (ex_event 7)].

Lemma client_reads_stream_witness :
  let client := sse_read (sse_body (order_frame_text (fun us => isoformat (utc us))) ex_frames) in
  map (fun m => of_codes (me_event m)) (rd_out client) = ["resync_required"; "NEW"; "NEW"]%string /\
  _parse_cursor (fun _ => Some (of_codes (rd_last_id client))) None = Ok 7.
Proof.
  destruct (client_reads_stream (fun us => isoformat (utc us)) (fun us => isoformat_text (utc us)) ex_frames) as [Hm Hc].
  { repeat constructor; apply ex_event_text. }
  split.
  - apply (f_equal (map fst)) in Hm. rewrite !map_map in Hm. exact Hm.
  - by apply (Hc (ex_event 7)).
Defined.

(** ** A reconnect *)

Definition opened_at (seeded : gset string) (after : Z) (h : EventHub) (hist : list OrderUpdateEvent) : Run :=
  let '(frames, st, h1) := stream_open (Some "s1"%string) None after seeded h in
  {| rn_hub := h1; rn_hist := hist; rn_stream := st; rn_out := frames |}.

(** The strategy's orders: A, there from the start, and B, first seen between the two
    connections; C is another strategy's. *)
Definition ex_mine (c : string) : bool := memb c ["A"; "B"]%string.
Definition ex_seed : gset string := {["A"]}%string.
Definition ex_seed_later : gset string := {["A"; "B"]}%string.

Definition ex_hist : list OrderUpdateEvent := [ex_event 1; ex_event 2; ex_event 3].
Definition ex_first : Run := opened_at ex_seed 1 (ex_hub 3) ex_hist.
Definition ex_hub_b : EventHub := publish (ex_hub 3) 0 "B" OrderState.NEW None None None None None.
Definition ex_hub_later : EventHub := publish ex_hub_b 0 "C" OrderState.NEW None None None None None.
Definition ex_missed : list OrderUpdateEvent :=
  [publish_event (ex_hub 3) 0 "B" OrderState.NEW None None None None None;
   publish_event ex_hub_b 0 "C" OrderState.NEW None None None None None].
Definition ex_second : Run := opened_at ex_seed_later 3 ex_hub_later (ex_hist ++ ex_missed).

Abbreviation ex_connection := (connection (Some "s1"%string) None ex_mine).

Lemma ex_seed_right seeded hist :
  (forall c, c ∈ seeded -> ex_mine c = true) ->
  Forall (fun e => ev_strategy_id e = None /\ (ex_mine (ev_client_order_id e) = true -> ev_client_order_id e ∈ seeded)) hist ->
  seed_right (Some "s1"%string) ex_mine seeded hist hist.
Proof.
  intros Hs Hh. rewrite Forall_forall in Hh. simpl. rewrite drop_all. split_and!; [done| | |].
  - intros e He E. destruct (Hh e He). congruence.
  - intros e He Hm. left. by apply (Hh e He).
  - intros pre e post E. by destruct pre.
Qed.

Lemma ex_first_connection : ex_connection ex_seed (ex_hub 3) ex_hist 1 ex_first.
Proof.
  split.
  - split; [exact ex_hub_hist|simpl; lia|simpl; lia|constructor].
  - eexists _, _, _. split; [reflexivity|]. split; [|apply rtc_refl].
    intros n [i Hi]%list_elem_of_lookup. by destruct i as [|[|i]].
  - reflexivity.
  - intros s Hs. vm_compute in Hs. by injection Hs as <-.
  - apply ex_seed_right; [intros c ->%elem_of_singleton; reflexivity|].
    repeat (apply Forall_cons_2; [split; [reflexivity | intros _; apply elem_of_singleton; reflexivity]|]). constructor.
Qed.

Lemma ex_second_connection : ex_connection ex_seed_later ex_hub_later (rn_hist ex_first ++ ex_missed) 3 ex_second.
Proof.
  split.
  - split; [|simpl; lia|simpl; lia|constructor].
    exact (hub_hist_publish _ _ 0 "C" OrderState.NEW None None None None None
      (hub_hist_publish _ _ 0 "B" OrderState.NEW None None None None None ex_hub_hist)).
  - eexists _, _, _. split; [reflexivity|]. split; [|apply rtc_refl].
    intros n [i Hi]%list_elem_of_lookup. by destruct i as [|[|i]].
  - reflexivity.
  - intros s Hs. vm_compute in Hs. by injection Hs as <-.
  - apply ex_seed_right; [set_unfold; intros c [->| ->]; reflexivity|].
    repeat (apply Forall_cons_2; [split; [reflexivity |
      first [discriminate | intros _; set_unfold; auto]]|]). constructor.
Qed.

(** Events 2 and 3 on the first connection; of the two published in between, B's on the
    second and C's not. *)
Lemma reconnect_loses_nothing_witness :
  exists base, sent (rn_out ex_first) ++ sent (rn_out ex_second) ++
      List.filter (admits (Some "s1"%string) None ex_mine) (pending ex_second) =
    List.filter (admits (Some "s1"%string) None ex_mine) (drop base (rn_hist ex_second)) /\ base = 1%nat /\
    map ev_seq (sent (rn_out ex_first) ++ sent (rn_out ex_second)) = [2; 3; 4] /\
    length (rn_hist ex_second) = 5%nat.
Proof.
  destruct (reconnect_loses_nothing (Some "s1"%string) None ex_mine (fun us => isoformat (utc us))
    (fun us => isoformat_text (utc us)) ex_seed (ex_hub 3) ex_hist (fun _ => None) (Some 1) 1 ex_first
    ex_seed_later ex_hub_later ex_missed (fun _ => Some (of_codes (rd_last_id (sse_read
       (sse_body (order_frame_text (fun us => isoformat (utc us))) (rn_out ex_first)))))) 3 ex_second
    eq_refl ex_first_connection) as (base & He & _ & Hb).
  - change (Forall frame_ok [EventFrame (ex_event 2); EventFrame (ex_event 3)]).
    apply Forall_cons_2; [apply ex_event_text|]. apply Forall_cons_2; [apply ex_event_text|constructor].
  - left. discriminate.
  - reflexivity.
  - vm_compute. reflexivity.
  - exact ex_second_connection.
  - exists base. specialize (Hb ltac:(simpl; lia)). subst base. split; [exact He|]. repeat split.
Defined.

(** ** An export *)

Lemma export_reads_back_witness :
  exists rows name body, audit_export as_utc None None None ex_w1 = (Ok (name, body), ex_w1) /\
    ndjson_read body = map (fun r => Some (export_record r)) rows /\ (2 <= length rows)%nat /\
    name = "audit_all_all.ndjson"%string.
Proof.
  destruct (export_reads_back ex_w1 as_utc None None None) as (rows & name & body & Hr & Ha & Hb).
  - apply Forall_forall. let l := eval vm_compute in (export_join (w_db ex_w1)) in
      change (Forall row_text l).
    repeat (apply Forall_cons_2; [split_and!|]); [..|constructor].
    all: try (apply literal_text; vm_compute; reflexivity).
    all: try (intros s Hs; cbn in Hs; first [discriminate Hs | injection Hs as <-; apply literal_text; vm_compute; reflexivity]).
    all: cbn; clean_obj.
  - exists rows, name, body. split; [exact Ha|]. split; [exact Hb|].
    vm_compute in Hr. injection Hr as <-. split; [simpl; lia|]. vm_compute in Ha. by injection Ha as <- _.
Defined.
