(* ===== verification/EngineIO.v ===== *)
(** * EngineIO: the order-book feed's frames
    ([order_book/providers/_engineio.py] and the parsing half of
    [order_book/providers/liberator.py]). *)

From S2P Require Import Prelude Decimals Contracts Digits Json OrderBook Adapters Liberator PyFloat StreamingPro Transport Streams.
From stdpp Require Import base strings list.
From Stdlib Require Import ZArith QArith Lia.
Open Scope string_scope.
Open Scope Z_scope.

Definition DEFAULT_NAMESPACES : list string :=
  ["MarketStatusV2"; "TFEXDashboardV2"; "MarketIndexV2"; "StockV2"; "TickerV2"].
Definition BID_OFFER_NS : string := "BidOfferV2".

Inductive FrameKind := FOpen | FPing | FEvent | FOther.

Record EventFrame := { ef_namespace : string; ef_name : string; ef_arg : json }.

(** ** Packets the client sends *)

Definition connect_default_packet : string := "40".
Definition connect_namespace_packet (namespace : string) : string := "40/" +:+ namespace +:+ ",".
Definition pong_packet : string := "3".

(** [json.dumps([a, b])] of two strings without a character to escape. *)
Definition dumps_pair (a b : string) : string :=
  "[" +:+ dq +:+ a +:+ dq +:+ ", " +:+ dq +:+ b +:+ dq +:+ "]".
Definition id_list (ids : list Z) : string := "[" +:+ py_join "," (map int_str ids) +:+ "]".

Definition join_rooms_packet (order_book_ids : list Z) : string :=
  "42/" +:+ BID_OFFER_NS +:+ "," +:+ dumps_pair "join" (id_list order_book_ids).
Definition leave_room_packet (order_book_id : Z) : string :=
  "42/" +:+ BID_OFFER_NS +:+ "," +:+ dumps_pair "leave" (id_list [order_book_id]).

(** ** Frames the server sends *)

(** [raw.startswith(p)] and, when it does, the rest. *)
Fixpoint after_prefix (p raw : string) : option string :=
  match p, raw with
  | EmptyString, _ => Some raw
  | String a p', String b raw' => if Ascii.eqb a b then after_prefix p' raw' else None
  | String _ _, EmptyString => None
  end.
Definition startswith (raw p : string) : bool := bool_decide (is_Some (after_prefix p raw)).

Definition classify (raw : string) : FrameKind :=
  if String.eqb raw "2" then FPing
  else if startswith raw "0" && negb (startswith raw "40") then FOpen
  else if startswith raw "42" then FEvent
  else FOther.

(** The text before the first comma and the text after it. *)
Fixpoint cut_comma (s : string) : option (string * string) :=
  match s with
  | EmptyString => None
  | String a s' =>
      if char_code a =? 44 then Some ("", s')
      else match cut_comma s' with
           | Some (x, y) => Some (String a x, y)
           | None => None
           end
  end.

Definition decode_body (namespace body : string) : option EventFrame :=
  match json_loads body with
  | Some (JList (JStr name :: args)) =>
      Some {| ef_namespace := namespace; ef_name := name; ef_arg := default JNull (head args) |}
  | _ => None
  end.

Definition decode_event (raw : string) : option EventFrame :=
  match after_prefix "42" raw with
  | None => None
  | Some body =>
      match after_prefix "/" body with
      | None => decode_body "/" body
      | Some rest => match cut_comma rest with
                     | None => None
                     | Some (namespace, body) => decode_body namespace body
                     end
      end
  end.
(** ** The BidOfferV2 payload *)

(** [Decimal(str(raw))] with Python's special values. *)
Inductive WirePrice := PFinite (d : Decimal) | PNaN | PInfinity | PMinusInfinity | PInvalid.

Definition is_nan_word (w : string) : bool :=
  match after_prefix "NAN" w, after_prefix "SNAN" w with
  | Some ds, _ | None, Some ds => forallb is_digit (String.list_ascii_of_string ds)
  | None, None => false
  end.

Definition wire_price (raw : json) : WirePrice :=
  let s := py_str raw in
  match decimal_of_string s with
  | Some d => PFinite d
  | None =>
      let '(sign, word) := take_sign (List.filter (fun a => negb (char_code a =? 95))
                             (strip_with is_space (String.list_ascii_of_string s))) in
      let word := py_upper (String.string_of_list_ascii word) in
      if memb word ["INF"; "INFINITY"] then if sign =? 1 then PInfinity else PMinusInfinity
      else if is_nan_word word then PNaN
      else PInvalid
  end.

Example wire_price_1 : wire_price (JStr "25.50") = PFinite (Dec 2550 (-2)).
Proof. reflexivity. Qed.
Example wire_price_2 : wire_price (JStr "-Infinity") = PMinusInfinity.
Proof. reflexivity. Qed.
Example wire_price_3 : wire_price (JFloat "nan") = PNaN.
Proof. reflexivity. Qed.
Example wire_price_4 : wire_price JNull = PInvalid.
Proof. reflexivity. Qed.

(** [int(raw)]: [Ok None] for a [TypeError] or [ValueError]; an infinity raises
    [OverflowError]. *)
Definition wire_int (raw : json) : result exn (option Z) :=
  match raw with
  | JInt z => Ok (Some z)
  | JBool b => Ok (Some (if b then 1 else 0))
  | JStr s => Ok (py_int_of_string s)
  | JFloat r => int_float r
  | _ => Ok None
  end.

(** One level of the zip: [Ok None] when it is skipped.  A NaN cannot be ordered
    and an infinite price does not validate. *)
Definition wire_level (raw_price raw_volume : json) : result exn (option OrderBookLevel) :=
  let level d :=
    result_bind (wire_int raw_volume) (fun volume =>
      Ok (Some {| obl_price := d; obl_volume := Z.max (default 0 volume) 0 |})) in
  match wire_price raw_price with
  | PInvalid | PMinusInfinity => Ok None
  | PNaN => Err InvalidOperation
  | PInfinity => result_bind (wire_int raw_volume) (fun _ => Err ValidationError)
  | PFinite d => if dec_leb d dec_zero then Ok None else level d
  end.

Fixpoint zip_levels (prices volumes : list json) : result exn (list OrderBookLevel) :=
  match prices, volumes with
  | p :: prices', v :: volumes' =>
      result_bind (wire_level p v) (fun l =>
      result_bind (zip_levels prices' volumes') (fun ls =>
        Ok (match l with Some l => l :: ls | None => ls end)))
  | _, _ => Ok []
  end.

Definition _price_volume_levels (prices volumes : json) : result exn (list OrderBookLevel) :=
  match prices, volumes with
  | JList ps, JList vs => zip_levels ps vs
  | _, _ => Ok []
  end.

Record ParsedBook := {
  pb_room : Z;
  pb_sequence : Z;
  pb_bids : list OrderBookLevel;
  pb_asks : list OrderBookLevel;
}.

Definition parse_bid_offer_payload (payload : list (string * json)) : result exn (option ParsedBook) :=
  match jget "room" payload with
  | JNull => Ok None
  | room_raw =>
      result_bind (wire_int room_raw) (fun room =>
      match room with
      | None => Ok None
      | Some room =>
          result_bind (wire_int (default (JInt 0) (jassoc "vs" payload))) (fun sequence =>
          result_bind (_price_volume_levels (jget "bp" payload) (jget "bv" payload)) (fun bids =>
          result_bind (_price_volume_levels (jget "op" payload) (jget "ov" payload)) (fun asks =>
            Ok (Some {| pb_room := room; pb_sequence := default 0 sequence;
                        pb_bids := bids; pb_asks := asks |}))))
      end)
  end.

(** The payload of an update event of the feed's namespace. *)
Definition bid_offer_update (event : option EventFrame) : option (list (string * json)) :=
  match event with
  | Some {| ef_namespace := ns; ef_name := name; ef_arg := JObj payload |} =>
      if String.eqb ns BID_OFFER_NS && String.eqb name "update" then Some payload else None
  | _ => None
  end.

Definition parse_bid_offer_frame (raw : string)
    : result exn (option ParsedBook) :=
  match bid_offer_update (decode_event raw) with
  | Some payload => parse_bid_offer_payload payload
  | None => Ok None
  end.

(** An update event as the feed sends it. *)
Definition update_frame (payload : list (string * json)) : string :=
  ("42/" +:+ BID_OFFER_NS +:+ "," +:+ json_dumps (JList [JStr "update"; JObj payload]))%string.

(** ** The two HTTP reads *)

(** [POST /ws-ticket]: the socket's URL, or [None] for [TicketAcquisitionError]. *)
Definition _acquire_ticket (outcome : HttpOutcome) : option string :=
  match outcome with
  | Answered {| rs_status_code := code; rs_json := Some (JObj body) |} =>
      if code =? 200 then py_str <$> jassoc "ws_url" body else None
  | _ => None
  end.

(** [GET /order-book/{symbol}]: the room id, or [Ok None] for
    [SymbolResolutionError]; an infinite id raises [OverflowError]. *)
Definition _resolve_order_book_id (outcome : HttpOutcome) : result exn (option Z) :=
  match outcome with
  | Answered {| rs_status_code := code; rs_json := Some (JObj body) |} =>
      if code =? 200
      then match jassoc "orderBookId" body with Some raw => wire_int raw | None => Ok None end
      else Ok None
  | _ => Ok None
  end.

(** ** Reconnect backoff *)

Definition _BACKOFF_BASE : Q := 1.
Definition _BACKOFF_CAP : Q := 60.

(** [_BACKOFF_BASE * (2 ** (attempt - 1))] is a float times an int, which raises
    [OverflowError] when the int is past the largest float.  Seconds, with
    [random] the value of [random.random()]. *)
Definition _backoff_delay (attempt : Z) (random : Q) : result exn Q :=
  if 1024 <=? attempt - 1 then Err (OtherError "OverflowError")
  else
    let power := inject_Z (2 ^ (attempt - 1)) in
    let base := (if Qle_bool (_BACKOFF_BASE * power) _BACKOFF_CAP
                 then _BACKOFF_BASE * power else _BACKOFF_CAP)%Q in
    Ok (base * ((1 # 2) + random))%Q.
