(* ===== verification/BookProvider.v ===== *)
(** * BookProvider: the Liberator order-book feed
    ([order_book/providers/liberator.py])

    The provider's methods and its reader task run on one event loop: a step is
    what runs between two awaits.  [_Subscription] objects live in a heap, because
    the join loop and a subscribe that waits for its room id keep references to
    objects the dicts may have dropped meanwhile.  What is awaited (HTTP answers,
    frames, the end of a connection) arrives as the argument of the step that
    resumes.  A send does not suspend; it raises when the connection is closed. *)

From S2P Require Import Prelude Decimals Contracts OrderBook EngineIO.
From stdpp Require Import base gmap strings list relations.
From Stdlib Require Import ZArith QArith Lia.
Open Scope Z_scope.

(** [_Subscription] *)
Record Sub := { sb_symbol : string; sb_market : Market; sb_order_book_id : option Z }.

(** What goes out on the socket. *)
Inductive Packet := Connect | ConnectNs (namespace : string) | Pong | JoinRooms (ids : list Z) | LeaveRoom (id : Z).

Definition packet_text (p : Packet) : string :=
  match p with
  | Connect => connect_default_packet
  | ConnectNs ns => connect_namespace_packet ns
  | Pong => pong_packet
  | JoinRooms ids => join_rooms_packet ids
  | LeaveRoom id => leave_room_packet id
  end.

(** [_handshake] *)
Definition _handshake : list Packet :=
  Connect :: map ConnectNs DEFAULT_NAMESPACES ++ [ConnectNs BID_OFFER_NS].

(** How a session left its connection: it ended, it raised something [_run]
    catches, it raised something else, or the task was cancelled. *)
Inductive SessionEnd := Finished | Failed | Crashed (e : exn) | Cancelled.

(** Where the reader task stands.  [PTop] is the head of the loop of [_run]. *)
Inductive Phase :=
  | PTop (attempt : Z)
  | PSleep (attempt : Z) (delay : Q)
  | PTicket (attempt : Z)
  | PJoin (attempt : Z) (ws : nat) (todo : list nat) (waiting : bool) (ids : list Z)
  | PLive (attempt : Z) (ws : nat)
  | PClosing (attempt : Z) (ended : SessionEnd)
  | PDone (raised : option exn).

Record Reader := { rd_phase : Phase; rd_cancel : bool }.

(** What reaches the callbacks: a book, or an error and the symbol it names. *)
Inductive Output := OBook (b : OrderBook) | OError (symbol : option string).

Record Provider := {
  pv_objs : gmap nat Sub;
  pv_subs : list (string * nat);            (* insertion order of the dict *)
  pv_by_room : gmap Z nat;
  pv_reader : option nat;
  pv_ws : option nat;
  pv_stopping : bool;
  pv_readers : gmap nat Reader;             (* every reader task, by its identity *)
  pv_sockets : gmap nat (list Packet);      (* the open connections and what was sent *)
  pv_joins : list (nat * nat);              (* subscribes that wait for a room id *)
  pv_reaps : list nat;                      (* unsubscribes that wait for a reader *)
  pv_next : nat;
  pv_out : list Output;
}.

Definition Provider_new : Provider :=
  {| pv_objs := ∅; pv_subs := []; pv_by_room := ∅; pv_reader := None; pv_ws := None;
     pv_stopping := false; pv_readers := ∅; pv_sockets := ∅; pv_joins := []; pv_reaps := [];
     pv_next := 0; pv_out := [] |}.

Definition with_subs objs subs next (s : Provider) : Provider :=
  {| pv_objs := objs; pv_subs := subs; pv_by_room := pv_by_room s; pv_reader := pv_reader s;
     pv_ws := pv_ws s; pv_stopping := pv_stopping s; pv_readers := pv_readers s;
     pv_sockets := pv_sockets s; pv_joins := pv_joins s; pv_reaps := pv_reaps s;
     pv_next := next; pv_out := pv_out s |}.
Definition with_rooms by_room (s : Provider) : Provider :=
  {| pv_objs := pv_objs s; pv_subs := pv_subs s; pv_by_room := by_room; pv_reader := pv_reader s;
     pv_ws := pv_ws s; pv_stopping := pv_stopping s; pv_readers := pv_readers s;
     pv_sockets := pv_sockets s; pv_joins := pv_joins s; pv_reaps := pv_reaps s;
     pv_next := pv_next s; pv_out := pv_out s |}.
Definition with_reader reader readers next (s : Provider) : Provider :=
  {| pv_objs := pv_objs s; pv_subs := pv_subs s; pv_by_room := pv_by_room s; pv_reader := reader;
     pv_ws := pv_ws s; pv_stopping := pv_stopping s; pv_readers := readers;
     pv_sockets := pv_sockets s; pv_joins := pv_joins s; pv_reaps := pv_reaps s;
     pv_next := next; pv_out := pv_out s |}.
Definition with_ws ws sockets next (s : Provider) : Provider :=
  {| pv_objs := pv_objs s; pv_subs := pv_subs s; pv_by_room := pv_by_room s; pv_reader := pv_reader s;
     pv_ws := ws; pv_stopping := pv_stopping s; pv_readers := pv_readers s;
     pv_sockets := sockets; pv_joins := pv_joins s; pv_reaps := pv_reaps s;
     pv_next := next; pv_out := pv_out s |}.
Definition with_waiting joins reaps (s : Provider) : Provider :=
  {| pv_objs := pv_objs s; pv_subs := pv_subs s; pv_by_room := pv_by_room s; pv_reader := pv_reader s;
     pv_ws := pv_ws s; pv_stopping := pv_stopping s; pv_readers := pv_readers s;
     pv_sockets := pv_sockets s; pv_joins := joins; pv_reaps := reaps;
     pv_next := pv_next s; pv_out := pv_out s |}.
Definition with_stopping stopping (s : Provider) : Provider :=
  {| pv_objs := pv_objs s; pv_subs := pv_subs s; pv_by_room := pv_by_room s; pv_reader := pv_reader s;
     pv_ws := pv_ws s; pv_stopping := stopping; pv_readers := pv_readers s;
     pv_sockets := pv_sockets s; pv_joins := pv_joins s; pv_reaps := pv_reaps s;
     pv_next := pv_next s; pv_out := pv_out s |}.
Definition output (o : Output) (s : Provider) : Provider :=
  {| pv_objs := pv_objs s; pv_subs := pv_subs s; pv_by_room := pv_by_room s; pv_reader := pv_reader s;
     pv_ws := pv_ws s; pv_stopping := pv_stopping s; pv_readers := pv_readers s;
     pv_sockets := pv_sockets s; pv_joins := pv_joins s; pv_reaps := pv_reaps s;
     pv_next := pv_next s; pv_out := pv_out s ++ [o] |}.

Fixpoint sub_of (symbol : string) (subs : list (string * nat)) : option nat :=
  match subs with
  | [] => None
  | (k, o) :: subs' => if String.eqb k symbol then Some o else sub_of symbol subs'
  end.
Definition sub_pop (symbol : string) (subs : list (string * nat)) : list (string * nat) :=
  List.filter (fun kv => negb (String.eqb kv.1 symbol)) subs.

(** [await ws.send(p)]; [None] raises [WebSocketException]. *)
Definition send (ws : nat) (p : Packet) (s : Provider) : option Provider :=
  match pv_sockets s !! ws with
  | Some sent => Some (with_ws (pv_ws s) (<[ws := sent ++ [p]]> (pv_sockets s)) (pv_next s) s)
  | None => None
  end.

Definition set_room_id (o : nat) (id : Z) (s : Provider) : Provider :=
  with_subs (alter (fun x => {| sb_symbol := sb_symbol x; sb_market := sb_market x;
                                sb_order_book_id := Some id |}) o (pv_objs s))
    (pv_subs s) (pv_next s) s.

Definition reader_done (s : Provider) (r : nat) : bool :=
  match pv_readers s !! r with
  | Some {| rd_phase := PDone _ |} => true
  | _ => false
  end.

(** [asyncio.create_task(self._run())] *)
Definition spawn_reader (s : Provider) : Provider :=
  let r := pv_next s in
  with_reader (Some r) (<[r := {| rd_phase := PTop 0; rd_cancel := false |}]> (pv_readers s)) (S r) s.

(** ** subscribe *)

(** The symbol's object: the one subscribed, or a new one. *)
Definition get_or_add (symbol : string) (market : Market) (s : Provider) : nat * Provider :=
  match sub_of symbol (pv_subs s) with
  | Some o => (o, s)
  | None =>
      let o := pv_next s in
      (o, with_subs (<[o := {| sb_symbol := symbol; sb_market := market; sb_order_book_id := None |}]>
                       (pv_objs s)) (pv_subs s ++ [(symbol, o)]) (S o) s)
  end.

(** [self._by_room[id] = sub; await ws.send(join_rooms_packet([id]))] *)
Definition live_join (o ws : nat) (id : Z) (s : Provider) : Provider :=
  let s1 := with_rooms (<[id := o]> (pv_by_room s)) s in
  match send ws (JoinRooms [id]) s1 with
  | Some s2 => s2
  | None => output (OError (sb_symbol <$> pv_objs s !! o)) s1
  end.

Definition subscribe (symbol : string) (market : Market) (s : Provider) : Provider :=
  let '(o, s1) := get_or_add symbol market s in
  if match pv_reader s1 with None => true | Some r => reader_done s1 r end then spawn_reader s1
  else
    match pv_ws s1 with
    | None => s1                              (* _join_all_rooms will cover it *)
    | Some ws =>
        match pv_objs s1 !! o with
        | Some {| sb_order_book_id := Some id |} => live_join o ws id s1
        | _ => with_waiting (pv_joins s1 ++ [(o, ws)]) (pv_reaps s1) s1
        end
    end.

(** The answer of [_resolve_order_book_id] to the [i]-th waiting subscribe: [Ok None]
    raised [SymbolResolutionError]; [Err] is anything else the await raised, an error
    the call does not catch or its cancellation, which leaves the call. *)
Definition subscribe_resume (i : nat) (answer : result exn (option Z)) (s : Provider) : Provider :=
  match pv_joins s !! i with
  | None => s
  | Some (o, ws) =>
      let s1 := with_waiting (delete i (pv_joins s)) (pv_reaps s) s in
      match answer with
      | Err _ => s1
      | Ok None => output (OError (sb_symbol <$> pv_objs s !! o)) s1
      | Ok (Some id) => live_join o ws id (set_room_id o id s1)
      end
  end.

(** ** unsubscribe, start, stop *)

(** [self._reader.cancel(); await self._reader] *)
Definition cancel_reader (s : Provider) : Provider :=
  match pv_reader s with
  | None => s
  | Some r =>
      with_waiting (pv_joins s) (pv_reaps s ++ [r])
        (with_reader (pv_reader s)
           (alter (fun rd => {| rd_phase := rd_phase rd; rd_cancel := true |}) r (pv_readers s))
           (pv_next s) s)
  end.

Definition leave_room (symbol : string) (s : Provider) : Provider :=
  match sub_of symbol (pv_subs s) with
  | None => s
  | Some o =>
      let s1 := with_subs (pv_objs s) (sub_pop symbol (pv_subs s)) (pv_next s) s in
      match pv_objs s !! o with
      | Some {| sb_order_book_id := Some id |} =>
          let s2 := with_rooms (delete id (pv_by_room s1)) s1 in
          match pv_ws s2 with
          | Some ws => default s2 (send ws (LeaveRoom id) s2)
          | None => s2
          end
      | _ => s1
      end
  end.

Definition unsubscribe (symbol : string) (s : Provider) : Provider :=
  let s1 := leave_room symbol s in
  match pv_subs s1 with [] => cancel_reader s1 | _ => s1 end.

(** The [i]-th of those that wait for a reader resumes: the wait raises what the
    reader raised, except its cancellation; otherwise [self._reader = None]. *)
Definition reap (i : nat) (s : Provider) : option Provider :=
  match pv_reaps s !! i with
  | None => None
  | Some r =>
      match pv_readers s !! r with
      | Some {| rd_phase := PDone raised |} =>
          let s1 := with_waiting (pv_joins s) (delete i (pv_reaps s)) s in
          Some (match raised with
                | None => with_reader None (pv_readers s1) (pv_next s1) s1
                | Some _ => s1
                end)
      | _ => None
      end
  end.

Definition start (s : Provider) : Provider := with_stopping false s.
Definition stop (s : Provider) : Provider := cancel_reader (with_stopping true s).

(** ** The reader task *)

Definition set_phase (r : nat) (p : Phase) (s : Provider) : Provider :=
  with_reader (pv_reader s)
    (<[r := {| rd_phase := p; rd_cancel := false |}]> (pv_readers s)) (pv_next s) s.

(** Leaving the session: [finally: self._ws = None], and the connection closes. *)
Definition leave_session (r : nat) (attempt : Z) (ws : nat) (ended : SessionEnd) (s : Provider)
    : Provider :=
  set_phase r (PClosing attempt ended) (with_ws None (delete ws (pv_sockets s)) (pv_next s) s).

Section reader.

(** The frame's book for the subscription of its room. *)
Definition frame_book (parsed : ParsedBook) (now : Z) (s : Provider) : option OrderBook :=
  match pv_by_room s !! pb_room parsed with
  | None => None
  | Some o =>
      match pv_objs s !! o with
      | None => None
      | Some sub =>
          if bool_decide (pb_bids parsed = []) && bool_decide (pb_asks parsed = []) then None
          else Some {| ob_symbol := sb_symbol sub; ob_market := sb_market sub;
                       ob_bid_levels := pb_bids parsed; ob_ask_levels := pb_asks parsed;
                       ob_sequence := pb_sequence parsed; ob_received_at := now |}
      end
  end.

(** [Some ended] when the frame ends the session. *)
Definition _handle_frame (ws : nat) (raw : string) (now : Z) (s : Provider)
    : Provider * option SessionEnd :=
  match classify raw with
  | FPing => match send ws Pong s with Some s1 => (s1, None) | None => (s, Some Failed) end
  | FEvent =>
      match bid_offer_update (decode_event raw) with
      | None => (s, None)
      | Some payload =>
          match parse_bid_offer_payload payload with
          | Err e => (s, Some (Crashed e))
          | Ok None => (s, None)
          | Ok (Some parsed) =>
              match frame_book parsed now s with
              | Some book => (output (OBook book) s, None)
              | None => (s, None)
              end
          end
      end
  | _ => (s, None)
  end.

(** [self._by_room[sub.order_book_id] = sub; ids.append(...)] *)
Definition join_one (r : nat) (attempt : Z) (ws o : nat) (todo : list nat) (ids : list Z) (id : Z)
    (s : Provider) : Provider :=
  set_phase r (PJoin attempt ws todo false (ids ++ [id]))
    (with_rooms (<[id := o]> (pv_by_room s)) s).

(** What the loop of [_run] does at its head. *)
Definition _run_top (r : nat) (attempt : Z) (random : Q) (s : Provider) : Provider :=
  if pv_stopping s || bool_decide (pv_subs s = []) then set_phase r (PDone None) s
  else match _backoff_delay (attempt + 1) random with
       | Err e => set_phase r (PDone (Some e)) s
       | Ok delay =>
           set_phase r (if 1 <? attempt + 1 then PSleep (attempt + 1) delay else PTicket (attempt + 1)) s
       end.

Definition _HEALTHY_RESET : Z := 30 * 1000000.
(** After the session: the counter starts over when it lasted. *)
Definition next_attempt (attempt elapsed : Z) : Z :=
  if _HEALTHY_RESET <=? elapsed then 0 else attempt.

(** What the reader waits for. *)
Inductive Input :=
  | ITop (random : Q)
  | IWake (slept : Q)                 (* the seconds since the sleep began *)
  | INoSession (elapsed : Z)          (* the ticket, the connection or the handshake failed *)
  | IOpened                           (* connected and shaken hands *)
  | IJoinNext
  | IResolved (answer : result exn (option Z))
  | IJoined
  | IFrame (raw : string) (now : Z)
  | IEnd (failed : bool)              (* the connection ended, cleanly or not *)
  | IClosed (elapsed : Z)
  | ICancel.

Definition run_phase (r : nat) (p : Phase) (i : Input) (s : Provider) : option Provider :=
  match p, i with
  | PTop a, ITop random => Some (_run_top r a random s)
  | PSleep a delay, IWake slept =>
      if Qle_bool delay slept then Some (set_phase r (PTicket a) s) else None
  | PTicket a, INoSession elapsed =>
      Some (set_phase r (PTop (next_attempt a elapsed)) (output (OError None) s))
  | PTicket a, IOpened =>
      let ws := pv_next s in
      Some (set_phase r (PJoin a ws (map snd (pv_subs s)) false [])
              (with_rooms ∅ (with_ws (Some ws) (<[ws := _handshake]> (pv_sockets s)) (S ws) s)))
  | PJoin a ws (o :: todo) false ids, IJoinNext =>
      match pv_objs s !! o with
      | Some {| sb_order_book_id := Some id |} => Some (join_one r a ws o todo ids id s)
      | _ => Some (set_phase r (PJoin a ws (o :: todo) true ids) s)
      end
  | PJoin a ws (o :: todo) true ids, IResolved (Ok (Some id)) =>
      Some (join_one r a ws o todo ids id (set_room_id o id s))
  | PJoin a ws (o :: todo) true ids, IResolved (Ok None) =>
      Some (set_phase r (PJoin a ws todo false ids)
              (output (OError (sb_symbol <$> pv_objs s !! o)) s))
  | PJoin a ws (o :: todo) true ids, IResolved (Err e) => Some (leave_session r a ws (Crashed e) s)
  | PJoin a ws [] _ ids, IJoined =>
      match ids with
      | [] => Some (set_phase r (PLive a ws) s)
      | _ => match send ws (JoinRooms ids) s with
             | Some s1 => Some (set_phase r (PLive a ws) s1)
             | None => Some (leave_session r a ws Failed s)
             end
      end
  | PLive a ws, IFrame raw now =>
      if pv_stopping s then Some (leave_session r a ws Finished s)
      else match _handle_frame ws raw now s with
           | (s1, None) => Some s1
           | (s1, Some ended) => Some (leave_session r a ws ended s1)
           end
  | PLive a ws, IEnd failed => Some (leave_session r a ws (if failed then Failed else Finished) s)
  | PClosing a ended, IClosed elapsed =>
      Some (match ended with
            | Finished => set_phase r (PTop (next_attempt a elapsed)) s
            | Failed => set_phase r (PTop (next_attempt a elapsed)) (output (OError None) s)
            | Crashed e => set_phase r (PDone (Some e)) s
            | Cancelled => set_phase r (PDone None) s
            end)
  | _, _ => None
  end.

(** A cancelled task raises at its await: it leaves its session first. *)
Definition deliver_cancel (r : nat) (p : Phase) (s : Provider) : option Provider :=
  match p with
  | PJoin a ws _ _ _ | PLive a ws => Some (leave_session r a ws Cancelled s)
  | PDone _ => None
  | _ => Some (set_phase r (PDone None) s)
  end.

Definition reader_step (r : nat) (i : Input) (s : Provider) : option Provider :=
  match pv_readers s !! r with
  | None => None
  | Some rd =>
      if rd_cancel rd
      then match i with ICancel => deliver_cancel r (rd_phase rd) s | _ => None end
      else run_phase r (rd_phase rd) i s
  end.

(** ** Runs

    [book_id] is the venue's room id of a symbol: a resolution answers it or
    fails.  In a [calm] run no subscribe starts while an unsubscribe waits for the
    reader to end, a stopped provider is not started again, and a subscribe that
    waits for its room id is neither cancelled nor left by an error it does not
    catch. *)
Context (book_id : string -> Z).

(** The symbol whose room the reader or the [i]-th subscribe asks for. *)
Definition answer_ok (o : nat) (answer : result exn (option Z)) (s : Provider) : Prop :=
  match answer with
  | Ok (Some id) => exists sub, pv_objs s !! o = Some sub /\ id = book_id (sb_symbol sub)
  | _ => True
  end.

Definition answered (answer : result exn (option Z)) : Prop :=
  match answer with Ok _ => True | Err _ => False end.

Definition input_ok (r : nat) (i : Input) (s : Provider) : Prop :=
  match i, rd_phase <$> pv_readers s !! r with
  | IResolved answer, Some (PJoin _ _ (o :: _) _ _) => answer_ok o answer s
  | _, _ => True
  end.

Inductive provider_step (calm : bool) (s : Provider) : Provider -> Prop :=
  | step_subscribe symbol market : (calm = true -> pv_reaps s = []) ->
      provider_step calm s (subscribe symbol market s)
  | step_resume i o ws answer : pv_joins s !! i = Some (o, ws) -> answer_ok o answer s ->
      (calm = true -> answered answer) ->
      provider_step calm s (subscribe_resume i answer s)
  | step_unsubscribe symbol : provider_step calm s (unsubscribe symbol s)
  | step_reap i s' : reap i s = Some s' -> provider_step calm s s'
  | step_start : (calm = true -> pv_stopping s = false) -> provider_step calm s (start s)
  | step_stop : provider_step calm s (stop s)
  | step_reader r i s' : input_ok r i s -> reader_step r i s = Some s' -> provider_step calm s s'
  | step_drop ws : provider_step calm s (with_ws (pv_ws s) (delete ws (pv_sockets s)) (pv_next s) s).
End reader.
