(* ===== verification/BookProviderProps.v ===== *)
(** * BookProviderProps: what the order-book feed delivers, and to whom

    [base_inv] relates rooms, objects and symbols in every run; [calm_inv] adds
    the reader's discipline and the coverage of the live session in calm runs. *)

From S2P Require Import Prelude Decimals Contracts Json JsonProps OrderBook StreamingPro EngineIO BookProvider.
From stdpp Require Import base gmap strings list relations.
From Stdlib Require Import ZArith QArith Lia.
Open Scope Z_scope.

(** ** Levels *)

Definition level_ok (l : OrderBookLevel) : Prop :=
  dec_gtb (obl_price l) dec_zero = true /\ 0 <= obl_volume l.

Lemma zip_levels_ok ps : forall vs ls, zip_levels ps vs = Ok ls -> Forall level_ok ls.
Proof.
  induction ps as [|p ps IH]; intros [|v vs] ls; simpl; try by intros [= <-].
  unfold wire_level, result_bind.
  destruct (wire_price p) as [d| | | |]; try discriminate;
    repeat (case_match; try discriminate); intros [= <-]; try by eapply IH.
  simplify_eq. constructor; [|by eapply IH]. split; cbn [obl_price obl_volume]; [|apply Z.le_max_r].
  unfold dec_gtb. rewrite dec_ltb_leb.
  match goal with H : dec_leb _ _ = false |- _ => by rewrite H end.
Qed.

Lemma levels_ok prices volumes ls : _price_volume_levels prices volumes = Ok ls -> Forall level_ok ls.
Proof.
  unfold _price_volume_levels. destruct prices, volumes; try (intros [= <-]; by constructor).
  apply zip_levels_ok.
Qed.

Lemma payload_levels_ok payload parsed :
  parse_bid_offer_payload payload = Ok (Some parsed) ->
  Forall level_ok (pb_bids parsed) /\ Forall level_ok (pb_asks parsed).
Proof.
  unfold parse_bid_offer_payload, result_bind.
  destruct (jget "room" payload); try discriminate;
    repeat (case_match; try discriminate); intros [= <-]; simpl; eauto using levels_ok.
Qed.

Lemma after_prefix_cons a p raw rest :
  after_prefix (String a p) raw = Some rest -> exists raw', raw = String a raw' /\ after_prefix p raw' = Some rest.
Proof. destruct raw as [|b raw]; simpl; [done|]. destruct (Ascii.eqb_spec a b); [subst; eauto|done]. Qed.

(** An event of the feed is classified as an event. *)
(** An update event of a payload with no repeated key is read as that payload. *)
Lemma update_frame_read payload : clean (JObj payload) ->
  classify (update_frame payload) = FEvent /\
  bid_offer_update (decode_event (update_frame payload)) = Some payload.
Proof.
  intros Hc. split; [reflexivity|]. unfold update_frame. set (body := json_dumps _).
  assert (Hl : json_loads body =
               Some (JList [JStr "update"; JObj payload])).
  { apply loads_dumps, clean_list. apply Forall_cons_2; [apply clean_str, ascii_is_text; by repeat constructor|].
    by apply Forall_cons_2; [|constructor]. }
  change (decode_event _) with (decode_body "BidOfferV2" body). unfold decode_body. by rewrite Hl.
Qed.

Lemma update_classified raw payload :
  bid_offer_update (decode_event raw) = Some payload -> classify raw = FEvent.
Proof.
  unfold decode_event. destruct (after_prefix "42" raw) as [body|] eqn:Hb; [|done]. intros _.
  apply after_prefix_cons in Hb as (raw1 & -> & Hb).
  apply after_prefix_cons in Hb as (raw2 & -> & _). reflexivity.
Qed.

(** ** Rooms, objects and symbols *)

Section feed.
Context (book_id : string -> Z) `{!Inj eq eq book_id}.
Abbreviation provider_step := (provider_step book_id).
Abbreviation answer_ok := (answer_ok book_id).

Record base_inv (s : Provider) : Prop := {
  bi_subs : forall k o, sub_of k (pv_subs s) = Some o ->
    exists x, pv_objs s !! o = Some x /\ sb_symbol x = k;
  bi_ids : forall o x id, pv_objs s !! o = Some x -> sb_order_book_id x = Some id ->
    id = book_id (sb_symbol x);
  bi_rooms : forall id o, pv_by_room s !! id = Some o ->
    exists x, pv_objs s !! o = Some x /\ book_id (sb_symbol x) = id;
  bi_fresh : forall o x, pv_objs s !! o = Some x -> (o < pv_next s)%nat;
}.

Lemma base_same s s' :
  base_inv s -> pv_objs s' = pv_objs s -> pv_subs s' = pv_subs s -> pv_by_room s' = pv_by_room s ->
  (pv_next s <= pv_next s')%nat -> base_inv s'.
Proof.
  intros [B1 B2 B3 B4] Ho Hs Hr Hn. split; rewrite ?Ho, ?Hs, ?Hr; auto.
  intros o x Hx. specialize (B4 o x Hx). lia.
Qed.

Lemma sub_of_app k subs k' o :
  sub_of k (subs ++ [(k', o)]) =
    match sub_of k subs with Some x => Some x | None => if String.eqb k' k then Some o else None end.
Proof. induction subs as [|[k0 o0] subs IH]; simpl; [done|]. by destruct (String.eqb k0 k). Qed.

Lemma sub_of_pop k k' subs : sub_of k (sub_pop k' subs) = if String.eqb k k' then None else sub_of k subs.
Proof.
  induction subs as [|[k0 o0] subs IH]; simpl; [by destruct (String.eqb k k')|].
  destruct (String.eqb_spec k0 k') as [->|Hn]; simpl.
  - rewrite IH. rewrite (String.eqb_sym k' k). by destruct (String.eqb k k').
  - rewrite IH. destruct (String.eqb_spec k0 k) as [->|]; [|done].
    by destruct (String.eqb_spec k k').
Qed.

Lemma sub_of_elem k subs o : sub_of k subs = Some o -> o ∈ map snd subs.
Proof.
  induction subs as [|[k0 o0] subs IH]; simpl; [done|].
  destruct (String.eqb k0 k); [intros [= <-]; left|right; auto].
Qed.

Lemma base_add symbol market s o s1 :
  base_inv s -> get_or_add symbol market s = (o, s1) ->
  base_inv s1 /\ sub_of symbol (pv_subs s1) = Some o.
Proof.
  intros B. unfold get_or_add. destruct (sub_of symbol (pv_subs s)) as [o'|] eqn:Hs.
  { by intros [= <- <-]. }
  intros [= <- <-]. simpl. split; [|by rewrite sub_of_app, Hs, String.eqb_refl].
  assert (Hf : forall o x, pv_objs s !! o = Some x -> o <> pv_next s)
    by (intros o x Hx ->; apply (bi_fresh _ B) in Hx; lia).
  split; simpl.
  - intros k o. rewrite sub_of_app. destruct (sub_of k (pv_subs s)) as [o'|] eqn:Hk.
    + intros [= <-]. destruct (bi_subs _ B _ _ Hk) as (x & Hx & Hk').
      exists x. rewrite lookup_insert_ne; [done|]. intros E. by eapply Hf.
    + destruct (String.eqb_spec symbol k) as [->|]; [|done]. intros [= <-].
      eexists. by rewrite lookup_insert_eq.
  - intros o x id. rewrite lookup_insert_Some. intros [[_ <-]|[_ Hx]]; [done|by eapply bi_ids].
  - intros id o Hr. destruct (bi_rooms _ B _ _ Hr) as (x & Hx & E).
    exists x. rewrite lookup_insert_ne; [done|]. intros E'. by eapply Hf.
  - intros o x. rewrite lookup_insert_Some. intros [[<- _]|[_ Hx]]; [lia|].
    apply (bi_fresh _ B) in Hx. lia.
Qed.

(** Setting an object's room id keeps every object's symbol. *)
Lemma set_room_symbol s o id o' :
  sb_symbol <$> pv_objs (set_room_id o id s) !! o' = sb_symbol <$> pv_objs s !! o'.
Proof. simpl. rewrite lookup_alter. case_decide; [subst|done]. by destruct (pv_objs s !! o'). Qed.

Lemma symbol_of objs objs' (o : nat) x :
  sb_symbol <$> objs' !! o = sb_symbol <$> (objs : gmap nat Sub) !! o -> objs !! o = Some x ->
  exists x', (objs' : gmap nat Sub) !! o = Some x' /\ sb_symbol x' = sb_symbol x.
Proof. intros E Hx. rewrite Hx in E. destruct (objs' !! o); simplify_eq/=. eauto. Qed.

Lemma base_set_room s o x :
  base_inv s -> pv_objs s !! o = Some x -> base_inv (set_room_id o (book_id (sb_symbol x)) s).
Proof.
  intros B Hx. pose proof (set_room_symbol s o (book_id (sb_symbol x))) as E. split.
  - intros k o' Hk. destruct (bi_subs _ B _ _ Hk) as (x' & Hx' & <-).
    destruct (symbol_of _ _ _ _ (E o') Hx') as (y & Hy & <-). eauto.
  - intros o' x' id. simpl. rewrite lookup_alter. case_decide; [subst o'|by apply bi_ids].
    rewrite Hx. simpl. intros [= <-] [= <-]. done.
  - intros id o' Hr. destruct (bi_rooms _ B _ _ Hr) as (x' & Hx' & <-).
    destruct (symbol_of _ _ _ _ (E o') Hx') as (y & Hy & <-). eauto.
  - intros o' x' Hx'. destruct (symbol_of _ _ _ _ (eq_sym (E o')) Hx') as (y & Hy & _).
    by eapply (bi_fresh _ B).
Qed.

Lemma base_room s o x :
  base_inv s -> pv_objs s !! o = Some x ->
  base_inv (with_rooms (<[book_id (sb_symbol x) := o]> (pv_by_room s)) s).
Proof.
  intros [B1 B2 B3 B4] Hx. split; simpl; auto. intros id o'. rewrite lookup_insert_Some.
  intros [[<- <-]|[_ Hr]]; eauto.
Qed.

Ltac same_base B := eapply (base_same _ _ B); simpl; (reflexivity || lia).

Lemma send_base ws p s s' : base_inv s -> send ws p s = Some s' -> base_inv s'.
Proof. intros B. unfold send. case_match; [|done]. intros [= <-]. same_base B. Qed.

Lemma base_live_join o ws s x :
  base_inv s -> pv_objs s !! o = Some x -> base_inv (live_join o ws (book_id (sb_symbol x)) s).
Proof.
  intros B Hx. pose proof (base_room _ _ _ B Hx) as B1. unfold live_join.
  destruct (send _ _ _) as [s2|] eqn:Hs; [by eapply send_base|]. same_base B1.
Qed.

Lemma base_spawn s : base_inv s -> base_inv (spawn_reader s).
Proof. intros B. unfold spawn_reader. same_base B. Qed.

Lemma base_subscribe symbol market s : base_inv s -> base_inv (subscribe symbol market s).
Proof.
  intros B. unfold subscribe. destruct (get_or_add symbol market s) as [o s1] eqn:Hg.
  destruct (base_add _ _ _ _ _ B Hg) as [B1 Ho]. destruct (match pv_reader s1 with
    None => true | Some r => reader_done s1 r end); [by apply base_spawn|].
  destruct (pv_ws s1) as [ws|]; [|done]. destruct (bi_subs _ B1 _ _ Ho) as (x & Hx & _). rewrite Hx.
  destruct x as [k m [id|]]; [|same_base B1].
  rewrite (bi_ids _ B1 _ _ id Hx eq_refl). by apply (base_live_join _ _ _ _ B1 Hx).
Qed.

Lemma base_resume i o ws answer s :
  base_inv s -> pv_joins s !! i = Some (o, ws) -> answer_ok o answer s ->
  base_inv (subscribe_resume i answer s).
Proof.
  intros B Hi Ha. unfold subscribe_resume. rewrite Hi. set (s1 := with_waiting _ _ s).
  assert (B1 : base_inv s1) by same_base B.
  destruct answer as [[id|]|]; [|same_base B1..]. destruct Ha as (x & Hx & ->).
  pose proof (base_set_room _ _ _ B1 Hx) as B2.
  destruct (symbol_of _ _ _ _ (set_room_symbol s1 o (book_id (sb_symbol x)) o) Hx) as (y & Hy & E).
  rewrite <- E in *. by apply base_live_join.
Qed.

Lemma base_leave symbol s : base_inv s -> base_inv (leave_room symbol s).
Proof.
  intros B. unfold leave_room. destruct (sub_of symbol (pv_subs s)) as [o|]; [|done].
  assert (B1 : base_inv (with_subs (pv_objs s) (sub_pop symbol (pv_subs s)) (pv_next s) s)).
  { destruct B as [B1 B2 B3 B4]. split; simpl; auto. intros k o'. rewrite sub_of_pop.
    case_match; [done|auto]. }
  destruct (pv_objs s !! o) as [[k m [id|]]|]; [|done|done].
  assert (B2 : base_inv (with_rooms (delete id (pv_by_room s))
                (with_subs (pv_objs s) (sub_pop symbol (pv_subs s)) (pv_next s) s))).
  { destruct B1 as [B11 B12 B13 B14]. split; simpl in *; auto. intros id' o'.
    rewrite lookup_delete_Some. intros [_ Hr]. by apply B13. }
  simpl. case_match; [|done]. destruct (send _ _ _) eqn:Hs; simpl; [by eapply send_base|done].
Qed.

Lemma base_cancel s : base_inv s -> base_inv (cancel_reader s).
Proof. intros B. unfold cancel_reader. case_match; [same_base B|done]. Qed.

Lemma base_frame ws raw now s s' e :
  base_inv s -> _handle_frame ws raw now s = (s', e) -> base_inv s'.
Proof.
  intros B. unfold _handle_frame. repeat case_match; intros [= <- <-]; try done;
    try by eapply send_base. same_base B.
Qed.

Lemma base_run r rd i s s' :
  base_inv s -> pv_readers s !! r = Some rd -> input_ok book_id r i s ->
  run_phase r (rd_phase rd) i s = Some s' -> base_inv s'.
Proof.
  intros B Hr Hi. unfold input_ok in Hi. rewrite Hr in Hi. simpl in Hi. destruct rd as [p c]; simpl in *.
  destruct p as [a|a d|a|a ws todo wt ids|a ws|a e|e], i as [q|sl|el| | |an| |raw now|f|el|];
    simpl; try done; try (repeat case_match; try done; intros [= <-]; same_base B).
  - intros [= <-]. unfold _run_top. repeat case_match; same_base B.
  - intros [= <-]. destruct B as [B1 B2 B3 B4]. split; simpl; auto; [by intros id o|].
    intros o x Hx. specialize (B4 o x Hx). lia.
  - destruct todo as [|o todo]; [done|]. destruct wt; [done|].
    destruct (pv_objs s !! o) as [[k m [id|]]|] eqn:Hx; intros [= <-]; try same_base B.
    unfold join_one. rewrite (bi_ids _ B _ _ id Hx eq_refl).
    pose proof (base_room _ _ _ B Hx) as B1. same_base B1.
  - destruct todo as [|o todo]; [done|]. destruct wt; [|done]. destruct an as [[id|]|]; intros [= <-];
      [|same_base B..].
    destruct Hi as (x & Hx & ->). pose proof (base_set_room _ _ _ B Hx) as B1.
    destruct (symbol_of _ _ _ _ (set_room_symbol s o (book_id (sb_symbol x)) o) Hx) as (y & Hy & E).
    rewrite <- E in *. pose proof (base_room _ _ _ B1 Hy) as B2. unfold join_one. same_base B2.
  - destruct todo; [|by destruct wt]. destruct ids; [intros [= <-]; same_base B|].
    destruct (send _ _ _) as [s1|] eqn:Hs; intros [= <-]; [|same_base B].
    pose proof (send_base _ _ _ _ B Hs) as B1. same_base B1.
  - destruct (pv_stopping s); [intros [= <-]; same_base B|].
    destruct (_handle_frame _ _ _ _) as [s1 [e|]] eqn:Hf; intros [= <-];
      pose proof (base_frame _ _ _ _ _ _ B Hf) as B1; [same_base B1|done].
Qed.

Lemma base_reader r i s s' :
  base_inv s -> input_ok book_id r i s -> reader_step r i s = Some s' -> base_inv s'.
Proof.
  intros B Hi. unfold reader_step. destruct (pv_readers s !! r) as [rd|] eqn:Hr; [|done].
  destruct (rd_cancel rd); [|by apply base_run].
  destruct i; try done. unfold deliver_cancel. repeat case_match; intros [= <-]; same_base B.
Qed.

Lemma base_step calm s s' : base_inv s -> provider_step calm s s' -> base_inv s'.
Proof.
  intros B []; eauto using base_subscribe, base_resume, base_reader.
  - unfold unsubscribe. pose proof (base_leave symbol s B). case_match; [by apply base_cancel|done].
  - revert H. unfold reap. repeat case_match; intros [= <-]; same_base B.
  - unfold start. same_base B.
  - unfold stop. apply base_cancel. same_base B.
  - same_base B.
Qed.

Lemma base_new : base_inv Provider_new.
Proof. by split. Qed.

Lemma base_reachable calm s : rtc (provider_step calm) Provider_new s -> base_inv s.
Proof.
  intros H. generalize base_new. induction H as [|s1 s2 s3 Hs _ IH]; [done|].
  intros B. apply IH. by eapply base_step.
Qed.

(** C18: a book is published under the symbol whose room it came from.  Whatever
    subscribes, unsubscribes, resolutions, reconnects and cancellations have run,
    in any interleaving, a frame makes the feed publish at most one book, and
    then it is an update of the room of that book's symbol, with the levels of the
    frame: every price positive, no volume negative, not both sides empty.  Any
    other frame publishes nothing. *)
Theorem feed_attribution calm s ws raw now s' e :
  rtc (provider_step calm) Provider_new s -> _handle_frame ws raw now s = (s', e) ->
  match parse_bid_offer_frame raw with
  | Ok (Some parsed) =>
      pv_out s' = pv_out s \/
      exists book, pv_out s' = pv_out s ++ [OBook book] /\ e = None /\
        book_id (ob_symbol book) = pb_room parsed /\
        ob_bid_levels book = pb_bids parsed /\ ob_ask_levels book = pb_asks parsed /\
        Forall level_ok (ob_bid_levels book ++ ob_ask_levels book) /\
        ob_bid_levels book ++ ob_ask_levels book <> [] /\ ob_received_at book = now
  | Ok None => pv_out s' = pv_out s /\ (e = None \/ e = Some Failed)
  | Err x => pv_out s' = pv_out s /\ e = Some (Crashed x)
  end.
Proof.
  intros Hr. apply base_reachable in Hr as B. unfold _handle_frame, parse_bid_offer_frame.
  destruct (bid_offer_update (decode_event raw)) as [payload|] eqn:Hu.
  2:{ destruct (classify raw); try (intros E; simplify_eq; by auto).
      unfold send. destruct (pv_sockets s !! ws); intros E; simplify_eq; auto. }
  rewrite (update_classified _ _ Hu).
  destruct (parse_bid_offer_payload payload) as [[parsed|]|x] eqn:Hp;
    [|intros [= <- <-]; auto|intros [= <- <-]; auto].
  destruct (payload_levels_ok _ _ Hp) as [Hb Ha]. unfold frame_book.
  destruct (pv_by_room s !! pb_room parsed) as [o|] eqn:Ho; [|intros [= <- <-]; auto].
  destruct (bi_rooms _ B _ _ Ho) as (x & Hx & E). rewrite Hx.
  destruct (bool_decide (pb_bids parsed = [])) eqn:D1, (bool_decide (pb_asks parsed = [])) eqn:D2;
    simpl; intros [= <- <-]; try (by left); right; eexists; (split; [reflexivity|]); simpl;
    (split_and!; [done..| |idtac|done]); try (by apply Forall_app);
    apply bool_decide_eq_false in D1 || apply bool_decide_eq_false in D2;
    rewrite app_nil; tauto.
Qed.
End feed.

(** A change that leaves the objects and the dicts alone. *)
Ltac same_data B := eapply base_same; [exact B|simpl; (reflexivity || lia)..].
