(* ===== verification/BookProviderLive.v ===== *)
(** * BookProviderLive: a subscribed symbol is served, as long as calls keep order

    [calm_inv] is the invariant of calm runs: one reader at a time, alive while
    something is subscribed, whose session covers every subscribed symbol. *)

From S2P Require Import Prelude Decimals Contracts OrderBook StreamingPro EngineIO BookProvider BookProviderProps.
From stdpp Require Import base gmap strings list relations.
From Stdlib Require Import ZArith QArith Lia.
Open Scope Z_scope.

(** The rooms a connection is in after what was sent on it. *)
Definition rooms (sent : list Packet) : gset Z :=
  fold_left (fun acc p => match p with
                          | JoinRooms ids => acc ∪ list_to_set ids
                          | LeaveRoom id => acc ∖ {[id]}
                          | _ => acc
                          end) sent ∅.

Lemma rooms_snoc sent p :
  rooms (sent ++ [p]) = match p with
                        | JoinRooms ids => rooms sent ∪ list_to_set ids
                        | LeaveRoom id => rooms sent ∖ {[id]}
                        | _ => rooms sent
                        end.
Proof. unfold rooms. by rewrite fold_left_app. Qed.

Definition is_done (p : Phase) : bool := match p with PDone _ => true | _ => false end.
Definition closing_cancelled (p : Phase) : Prop := match p with PClosing _ Cancelled => True | _ => False end.

(** The connection of a session, the objects still to join and the ids gathered. *)
Definition session (p : Phase) : option (nat * list nat * list Z) :=
  match p with
  | PJoin _ ws todo _ ids => Some (ws, todo, ids)
  | PLive _ ws => Some (ws, [], [])
  | _ => None
  end.

Section live.
Context (book_id : string -> Z) `{!Inj eq eq book_id}.
Abbreviation provider_step := (provider_step book_id).
Abbreviation answer_ok := (answer_ok book_id).
Abbreviation base_inv := (base_inv book_id).

(** A symbol's room is joined on the connection, if that is still open. *)
Definition room_joined (s : Provider) (ws : nat) (k : string) : Prop :=
  is_Some (pv_by_room s !! book_id k) /\
  forall sent, pv_sockets s !! ws = Some sent -> book_id k ∈ rooms sent.

Definition covered (s : Provider) (ws : nat) (todo : list nat) (ids : list Z) (k : string) (o : nat)
    : Prop :=
  o ∈ todo \/ (exists ws', (o, ws') ∈ pv_joins s) \/ OError (Some k) ∈ pv_out s \/
  (is_Some (pv_by_room s !! book_id k) /\
   (book_id k ∈ ids \/ forall sent, pv_sockets s !! ws = Some sent -> book_id k ∈ rooms sent)).

Definition all_covered (s : Provider) ws todo ids : Prop :=
  forall k o, sub_of k (pv_subs s) = Some o -> covered s ws todo ids k o.

Record calm_inv (s : Provider) : Prop := {
  ci_base : base_inv s;
  ci_known : forall r, pv_reader s = Some r -> is_Some (pv_readers s !! r);
  ci_fresh : forall r, is_Some (pv_readers s !! r) -> (r < pv_next s)%nat;
  ci_single : forall r rd, pv_readers s !! r = Some rd -> is_done (rd_phase rd) = false ->
    pv_reader s = Some r;
  ci_reaps : forall r, r ∈ pv_reaps s -> pv_reader s = Some r \/ pv_reader s = None;
  ci_cancel : forall r rd, pv_readers s !! r = Some rd -> is_done (rd_phase rd) = false ->
    rd_cancel rd = true \/ closing_cancelled (rd_phase rd) -> r ∈ pv_reaps s;
  ci_alive : pv_subs s <> [] -> pv_stopping s = false -> pv_reaps s = [] /\
    exists r rd, pv_reader s = Some r /\ pv_readers s !! r = Some rd /\ rd_phase rd <> PDone None;
  ci_session : forall r rd ws todo ids, pv_readers s !! r = Some rd ->
    session (rd_phase rd) = Some (ws, todo, ids) -> pv_ws s = Some ws /\ all_covered s ws todo ids;
  ci_sockets : forall n, is_Some (pv_sockets s !! n) -> exists r rd todo ids,
    pv_readers s !! r = Some rd /\ session (rd_phase rd) = Some (n, todo, ids);
}.

Lemma calm_new : calm_inv Provider_new.
Proof.
  split; [apply base_new|..]; simpl; try done; try set_solver.
  - intros r [? H]. done.
  - intros n [? H]. done.
Qed.

(** *** Steps that leave the control alone *)

Record same_control (s s' : Provider) : Prop := {
  sc_readers : pv_readers s' = pv_readers s;
  sc_reader : pv_reader s' = pv_reader s;
  sc_reaps : pv_reaps s' = pv_reaps s;
  sc_stopping : pv_stopping s' = pv_stopping s;
  sc_ws : pv_ws s' = pv_ws s;
  sc_next : (pv_next s <= pv_next s')%nat;
}.

Lemma same_control_refl s : same_control s s.
Proof. by split. Qed.
Lemma same_control_trans s1 s2 s3 : same_control s1 s2 -> same_control s2 s3 -> same_control s1 s3.
Proof. intros [] []. split; try congruence. lia. Qed.

(** What a step of the data keeps for the session it runs in. *)
Definition keeps_covered (s s' : Provider) : Prop :=
  (forall n, is_Some (pv_sockets s' !! n) -> is_Some (pv_sockets s !! n)) /\
  forall ws todo ids, pv_ws s = Some ws ->
    (forall n, is_Some (pv_sockets s !! n) -> n = ws) ->
    all_covered s ws todo ids -> all_covered s' ws todo ids.

Lemma calm_data s s' :
  calm_inv s -> base_inv s' -> same_control s s' ->
  (pv_subs s' <> [] -> pv_subs s <> [] \/ pv_reaps s = [] /\
     exists r rd, pv_reader s = Some r /\ pv_readers s !! r = Some rd /\ is_done (rd_phase rd) = false) ->
  keeps_covered s s' -> calm_inv s'.
Proof.
  intros [C1 C2 C3 C4 C5 C6 C7 C8 C9] B [E1 E2 E3 E4 E5 En] Hsubs [Hk1 Hk2].
  split; rewrite ?E1, ?E2, ?E3, ?E4, ?E5; auto.
  - intros r Hr. specialize (C3 r Hr). lia.
  - intros Hs Hst. destruct (Hsubs Hs) as [?|[Hrp (r & rd & Hr & Hrd & Hd)]]; [auto|].
    split; [done|]. exists r, rd. split_and!; [done..|]. intros E. by rewrite E in Hd.
  - intros r rd ws todo ids Hr Hs. destruct (C8 _ _ _ _ _ Hr Hs) as [Hw Hc].
    split; [done|]. apply Hk2; auto. intros n Hn. destruct (C9 n Hn) as (r' & rd' & t & i & Hr' & Hs').
    destruct (C8 _ _ _ _ _ Hr' Hs') as [Hw' _]. congruence.
Qed.

(** *** Steps of the reader *)

Lemma done_session p : is_done p = true -> session p = None.
Proof. by destruct p. Qed.

Lemma calm_phase s s' r rd p :
  calm_inv s -> pv_readers s !! r = Some rd -> is_done (rd_phase rd) = false ->
  base_inv s' -> pv_reader s' = pv_reader s -> pv_reaps s' = pv_reaps s ->
  pv_stopping s' = pv_stopping s -> pv_subs s' = pv_subs s -> (pv_next s <= pv_next s')%nat ->
  pv_readers s' = <[r := {| rd_phase := p; rd_cancel := false |}]> (pv_readers s) ->
  (p = PDone None -> r ∈ pv_reaps s \/ pv_subs s = [] \/ pv_stopping s = true) ->
  (closing_cancelled p -> r ∈ pv_reaps s) ->
  (forall ws todo ids, session p = Some (ws, todo, ids) ->
     pv_ws s' = Some ws /\ all_covered s' ws todo ids) ->
  (forall n, is_Some (pv_sockets s' !! n) -> exists todo ids, session p = Some (n, todo, ids)) ->
  calm_inv s'.
Proof.
  intros C Hr Hd B E1 E2 E3 E4 En Er Hdone Hcc Hses Hsock.
  pose proof (ci_single _ C _ _ Hr Hd) as Hcur.
  assert (Hother : forall r' rd', pv_readers s !! r' = Some rd' -> r' <> r -> is_done (rd_phase rd') = true).
  { intros r' rd' Hr' Hn. destruct (is_done (rd_phase rd')) eqn:Hd'; [done|].
    pose proof (ci_single _ C _ _ Hr' Hd'). congruence. }
  split; rewrite ?E1, ?E2, ?E3, ?E4, ?Er; auto.
  - intros r' Hr'. apply lookup_insert_is_Some'. right. by apply (ci_known _ C).
  - intros r' Hr'. enough (r' < pv_next s)%nat by lia. apply (ci_fresh _ C).
    apply lookup_insert_is_Some' in Hr' as [<-|Hr']; eauto.
  - intros r' rd'. rewrite lookup_insert_Some. intros [[<- _]|[Hn Hr']] Hnd; [done|].
    rewrite (Hother _ _ Hr') in Hnd by done. done.
  - apply (ci_reaps _ C).
  - intros r' rd'. rewrite lookup_insert_Some. intros [[<- <-]|[Hn Hr']] Hnd Hcan.
    + destruct Hcan; [done|auto].
    + rewrite (Hother _ _ Hr') in Hnd by done. done.
  - intros Hs Hst. destruct (ci_alive _ C Hs Hst) as [Hrp (r0 & rd0 & Hr0 & _)]. split; [done|].
    rewrite Hcur in Hr0. injection Hr0 as <-. eexists r, _. rewrite lookup_insert_eq.
    split_and!; [done..|]. simpl. intros Hp. destruct (Hdone Hp) as [Hin|[?|?]]; [|done|congruence].
    rewrite Hrp in Hin. by apply elem_of_nil in Hin.
  - intros r' rd' ws todo ids. rewrite lookup_insert_Some. intros [[<- <-]|[Hn Hr']]; [by apply Hses|].
    rewrite (done_session _ (Hother _ _ Hr' ltac:(done))). done.
  - intros n Hn. destruct (Hsock n Hn) as (todo & ids & Hs). eexists r, _, todo, ids.
    by rewrite lookup_insert_eq.
Qed.

(** *** Coverage under the changes of the data *)

Lemma covered_mono s s' ws todo ids k o :
  (forall x, x ∈ pv_joins s -> x ∈ pv_joins s') -> (forall x, x ∈ pv_out s -> x ∈ pv_out s') ->
  (is_Some (pv_by_room s !! book_id k) -> is_Some (pv_by_room s' !! book_id k)) ->
  (forall sent', pv_sockets s' !! ws = Some sent' -> exists sent, pv_sockets s !! ws = Some sent /\
     (book_id k ∈ rooms sent -> book_id k ∈ rooms sent')) ->
  covered s ws todo ids k o -> covered s' ws todo ids k o.
Proof.
  intros Hj Ho Hb Hs [?|[[ws' ?]|[?|[? Hr]]]];
    [by left|right; left; by eauto|right; right; left; by auto|].
  right. right. right. split; [by auto|]. destruct Hr as [?|Hr]; [by left|right]. intros sent' Hs'.
  destruct (Hs _ Hs') as (sent & Hss & Hi). eauto.
Qed.

Lemma keeps_output o s : keeps_covered s (output o s).
Proof.
  split; [done|]. intros ws todo ids _ _ Hc k o' Hk. eapply covered_mono; [..|by apply Hc]; simpl; eauto.
  set_solver.
Qed.

Lemma send_cases ws p s :
  (exists sent, pv_sockets s !! ws = Some sent /\
     send ws p s = Some (with_ws (pv_ws s) (<[ws := sent ++ [p]]> (pv_sockets s)) (pv_next s) s)) \/
  pv_sockets s !! ws = None /\ send ws p s = None.
Proof. unfold send. destruct (pv_sockets s !! ws); eauto. Qed.

(** Joining a symbol's room keeps the others covered and covers it. *)
Lemma live_join_control o ws id s :
  same_control s (live_join o ws id s) /\ pv_subs (live_join o ws id s) = pv_subs s /\
  pv_joins (live_join o ws id s) = pv_joins s /\
  (forall n, is_Some (pv_sockets (live_join o ws id s) !! n) -> is_Some (pv_sockets s !! n)).
Proof.
  unfold live_join. destruct (send_cases ws (JoinRooms [id]) (with_rooms (<[id:=o]> (pv_by_room s)) s))
    as [(sent & Hs & ->)|[Hs ->]]; simpl in *; (split_and!; [done..|]); [|done].
  intros n. rewrite lookup_insert_is_Some'. intros [<-|?]; eauto.
Qed.

Lemma live_join_keeps o ws' id s ws todo ids k o' :
  covered s ws todo ids k o' -> covered (live_join o ws' id s) ws todo ids k o'.
Proof.
  unfold live_join. destruct (send_cases ws' (JoinRooms [id]) (with_rooms (<[id:=o]> (pv_by_room s)) s))
    as [(sent & Hs & ->)|[Hs ->]]; simpl in *; (apply covered_mono; simpl; [set_solver|set_solver|..]).
  - rewrite lookup_insert_is_Some'. by right.
  - intros sent'. rewrite lookup_insert_Some. intros [[<- <-]|[_ H]]; [|by eauto].
    exists sent. split; [done|]. rewrite rooms_snoc. set_solver.
  - rewrite lookup_insert_is_Some'. by right.
  - eauto.
Qed.

Lemma live_join_covers o ws' s x ws todo ids :
  pv_objs s !! o = Some x -> (forall n, is_Some (pv_sockets s !! n) -> n = ws) ->
  covered (live_join o ws' (book_id (sb_symbol x)) s) ws todo ids (sb_symbol x) o.
Proof.
  intros Hx Hone. unfold live_join.
  destruct (send_cases ws' (JoinRooms [book_id (sb_symbol x)])
    (with_rooms (<[book_id (sb_symbol x):=o]> (pv_by_room s)) s)) as [(sent & Hs & ->)|[Hs ->]];
    simpl in *; right; right.
  - right. simpl. split; [rewrite lookup_insert_eq; eauto|]. right.
    rewrite (Hone ws') by eauto. intros sent'. rewrite lookup_insert_eq. intros [= <-].
    rewrite rooms_snoc. set_solver.
  - left. simpl. rewrite Hx. set_solver.
Qed.

Lemma drop_keeps ws s :
  keeps_covered s (with_ws (pv_ws s) (delete ws (pv_sockets s)) (pv_next s) s).
Proof.
  split; simpl.
  - intros n [x Hn]. apply lookup_delete_Some in Hn as [_ Hn]. eauto.
  - intros ws' todo ids _ _ Hc k o Hk. eapply covered_mono; [..|by apply Hc]; simpl; eauto.
    intros sent. rewrite lookup_delete_Some. intros [_ ?]. eauto.
Qed.

(** *** Each call *)

Lemma calm_drop ws s :
  calm_inv s -> calm_inv (with_ws (pv_ws s) (delete ws (pv_sockets s)) (pv_next s) s).
Proof.
  intros C. apply (calm_data s); [done| |by split|by left|apply drop_keeps].
  pose proof (ci_base _ C) as B. same_data B.
Qed.

Lemma elem_delete {A} (l : list A) i x y : l !! i = Some y -> x ∈ l -> x = y \/ x ∈ delete i l.
Proof.
  revert i. induction l as [|a l IH]; intros [|i]; simpl; try done.
  - intros [= ->]. by rewrite elem_of_cons.
  - intros Hi [->|Hx]%elem_of_cons; [right; left|]. destruct (IH i Hi Hx); [by left|right; by right].
Qed.

Lemma resume_keeps i o ws' answer s :
  base_inv s -> pv_joins s !! i = Some (o, ws') -> answer_ok o answer s -> answered answer ->
  keeps_covered s (subscribe_resume i answer s).
Proof.
  intros B Hi Ha Han. unfold subscribe_resume. rewrite Hi. set (s1 := with_waiting _ _ s).
  assert (Hj : forall ws todo ids k o', o' <> o -> covered s ws todo ids k o' ->
                 covered s1 ws todo ids k o').
  { intros ws todo ids k o' Hn [?|[[w Hw]|H]]; [by left| |right; right; exact H].
    right. left. exists w. destruct (elem_delete _ _ _ _ Hi Hw); [congruence|done]. }
  destruct answer as [[id|]|]; [| |done].
  - destruct Ha as (x & Hx & ->).
    destruct (symbol_of _ _ _ _ (set_room_symbol s1 o (book_id (sb_symbol x)) o) Hx) as (y & Hy & E).
    split; [intros n Hn; by apply live_join_control in Hn|].
    intros ws todo ids _ Hone Hc k o' Hk.
    destruct (live_join_control o ws' (book_id (sb_symbol x)) (set_room_id o (book_id (sb_symbol x)) s1))
      as (_ & Hsub & _). rewrite Hsub in Hk. destruct (decide (o' = o)) as [->|Hn].
    + destruct (bi_subs _ _ B _ _ Hk) as (x' & Hx' & <-). simpl in Hx. rewrite Hx' in Hx.
      injection Hx as ->. rewrite <- E. eapply (live_join_covers _ _ _ y); [by rewrite E|done].
    + apply live_join_keeps. apply (Hj ws todo ids k o' Hn). by apply Hc.
  - split; [done|]. intros ws todo ids _ Hone Hc k o' Hk. destruct (decide (o' = o)) as [->|Hn].
    + destruct (bi_subs _ _ B _ _ Hk) as (x' & Hx' & <-). right. right. left. simpl.
      rewrite Hx'. set_solver.
    + apply (covered_mono s1); [done|simpl; set_solver|done|by eauto|]. apply (Hj _ _ _ _ _ Hn). by apply Hc.
Qed.

Lemma resume_control i answer s :
  same_control s (subscribe_resume i answer s) /\ pv_subs (subscribe_resume i answer s) = pv_subs s.
Proof.
  unfold subscribe_resume. destruct (pv_joins s !! i) as [[o ws]|]; [|by split].
  destruct answer as [[id|]|]; [|by split..]. set (s1 := set_room_id _ _ _).
  destruct (live_join_control o ws id s1) as (Hc & Hs & _). rewrite Hs. split; [|done].
  eapply same_control_trans; [|exact Hc]. by split.
Qed.

Lemma calm_resume i o ws answer s :
  calm_inv s -> pv_joins s !! i = Some (o, ws) -> answer_ok o answer s -> answered answer ->
  calm_inv (subscribe_resume i answer s).
Proof.
  intros C Hi Ha Han. destruct (resume_control i answer s) as [Hc Hs].
  apply (calm_data s); [done|by eapply base_resume; [apply C|..]|done| |by eapply resume_keeps; [apply C|..]].
  rewrite Hs. by left.
Qed.

Lemma leave_control symbol s :
  same_control s (leave_room symbol s) /\
  pv_subs (leave_room symbol s) = (match sub_of symbol (pv_subs s) with
                                   | Some _ => sub_pop symbol (pv_subs s) | None => pv_subs s end) /\
  pv_joins (leave_room symbol s) = pv_joins s /\ pv_out (leave_room symbol s) = pv_out s /\
  (forall n, is_Some (pv_sockets (leave_room symbol s) !! n) -> is_Some (pv_sockets s !! n)).
Proof.
  unfold leave_room. destruct (sub_of symbol (pv_subs s)) as [o|]; [|by repeat split].
  destruct (pv_objs s !! o) as [[k m [id|]]|]; try by repeat split. simpl.
  destruct (pv_ws s) as [ws|] eqn:Hw; [|by repeat split].
  set (s2 := with_rooms _ _). destruct (send_cases ws (LeaveRoom id) s2) as [(sent & Hs & ->)|[Hs ->]];
    simpl; [|by repeat split]. repeat split; simpl; try done.
  intros n. rewrite lookup_insert_is_Some'. intros [<-|?]; eauto.
Qed.

Lemma leave_keeps symbol s : base_inv s -> keeps_covered s (leave_room symbol s).
Proof.
  intros B. destruct (leave_control symbol s) as (_ & Hs & Hj & Ho & Hn). split; [done|].
  intros ws todo ids Hw _ Hc k o' Hk.
  assert (Hk' : sub_of k (pv_subs s) = Some o' /\ (is_Some (sub_of symbol (pv_subs s)) -> k <> symbol)).
  { rewrite Hs in Hk. destruct (sub_of symbol (pv_subs s)); [|split; [done|by intros [??]]].
    rewrite sub_of_pop in Hk. destruct (String.eqb_spec k symbol); done. }
  destruct Hk' as [Hk' Hne]. apply (covered_mono s); [by rewrite Hj|by rewrite Ho| | |by apply Hc];
    clear Hk Hs Hj Ho Hn; unfold leave_room in *; destruct (sub_of symbol (pv_subs s)) as [o|] eqn:Ho'; try (by eauto).
  all: destruct (bi_subs _ _ B _ _ Ho') as (x & Hx & Ex); rewrite Hx in *;
    destruct x as [k0 m [id|]]; simpl in *; try (by eauto); subst k0;
    pose proof (bi_ids _ _ B _ _ _ Hx eq_refl) as ->; simpl in *; rewrite Hw;
    assert (book_id k <> book_id symbol) by (intros ?%(inj book_id); by apply Hne);
    set (s2 := with_rooms _ _);
    destruct (send_cases ws (LeaveRoom (book_id symbol)) s2) as [(sent & Hss & ->)|[Hss ->]]; simpl in *;
    rewrite ?lookup_delete_ne by done; try (by eauto).
  intros sent'. rewrite lookup_insert_eq. intros [= <-]. exists sent. split; [done|].
  rewrite rooms_snoc. set_solver.
Qed.

Lemma calm_leave symbol s : calm_inv s -> calm_inv (leave_room symbol s).
Proof.
  intros C. destruct (leave_control symbol s) as (Hc & Hs & _).
  apply (calm_data s); [done|apply base_leave, C|done| |apply leave_keeps, C].
  intros Hn. left. intros E. rewrite E in Hs. simpl in Hs. by rewrite Hs in Hn.
Qed.

Lemma calm_cancel s :
  calm_inv s -> pv_subs s = [] \/ pv_stopping s = true -> calm_inv (cancel_reader s).
Proof.
  intros C Hq. unfold cancel_reader. destruct (pv_reader s) as [r|] eqn:Hr; [|done].
  assert (Hl : forall r' rd', alter (fun rd => {| rd_phase := rd_phase rd; rd_cancel := true |}) r
    (pv_readers s) !! r' = Some rd' -> exists rd, pv_readers s !! r' = Some rd /\
      rd_phase rd' = rd_phase rd /\ (r' = r \/ rd_cancel rd' = rd_cancel rd)).
  { intros r' rd'. rewrite lookup_alter_Some. intros [[-> (rd & Hrd & ->)]|[Hn Hrd]]; eauto. }
  destruct C as [C1 C2 C3 C4 C5 C6 C7 C8 C9]. split; simpl; rewrite ?Hr.
  - same_data C1.
  - intros r' [= <-]. rewrite lookup_alter_is_Some. auto.
  - intros r'. rewrite lookup_alter_is_Some. auto.
  - intros r' rd' (rd & Hrd & -> & _)%Hl Hd. rewrite <- Hr. eauto.
  - intros r' [Hin|Hin]%elem_of_app; [rewrite <- Hr; by auto|].
    apply list_elem_of_singleton in Hin as ->. by left.
  - intros r' rd' (rd & Hrd & -> & [->|E])%Hl Hd Hc; apply elem_of_app; [right; by left|left].
    rewrite E in Hc. eauto.
  - intros Hs Hst. by destruct Hq; [|congruence].
  - intros r' rd' ws todo ids (rd & Hrd & -> & _)%Hl Hs. eauto.
  - intros n Hn. destruct (C9 n Hn) as (r' & rd & todo & ids & Hrd & Hs).
    destruct (decide (r' = r)) as [->|Hne];
      [eexists r, _, todo, ids; rewrite lookup_alter_eq, Hrd|
       eexists r', _, todo, ids; rewrite lookup_alter_ne by done; rewrite Hrd]; done.
Qed.

Lemma calm_stopping b s :
  calm_inv s -> (b = false -> pv_stopping s = false) -> calm_inv (with_stopping b s).
Proof.
  intros [C1 C2 C3 C4 C5 C6 C7 C8 C9] Hb. split; simpl; auto.
  - same_data C1.
Qed.

Lemma calm_reap i s s' : calm_inv s -> reap i s = Some s' -> calm_inv s'.
Proof.
  intros [C1 C2 C3 C4 C5 C6 C7 C8 C9]. unfold reap. destruct (pv_reaps s !! i) as [r|] eqn:Hi; [|done].
  destruct (pv_readers s !! r) as [[p c]|] eqn:Hr; [|done]. destruct p as [| | | | | |raised]; try done.
  assert (Hin : r ∈ pv_reaps s) by (by eapply list_elem_of_lookup_2).
  assert (Hreap : forall r' rd, pv_readers s !! r' = Some rd -> is_done (rd_phase rd) = false ->
    r' ∈ pv_reaps s -> r' ∈ delete i (pv_reaps s)).
  { intros r' rd Hrd Hd Hin'. destruct (elem_delete _ _ _ _ Hi Hin') as [->|]; [|done].
    rewrite Hr in Hrd. injection Hrd as <-. done. }
  assert (Hdel : forall r', r' ∈ delete i (pv_reaps s) -> r' ∈ pv_reaps s)
    by (intros r'; apply list_elem_of_delete_inv).
  intros [= <-]. destruct raised as [e|]; split; simpl; eauto; try same_data C1; try done.
  - intros Hs Hst. destruct (C7 Hs Hst) as [Hz _]. by rewrite Hz in Hi.
  - intros r' rd Hrd Hd. pose proof (C4 _ _ Hrd Hd) as E. destruct (C5 _ Hin) as [E'|E']; [|congruence].
    assert (r' = r) as -> by congruence. rewrite Hr in Hrd. by injection Hrd as <-.
  - intros Hs Hst. destruct (C7 Hs Hst) as [Hz _]. by rewrite Hz in Hi.
Qed.

(** A subscribe that finds no running reader starts one. *)
Lemma calm_spawn s s1 :
  calm_inv s -> base_inv s1 -> same_control s s1 -> pv_sockets s1 = pv_sockets s -> pv_reaps s = [] ->
  (forall r, pv_reader s = Some r -> reader_done s r = true) -> calm_inv (spawn_reader s1).
Proof.
  intros C B [E1 E2 E3 E4 E5 En] Hsk Hrp Hdone. pose proof (base_spawn _ _ B) as B'.
  assert (Hall : forall r rd, pv_readers s !! r = Some rd -> is_done (rd_phase rd) = true).
  { intros r rd Hrd. destruct (is_done (rd_phase rd)) eqn:Hd; [done|].
    pose proof (ci_single _ C _ _ Hrd Hd) as Hr. apply Hdone in Hr. unfold reader_done in Hr.
    rewrite Hrd in Hr. destruct rd as [[] ?]; done. }
  assert (Hn : forall r rd, pv_readers s !! r = Some rd -> r <> pv_next s1).
  { intros r rd Hrd ->. pose proof (ci_fresh _ C (pv_next s1) ltac:(eauto)). lia. }
  split; simpl; rewrite ?E1, ?E3, ?Hsk; [exact B'|..].
  - intros r [= <-]. rewrite lookup_insert_eq. eauto.
  - intros r [<-|Hr]%lookup_insert_is_Some'; [lia|]. pose proof (ci_fresh _ C r Hr). lia.
  - intros r rd. rewrite lookup_insert_Some. intros [[<- _]|[_ Hrd]] Hd; [done|].
    by rewrite (Hall _ _ Hrd) in Hd.
  - rewrite Hrp. set_solver.
  - intros r rd. rewrite lookup_insert_Some. intros [[<- <-]|[_ Hrd]] Hd Hc; [by destruct Hc|].
    by rewrite (Hall _ _ Hrd) in Hd.
  - intros _ _. split; [done|]. eexists _, _. by rewrite lookup_insert_eq.
  - intros r rd ws todo ids. rewrite lookup_insert_Some. intros [[<- <-]|[_ Hrd]] Hs; [done|].
    by rewrite (done_session _ (Hall _ _ Hrd)) in Hs.
  - intros n Hsn. destruct (ci_sockets _ C n Hsn) as (r & rd & todo & ids & Hrd & Hs).
    by rewrite (done_session _ (Hall _ _ Hrd)) in Hs.
Qed.

Lemma add_facts symbol market s o s1 :
  get_or_add symbol market s = (o, s1) ->
  same_control s s1 /\ pv_sockets s1 = pv_sockets s /\ pv_joins s1 = pv_joins s /\
  pv_out s1 = pv_out s /\ pv_by_room s1 = pv_by_room s /\
  (forall k, k <> symbol -> sub_of k (pv_subs s1) = sub_of k (pv_subs s)).
Proof.
  unfold get_or_add. destruct (sub_of symbol (pv_subs s)) as [o'|] eqn:Hs; intros [= <- <-].
  { split_and!; try done. }
  split; [split; simpl; try done; lia|]. split_and!; simpl; try done.
  intros k Hk. rewrite sub_of_app. destruct (sub_of k (pv_subs s)); [done|].
  destruct (String.eqb_spec symbol k); congruence.
Qed.

(** The cover of the symbols subscribed before. *)
Lemma add_covered symbol market s o s1 ws todo ids k o' :
  get_or_add symbol market s = (o, s1) -> k <> symbol -> sub_of k (pv_subs s1) = Some o' ->
  all_covered s ws todo ids -> covered s1 ws todo ids k o'.
Proof.
  intros Hg Hne Hs Ha. destruct (add_facts _ _ _ _ _ Hg) as (_ & Hsk & Hj & Hout & Hbr & Hk).
  rewrite (Hk _ Hne) in Hs.
  apply (covered_mono s); [by rewrite Hj|by rewrite Hout|by rewrite Hbr|rewrite Hsk; eauto|by apply Ha].
Qed.

(** What a subscribe does on a live connection covers its symbol. *)
Lemma subscribe_keeps symbol market s o s1 ws x :
  base_inv s1 -> get_or_add symbol market s = (o, s1) -> sub_of symbol (pv_subs s1) = Some o ->
  pv_objs s1 !! o = Some x -> sb_symbol x = symbol ->
  keeps_covered s (match sb_order_book_id x with
                   | Some id => live_join o ws id s1
                   | None => with_waiting (pv_joins s1 ++ [(o, ws)]) (pv_reaps s1) s1
                   end).
Proof.
  intros B1 Hg Ho Hx Ex. destruct (add_facts _ _ _ _ _ Hg) as (Hc & Hsk & _).
  destruct (sb_order_book_id x) as [id|] eqn:Hid.
  - rewrite (bi_ids _ _ B1 _ _ id Hx Hid), Ex.
    destruct (live_join_control o ws (book_id symbol) s1) as (_ & Hs' & _ & Hn').
    split; [intros n Hn; rewrite <- Hsk; by auto|].
    intros ws' todo ids Hw Hone Ha k o' Hko. rewrite Hs' in Hko.
    destruct (decide (k = symbol)) as [->|Hne]; [|apply live_join_keeps; by eapply add_covered].
    assert (o' = o) as -> by congruence. rewrite <- Ex.
    apply (live_join_covers o ws s1 _ ws' todo ids Hx). by rewrite Hsk.
  - split; [simpl; by rewrite Hsk|]. intros ws' todo ids Hw _ Ha k o' Hko. simpl in Hko.
    destruct (decide (k = symbol)) as [->|Hne].
    + right. left. exists ws. simpl. apply elem_of_app. right. assert (o' = o) as -> by congruence. by left.
    + apply (covered_mono s1); [|done|done|by eauto|by eapply add_covered].
      intros y Hy. simpl. apply elem_of_app. by left.
Qed.

Lemma calm_subscribe symbol market s :
  calm_inv s -> pv_reaps s = [] -> calm_inv (subscribe symbol market s).
Proof.
  intros C Hrp. pose proof (base_subscribe book_id symbol market s (ci_base _ C)) as B'. revert B'.
  unfold subscribe. destruct (get_or_add symbol market s) as [o s1] eqn:Hg.
  destruct (base_add _ _ _ _ _ _ (ci_base _ C) Hg) as [B1 Ho].
  destruct (add_facts _ _ _ _ _ Hg) as (Hc & Hsk & _). pose proof Hc as [E1 E2 E3 E4 E5 En].
  assert (Hd : forall r, reader_done s1 r = reader_done s r) by (intros r; unfold reader_done; by rewrite E1).
  destruct (pv_reader s1) as [r|] eqn:Hr; [destruct (reader_done s1 r) eqn:Hrd|];
    try (intros _; apply (calm_spawn s); rewrite <- ?E2, ?Hr; try done; intros r' [= <-]; by rewrite <- Hd).
  assert (Hrun : exists r rd, pv_reader s = Some r /\ pv_readers s !! r = Some rd /\
                   is_done (rd_phase rd) = false).
  { destruct (ci_known _ C r ltac:(congruence)) as [rd Hrd'].
    exists r, rd. split_and!; [congruence|done|]. unfold reader_done in Hrd. rewrite E1, Hrd' in Hrd.
    by destruct rd as [[] ?]. }
  destruct (pv_ws s1) as [ws|] eqn:Hws.
  2:{ intros _. apply (calm_data s); auto. split; [by rewrite Hsk|]. intros ws todo ids Hw. congruence. }
  destruct (bi_subs _ _ B1 _ _ Ho) as (x & Hx & Ex). rewrite Hx.
  pose proof (subscribe_keeps _ _ _ _ _ ws _ B1 Hg Ho Hx Ex) as Hkeep.
  destruct x as [k0 m [id|]]; simpl in Hkeep; intros B'; apply (calm_data s); auto;
    (eapply same_control_trans; [exact Hc|]); [apply live_join_control|by split].
Qed.

(** *** The reader's steps *)

(** The session's other objects keep their cover while one is joined. *)
Lemma join_covered s s1 r a ws o todo ids x :
  base_inv s -> all_covered s ws (o :: todo) ids -> pv_objs s !! o = Some x ->
  pv_subs s1 = pv_subs s -> pv_joins s1 = pv_joins s -> pv_out s1 = pv_out s ->
  pv_by_room s1 = pv_by_room s -> pv_sockets s1 = pv_sockets s ->
  all_covered (join_one r a ws o todo ids (book_id (sb_symbol x)) s1) ws todo
    (ids ++ [book_id (sb_symbol x)]).
Proof.
  intros B Ha Hx E1 E2 E3 E4 E5 k o' Hk. simpl in Hk. rewrite E1 in Hk.
  destruct (bi_subs _ _ B _ _ Hk) as (y & Hy & <-). unfold covered. simpl. rewrite E2, E3, E4, E5.
  destruct (Ha _ _ Hk) as [[->|Hin]%elem_of_cons|[?|[?|[Hb Hr]]]]; [| |by auto..|].
  - assert (y = x) as -> by congruence. right. right. right.
    rewrite lookup_insert_eq. split; [eauto|]. left. apply elem_of_app. right. by left.
  - by left.
  - right. right. right. split; [apply lookup_insert_is_Some'; by right|].
    destruct Hr as [?|?]; [left; apply elem_of_app; by left|by right].
Qed.

Lemma calm_leave_session s r rd a ws todo ids e :
  calm_inv s -> pv_readers s !! r = Some rd -> session (rd_phase rd) = Some (ws, todo, ids) ->
  (e = Cancelled -> r ∈ pv_reaps s) -> calm_inv (leave_session r a ws e s).
Proof.
  intros C Hr Hs He. assert (Hd : is_done (rd_phase rd) = false) by (by destruct (rd_phase rd)).
  pose proof (ci_base _ C) as B.
  apply (calm_phase s _ r rd (PClosing a e)); auto; try done; [same_data B|by destruct e; auto|].
  intros n. simpl. intros [x [Hne Hn]%lookup_delete_Some].
  destruct (ci_sockets _ C n ltac:(eauto)) as (r' & rd' & t & i & Hr' & Hs').
  destruct (ci_session _ C _ _ _ _ _ Hr Hs) as [E1 _]. destruct (ci_session _ C _ _ _ _ _ Hr' Hs') as [E2 _].
  congruence.
Qed.

(** A step of the reader outside any session, with no connection open. *)
Lemma calm_outside s r rd p f :
  calm_inv s -> pv_readers s !! r = Some rd -> is_done (rd_phase rd) = false ->
  session (rd_phase rd) = None -> session p = None -> (f = id \/ f = output (OError None)) ->
  (p = PDone None -> r ∈ pv_reaps s \/ pv_subs s = [] \/ pv_stopping s = true) ->
  ~ closing_cancelled p -> calm_inv (set_phase r p (f s)).
Proof.
  intros C Hr Hd Hs Hp Hf Hdone Hcc. pose proof (ci_base _ C) as B.
  assert (Hsock : forall n, ~ is_Some (pv_sockets s !! n)).
  { intros n Hn. destruct (ci_sockets _ C n Hn) as (r' & rd' & t & i & Hr' & Hs').
    assert (Hd' : is_done (rd_phase rd') = false) by (by destruct (rd_phase rd')).
    pose proof (ci_single _ C _ _ Hr Hd). pose proof (ci_single _ C _ _ Hr' Hd').
    assert (r' = r) as -> by congruence. congruence. }
  destruct Hf as [->| ->];
    (apply (calm_phase s _ r rd p); auto; try done; [same_data B|by rewrite Hp|]);
    intros n Hn; by destruct (Hsock n).
Qed.

Lemma calm_top s r rd a random :
  calm_inv s -> pv_readers s !! r = Some rd -> rd_phase rd = PTop a -> calm_inv (_run_top r a random s).
Proof.
  intros C Hr Hp. assert (Hd : is_done (rd_phase rd) = false) by (by rewrite Hp).
  assert (Hs : session (rd_phase rd) = None) by (by rewrite Hp). unfold _run_top.
  destruct (pv_stopping s) eqn:Hst; simpl;
    [|destruct (bool_decide_reflect (pv_subs s = [])) as [He|He]; simpl;
      [|destruct (_backoff_delay (a + 1) random); [destruct (1 <? a + 1)|]]];
    apply (calm_outside s r rd _ id C Hr Hd Hs); simpl; auto; try done.
Qed.

Lemma calm_opened s r rd a :
  calm_inv s -> pv_readers s !! r = Some rd -> rd_phase rd = PTicket a ->
  calm_inv (set_phase r (PJoin a (pv_next s) (map snd (pv_subs s)) false [])
    (with_rooms ∅ (with_ws (Some (pv_next s)) (<[pv_next s := _handshake]> (pv_sockets s)) (S (pv_next s)) s))).
Proof.
  intros C Hr Hp. assert (Hd : is_done (rd_phase rd) = false) by (by rewrite Hp).
  apply (calm_phase s _ r rd (PJoin a (pv_next s) (map snd (pv_subs s)) false [])); simpl; auto; try done.
  - destruct (ci_base _ C) as [B1 B2 B3 B4]. split; simpl; auto; [by intros id o|].
    intros o x Hx. specialize (B4 o x Hx). lia.
  - intros ws todo ids [= <- <- <-]. split; [done|]. intros k o Hk. left. by eapply sub_of_elem.
  - intros n [<-|Hn]%lookup_insert_is_Some'; [by eauto|].
    destruct (ci_sockets _ C n Hn) as (r' & rd' & t & i & Hr' & Hs').
    assert (Hd' : is_done (rd_phase rd') = false) by (by destruct (rd_phase rd')).
    pose proof (ci_single _ C _ _ Hr Hd). pose proof (ci_single _ C _ _ Hr' Hd').
    assert (r' = r) as -> by congruence. rewrite Hr in Hr'. injection Hr' as <-. by rewrite Hp in Hs'.
Qed.

(** A step from one phase of a session to another. *)
Lemma calm_within s s1 r rd p ws todo ids todo' ids' :
  calm_inv s -> pv_readers s !! r = Some rd -> session (rd_phase rd) = Some (ws, todo, ids) ->
  base_inv (set_phase r p s1) -> same_control s s1 -> pv_subs s1 = pv_subs s ->
  (forall n, is_Some (pv_sockets s1 !! n) -> is_Some (pv_sockets s !! n)) ->
  session p = Some (ws, todo', ids') -> all_covered (set_phase r p s1) ws todo' ids' ->
  calm_inv (set_phase r p s1).
Proof.
  intros C Hr Hs B [E1 E2 E3 E4 E5 En] Hsub Hsk Hp Ha.
  assert (Hd : is_done (rd_phase rd) = false) by (by destruct (rd_phase rd)).
  destruct (ci_session _ C _ _ _ _ _ Hr Hs) as [Hw _].
  apply (calm_phase s _ r rd p); simpl; rewrite ?E1; auto; [by destruct p|by destruct p| |].
  - rewrite Hp. intros ? ? ? [= <- <- <-]. split; [congruence|done].
  - intros n Hn. destruct (ci_sockets _ C n (Hsk n Hn)) as (r' & rd' & t & i & Hr' & Hs').
    destruct (ci_session _ C _ _ _ _ _ Hr' Hs') as [Hw' _]. rewrite Hp.
    assert (n = ws) as -> by congruence. eauto.
Qed.

Lemma calm_join_one s s1 r rd a ws o todo wt ids x :
  calm_inv s -> pv_readers s !! r = Some rd -> rd_phase rd = PJoin a ws (o :: todo) wt ids ->
  pv_objs s !! o = Some x -> s1 = s \/ s1 = set_room_id o (book_id (sb_symbol x)) s ->
  calm_inv (join_one r a ws o todo ids (book_id (sb_symbol x)) s1).
Proof.
  intros C Hr Hp Hx Hs1. assert (Hs : session (rd_phase rd) = Some (ws, o :: todo, ids)) by (by rewrite Hp).
  destruct (ci_session _ C _ _ _ _ _ Hr Hs) as [_ Ha]. pose proof (ci_base _ C) as B.
  assert (B1 : base_inv s1 /\ exists y, pv_objs s1 !! o = Some y /\ sb_symbol y = sb_symbol x).
  { destruct Hs1 as [->| ->]; [eauto|]. split; [by apply base_set_room|].
    by apply (symbol_of _ _ _ _ (set_room_symbol s o (book_id (sb_symbol x)) o)). }
  destruct B1 as [B1 (y & Hy & E)].
  apply (calm_within s (with_rooms (<[book_id (sb_symbol x) := o]> (pv_by_room s1)) s1) r rd
    (PJoin a ws todo false (ids ++ [book_id (sb_symbol x)])) ws (o :: todo) ids todo
    (ids ++ [book_id (sb_symbol x)])); try done.
  - rewrite <- E. pose proof (base_room _ _ _ _ B1 Hy) as B2. same_data B2.
  - by destruct Hs1 as [->| ->].
  - by destruct Hs1 as [->| ->].
  - by destruct Hs1 as [->| ->].
  - apply (join_covered s); try done; by destruct Hs1 as [->| ->].
Qed.

Lemma frame_keeps ws raw now s s' e :
  _handle_frame ws raw now s = (s', e) ->
  same_control s s' /\ pv_subs s' = pv_subs s /\ keeps_covered s s'.
Proof.
  assert (Hid : keeps_covered s s) by (by split). unfold _handle_frame.
  destruct (classify raw); try (by intros [= <- <-]).
  - destruct (send_cases ws Pong s) as [(sent & Hs & ->)|[Hs ->]]; [|by intros [= <- <-]].
    intros [= <- <-]. split; [by split|]. split; [done|]. split; simpl.
    + intros n [<-|Hn]%lookup_insert_is_Some'; eauto.
    + intros ws' todo ids _ _ Hc k o Hk. eapply covered_mono; [..|by apply Hc]; simpl; eauto.
      intros sent'. rewrite lookup_insert_Some. intros [[<- <-]|[_ H]]; [|by eauto].
      exists sent. split; [done|]. by rewrite rooms_snoc.
  - destruct (bid_offer_update _) as [payload|]; [|by intros [= <- <-]].
    destruct (parse_bid_offer_payload payload) as [[parsed|]|]; try (by intros [= <- <-]).
    destruct (frame_book parsed now s); intros [= <- <-]; [|by split_and!].
    split_and!; [by split|done|apply keeps_output].
Qed.

Lemma calm_frame ws raw now s s' e :
  calm_inv s -> _handle_frame ws raw now s = (s', e) -> calm_inv s'.
Proof.
  intros C Hf. destruct (frame_keeps _ _ _ _ _ _ Hf) as (Hc & Hs & Hk).
  apply (calm_data s); [done|by eapply base_frame; [apply C|]|done| |done]. rewrite Hs. by left.
Qed.

Lemma calm_joined s r rd a ws wt ids s' :
  calm_inv s -> pv_readers s !! r = Some rd -> rd_phase rd = PJoin a ws [] wt ids ->
  run_phase r (rd_phase rd) IJoined s = Some s' -> calm_inv s'.
Proof.
  intros C Hr Hp. assert (Hs : session (rd_phase rd) = Some (ws, [], ids)) by (by rewrite Hp).
  destruct (ci_session _ C _ _ _ _ _ Hr Hs) as [Hw Ha]. pose proof (ci_base _ C) as B. rewrite Hp.
  destruct ids as [|id ids]; simpl.
  { intros [= <-]. apply (calm_within s s r rd (PLive a ws) ws [] [] [] []); try done. same_data B. }
  destruct (send_cases ws (JoinRooms (id :: ids)) s) as [(sent & Hss & ->)|[Hss ->]]; intros [= <-];
    [|by eapply calm_leave_session].
  apply (calm_within s _ r rd (PLive a ws) ws [] (id :: ids) [] []); try done; [same_data B|..].
  { intros n. simpl. intros [<-|Hn]%lookup_insert_is_Some'; eauto. }
  intros k o Hk. destruct (Ha _ _ Hk) as [?|[?|[?|[Hb Hj]]]]; unfold covered; simpl; auto 6.
  right. right. right. split; [done|]. right. intros sent'. rewrite lookup_insert_eq. intros [= <-].
  rewrite rooms_snoc, elem_of_union, elem_of_list_to_set. destruct Hj; [by right|left; auto].
Qed.

Lemma calm_run r rd i s s' :
  calm_inv s -> pv_readers s !! r = Some rd -> rd_cancel rd = false -> input_ok book_id r i s ->
  run_phase r (rd_phase rd) i s = Some s' -> calm_inv s'.
Proof.
  intros C Hr Hc Hi. unfold input_ok in Hi. rewrite Hr in Hi. simpl in Hi. pose proof (ci_base _ C) as B.
  destruct (rd_phase rd) as [a|a d|a|a ws todo wt ids|a ws|a e|e] eqn:Hp,
    i as [q|sl|el| | |an| |raw now|f|el|]; simpl; try done; try (by destruct todo, wt).
  - intros [= <-]. by eapply calm_top.
  - destruct (Qle_bool d sl); intros [= <-]. by apply (calm_outside s r rd _ id C Hr); rewrite ?Hp; auto.
  - intros [= <-]. by apply (calm_outside s r rd _ (output (OError None)) C Hr); rewrite ?Hp; auto.
  - intros [= <-]. by eapply calm_opened.
  - destruct todo as [|o todo]; [done|]. destruct wt; [done|].
    destruct (pv_objs s !! o) as [[k m [id|]]|] eqn:Hx; intros [= <-].
    1: rewrite (bi_ids _ _ B _ _ id Hx eq_refl); by eapply (calm_join_one s s _ _ _ _ _ _ _ _ _ C Hr Hp Hx); left.
    all: apply (calm_within s s r rd _ ws (o :: todo) ids (o :: todo) ids);
      rewrite ?Hp; try done; [same_data B|];
      by apply (ci_session _ C r rd ws (o :: todo) ids Hr); rewrite Hp.
  - destruct todo as [|o todo]; [done|]. destruct wt; [|done]. destruct an as [[id|]|x]; intros [= <-].
    + destruct Hi as (x & Hx & ->).
      eapply (calm_join_one s _ _ _ _ _ _ _ _ _ _ C Hr Hp Hx). by right.
    + destruct (ci_session _ C r rd ws (o :: todo) ids Hr) as [_ Ha]; [by rewrite Hp|].
      apply (calm_within s _ r rd _ ws (o :: todo) ids todo ids); rewrite ?Hp; try done; [same_data B|].
      intros k o' Hk. destruct (bi_subs _ _ B _ _ Hk) as (x & Hx & <-).
      destruct (Ha _ _ Hk) as [[->|Hin]%elem_of_cons|H]; [|by left|].
      * right. right. left. simpl. rewrite Hx. apply elem_of_app. right. by left.
      * apply (covered_mono s); [done| |done|by eauto|by right].
        simpl. intros y Hy. apply elem_of_app. by left.
    + assert (Hs : session (rd_phase rd) = Some (ws, o :: todo, ids)) by (by rewrite Hp).
      by eapply calm_leave_session.
  - destruct todo; [|by destruct wt]. intros Hrun. eapply (calm_joined s r rd); [done..|].
    rewrite Hp. exact Hrun.
  - assert (Hs : session (rd_phase rd) = Some (ws, [], [])) by (by rewrite Hp).
    destruct (pv_stopping s); [intros [= <-]; by eapply calm_leave_session|].
    destruct (_handle_frame _ _ _ _) as [s1 [e|]] eqn:Hf; intros [= <-];
      pose proof (calm_frame _ _ _ _ _ _ C Hf) as C1; [|done].
    destruct (frame_keeps _ _ _ _ _ _ Hf) as ([E1 _ E3 _ _ _] & _ & _).
    eapply calm_leave_session; [done|by rewrite E1|done|].
    intros ->. exfalso. revert Hf. unfold _handle_frame. repeat case_match; by intros [= _ _].
  - intros [= <-]. assert (Hs : session (rd_phase rd) = Some (ws, [], [])) by (by rewrite Hp).
    eapply calm_leave_session; [done..|]. by destruct f.
  - intros [= <-]. destruct e as [| |x|].
    + by apply (calm_outside s r rd _ id C Hr); rewrite ?Hp; auto.
    + by apply (calm_outside s r rd _ (output (OError None)) C Hr); rewrite ?Hp; auto.
    + by apply (calm_outside s r rd _ id C Hr); rewrite ?Hp; auto.
    + apply (calm_outside s r rd _ id C Hr); rewrite ?Hp; auto. intros _. left.
      apply (ci_cancel _ C r rd Hr); rewrite Hp; [done|by right].
Qed.

Lemma calm_reader r i s s' :
  calm_inv s -> input_ok book_id r i s -> reader_step r i s = Some s' -> calm_inv s'.
Proof.
  intros C Hi. unfold reader_step. destruct (pv_readers s !! r) as [rd|] eqn:Hr; [|done].
  destruct (rd_cancel rd) eqn:Hc; [|by eapply calm_run].
  destruct i; try done. unfold deliver_cancel.
  assert (Hin : is_done (rd_phase rd) = false -> r ∈ pv_reaps s).
  { intros Hd. apply (ci_cancel _ C r rd Hr Hd). by left. }
  destruct (rd_phase rd) eqn:Hp; intros [= <-];
    try (by apply (calm_outside s r rd _ id C Hr); rewrite ?Hp; auto);
    (eapply calm_leave_session; [done|done|by rewrite Hp|by auto]).
Qed.

Lemma calm_step s s' : calm_inv s -> provider_step true s s' -> calm_inv s'.
Proof.
  intros C []; eauto using calm_subscribe, calm_resume, calm_reap, calm_reader, calm_drop.
  - unfold unsubscribe. pose proof (calm_leave symbol s C).
    destruct (pv_subs (leave_room symbol s)) eqn:E; [|done]. apply calm_cancel; auto.
  - apply calm_stopping; auto.
  - apply calm_cancel; [by apply calm_stopping|by right].
Qed.

Lemma calm_reachable s : rtc (provider_step true) Provider_new s -> calm_inv s.
Proof.
  intros H. generalize calm_new. induction H as [|s1 s2 s3 Hs _ IH]; [done|].
  intros C. apply IH. by eapply calm_step.
Qed.

(** while a symbol is subscribed the feed is at work for it.  In every state a
    calm run reaches with a subscription and without a stop, there is exactly one
    reader task that has not ended, and it is not being cancelled, unless the last
    one raised an error [_run] does not catch; and when its session is live, every
    subscribed symbol has its room joined on the open connection and its frames
    routed, or a subscribe still waits for its room id, or the error was reported
    for it. *)
Theorem feed_serves_subscribed s :
  rtc (provider_step true) Provider_new s -> pv_subs s <> [] -> pv_stopping s = false ->
  exists r rd, pv_reader s = Some r /\ pv_readers s !! r = Some rd /\
    (is_done (rd_phase rd) = false /\ rd_cancel rd = false /\ ~ closing_cancelled (rd_phase rd) \/
     exists e, rd_phase rd = PDone (Some e)) /\
    (forall r' rd', pv_readers s !! r' = Some rd' -> r' <> r -> is_done (rd_phase rd') = true) /\
    (forall a ws, rd_phase rd = PLive a ws -> pv_ws s = Some ws /\
       forall k o, sub_of k (pv_subs s) = Some o ->
         room_joined s ws k \/ (exists ws', (o, ws') ∈ pv_joins s) \/ OError (Some k) ∈ pv_out s).
Proof.
  intros Hr Hs Hst. pose proof (calm_reachable _ Hr) as C.
  destruct (ci_alive _ C Hs Hst) as [Hrp (r & rd & Hrr & Hrd & Hp)]. exists r, rd.
  split; [done|]. split; [done|]. split_and!.
  - destruct (is_done (rd_phase rd)) eqn:Hd.
    { right. destruct (rd_phase rd) as [| | | | | |[e|]]; try done. by exists e. }
    left. assert (Hn : ~ (rd_cancel rd = true \/ closing_cancelled (rd_phase rd))).
    { intros Hc. pose proof (ci_cancel _ C _ _ Hrd Hd Hc) as Hin. rewrite Hrp in Hin.
      by apply elem_of_nil in Hin. }
    split_and!; [done| |tauto]. destruct (rd_cancel rd); tauto.
  - intros r' rd' Hr' Hne. destruct (is_done (rd_phase rd')) eqn:Hd'; [done|].
    pose proof (ci_single _ C _ _ Hr' Hd'). congruence.
  - intros a ws Hl. destruct (ci_session _ C _ _ ws [] [] Hrd) as [Hw Ha]; [by rewrite Hl|].
    split; [done|]. intros k o Hk. destruct (Ha k o Hk) as [Hin|[?|[?|[Hb [Hin|Hj]]]]]; auto;
      [by apply elem_of_nil in Hin|by apply elem_of_nil in Hin|]. left. by split.
Qed.
End live.
