(* ===== verification/BookProviderExamples.v ===== *)
(** * BookProviderExamples: runs of the order-book feed

    A run that is not calm and loses its reader, the end of the reconnects, and
    concrete instances of the feed's theorems. *)

From S2P Require Import Prelude Decimals Contracts OrderBook StreamingPro EngineIO BookProvider BookProviderProps BookProviderLive.
From stdpp Require Import base gmap strings list relations.
From Stdlib Require Import ZArith QArith Lqa Lia.
Open Scope Z_scope.

(** ** Concrete runs *)

(** An injective numbering of symbols. *)
Definition ex_book_id (symbol : string) : Z := Z.pos (encode symbol).
#[global] Instance ex_book_id_inj : Inj eq eq ex_book_id.
Proof. intros a b [= H]. by apply (inj encode) in H. Qed.

(** What happens, and the state after it. *)
Inductive Act :=
  | ASubscribe (k : string) | AUnsubscribe (k : string) | AReap | ARead (r : nat) (i : Input).

Definition act (a : Act) (s : Provider) : option Provider :=
  match a with
  | ASubscribe k => Some (subscribe k SET_ s)
  | AUnsubscribe k => Some (unsubscribe k s)
  | AReap => reap 0 s
  | ARead r i => reader_step r i s
  end.

Definition act_ok (calm : bool) (a : Act) (s : Provider) : Prop :=
  match a with
  | ASubscribe _ => calm = true -> pv_reaps s = []
  | ARead r i => input_ok ex_book_id r i s
  | _ => True
  end.

Lemma act_step calm a s s' :
  act_ok calm a s -> act a s = Some s' -> provider_step ex_book_id calm s s'.
Proof. destruct a; simpl; intros Ha; [intros [= <-]; by constructor..|intros H|intros H]; by econstructor. Qed.

(** One more action of a run. *)
Ltac run_act a :=
  eapply rtc_l;
  [eapply (act_step _ a);
   [first [exact I | by intros | eexists; split; vm_compute; reflexivity]
   |vm_compute; reflexivity]|].

(** A provider that has gone live for PTT. *)
Ltac go_live :=
  run_act (ASubscribe "PTT"); run_act (ARead 1 (ITop 0)); run_act (ARead 1 IOpened);
  run_act (ARead 1 IJoinNext); run_act (ARead 1 (IResolved (Ok (Some (ex_book_id "PTT")))));
  run_act (ARead 1 IJoined).

Definition ex_live : Provider := {|
  pv_objs := {[0%nat := {| sb_symbol := "PTT"; sb_market := SET_;
                           sb_order_book_id := Some (ex_book_id "PTT") |}]};
  pv_subs := [("PTT"%string, 0%nat)]; pv_by_room := {[ex_book_id "PTT" := 0%nat]};
  pv_reader := Some 1%nat; pv_ws := Some 2%nat; pv_stopping := false;
  pv_readers := {[1%nat := {| rd_phase := PLive 1 2; rd_cancel := false |}]};
  pv_sockets := {[2%nat := _handshake ++ [JoinRooms [ex_book_id "PTT"]]]};
  pv_joins := []; pv_reaps := []; pv_next := 3; pv_out := [] |}.

Lemma ex_live_reached calm : rtc (provider_step ex_book_id calm) Provider_new ex_live.
Proof. go_live. apply rtc_refl. Qed.

(** an unsubscribe can take the reader of a later subscribe.  In a run that is
    not calm, where PTT is unsubscribed, and AOT subscribed while that call waits
    for the cancelled reader to close its connection, the feed ends with AOT
    subscribed and no reader: no call is in progress, no error was reported, and
    no reader task can take a step, so nothing is ever received for AOT until
    some later call starts a reader. *)
Theorem reap_races_subscribe :
  exists s, rtc (provider_step ex_book_id false) Provider_new s /\
    map fst (pv_subs s) = ["AOT"%string] /\ pv_stopping s = false /\ pv_reader s = None /\
    pv_joins s = [] /\ pv_reaps s = [] /\ pv_out s = [] /\
    forall r i, reader_step r i s = None.
Proof.
  eexists. split.
  - go_live. run_act (AUnsubscribe "PTT"). run_act (ARead 1 ICancel).
    run_act (ASubscribe "AOT"). run_act (ARead 1 (IClosed 0)). run_act AReap. apply rtc_refl.
  - repeat (split; [reflexivity|]). intros r i. unfold reader_step.
    match goal with |- context [pv_readers ?s !! r] =>
      assert (E : pv_readers s = {[1%nat := {| rd_phase := PDone None; rd_cancel := false |}]}) by reflexivity
    end.
    rewrite E. destruct (decide (r = 1%nat)) as [->|Hn];
      [by rewrite lookup_singleton_eq; destruct i|by rewrite lookup_singleton_ne].
Qed.

(** PTT is live: its room is joined. *)
Lemma feed_serves_subscribed_witness : room_joined ex_book_id ex_live 2 "PTT" /\ pv_out ex_live = [].
Proof.
  destruct (feed_serves_subscribed ex_book_id ex_live (ex_live_reached true))
    as (r & rd & Hrr & Hrd & _ & _ & Hl); [discriminate|reflexivity|].
  vm_compute in Hrr. injection Hrr as <-. vm_compute in Hrd. injection Hrd as <-.
  destruct (Hl 1 2%nat eq_refl) as [_ Hk].
  destruct (Hk "PTT"%string 0%nat eq_refl) as [H|[[ws' H]|H]];
    [split; [exact H|reflexivity]|exfalso; vm_compute in H; inversion H..].
Defined.

(** A frame of PTT's room with one bid, and a price of zero that is dropped. *)
Definition ex_payload : list (string * json) :=
  [("room", JInt (ex_book_id "PTT")); ("vs", JInt 7); ("bp", JList [JStr "34.25"; JStr "0"]);
   ("bv", JList [JInt 100; JInt 5])]%string.
Definition ex_frame : string := update_frame ex_payload.

Lemma feed_attribution_witness :
  exists book, (_handle_frame 2 ex_frame 9 ex_live).1 = output (OBook book) ex_live /\
    ob_symbol book = "PTT"%string /\ Forall level_ok (ob_bid_levels book ++ ob_ask_levels book).
Proof.
  destruct (_handle_frame 2 ex_frame 9 ex_live) as [s' e] eqn:Hf.
  pose proof (feed_attribution ex_book_id true ex_live 2 ex_frame 9 s' e
    (ex_live_reached true) Hf) as H.
  vm_compute in Hf. injection Hf as <- <-. destruct H as [H|(book & Hb & _ & _ & _ & _ & Hl & _)];
    [vm_compute in H; discriminate H|].
  vm_compute in Hb. injection Hb as <-. eexists. split; [vm_compute; reflexivity|].
  split; [reflexivity|exact Hl].
Defined.

(** ** Backoff *)






