(* ===== verification/BookRuntime.v ===== *)
(** * BookRuntime: the order-book runtime and the market-data client
    ([order_book/runtime.py], [adapters/market_data.py])

    The runtime builds the service, its provider router and the one provider from
    the settings, and bridges the provider's callbacks to them. *)

From S2P Require Import Prelude Decimals Contracts Store Config Adapters OrderBook BookService BookServiceProps Liberator StreamingPro Transport PyTime Fees EngineIO BookProvider.
From stdpp Require Import base gmap strings list countable.
From Stdlib Require Import ZArith Lia.
Open Scope Z_scope.

Inductive OrderBookSource := SrcLiberator.

#[global] Instance OrderBookSource_eq_dec : EqDecision OrderBookSource.
Proof. solve_decision. Defined.
#[global] Instance OrderBookSource_countable : Countable OrderBookSource.
Proof. by refine (inj_countable' (fun _ => tt) (fun _ => SrcLiberator) _); intros []. Defined.

(** [OrderBookSource(name)]; [None] raises [ValueError]. *)
Definition source_of_name (name : string) : option OrderBookSource :=
  if String.eqb name "liberator" then Some SrcLiberator else None.

Record BookRuntime := {
  br_config : ServiceConfig OrderBookSource;
  br_service : ServiceState OrderBookSource;
  br_provider : Provider;
}.

Definition _liberator_configured (settings : Settings) : bool :=
  bool_decide (is_Some (s_liberator_api_key settings)).

Definition order_book_enabled (settings : Settings) : bool :=
  s_order_book_enabled settings && _liberator_configured settings.

Definition _build_providers (settings : Settings) : list OrderBookSource :=
  match s_liberator_api_key settings with Some _ => [SrcLiberator] | None => [] end.

(** An override that names no source is skipped. *)
Definition _parse_overrides (settings : Settings) : gmap string OrderBookSource :=
  fold_left (fun overrides '(symbol, name) =>
      match source_of_name name with
      | Some source => <[symbol := source]> overrides
      | None => overrides
      end) (s_order_book_symbol_overrides settings) ∅.

Definition seconds : Z := 1000000.

Definition create_order_book_runtime (settings : Settings) (current : option BookRuntime)
    : option BookRuntime :=
  match current with
  | Some rt => Some rt
  | None =>
      if negb (order_book_enabled settings) then None
      else Some {|
        br_config := {|
          sc_max_symbols := s_order_book_cache_max_symbols settings;
          sc_max_age := s_order_book_cache_max_age_seconds settings * seconds;
          sc_subscriber_queue_size := s_stream_subscriber_queue_size settings;
          sc_providers := _build_providers settings;
          sc_overrides := _parse_overrides settings;
          sc_error_threshold := s_order_book_failover_error_threshold settings;
          sc_window := s_order_book_failover_window_seconds settings * seconds |};
        br_service := service_new SrcLiberator;
        br_provider := Provider_new |}
  end.

Definition start_order_book_workers (rt : option BookRuntime) : option BookRuntime :=
  (fun rt => {| br_config := br_config rt; br_service := br_service rt;
                br_provider := start (br_provider rt) |}) <$> rt.

(** The bridge: a book is published, an error reaches the provider router. *)
Definition _on_book (book : OrderBook) (rt : BookRuntime) : BookRuntime :=
  {| br_config := br_config rt; br_service := publish_book (br_config rt) book (br_service rt);
     br_provider := br_provider rt |}.
Definition _on_error (now : Z) (rt : BookRuntime) : BookRuntime :=
  {| br_config := br_config rt; br_service := on_error (br_config rt) SrcLiberator now (br_service rt);
     br_provider := br_provider rt |}.

Definition bridge (now : Z) (out : Output) (rt : BookRuntime) : BookRuntime :=
  match out with OBook book => _on_book book rt | OError _ => _on_error now rt end.

(** The feed's errors never move a subscription: with one provider there is no
    secondary to fail over to, whatever the threshold. *)
Lemma errors_never_fail_over settings rt now :
  create_order_book_runtime settings None = Some rt -> forall outs rt',
  rt' = fold_left (fun rt out => bridge now out rt) outs rt ->
  pr_active (br_service rt') = SrcLiberator /\
  pr_subscriptions (br_service rt') = pr_subscriptions (br_service rt).
Proof.
  intros Hc outs. unfold create_order_book_runtime in Hc.
  destruct (order_book_enabled settings) eqn:He; [|done]. injection Hc as <-.
  assert (Hp : _build_providers settings = [SrcLiberator]).
  { apply andb_true_iff in He as [_ He]. unfold _liberator_configured in He.
    apply bool_decide_eq_true in He as [k Hk]. unfold _build_providers. by rewrite Hk. }
  match goal with |- context [fold_left _ _ ?r] => set (rt0 := r) end.
  cut (forall rt, sc_providers (br_config rt) = [SrcLiberator] ->
    pr_active (br_service rt) = SrcLiberator ->
    forall rt', rt' = fold_left (fun rt out => bridge now out rt) outs rt ->
    pr_active (br_service rt') = SrcLiberator /\
    pr_subscriptions (br_service rt') = pr_subscriptions (br_service rt)).
  { intros H. by apply (H rt0). }
  clear. induction outs as [|[b|k] outs IH]; intros rt Hc Ha rt' ->; simpl; [done|..].
  - destruct (IH (_on_book b rt) Hc) with (rt' := fold_left (fun rt out => bridge now out rt) outs (_on_book b rt))
      as [E1 E2]; [|done|split; [done|rewrite E2]];
      simpl; unfold publish_book; case_match; done.
  - assert (He : pr_active (br_service (_on_error now rt)) = SrcLiberator /\
      pr_subscriptions (br_service (_on_error now rt)) = pr_subscriptions (br_service rt)).
    { simpl. unfold on_error. repeat case_match; simpl; try done.
      unfold _failover, _secondary. rewrite Hc. simpl. rewrite Ha.
      by rewrite bool_decide_eq_false_2 by (intros Hne; by apply Hne). }
    destruct He as [He1 He2].
    destruct (IH (_on_error now rt) Hc He1 _ eq_refl) as [E1 E2]. split; [done|]. by rewrite E2.
Qed.

(** ** The market-data client *)

(** [max(bars, key=lambda bar: str(bar["ts"]))]: the first of the greatest. *)
Fixpoint newest (best : string * list (string * json)) (bars : list (string * list (string * json)))
    : list (string * json) :=
  match bars with
  | [] => best.2
  | bar :: bars' => newest (if String.ltb best.1 bar.1 then bar else best) bars'
  end.

(** [str(bar["ts"])] of each bar, in order: a missing key raises [KeyError], a bar
    that is not an object [TypeError]. *)
Fixpoint keyed (bars : list json) : result exn (list (string * list (string * json))) :=
  match bars with
  | [] => Ok []
  | JObj bar :: bars' =>
      match jassoc "ts" bar with
      | None => Err KeyError
      | Some ts => result_bind (keyed bars') (fun ks => Ok ((py_str ts, bar) :: ks))
      end
  | _ :: _ => Err (OtherError "TypeError")
  end.

(** A close is a finite numeral, or [Decimal] raises [InvalidOperation]. *)
Definition _latest_close (payload : json) : result exn Decimal :=
  match payload with
  | JObj kvs =>
      match jget "bars" kvs with
      | JList (bar :: bars) =>
          result_bind (keyed (bar :: bars)) (fun ks =>
          match ks with
          | [] => Err (ValueError "no bars")
          | k :: ks =>
              match jassoc "close" (newest k ks) with
              | None => Err KeyError
              | Some close => match decimal_of_string (py_str close) with
                              | Some d => Ok d
                              | None => Err InvalidOperation
                              end
              end
          end)
      | _ => Err (ValueError "market-data response carried no bars")
      end
  | _ => Err (ValueError "market-data response is not an object")
  end.

Section market_data.
Context {R V : Type}.
Abbreviation M := (M exn (world R V)).
(* httpx: GET url with its query parameters *)
Context (client_get : string -> list (string * json) -> M HttpOutcome).

(** The errors [last_close] catches: what the parse raises but a [TypeError]. *)
Definition is_miss (e : exn) : bool :=
  match e with OtherError name => negb (String.eqb name "TypeError") | _ => true end.

Definition last_close (base_url : option string) (symbol : string) (market : Market)
    : M (option Decimal) :=
  match base_url with
  | None => ret None
  | Some base_url =>
      let* outcome := client_get (rstrip_slash base_url +:+ "/ohlcv")
        [("symbol"%string, JStr (Market_value market +:+ ":" +:+ symbol));
         ("timeframe"%string, JStr "1d"); ("limit"%string, JInt 1)] in
      match outcome with
      | HttpError _ => ret None
      | Answered response =>
          if (rs_status_code response <? 200) || (300 <=? rs_status_code response) then ret None
          else match rs_json response with
               | None => ret None
               | Some body => match _latest_close body with
                              | Ok d => ret (Some d)
                              | Err e => if is_miss e then ret None else raise e
                              end
               end
      end
  end.
End market_data.

Example latest_close_newest :
  _latest_close (JObj [("bars"%string, JList [
    JObj [("ts"%string, JStr "2026-01-02"); ("close"%string, JStr "34.25")];
    JObj [("ts"%string, JStr "2026-01-05"); ("close"%string, JFloat "34.5")];
    JObj [("ts"%string, JStr "2026-01-05"); ("close"%string, JInt 1)]])]) = Ok (Dec 345 (-1)).
Proof. reflexivity. Qed.
Example latest_close_empty : _latest_close (JObj [("bars"%string, JList [])]) =
  Err (ValueError "market-data response carried no bars").
Proof. reflexivity. Qed.
