(* ===== verification/BookSystem.v ===== *)
(** * BookSystem: the order-book service and its feed, running together
    ([order_book/service.py], [router.py], [runtime.py], [providers/liberator.py])

    One event loop runs the consumers' calls into the service, the calls the
    service makes into the provider through the router, the provider's own tasks,
    and the callbacks by which it reports.  A service call and the part of the
    provider's call before its first await run without interruption: they are one
    step.  [_on_book] publishes at once; [_on_error] schedules a task. *)

From S2P Require Import Prelude Decimals Contracts OrderBook BookService BookServiceProps EngineIO BookProvider BookProviderProps BookRuntime.
From stdpp Require Import base gmap strings list relations.
From Stdlib Require Import ZArith Lia.
Open Scope Z_scope.

Record BookSystem := {
  bs_service : ServiceState OrderBookSource;
  bs_provider : Provider;
  bs_errors : nat;                          (* order-book-on-error tasks not yet run *)
}.

Definition BookSystem_new : BookSystem :=
  {| bs_service := service_new SrcLiberator; bs_provider := Provider_new; bs_errors := 0 |}.

Section system.
Context (cfg : ServiceConfig OrderBookSource) (book_id : string -> Z).

Definition with_service (s : ServiceState OrderBookSource) (sys : BookSystem) : BookSystem :=
  {| bs_service := s; bs_provider := bs_provider sys; bs_errors := bs_errors sys |}.

(** One callback. *)
Definition callback (o : Output) (sys : BookSystem) : BookSystem :=
  match o with
  | OBook b => with_service (publish_book cfg b (bs_service sys)) sys
  | OError _ => {| bs_service := bs_service sys; bs_provider := bs_provider sys;
                   bs_errors := S (bs_errors sys) |}
  end.

(** The provider moves to [p]: what it reported on the way reaches the callbacks. *)
Definition settle (p : Provider) (sys : BookSystem) : BookSystem :=
  fold_left (fun sys o => callback o sys)
    (drop (length (pv_out (bs_provider sys))) (pv_out p))
    {| bs_service := bs_service sys; bs_provider := p; bs_errors := bs_errors sys |}.

(** [_acquire]: the first consumer of a key subscribes it at its provider. *)
Definition system_acquire (k : Key) (id : nat) (sys : BookSystem) : BookSystem :=
  let s := bs_service sys in
  let sys1 := with_service (_acquire cfg k id s) sys in
  if default 0 (sv_refcounts s !! k) + 1 =? 1
  then settle (subscribe k.1 k.2 (bs_provider sys)) sys1 else sys1.

(** [_release]: the last one unsubscribes it. *)
Definition system_release (k : Key) (id : nat) (sys : BookSystem) : BookSystem :=
  let s := bs_service sys in
  let sys1 := with_service (_release k id s) sys in
  if (Z.max (default 0 (sv_refcounts s !! k) - 1) 0 =? 0) &&
     bool_decide (is_Some (dict_get k (pr_subscriptions s)))
  then settle (unsubscribe k.1 (bs_provider sys)) sys1 else sys1.

(** What the provider does between calls.  A call of [_acquire] that is cancelled, or
    left by an error, while its subscribe waits for the room id leaves the queue and
    the count it registered in place: it ends here and the service does not move. *)
Inductive feed_step (calm : bool) (p : Provider) : Provider -> Prop :=
  | fs_resume i o ws answer : pv_joins p !! i = Some (o, ws) -> answer_ok book_id o answer p ->
      (calm = true -> answered answer) ->
      feed_step calm p (subscribe_resume i answer p)
  | fs_reap i p' : reap i p = Some p' -> feed_step calm p p'
  | fs_reader r i p' : input_ok book_id r i p -> reader_step r i p = Some p' -> feed_step calm p p'
  | fs_drop ws : feed_step calm p (with_ws (pv_ws p) (delete ws (pv_sockets p)) (pv_next p) p).

(** [ok] says which keys consumers ask for; [calm] is that of the provider. *)
Inductive system_step (ok : Key -> Prop) (calm : bool) (sys : BookSystem) : BookSystem -> Prop :=
  | sy_acquire k id : ok k -> id ∉ map q_id (queues_of k (bs_service sys)) ->
      (calm = true -> pv_reaps (bs_provider sys) = []) ->
      system_step ok calm sys (system_acquire k id sys)
  | sy_release k id : id ∈ map q_id (queues_of k (bs_service sys)) ->
      system_step ok calm sys (system_release k id sys)
  | sy_get now k : system_step ok calm sys (with_service (get_book cfg now k (bs_service sys)).2 sys)
  | sy_take k id : system_step ok calm sys (with_service (take_book k id (bs_service sys)) sys)
  | sy_feed p : feed_step calm (bs_provider sys) p -> system_step ok calm sys (settle p sys)
  | sy_error now n : bs_errors sys = S n ->
      system_step ok calm sys {| bs_service := on_error cfg SrcLiberator now (bs_service sys);
                                 bs_provider := bs_provider sys; bs_errors := n |}.
End system.
