(* ===== verification/BookSystemProps.v ===== *)
(** * BookSystemProps: the feed the service counts on is the feed there is

    Every joint run is a run of the service and a run of the provider
    ([runs_project]); while each symbol is asked for on one market, what the
    service believes its provider is subscribed to is what it is subscribed to,
    and a frame of a consumer's symbol reaches that consumer. *)

From S2P Require Import Prelude Decimals Contracts OrderBook BookService BookServiceProps StreamingPro EngineIO BookProvider BookProviderProps BookProviderLive BookRuntime BookSystem.
From stdpp Require Import base gmap strings list relations.
From Stdlib Require Import ZArith Lia.
Open Scope Z_scope.

(** ** What the provider is subscribed to *)

Definition sb_key (x : Sub) : Key := (sb_symbol x, sb_market x).

(** The market a symbol is subscribed on. *)
Definition feed_of (p : Provider) (k : string) : option Market :=
  sub_of k (pv_subs p) ≫= fun o => sb_market <$> pv_objs p !! o.

(** Changes that keep every subscription and every object's symbol and market. *)
Definition same_feed (p p' : Provider) : Prop :=
  pv_subs p' = pv_subs p /\ forall o, sb_key <$> pv_objs p' !! o = sb_key <$> pv_objs p !! o.

#[global] Instance same_feed_preorder : PreOrder same_feed.
Proof.
  split; [by split|]. intros p1 p2 p3 [E1 H1] [E2 H2]. split; [congruence|]. intros o. by rewrite H2, H1.
Qed.

Lemma same_feed_of p p' k : same_feed p p' -> feed_of p' k = feed_of p k.
Proof.
  intros [E H]. unfold feed_of. rewrite E. destruct (sub_of k (pv_subs p)) as [o|]; simpl; [|done].
  specialize (H o). by destruct (pv_objs p' !! o), (pv_objs p !! o); simplify_eq/=; f_equal.
Qed.

Lemma set_room_feed o id p : same_feed p (set_room_id o id p).
Proof.
  split; [done|]. intros o'. simpl. rewrite lookup_alter. case_decide; [subst|done].
  by destruct (pv_objs p !! o').
Qed.

Lemma send_feed ws q p p' : send ws q p = Some p' -> same_feed p p'.
Proof. unfold send. case_match; [|done]. by intros [= <-]. Qed.

Lemma live_join_feed o ws id p : same_feed p (live_join o ws id p).
Proof.
  unfold live_join. destruct (send _ _ _) as [p'|] eqn:Hs; [|by split].
  by apply send_feed in Hs.
Qed.

Lemma reader_feed r i p p' : reader_step r i p = Some p' -> same_feed p p'.
Proof.
  unfold reader_step. destruct (pv_readers p !! r) as [rd|]; [|done]. destruct (rd_cancel rd).
  { destruct i; try done. unfold deliver_cancel. case_match; intros [= <-]; by split. }
  destruct (rd_phase rd) as [a|a d|a|a ws todo wt ids|a ws|a e|e], i as [q|sl|el| | |an| |raw now|f|el|];
    simpl; try done; try (intros [= <-]; by split); try (by destruct todo, wt).
  - intros [= <-]. unfold _run_top. repeat case_match; by split.
  - case_match; intros [= <-]; by split.
  - destruct todo as [|o todo]; [done|]. destruct wt; [done|]. repeat case_match; intros [= <-]; by split.
  - destruct todo as [|o todo]; [done|]. destruct wt; [|done]. destruct an as [[id|]|]; intros [= <-]; [|by split..].
    transitivity (set_room_id o id p); [apply set_room_feed|by split].
  - destruct todo; [|by destruct wt]. destruct ids; [intros [= <-]; by split|].
    destruct (send _ _ _) as [p1|] eqn:Hs; intros [= <-]; [|by split].
    apply send_feed in Hs as [E H]. by split.
  - destruct (pv_stopping p); [intros [= <-]; by split|].
    assert (Hf : forall s1 e, _handle_frame ws raw now p = (s1, e) -> same_feed p s1).
    { intros s1 e. unfold _handle_frame. repeat case_match; intros [= <- <-]; try by split.
      by eapply send_feed. }
    destruct (_handle_frame _ _ _ _) as [s1 [e|]]; intros [= <-]; by apply (Hf s1 _ eq_refl).
  - intros [= <-]. destruct e; by split.
Qed.

Lemma feed_step_feed book_id calm p p' : feed_step book_id calm p p' -> same_feed p p'.
Proof.
  intros [i o ws answer Hi Ha _|i p1 Hr|r i p1 _ Hr|ws]; [..|by split].
  - unfold subscribe_resume. rewrite Hi. destruct answer as [[id|]|]; [|by split..].
    etransitivity; [|apply live_join_feed]. etransitivity; [|apply set_room_feed]. by split.
  - revert Hr. unfold reap. repeat case_match; intros [= <-]; by split.
  - by eapply reader_feed.
Qed.

Lemma subscribe_feed book_id k m p k' :
  base_inv book_id p ->
  feed_of (subscribe k m p) k' = if decide (k' = k) then Some (default m (feed_of p k)) else feed_of p k'.
Proof.
  intros B. unfold subscribe. destruct (get_or_add k m p) as [o p1] eqn:Hg.
  assert (Hf : feed_of p1 k' = if decide (k' = k) then Some (default m (feed_of p k)) else feed_of p k').
  { revert Hg. unfold get_or_add, feed_of. destruct (sub_of k (pv_subs p)) as [o0|] eqn:Hk; intros [= <- <-].
    - case_decide; [subst k'|done]. rewrite Hk. simpl.
      destruct (bi_subs _ _ B _ _ Hk) as (x & -> & _). done.
    - simpl. rewrite sub_of_app. case_decide as Hd; [subst k'|].
      + rewrite Hk, String.eqb_refl. simpl. by rewrite lookup_insert_eq.
      + destruct (sub_of k' (pv_subs p)) as [o1|] eqn:Hk'; simpl.
        * destruct (bi_subs _ _ B _ _ Hk') as (x & Hx & _). rewrite lookup_insert_ne; [done|].
          intros <-. apply (bi_fresh _ _ B) in Hx. lia.
        * destruct (String.eqb_spec k k'); [congruence|done]. }
  rewrite <- Hf. apply same_feed_of. repeat case_match; try by split.
  all: apply live_join_feed.
Qed.

Lemma unsubscribe_feed k p k' :
  feed_of (unsubscribe k p) k' = if decide (k' = k) then None else feed_of p k'.
Proof.
  assert (Hl : forall k', feed_of (leave_room k p) k' = if decide (k' = k) then None else feed_of p k').
  { intros k1. unfold leave_room. destruct (sub_of k (pv_subs p)) as [o|] eqn:Hk.
    2:{ case_decide; [subst|done]. unfold feed_of. by rewrite Hk. }
    set (p1 := with_subs _ _ _ _).
    assert (H1 : feed_of p1 k1 = if decide (k1 = k) then None else feed_of p k1).
    { unfold feed_of. simpl. rewrite sub_of_pop. destruct (String.eqb_spec k1 k);
        [by rewrite decide_True|by rewrite decide_False]. }
    rewrite <- H1. apply same_feed_of. repeat case_match; try by split.
    all: destruct (send _ _ _) as [p2|] eqn:Hs; simpl; [by apply send_feed in Hs|by split]. }
  unfold unsubscribe. rewrite <- Hl. apply same_feed_of. case_match; [|reflexivity].
  unfold cancel_reader. case_match; by split.
Qed.

Lemma subscribe_objs k m p o x :
  pv_objs (subscribe k m p) !! o = Some x -> sb_key x = (k, m) \/ sb_key <$> pv_objs p !! o = Some (sb_key x).
Proof.
  unfold subscribe. destruct (get_or_add k m p) as [o0 p1] eqn:Hg.
  assert (H1 : forall x, pv_objs p1 !! o = Some x ->
    sb_key x = (k, m) \/ sb_key <$> pv_objs p !! o = Some (sb_key x)).
  { intros y. revert Hg. unfold get_or_add. case_match; intros [= <- <-]; [by intros ->; right|].
    simpl. intros [[<- <-]|[_ ->]]%lookup_insert_Some; [by left|by right]. }
  assert (H2 : forall p2, same_feed p1 p2 -> pv_objs p2 !! o = Some x ->
    sb_key x = (k, m) \/ sb_key <$> pv_objs p !! o = Some (sb_key x)).
  { intros p2 [_ Hf] Hx. specialize (Hf o). rewrite Hx in Hf. simpl in Hf.
    destruct (pv_objs p1 !! o) as [y|] eqn:Hy; [|done].
    assert (sb_key x = sb_key y) as -> by (simpl in Hf; congruence). by apply H1. }
  repeat case_match; apply H2; try by split. all: apply live_join_feed.
Qed.

Lemma unsubscribe_objs k p : pv_objs (unsubscribe k p) = pv_objs p.
Proof.
  unfold unsubscribe, cancel_reader, leave_room, send. repeat (case_match; simpl in *; try done).
Qed.

(** ** What the callbacks change *)

(** Reporting keeps who is subscribed to what. *)
Record same_wiring (s s' : ServiceState OrderBookSource) : Prop := {
  sw_refs : sv_refcounts s' = sv_refcounts s;
  sw_subs : pr_subscriptions s' = pr_subscriptions s;
  sw_feed : pv_feed s' = pv_feed s;
}.
#[global] Instance same_wiring_preorder : PreOrder same_wiring.
Proof. split; [by split|]. intros s1 s2 s3 [A1 A2 A3] [B1 B2 B3]. split; congruence. Qed.

Section system.
Context (cfg : ServiceConfig OrderBookSource) (book_id : string -> Z).
Abbreviation system_step := (system_step cfg book_id).
Abbreviation service_step := (service_step cfg).
Abbreviation provider_step := (provider_step book_id).

Lemma publish_same b s : same_wiring s (publish_book cfg b s).
Proof. unfold publish_book. case_match; by split. Qed.

(** With one provider there is none to fail over to. *)
Lemma on_error_same now s : same_wiring s (on_error cfg SrcLiberator now s).
Proof.
  unfold on_error. case_decide; [by split|]. case_match; [by split|]. unfold _failover.
  destruct (_secondary cfg _) as [src|] eqn:Hs; [|by split].
  apply find_some in Hs as [_ Hs%bool_decide_eq_true]. simpl in Hs. destruct src.
  by destruct (pr_active s).
Qed.

Lemma callbacks_service outs : forall sys,
  let sys' := fold_left (fun sys o => callback cfg o sys) outs sys in
  bs_provider sys' = bs_provider sys /\ same_wiring (bs_service sys) (bs_service sys') /\
  rtc service_step (bs_service sys) (bs_service sys').
Proof.
  induction outs as [|o outs IH]; intros sys; simpl; [done|].
  destruct (IH (callback cfg o sys)) as (E & W & R). rewrite E. destruct o as [b|k]; simpl in *; [|done].
  split; [done|]. split; [etransitivity; [apply publish_same|exact W]|].
  eapply rtc_l; [constructor|exact R].
Qed.

Lemma settle_service p sys :
  bs_provider (settle cfg p sys) = p /\ same_wiring (bs_service sys) (bs_service (settle cfg p sys)) /\
  rtc service_step (bs_service sys) (bs_service (settle cfg p sys)).
Proof. apply (callbacks_service _ {| bs_service := bs_service sys; bs_provider := p; bs_errors := _ |}). Qed.

Lemma feed_step_provider calm p p' : feed_step book_id calm p p' -> provider_step calm p p'.
Proof. intros []; by econstructor. Qed.

(** A joint step is a run of the service and a run of the provider. *)
Lemma step_projects ok calm sys sys' : system_step ok calm sys sys' ->
  rtc service_step (bs_service sys) (bs_service sys') /\
  rtc (provider_step calm) (bs_provider sys) (bs_provider sys').
Proof.
  intros [k id Hk Hid Hc|k id Hid|now k|k id|p Hp|now n He]; simpl.
  - unfold system_acquire. case_match; simpl.
    + destruct (settle_service (subscribe k.1 k.2 (bs_provider sys))
        (with_service (_acquire cfg k id (bs_service sys)) sys)) as (-> & _ & R).
      split; [eapply rtc_l; [by constructor|exact R]|]. by apply rtc_once, step_subscribe.
    + split; [|done]. by apply rtc_once, ss_acquire.
  - unfold system_release. case_match; simpl.
    + destruct (settle_service (unsubscribe k.1 (bs_provider sys))
        (with_service (_release k id (bs_service sys)) sys)) as (-> & _ & R).
      split; [eapply rtc_l; [by constructor|exact R]|]. apply rtc_once, step_unsubscribe.
    + split; [|done]. by apply rtc_once, ss_release.
  - split; [|done]. apply rtc_once, ss_get.
  - split; [|done]. apply rtc_once, ss_take.
  - destruct (settle_service p sys) as (-> & _ & R). split; [done|]. by apply rtc_once, feed_step_provider.
  - split; [|done]. apply rtc_once, ss_error.
Qed.

Lemma runs_project ok calm sys : rtc (system_step ok calm) BookSystem_new sys ->
  rtc service_step (service_new SrcLiberator) (bs_service sys) /\
  rtc (provider_step calm) Provider_new (bs_provider sys).
Proof.
  apply (rtc_ind_r (fun sys => rtc service_step (service_new SrcLiberator) (bs_service sys) /\
    rtc (provider_step calm) Provider_new (bs_provider sys))); [done|].
  intros s1 s2 _ [H1 H2]%step_projects [R1 R2]. split; by etransitivity.
Qed.

(** ** What the service believes of its provider *)

Lemma runs_wiring ok calm sys : rtc (system_step ok calm) BookSystem_new sys -> wiring_ok cfg (bs_service sys).
Proof.
  intros [R _]%runs_project. revert R. generalize (proj1 (service_new_ok cfg SrcLiberator)). simpl.
  intros W R. induction R as [|s1 s2 s3 Hs _ IH]; [done|]. by apply IH, (step_wiring cfg s1 s2).
Qed.

Lemma runs_cache ok calm sys : rtc (system_step ok calm) BookSystem_new sys -> cache_ok cfg (bs_service sys).
Proof.
  intros [R _]%runs_project. revert R. generalize (proj1 (proj2 (service_new_ok cfg SrcLiberator))). simpl.
  intros W R. induction R as [|s1 s2 s3 Hs _ IH]; [done|]. by apply IH, (step_cache cfg s1 s2).
Qed.

Lemma runs_base ok calm sys : rtc (system_step ok calm) BookSystem_new sys -> base_inv book_id (bs_provider sys).
Proof. intros [_ R]%runs_project. by eapply base_reachable. Qed.

Section one_market.
Context (ok : Key -> Prop) (market_of : string -> Market).
Hypothesis one_market : forall k, ok k -> k.2 = market_of k.1.

(** The keys with consumers are the symbols the provider is subscribed to, and
    everything asked of the provider is a key it may be asked for. *)
Record joint_inv (sys : BookSystem) : Prop := {
  ji_feed : forall k, is_Some (sv_refcounts (bs_service sys) !! k) <->
    feed_of (bs_provider sys) k.1 = Some k.2;
  ji_keys : forall k, is_Some (sv_refcounts (bs_service sys) !! k) -> ok k;
  ji_objs : forall o x, pv_objs (bs_provider sys) !! o = Some x -> ok (sb_key x);
  ji_going : pv_stopping (bs_provider sys) = false;
}.

Lemma joint_new : joint_inv BookSystem_new.
Proof.
  split; simpl; try done.
  - intros k. unfold feed_of. simpl. rewrite lookup_empty. by split; [intros [? ?]|].
  - intros k. rewrite lookup_empty. by intros [? ?].
Qed.

(** Steps that keep who is subscribed to what. *)
Lemma joint_same sys sys' :
  joint_inv sys -> same_wiring (bs_service sys) (bs_service sys') ->
  same_feed (bs_provider sys) (bs_provider sys') ->
  pv_stopping (bs_provider sys') = pv_stopping (bs_provider sys) -> joint_inv sys'.
Proof.
  intros [J1 J2 J3 J4] [W1 W2 W3] Hf Hst. split; rewrite ?W1, ?Hst; try done.
  - intros k. by rewrite (same_feed_of _ _ _ Hf).
  - intros o x Hx. destruct Hf as [_ Hf]. specialize (Hf o). rewrite Hx in Hf.
    destruct (pv_objs (bs_provider sys) !! o) as [y|] eqn:Hy; [|done].
    assert (sb_key x = sb_key y) as -> by (simpl in Hf; congruence). by eapply J3.
Qed.

Lemma stopping_subscribe k m p : pv_stopping (subscribe k m p) = pv_stopping p.
Proof.
  unfold subscribe, get_or_add, live_join, send. repeat (case_match; simplify_eq/=; try done).
Qed.
Lemma stopping_unsubscribe k p : pv_stopping (unsubscribe k p) = pv_stopping p.
Proof.
  unfold unsubscribe, cancel_reader, leave_room, send. repeat (case_match; simpl in *; try done).
Qed.
Lemma stopping_feed calm p p' : feed_step book_id calm p p' -> pv_stopping p' = pv_stopping p.
Proof.
  intros [i o ws answer Hi Ha _|i p1 Hr|r i p1 _ Hr|ws]; [..|done].
  - unfold subscribe_resume, live_join, send. rewrite Hi. repeat (case_match; simplify_eq/=; try done).
  - revert Hr. unfold reap. repeat case_match; by intros [= <-].
  - revert Hr. unfold reader_step, run_phase, deliver_cancel, _handle_frame, _run_top, send, join_one.
    repeat (case_match; simplify_eq/=; try done); by intros [= <-].
Qed.

Lemma acquire_refs k id s : sv_refcounts (_acquire cfg k id s) =
  <[k := default 0 (sv_refcounts s !! k) + 1]> (sv_refcounts s).
Proof. unfold _acquire. by case_match. Qed.

Lemma joint_acquire k id sys :
  wiring_ok cfg (bs_service sys) -> base_inv book_id (bs_provider sys) -> ok k -> joint_inv sys ->
  joint_inv (system_acquire cfg k id sys).
Proof.
  intros W B Hok [J1 J2 J3 J4]. unfold system_acquire.
  set (sys1 := with_service _ sys). set (n := default 0 (sv_refcounts (bs_service sys) !! k) + 1).
  assert (Hr : sv_refcounts (bs_service sys1) = <[k := n]> (sv_refcounts (bs_service sys))) by apply acquire_refs.
  assert (Hk : forall k', is_Some (<[k := n]> (sv_refcounts (bs_service sys)) !! k') -> ok k').
  { intros k'. rewrite lookup_insert_is_Some'. intros [<-|?]; auto. }
  destruct (sv_refcounts (bs_service sys) !! k) as [c|] eqn:Hc.
  - destruct (wo_refs _ _ W _ _ Hc) as [Hpos _]. unfold n. simpl.
    rewrite (proj2 (Z.eqb_neq (c + 1) 1)) by lia. split; rewrite ?Hr; try done.
    intros k'. rewrite lookup_insert_is_Some'. simpl. rewrite <- J1. split; [|by right].
    intros [<-|?]; [by rewrite Hc; eexists|done].
  - simpl. destruct (settle_service (subscribe k.1 k.2 (bs_provider sys)) sys1) as (E & [S1 _ _] & _).
    unfold n. simpl. split; rewrite ?E, ?S1, ?Hr; try done.
    + intros k'. rewrite lookup_insert_is_Some', (subscribe_feed book_id _ _ _ _ B).
      assert (Hn : feed_of (bs_provider sys) k.1 = None).
      { destruct (feed_of (bs_provider sys) k.1) as [m|] eqn:Hm; [|done]. exfalso.
        pose proof (proj2 (J1 (k.1, m)) Hm) as Hs. pose proof (one_market _ (J2 _ Hs)) as Em. simpl in Em.
        rewrite <- (one_market k Hok) in Em. subst m. destruct k as [k1 k2]. simpl in Hs. rewrite Hc in Hs.
        by destruct Hs. }
      rewrite Hn. simpl. case_decide as Hd.
      * split; [intros [<-|Hs]; [done|]|intros [= Hm]; left; destruct k, k'; simplify_eq/=; done].
        by rewrite (one_market _ (J2 _ Hs)), Hd, (one_market _ Hok).
      * rewrite J1. split; [intros [<-|?]; done|by right].
    + intros o x [Hx|Hx]%subscribe_objs; [rewrite Hx; by destruct k|].
      destruct (pv_objs (bs_provider sys) !! o) as [y|] eqn:Hy; [|done].
      assert (sb_key x = sb_key y) as -> by (simpl in Hx; congruence). by eapply J3.
    + by rewrite stopping_subscribe.
Qed.

Lemma release_refs k id (s : ServiceState OrderBookSource) : sv_refcounts (_release k id s) =
  if Z.max (default 0 (sv_refcounts s !! k) - 1) 0 =? 0 then delete k (sv_refcounts s)
  else <[k := Z.max (default 0 (sv_refcounts s !! k) - 1) 0]> (sv_refcounts s).
Proof. unfold _release, router_unsubscribe. case_match; [|done]. by case_match. Qed.

Lemma joint_release k id sys :
  wiring_ok cfg (bs_service sys) -> id ∈ map q_id (queues_of k (bs_service sys)) -> joint_inv sys ->
  joint_inv (system_release cfg k id sys).
Proof.
  intros W Hid [J1 J2 J3 J4]. unfold system_release. set (sys1 := with_service _ sys).
  pose proof (release_refs k id (bs_service sys)) as Hr. change (_release k id _) with (bs_service sys1) in Hr.
  destruct (sv_refcounts (bs_service sys) !! k) as [n|] eqn:Hn.
  2:{ unfold queues_of in Hid. rewrite (wo_none _ _ W k Hn) in Hid. by apply not_elem_of_nil in Hid. }
  destruct (wo_refs _ _ W _ _ Hn) as [Hpos _]. assert (Hs : is_Some (sv_refcounts (bs_service sys) !! k)) by eauto.
  pose proof (proj2 (wo_subs _ _ W k) Hs) as Hd. rewrite (bool_decide_eq_true_2 _ Hd), andb_true_r.
  change (default 0 (Some n)) with n in *. destruct (Z.max (n - 1) 0 =? 0).
  - destruct (settle_service (unsubscribe k.1 (bs_provider sys)) sys1) as (E & [S1 _ _] & _).
    split; rewrite ?E, ?S1, ?Hr.
    + intros k'. rewrite unsubscribe_feed, lookup_delete_is_Some, J1.
      case_decide as He; [|by split; [intros [_ ?]|intros ?; split; [congruence|]]].
      split; [|done]. intros [Hne Hf]. exfalso. apply Hne. pose proof (J2 k' (proj2 (J1 k') Hf)) as Hk'.
      destruct k as [k1 k2], k' as [k1' k2']. simpl in *. subst k1'. f_equal.
      pose proof (one_market _ Hk'). pose proof (one_market _ (J2 _ Hs)). simpl in *. congruence.
    + intros k'. rewrite lookup_delete_is_Some. intros [_ ?]. auto.
    + rewrite unsubscribe_objs. apply J3.
    + by rewrite stopping_unsubscribe.
  - split; rewrite ?Hr; try done.
    + intros k'. rewrite lookup_insert_is_Some'. simpl. rewrite <- J1. split; [|by right].
      by intros [<-|?].
    + intros k'. rewrite lookup_insert_is_Some'. intros [<-|?]; auto.
Qed.

Lemma joint_step calm sys sys' :
  wiring_ok cfg (bs_service sys) -> base_inv book_id (bs_provider sys) -> system_step ok calm sys sys' ->
  joint_inv sys -> joint_inv sys'.
Proof.
  intros W B [k id Hk Hid Hc|k id Hid|now k|k id|p Hp|now n He] J.
  - by apply joint_acquire.
  - by apply joint_release.
  - apply (joint_same sys); try done. simpl. unfold get_book. repeat case_match; by split.
  - by apply (joint_same sys).
  - destruct (settle_service p sys) as (E & S & _). apply (joint_same sys); rewrite ?E; try done.
    + by eapply feed_step_feed.
    + by eapply stopping_feed.
  - apply (joint_same sys); try done. apply on_error_same.
Qed.

Lemma joint_reachable calm sys : rtc (system_step ok calm) BookSystem_new sys -> joint_inv sys.
Proof.
  intros R. enough (rtc (system_step ok calm) BookSystem_new sys /\ joint_inv sys) by tauto.
  revert sys R. refine (rtc_ind_r (fun sys => _ /\ _) _ _ _); [split; [done|apply joint_new]|].
  intros s1 s2 R H [_ IH]. split; [by eapply rtc_r|]. eapply joint_step; eauto using runs_wiring, runs_base.
Qed.

Lemma counted_consumers k (s : ServiceState OrderBookSource) :
  wiring_ok cfg s -> is_Some (sv_refcounts s !! k) <-> queues_of k s <> [].
Proof.
  intros W. destruct (sv_refcounts s !! k) as [n|] eqn:Hn.
  - destruct (wo_refs _ _ W _ _ Hn) as [? Hl]. split; [|eauto]. intros _ E. rewrite E in Hl. simpl in Hl. lia.
  - unfold queues_of. rewrite (wo_none _ _ W k Hn). by split; [intros [? ?]|].
Qed.

(** C17: what the order-book service believes is what its provider does.  In every
    state a joint run reaches, a run in which each symbol is asked for on one
    market, three things are the same: the provider is subscribed to a symbol for
    a market, the router records that key as served by it, and the key has
    consumer queues registered.  So no symbol is left streaming without a registered
    queue and no queue waits on a symbol nobody subscribed, however calls, frames,
    reconnects, cancelled acquires and errors interleave. *)
Theorem feed_agrees calm sys k :
  rtc (system_step ok calm) BookSystem_new sys ->
  (feed_of (bs_provider sys) k.1 = Some k.2 <-> (SrcLiberator, k) ∈ pv_feed (bs_service sys)) /\
  (feed_of (bs_provider sys) k.1 = Some k.2 <-> queues_of k (bs_service sys) <> []) /\
  (queues_of k (bs_service sys) <> [] -> ok k).
Proof.
  intros R. pose proof (joint_reachable _ _ R) as [J1 J2 _ _]. pose proof (runs_wiring _ _ _ R) as W.
  rewrite <- J1, <- (counted_consumers k _ W), (wo_feed _ _ W), <- (wo_subs _ _ W).
  split; [|split; [done|by intros H%(wo_subs _ _ W); apply J2]].
  split; [intros [[] ->]; done|by intros ->; eexists].
Qed.

(** ** From the wire to the consumer *)

(** The book a parsed frame carries for a key. *)
Definition frame_of (k : Key) (parsed : ParsedBook) (now : Z) : OrderBook :=
  {| ob_symbol := k.1; ob_market := k.2; ob_bid_levels := pb_bids parsed;
     ob_ask_levels := pb_asks parsed; ob_sequence := pb_sequence parsed; ob_received_at := now |}.

(** A room that is joined belongs to the key asked for. *)
Lemma room_book p k parsed now :
  base_inv book_id p -> (forall o x, pv_objs p !! o = Some x -> ok (sb_key x)) -> ok k -> Inj eq eq book_id ->
  is_Some (pv_by_room p !! book_id k.1) -> pb_room parsed = book_id k.1 ->
  pb_bids parsed <> [] \/ pb_asks parsed <> [] -> frame_book parsed now p = Some (frame_of k parsed now).
Proof.
  intros B Hobj Hk Hinj [o Ho] Hroom Hne. unfold frame_book. rewrite Hroom, Ho.
  destruct (bi_rooms _ _ B _ _ Ho) as (x & Hx & Hid%(inj book_id)). rewrite Hx.
  rewrite (proj2 (andb_false_iff _ _)) by (rewrite !bool_decide_eq_false; naive_solver).
  pose proof (one_market _ (Hobj _ _ Hx)) as Hm. simpl in Hm. unfold frame_of.
  by rewrite Hm, Hid, (one_market k Hk).
Qed.

Lemma settle_book b sys :
  settle cfg (output (OBook b) (bs_provider sys)) sys =
  {| bs_service := publish_book cfg b (bs_service sys);
     bs_provider := output (OBook b) (bs_provider sys); bs_errors := bs_errors sys |}.
Proof. unfold settle. simpl. by rewrite drop_app_length. Qed.

Lemma publish_queues b (s : ServiceState OrderBookSource) :
  queues_of (book_key b) (publish_book cfg b s) = map (offer_book cfg b) (queues_of (book_key b) s) /\
  forall k, k <> book_key b -> queues_of k (publish_book cfg b s) = queues_of k s.
Proof.
  unfold publish_book. cbn [set_cache sv_subscribers sv_refcounts]. unfold queues_of.
  destruct (sv_subscribers s !! book_key b) as [qs|] eqn:Hq; cbn [set_subscribers sv_subscribers set_cache].
  - rewrite lookup_insert_eq. split; [done|]. intros k Hk. by rewrite lookup_insert_ne.
  - by rewrite Hq.
Qed.

Lemma offer_last b q : q_id (offer_book cfg b q) = q_id q /\ last (q_items (offer_book cfg b q)) = Some b.
Proof. unfold offer_book. case_match; simpl; by rewrite last_snoc. Qed.

(** What the callback of a book leaves with the consumers. *)
Lemma delivered k parsed now sys sys' :
  cache_ok cfg (bs_service sys) ->
  sys' = settle cfg (output (OBook (frame_of k parsed now)) (bs_provider sys)) sys ->
  Forall2 (fun q q' => q_id q' = q_id q /\ last (q_items q') = Some (frame_of k parsed now))
    (queues_of k (bs_service sys)) (queues_of k (bs_service sys')) /\
  (0 < sc_max_symbols cfg -> dict_get k (sv_cache (bs_service sys')) = Some (frame_of k parsed now)) /\
  forall k', k' <> k -> queues_of k' (bs_service sys') = queues_of k' (bs_service sys).
Proof.
  intros Hc ->. rewrite settle_book. cbn [bs_service]. set (b := frame_of k parsed now).
  assert (Hk : book_key b = k) by (by destruct k). destruct (publish_queues b (bs_service sys)) as [Hq Ho].
  rewrite Hk in *. split; [|split; [|done]].
  - rewrite Hq. apply Forall2_fmap_r, Forall_Forall2_diag, Forall_true. intros q. apply offer_last.
  - intros Hm. pose proof (publish_cached cfg b (bs_service sys) (co_keys _ _ Hc) Hm) as H. by rewrite Hk in H.
Qed.

(** C16: a frame of a consumer's symbol reaches that consumer.  In every state a calm
    joint run reaches in which a key has consumers and the reader is live, either
    the subscribe is still waiting for the room id, or its failure was reported
    for that symbol, or the room is joined on the connection and every frame of
    it with at least one level is a step after which the book it carries, under
    the key asked for, is the last item of every consumer queue of the key, the
    cached book of the key, and in no other queue. *)
Theorem consumer_receives sys r a ws k raw now payload parsed :
  Inj eq eq book_id -> rtc (system_step ok true) BookSystem_new sys ->
  queues_of k (bs_service sys) <> [] ->
  rd_phase <$> pv_readers (bs_provider sys) !! r = Some (PLive a ws) ->
  classify raw = FEvent -> bid_offer_update (decode_event raw) = Some payload ->
  parse_bid_offer_payload payload = Ok (Some parsed) -> pb_room parsed = book_id k.1 ->
  pb_bids parsed <> [] \/ pb_asks parsed <> [] ->
  (exists o ws', sub_of k.1 (pv_subs (bs_provider sys)) = Some o /\ (o, ws') ∈ pv_joins (bs_provider sys)) \/
  OError (Some k.1) ∈ pv_out (bs_provider sys) \/
  (room_joined book_id (bs_provider sys) ws k.1 /\
   exists p' sys', reader_step r (IFrame raw now) (bs_provider sys) = Some p' /\
     sys' = settle cfg p' sys /\ system_step ok true sys sys' /\
     Forall2 (fun q q' => q_id q' = q_id q /\ last (q_items q') = Some (frame_of k parsed now))
       (queues_of k (bs_service sys)) (queues_of k (bs_service sys')) /\
     (0 < sc_max_symbols cfg ->
        dict_get k (sv_cache (bs_service sys')) = Some (frame_of k parsed now)) /\
     forall k', k' <> k -> queues_of k' (bs_service sys') = queues_of k' (bs_service sys)).
Proof.
  intros Hinj R Hq Hr Hcl Hup Hpay Hroom Hne.
  apply (counted_consumers k _ (runs_wiring _ _ _ R)) in Hq.
  pose proof (joint_reachable _ _ R) as [J1 J2 J3 J4]. pose proof (proj1 (J1 k) Hq) as Hfeed. apply J2 in Hq as Hk. destruct (runs_project _ _ _ R) as [_ Rp].
  pose proof (calm_reachable book_id _ Rp) as C. pose proof (ci_base _ _ C) as B.
  destruct (pv_readers (bs_provider sys) !! r) as [rd|] eqn:Hrd; [|done]. injection Hr as Hph.
  unfold feed_of in Hfeed. destruct (sub_of k.1 (pv_subs (bs_provider sys))) as [o|] eqn:Ho; [|done].
  assert (Hsub : pv_subs (bs_provider sys) <> []) by (intros E; by rewrite E in Ho).
  destruct (ci_alive _ _ C Hsub J4) as [Hreap _].
  destruct (ci_session _ _ C r rd ws [] [] Hrd) as [_ Hcov]; [by rewrite Hph|].
  destruct (Hcov k.1 o Ho) as [H|[[ws' H]|[H|(Hby & [H|Hsock])]]]; [by apply not_elem_of_nil in H|eauto|auto|by apply not_elem_of_nil in H|].
  right. right. split; [done|]. pose proof (room_book _ k parsed now B J3 Hk Hinj Hby Hroom Hne) as Hb.
  assert (Hc : rd_cancel rd = false).
  { destruct (rd_cancel rd) eqn:Hc; [|done]. exfalso. apply not_elem_of_nil with r. rewrite <- Hreap.
    apply (ci_cancel _ _ C r rd Hrd); [by rewrite Hph|by left]. }
  assert (Hstep : reader_step r (IFrame raw now) (bs_provider sys) =
    Some (output (OBook (frame_of k parsed now)) (bs_provider sys))).
  { unfold reader_step. rewrite Hrd, Hc, Hph. cbn [run_phase]. rewrite J4.
    unfold _handle_frame. by rewrite Hcl, Hup, Hpay, Hb. }
  eexists _, _. split; [exact Hstep|]. split; [done|]. split.
  { constructor. by apply (fs_reader _ _ _ r (IFrame raw now)). }
  apply delivered; [by eapply runs_cache|done].
Qed.
End one_market.
End system.
