(* ===== verification/BookSystemExamples.v ===== *)
(** * BookSystemExamples: joint runs of the order-book service and its feed

    A consumer served from the wire, and two markets of one symbol, of which the
    provider knows only the first. *)

From S2P Require Import Prelude Decimals Contracts OrderBook BookService BookServiceProps EngineIO BookProvider BookProviderProps BookProviderLive BookProviderExamples BookRuntime BookSystem BookSystemProps.
From stdpp Require Import base gmap strings list relations.
From Stdlib Require Import ZArith QArith Lia.
Open Scope Z_scope.

Definition ex_book_cfg : ServiceConfig OrderBookSource :=
  {| sc_max_symbols := 8; sc_max_age := 5000000; sc_subscriber_queue_size := 4;
     sc_providers := [SrcLiberator]; sc_overrides := ∅; sc_error_threshold := 3; sc_window := 60000000 |}.

Inductive SysAct := SAcquire (k : Key) (id : nat) | SRelease (k : Key) (id : nat) | SRead (r : nat) (i : Input).

Definition sys_act (a : SysAct) (sys : BookSystem) : option BookSystem :=
  match a with
  | SAcquire k id => Some (system_acquire ex_book_cfg k id sys)
  | SRelease k id => Some (system_release ex_book_cfg k id sys)
  | SRead r i => option_map (fun p => settle ex_book_cfg p sys) (reader_step r i (bs_provider sys))
  end.

Definition sys_act_ok (ok : Key -> Prop) (a : SysAct) (sys : BookSystem) : Prop :=
  match a with
  | SAcquire k id => ok k /\ (id ∉ map q_id (queues_of k (bs_service sys))) /\ pv_reaps (bs_provider sys) = []
  | SRelease k id => id ∈ map q_id (queues_of k (bs_service sys))
  | SRead r i => input_ok ex_book_id r i (bs_provider sys)
  end.

Lemma sys_act_step ok calm a sys sys' :
  sys_act_ok ok a sys -> sys_act a sys = Some sys' ->
  system_step ex_book_cfg ex_book_id ok calm sys sys'.
Proof.
  destruct a as [k id|k id|r i]; simpl.
  - intros (H1 & H2 & H3) [= <-]. by constructor.
  - intros H [= <-]. by constructor.
  - destruct (reader_step _ _ _) as [p|] eqn:Hr; [|done]. intros H [= <-]. constructor. by econstructor.
Qed.

(** One more action of a run; what it asks of the state is decided there. *)
Ltac run_sys a :=
  eapply rtc_l;
  [eapply (sys_act_step _ _ a);
   [first [exact I
          |split; [first [exact I | reflexivity]|split; [vm_compute; by intros ?%not_elem_of_nil|vm_compute; reflexivity]]
          |eexists; split; vm_compute; reflexivity
          |vm_compute; solve [repeat constructor]]
   |vm_compute; reflexivity]|].

Ltac sys_live :=
  run_sys (SAcquire ("PTT"%string, SET_) 0); run_sys (SRead 1 (ITop 0)); run_sys (SRead 1 IOpened);
  run_sys (SRead 1 IJoinNext); run_sys (SRead 1 (IResolved (Ok (Some (ex_book_id "PTT")))));
  run_sys (SRead 1 IJoined).

(** ** A consumer served *)

Definition ex_system : BookSystem := Eval vm_compute in
  default BookSystem_new (foldl (fun sys a => sys ≫= sys_act a) (Some BookSystem_new)
    [SAcquire ("PTT"%string, SET_) 0; SRead 1 (ITop 0); SRead 1 IOpened; SRead 1 IJoinNext;
     SRead 1 (IResolved (Ok (Some (ex_book_id "PTT")))); SRead 1 IJoined]).

Definition ex_ok (k : Key) : Prop := k.2 = SET_.

Lemma ex_system_reached :
  rtc (system_step ex_book_cfg ex_book_id ex_ok true) BookSystem_new ex_system.
Proof. sys_live. apply rtc_refl. Qed.

Lemma feed_agrees_witness :
  feed_of (bs_provider ex_system) "PTT" = Some SET_ /\
  (SrcLiberator, ("PTT"%string, SET_)) ∈ pv_feed (bs_service ex_system) /\
  feed_of (bs_provider ex_system) "AOT" <> Some SET_.
Proof.
  destruct (feed_agrees ex_book_cfg ex_book_id ex_ok (fun _ => SET_) (fun k H => H) true ex_system
    ("PTT"%string, SET_) ex_system_reached) as (H1 & H2 & _).
  split; [|split].
  - apply H2. vm_compute. discriminate.
  - apply H1. apply H2. vm_compute. discriminate.
  - vm_compute. discriminate.
Defined.

(** The first frame lands in the consumer's queue. *)
Lemma consumer_receives_witness :
  exists p', reader_step 1 (IFrame ex_frame 9) (bs_provider ex_system) = Some p' /\
    map (fun q => length (q_items q))
      (queues_of ("PTT"%string, SET_) (bs_service (settle ex_book_cfg p' ex_system))) = [1%nat].
Proof.
  destruct (consumer_receives ex_book_cfg ex_book_id ex_ok (fun _ => SET_) (fun k H => H) ex_system
    1 1 2 ("PTT"%string, SET_) ex_frame 9
    [("room"%string, JInt (ex_book_id "PTT")); ("vs"%string, JInt 7);
     ("bp"%string, JList [JStr "34.25"; JStr "0"]); ("bv"%string, JList [JInt 100; JInt 5])]
    {| pb_room := ex_book_id "PTT"; pb_bids := [{| obl_price := Dec 3425 (-2); obl_volume := 100 |}];
       pb_asks := []; pb_sequence := 7 |}) as [(o & ws & _ & H)|[H|(_ & p' & sys' & Hr & _)]];
    try (vm_compute; reflexivity); try exact ex_system_reached; try exact _; try (vm_compute; discriminate).
  - left. discriminate.
  - vm_compute in H. by apply not_elem_of_nil in H.
  - vm_compute in H. by apply not_elem_of_nil in H.
  - exists p'. split; [exact Hr|]. vm_compute in Hr. injection Hr as <-. vm_compute. reflexivity.
Defined.

(** ** Two markets of one symbol *)

(** the provider knows one market of a symbol.  In a run without errors in which
    PTT has a consumer on SET and then one on TFEX, the frame that arrives is
    published for SET only, the TFEX consumer's queue stays empty; and when the
    SET consumer leaves, the provider drops PTT altogether, while the service
    still counts it as feeding the TFEX consumer. *)
Theorem second_market_dropped :
  exists sys b, rtc (system_step ex_book_cfg ex_book_id (fun _ => True) true) BookSystem_new sys /\
    pv_out (bs_provider sys) = [OBook b] /\ book_key b = ("PTT"%string, SET_) /\
    queues_of ("PTT"%string, TFEX) (bs_service sys) = [{| q_id := 1; q_items := [] |}] /\
    (SrcLiberator, ("PTT"%string, TFEX)) ∈ pv_feed (bs_service sys) /\
    feed_of (bs_provider sys) "PTT" = None /\ pv_subs (bs_provider sys) = [] /\ bs_errors sys = 0%nat.
Proof.
  eexists _, _. split.
  - sys_live. run_sys (SAcquire ("PTT"%string, TFEX) 1). run_sys (SRead 1 (IFrame ex_frame 9)).
    run_sys (SRelease ("PTT"%string, SET_) 0). apply rtc_refl.
  - split; [reflexivity|]. repeat (split; [vm_compute; reflexivity|]). reflexivity.
Qed.

(** ** A consumer that leaves while its subscribe waits *)

Definition ex_aot : Key := ("AOT"%string, SET_).

(** PTT is live and a first consumer of AOT waits for the room id. *)
Definition ex_waiting : BookSystem := system_acquire ex_book_cfg ex_aot 1 ex_system.
(** Its request is cancelled there. *)
Definition ex_leaked : BookSystem :=
  settle ex_book_cfg (subscribe_resume 0 (Err (OtherError "CancelledError")) (bs_provider ex_waiting)) ex_waiting.

(** [_acquire] registers the queue and counts it before it awaits the subscribe, and
    [subscription] enters its [try] after it: a consumer cancelled in that await leaves
    its queue and its count behind.  The room is not joined, nothing waits and nothing
    was reported; the next consumer of the symbol is the second by the count, so it
    subscribes nothing and waits on a room nobody joined, until a reconnect. *)
Theorem cancelled_acquire_starves :
  rtc (system_step ex_book_cfg ex_book_id ex_ok false) BookSystem_new ex_leaked /\
  sv_refcounts (bs_service ex_leaked) !! ex_aot = Some 1 /\
  map q_id (queues_of ex_aot (bs_service ex_leaked)) = [1%nat] /\
  let later := system_acquire ex_book_cfg ex_aot 2 ex_leaked in
  map q_id (queues_of ex_aot (bs_service later)) = [1%nat; 2%nat] /\
  pv_joins (bs_provider later) = [] /\ pv_out (bs_provider later) = [] /\
  pv_by_room (bs_provider later) !! ex_book_id "AOT" = None /\
  pv_sockets (bs_provider later) = pv_sockets (bs_provider ex_system).
Proof.
  split.
  - eapply rtc_r; [|apply sy_feed; eapply (fs_resume _ _ _ 0); [vm_compute; reflexivity | exact I | discriminate]].
    eapply rtc_r; [|apply sy_acquire; [reflexivity | vm_compute; by intros ?%not_elem_of_nil | discriminate]].
    sys_live. apply rtc_refl.
  - vm_compute. repeat split.
Qed.
