(* ===== verification/Lifespan.v ===== *)
(** * Lifespan: the process's resources, opened and closed in order
    ([api/main.py], [db/postgres.py], [cache/redis_client.py], [adapters/market_data.py],
    [adapters/sim_pricing.py], the [close_*] of the three runtimes)

    Every module-level singleton the lifespan creates and closes.  Creating the
    connection pool, building the Redis client and closing a client are answers of
    the outside world; a close that raises ends the shutdown there. *)

From S2P Require Import Prelude Decimals Contracts Events Store Config Cache Adapters Gates HandleRecovery Router OrderBook BookService BookServiceProps Liberator StreamingPro Transport Runtime Engine EngineIO BookProvider BookRuntime.
From stdpp Require Import base gmap strings list relations.
From Stdlib Require Import ZArith Lia.
Open Scope Z_scope.

(** ** Stopping the feed *)

(** The cancelled reader runs to its end: it raises at its await, leaves its session
    and closes its connection.  A reader that has ended takes no step. *)
Definition await_reader (r : nat) (p : Provider) : Provider :=
  match reader_step r ICancel p with
  | None => p
  | Some p1 => default p1 (reader_step r (IClosed 0) p1)
  end.

(** [stop] up to the close of the HTTP client: awaiting the reader raises what the
    reader raised, except its cancellation. *)
Definition stop_reader (p : Provider) : result exn unit * Provider :=
  match pv_reader p with
  | None => (Ok tt, stop p)
  | Some r =>
      let p1 := await_reader r (stop p) in
      let p2 := default p1 (reap (length (pv_reaps p)) p1) in
      match rd_phase <$> pv_readers p1 !! r with
      | Some (PDone (Some e)) => (Err e, p2)
      | _ => (Ok tt, p2)
      end
  end.

(** ** The singletons *)

Record PgPool := { pool_dsn : string; pool_min_size : Z; pool_max_size : Z }.

Record MarketDataClient := {
  md_base_url : option string;
  md_api_key : option string;
  md_http : bool;                      (* is there an open HTTP client? *)
  md_owns_http : bool;
}.

(** [MarketDataClient.__init__]; [http] says whether a client is injected. *)
Definition MarketDataClient_new (base_url api_key : option string) (http : bool) : MarketDataClient :=
  {| md_base_url := match base_url with
                    | Some u => if String.eqb u "" then None else Some (rstrip_slash u)
                    | None => None
                    end;
     md_api_key := api_key; md_http := http; md_owns_http := negb http |}.

Definition md_configured (c : MarketDataClient) : bool := bool_decide (is_Some (md_base_url c)).
Definition md_client (c : MarketDataClient) : MarketDataClient :=
  {| md_base_url := md_base_url c; md_api_key := md_api_key c; md_http := true;
     md_owns_http := md_owns_http c |}.
Definition md_closed (c : MarketDataClient) : MarketDataClient :=
  {| md_base_url := md_base_url c; md_api_key := md_api_key c; md_http := false;
     md_owns_http := md_owns_http c |}.

Record SimFillPricer := { sf_order_book : bool; sf_market_data : MarketDataClient }.

(** What is closed outside the repository. *)
Inductive Resource := MarketDataHttp | PricerHttp | BookHttp | StreamingProHttp | LiberatorHttp | RedisClient | PgConnections.

Section lifespan.
Context {R V : Type} `{CO : Coercions} `{RO : RedisOps R} `{OS : OrdersSchema}.
Abbreviation Node := (Node (R := R) (V := V)).
Context (wi : Wiring (R := R) (V := V)).

(* asyncpg.create_pool, redis.Redis.from_url, and the closes *)
Context (asyncpg_create_pool : string -> Z -> Z -> result exn unit).
Context (redis_from_url : string -> result exn unit).
Context (aclose : Resource -> result exn unit).

Record Process := {
  pc_node : Node;    (* the event hub, the broker runtimes, their workers *)
  pc_pool : option PgPool;
  pc_redis : option string;
  pc_book : option BookRuntime;
  pc_book_tasks : nat;                 (* order-book-on-error tasks *)
  pc_pricer : option SimFillPricer;
  pc_market_data : option MarketDataClient;
}.
Abbreviation M := (M exn Process).

Definition set_node (n : Node) (p : Process) : Process :=
  {| pc_node := n; pc_pool := pc_pool p; pc_redis := pc_redis p; pc_book := pc_book p;
     pc_book_tasks := pc_book_tasks p; pc_pricer := pc_pricer p; pc_market_data := pc_market_data p |}.
Definition set_stores (pool : option PgPool) (redis : option string) (p : Process) : Process :=
  {| pc_node := pc_node p; pc_pool := pool; pc_redis := redis; pc_book := pc_book p;
     pc_book_tasks := pc_book_tasks p; pc_pricer := pc_pricer p; pc_market_data := pc_market_data p |}.
Definition set_book (b : option BookRuntime) (tasks : nat) (p : Process) : Process :=
  {| pc_node := pc_node p; pc_pool := pc_pool p; pc_redis := pc_redis p; pc_book := b;
     pc_book_tasks := tasks; pc_pricer := pc_pricer p; pc_market_data := pc_market_data p |}.
Definition set_clients (pricer : option SimFillPricer) (md : option MarketDataClient) (p : Process)
    : Process :=
  {| pc_node := pc_node p; pc_pool := pc_pool p; pc_redis := pc_redis p; pc_book := pc_book p;
     pc_book_tasks := pc_book_tasks p; pc_pricer := pricer; pc_market_data := md |}.

(** ** Stores *)

Definition create_pool (dsn : string) (min_size max_size : Z) : M PgPool :=
  let* current := gets pc_pool in
  match current with
  | Some pool => ret pool
  | None =>
      match asyncpg_create_pool dsn min_size max_size with
      | Err _ => raise RepositoryError
      | Ok _ =>
          let pool := {| pool_dsn := dsn; pool_min_size := min_size; pool_max_size := max_size |} in
          modify (fun p => set_stores (Some pool) (pc_redis p) p) ;;; ret pool
      end
  end.

Definition get_pool : M PgPool :=
  let* current := gets pc_pool in
  match current with Some pool => ret pool | None => raise PoolNotInitializedError end.

Definition close_pool : M unit :=
  let* current := gets pc_pool in
  match current with
  | None => ret tt
  | Some _ => lift_result (aclose PgConnections) ;;; modify (fun p => set_stores None (pc_redis p) p)
  end.

Definition create_redis (url : string) : M unit :=
  let* current := gets pc_redis in
  match current with
  | Some _ => ret tt
  | None => lift_result (redis_from_url url) ;;; modify (fun p => set_stores (pc_pool p) (Some url) p)
  end.

Definition close_redis : M unit :=
  let* current := gets pc_redis in
  match current with
  | None => ret tt
  | Some _ => lift_result (aclose RedisClient) ;;; modify (fun p => set_stores (pc_pool p) None p)
  end.

(** ** The hub and the broker runtimes *)

Definition start_hub (settings : Settings) (n : Node) : Node :=
  with_world (create_event_hub settings (nd_world n)) n.
Definition reset_event_hub (n : Node) : Node := with_world (set_hub None (nd_world n)) n.

(** Build one runtime, with a fresh session, and start its workers. *)
Definition bring_up_liberator (settings : Settings) (n : Node) : Node :=
  let (_, rs1) := create_liberator_runtime (make_liberator wi) settings (nd_runtimes n) in
  let (ws, rs2) := start_liberator_workers settings rs1 in
  {| nd_settings := settings; nd_runtimes := rs2; nd_workers := nd_workers n ++ ws;
     nd_world := fresh_sessions wi settings (nd_runtimes n) rs2 (nd_world n) |}.
Definition bring_up_streaming_pro (settings : Settings) (n : Node) : Node :=
  let (_, rs1) := create_streaming_pro_runtime (make_streaming_pro wi) settings (nd_runtimes n) in
  let (ws, rs2) := start_streaming_pro_workers settings rs1 in
  {| nd_settings := settings; nd_runtimes := rs2; nd_workers := nd_workers n ++ ws;
     nd_world := fresh_sessions wi settings (nd_runtimes n) rs2 (nd_world n) |}.

Definition is_liberator_worker (k : Worker) : bool :=
  match k with LiberatorHeartbeat | LiberatorLoop => true | _ => false end.

Definition with_runtimes rs ws (n : Node) : Node :=
  {| nd_settings := nd_settings n; nd_runtimes := rs; nd_workers := ws; nd_world := nd_world n |}.

(** Tasks first, then the adapter's client, then the singleton. *)
Definition shut_liberator : M unit :=
  modify (fun p => set_node (with_runtimes (set_reconciler false (nd_runtimes (pc_node p)))
    (List.filter (fun k => negb (is_liberator_worker k)) (nd_workers (pc_node p))) (pc_node p)) p) ;;;
  let* adapter := gets (fun p => rn_liberator (nd_runtimes (pc_node p))) in
  match adapter with
  | None => ret tt
  | Some _ => lift_result (aclose LiberatorHttp) ;;;
      modify (fun p => set_node (with_runtimes (set_liberator None (nd_runtimes (pc_node p)))
        (nd_workers (pc_node p)) (pc_node p)) p)
  end.
Definition shut_streaming_pro : M unit :=
  modify (fun p => set_node (with_runtimes (nd_runtimes (pc_node p))
    (List.filter is_liberator_worker (nd_workers (pc_node p))) (pc_node p)) p) ;;;
  let* adapter := gets (fun p => rn_streaming_pro (nd_runtimes (pc_node p))) in
  match adapter with
  | None => ret tt
  | Some _ => lift_result (aclose StreamingProHttp) ;;;
      modify (fun p => set_node (with_runtimes (set_streaming_pro None (nd_runtimes (pc_node p)))
        (nd_workers (pc_node p)) (pc_node p)) p)
  end.

(** ** The order book, the pricer and the market-data client *)

Definition provider_stop : M unit :=
  let* current := gets pc_book in
  match current with
  | None => ret tt
  | Some rt =>
      let (r, provider) := stop_reader (br_provider rt) in
      modify (fun p => set_book (Some {| br_config := br_config rt; br_service := br_service rt;
                                         br_provider := provider |}) (pc_book_tasks p) p) ;;;
      lift_result r ;;; lift_result (aclose BookHttp)
  end.

Definition close_order_book_runtime : M unit :=
  modify (fun p => set_book (pc_book p) 0 p) ;;; provider_stop ;;;
  modify (fun p => set_book None (pc_book_tasks p) p).

(** [MarketDataClient.aclose] *)
Definition md_aclose (r : Resource) (c : MarketDataClient) : result exn MarketDataClient :=
  if md_owns_http c && md_http c then result_bind (aclose r) (fun _ => Ok (md_closed c)) else Ok c.

Definition create_sim_pricer (settings : Settings) : M unit :=
  modify (fun p => match pc_pricer p with
    | Some _ => p
    | None => set_clients (Some {| sf_order_book := bool_decide (is_Some (pc_book p));
        sf_market_data := MarketDataClient_new (s_market_data_base_url settings)
                            (s_market_data_api_key settings) false |}) (pc_market_data p) p
    end).
Definition close_sim_pricer : M unit :=
  let* current := gets pc_pricer in
  match current with
  | None => ret tt
  | Some pricer => lift_result (md_aclose PricerHttp (sf_market_data pricer)) ;;; ret tt
  end ;;;
  modify (fun p => set_clients None (pc_market_data p) p).

Definition create_market_data_client (settings : Settings) : M unit :=
  modify (fun p => match pc_market_data p with
    | Some _ => p
    | None => set_clients (pc_pricer p) (Some (MarketDataClient_new (s_market_data_base_url settings)
                (s_market_data_api_key settings) false)) p
    end).
Definition close_market_data_client : M unit :=
  let* current := gets pc_market_data in
  match current with
  | None => ret tt
  | Some client => lift_result (md_aclose MarketDataHttp client) ;;; ret tt
  end ;;;
  modify (fun p => set_clients (pc_pricer p) None p).

(** ** The lifespan *)

Definition lifespan_enter (settings : Settings) : M unit :=
  lift_result (assert_startup_declaration settings) ;;;
  modify (fun p => set_node (start_hub settings (pc_node p)) p) ;;;
  catch (create_pool (s_pg_dsn settings) (s_pg_pool_min_size settings) (s_pg_pool_max_size settings) ;;; ret tt)
    (fun _ => ret tt) ;;;
  create_redis (s_redis_url settings) ;;;
  modify (fun p => set_node (bring_up_liberator settings (pc_node p)) p) ;;;
  modify (fun p => set_node (bring_up_streaming_pro settings (pc_node p)) p) ;;;
  modify (fun p => set_book (start_order_book_workers (create_order_book_runtime settings (pc_book p)))
                     (pc_book_tasks p) p) ;;;
  create_sim_pricer settings ;;;
  create_market_data_client settings.

Definition lifespan_exit : M unit :=
  close_market_data_client ;;; close_sim_pricer ;;; close_order_book_runtime ;;;
  shut_streaming_pro ;;; shut_liberator ;;; close_redis ;;; close_pool ;;;
  modify (fun p => set_node (reset_event_hub (pc_node p)) p).
End lifespan.
