(* ===== verification/LifespanProps.v ===== *)
(** * LifespanProps: a start that degrades, a shutdown that releases, and one that does not *)

From S2P Require Import Prelude Decimals Contracts Events Store Config Cache Adapters Gates HandleRecovery Router OrderBook BookService BookServiceProps Liberator StreamingPro Transport Runtime Engine EngineIO BookProvider BookRuntime Lifespan.
From stdpp Require Import base gmap strings list relations.
From Stdlib Require Import ZArith Lia.
Open Scope Z_scope.

(** ** Stopping the feed *)

Definition crashed (p : Provider) (e : exn) : Prop :=
  exists r c, pv_reader p = Some r /\ pv_readers p !! r = Some {| rd_phase := PDone (Some e); rd_cancel := c |}.

Lemma stop_readers p r rd : pv_reader p = Some r -> pv_readers p !! r = Some rd ->
  pv_reader (stop p) = Some r /\ pv_reaps (stop p) = pv_reaps p ++ [r] /\
  pv_readers (stop p) !! r = Some {| rd_phase := rd_phase rd; rd_cancel := true |}.
Proof.
  intros Hr Hrd. unfold stop, cancel_reader. simpl. rewrite Hr. simpl.
  by rewrite lookup_alter_eq, Hrd.
Qed.

(** The reader ends, and the wait for it is the one [stop] began. *)
Lemma await_ends p r rd : pv_reader p = Some r -> pv_readers p !! r = Some rd ->
  (forall e, rd_phase rd <> PDone (Some e)) -> let p1 := await_reader r (stop p) in
  (exists c, pv_readers p1 !! r = Some {| rd_phase := PDone None; rd_cancel := c |}) /\
  pv_reaps p1 = pv_reaps p ++ [r].
Proof.
  intros Hr Hrd Hne p1. destruct (stop_readers p r rd Hr Hrd) as (_ & Hre & Hs).
  unfold p1. clear p1. revert Hre Hs. generalize (stop p). intros q Hre Hs.
  unfold await_reader, reader_step. rewrite Hs. simpl.
  destruct (rd_phase rd) as [a|a|a|a ws todo wt ids|a ws|a e|[e|]]; simpl;
    rewrite ?lookup_insert_eq; simpl; rewrite ?lookup_insert_eq; eauto. by destruct (Hne e).
Qed.

Lemma stop_reader_ok p :
  (forall r, pv_reader p = Some r -> is_Some (pv_readers p !! r)) -> (forall e, ~ crashed p e) ->
  (stop_reader p).1 = Ok tt /\ pv_reader (stop_reader p).2 = None /\
  (forall r, pv_reader p = Some r -> reader_done (stop_reader p).2 r = true).
Proof.
  intros Hk Hc. unfold stop_reader. destruct (pv_reader p) as [r|] eqn:Hr.
  2:{ split; [done|]. split; [|done]. unfold stop, cancel_reader. simpl. by rewrite Hr. }
  destruct (Hk r eq_refl) as [rd Hrd].
  destruct (await_ends p r rd Hr Hrd) as [[c H1] H2].
  { intros e He. apply (Hc e). exists r, (rd_cancel rd). split; [done|]. rewrite Hrd. destruct rd. by simpl in *; subst. }
  rewrite H1. simpl. assert (Hi : pv_reaps (await_reader r (stop p)) !! length (pv_reaps p) = Some r).
  { rewrite H2. by rewrite lookup_app_r, Nat.sub_diag by lia. }
  unfold reap. rewrite Hi, H1. simpl. split; [done|]. split; [done|]. intros r' [= <-].
  unfold reader_done. simpl. by rewrite H1.
Qed.

(** An ended reader's error is raised to whoever stops the feed. *)
Lemma stop_reader_crashed p e : crashed p e -> (stop_reader p).1 = Err e.
Proof.
  intros (r & c & Hr & Hrd). unfold stop_reader. rewrite Hr. destruct (stop_readers p r _ Hr Hrd) as (_ & _ & Hs).
  assert (Ha : await_reader r (stop p) = stop p).
  { unfold await_reader, reader_step. by rewrite Hs. }
  by rewrite Ha, Hs.
Qed.

Section props.
Context {R V : Type} `{CO : Coercions} `{RO : RedisOps R} `{OS : OrdersSchema}.
Context (wi : Wiring (R := R) (V := V)).
Context (asyncpg_create_pool : string -> Z -> Z -> result exn unit).
Context (redis_from_url : string -> result exn unit).
Context (aclose : Resource -> result exn unit).
Abbreviation Process := (Process (R := R) (V := V)).
Abbreviation lifespan_enter := (lifespan_enter wi asyncpg_create_pool redis_from_url).
Abbreviation lifespan_exit := (lifespan_exit aclose).

(** ** Start-up *)

(** The broker part of the start is that of the engine. *)
Lemma bring_up_starts settings n :
  assert_startup_declaration settings = Ok tt ->
  lifespan_start wi settings n =
    Ok (bring_up_streaming_pro wi settings (bring_up_liberator wi settings (start_hub settings n))).
Proof.
  intros Ha. unfold lifespan_start. rewrite Ha.
  unfold bring_up_streaming_pro, bring_up_liberator, create_liberator_runtime, create_streaming_pro_runtime,
    start_liberator_workers, start_streaming_pro_workers, fresh_sessions.
  destruct n as [s [l b sp] ws w]. simpl. destruct l as [l|], sp as [sp|]; simpl;
    repeat (case_match; simplify_eq/=); unfold create_event_hub, set_venue, set_hub;
    destruct w as [db hub rd ve nw en]; simpl; rewrite <- ?app_assoc; destruct hub; reflexivity.
Qed.

Definition powered_down (p : Process) : Prop :=
  pc_pool p = None /\ pc_redis p = None /\ pc_book p = None /\ pc_pricer p = None /\ pc_market_data p = None.

Definition opened_pool (settings : Settings) : option PgPool :=
  match asyncpg_create_pool (s_pg_dsn settings) (s_pg_pool_min_size settings) (s_pg_pool_max_size settings) with
  | Ok _ => Some {| pool_dsn := s_pg_dsn settings; pool_min_size := s_pg_pool_min_size settings;
                    pool_max_size := s_pg_pool_max_size settings |}
  | Err _ => None
  end.

(** The process a start leaves. *)
Definition started (settings : Settings) (n : Node) (p : Process) : Process :=
  let book := start_order_book_workers (create_order_book_runtime settings None) in
  let client := MarketDataClient_new (s_market_data_base_url settings) (s_market_data_api_key settings) false in
  {| pc_node := n; pc_pool := opened_pool settings; pc_redis := Some (s_redis_url settings);
     pc_book := book; pc_book_tasks := pc_book_tasks p;
     pc_pricer := Some {| sf_order_book := bool_decide (is_Some book); sf_market_data := client |};
     pc_market_data := Some client |}.

(** a missing database degrades the process, a missing declaration stops it.  A
    start of a process that is down raises the routing-authority error, before
    anything is created, when the settings declare none; otherwise, whether or not
    the pool can be opened, it succeeds with the hub, both broker runtimes and
    workers the settings call for, the Redis client, the order book, the pricer
    and the market-data client; and the pool is missing, so that using it raises
    PoolNotInitializedError, exactly when opening it failed. *)
Theorem startup_degrades settings p :
  powered_down p -> redis_from_url (s_redis_url settings) = Ok tt ->
  match assert_startup_declaration settings with
  | Err e => lifespan_enter settings p = (Err e, p)
  | Ok _ =>
      exists n, lifespan_start wi settings (pc_node p) = Ok n /\
        lifespan_enter settings p = (Ok tt, started settings n p) /\
        (get_pool (started settings n p)).1 =
          match asyncpg_create_pool (s_pg_dsn settings) (s_pg_pool_min_size settings)
                  (s_pg_pool_max_size settings) with
          | Ok _ => Ok {| pool_dsn := s_pg_dsn settings; pool_min_size := s_pg_pool_min_size settings;
                          pool_max_size := s_pg_pool_max_size settings |}
          | Err _ => Err PoolNotInitializedError
          end
  end.
Proof.
  intros (Hp & Hr & Hb & Hpr & Hm) Hu. destruct p as [n0 pool redis book tasks pricer md]. simpl in *. subst.
  destruct (assert_startup_declaration settings) as [[]|e] eqn:Ha;
    [|unfold Lifespan.lifespan_enter, bind, lift_result; by rewrite Ha].
  eexists. split; [by apply bring_up_starts|].
  unfold Lifespan.lifespan_enter, bind, lift_result, catch, create_pool, create_redis, create_sim_pricer,
    create_market_data_client, started, opened_pool, get_pool, gets, modify, ret, raise. rewrite Ha. simpl.
  destruct (asyncpg_create_pool _ _ _); simpl; rewrite Hu; simpl; done.
Qed.

(** ** Shutdown *)

Definition closes_ok : Prop := forall r, aclose r = Ok tt.

(** The process a complete shutdown leaves. *)
Definition released (p : Process) : Process :=
  {| pc_node := lifespan_stop (pc_node p); pc_pool := None; pc_redis := None; pc_book := None;
     pc_book_tasks := 0; pc_pricer := None; pc_market_data := None |}.

Lemma close_clients (p : Process) : aclose MarketDataHttp = Ok tt -> aclose PricerHttp = Ok tt ->
  (close_market_data_client aclose ;;; close_sim_pricer aclose) p = (Ok tt, set_clients None None p).
Proof.
  intros H1 H2. unfold close_market_data_client, close_sim_pricer, md_aclose, bind, gets, ret, lift_result, modify.
  destruct p as [n pool redis book tasks pricer md]. simpl.
  destruct md as [md|]; simpl; [destruct (md_owns_http md && md_http md); simpl; rewrite ?H1; simpl|];
    (destruct pricer as [pr|]; simpl;
      [destruct (md_owns_http (sf_market_data pr) && md_http (sf_market_data pr)); simpl; rewrite ?H2; simpl|]; done).
Qed.

Lemma no_workers_left ws :
  List.filter (fun k => negb (is_liberator_worker k)) (List.filter is_liberator_worker ws) = [].
Proof. induction ws as [|k ws IH]; simpl; [done|]. by destruct k. Qed.

Lemma close_brokers (p : Process) : closes_ok ->
  (shut_streaming_pro aclose ;;; shut_liberator aclose ;;; close_redis aclose ;;; close_pool aclose ;;;
   modify (fun p => set_node (reset_event_hub (pc_node p)) p)) p =
  (Ok tt, {| pc_node := lifespan_stop (pc_node p); pc_pool := None; pc_redis := None; pc_book := pc_book p;
             pc_book_tasks := pc_book_tasks p; pc_pricer := pc_pricer p; pc_market_data := pc_market_data p |}).
Proof.
  intros Hc. unfold shut_streaming_pro, shut_liberator, close_redis, close_pool, bind, gets, ret, lift_result, modify.
  destruct p as [[s [l b sp] ws w] pool redis book tasks pricer md]. simpl.
  destruct sp as [sp|]; simpl; rewrite ?Hc; simpl; rewrite ?no_workers_left;
    (destruct l as [l|]; simpl; rewrite ?Hc; simpl);
    (destruct redis as [u|]; simpl; rewrite ?Hc; simpl);
    (destruct pool as [c|]; simpl; rewrite ?Hc; simpl); done.
Qed.

(** The shutdown, cut at the order book. *)
Lemma exit_split (p : Process) :
  lifespan_exit p =
    ((close_market_data_client aclose ;;; close_sim_pricer aclose) ;;;
     (close_order_book_runtime aclose ;;;
      (shut_streaming_pro aclose ;;; shut_liberator aclose ;;; close_redis aclose ;;; close_pool aclose ;;;
       modify (fun p => set_node (reset_event_hub (pc_node p)) p)))) p.
Proof. unfold Lifespan.lifespan_exit. by rewrite bind_assoc. Qed.

(** C19: a shutdown releases everything the process holds.  When no close raises and
    the order-book reader did not end with an error, the shutdown ends normally
    with every singleton cleared, no worker and no pending order-book task left,
    the broker side exactly the engine's stop and the database untouched; and the
    feed's reader, if there was one, has ended, so its connection is closed. *)
Theorem shutdown_releases (p : Process) :
  closes_ok ->
  (forall rt, pc_book p = Some rt ->
     (forall r, pv_reader (br_provider rt) = Some r -> is_Some (pv_readers (br_provider rt) !! r)) /\
     forall e, ~ crashed (br_provider rt) e) ->
  lifespan_exit p = (Ok tt, released p) /\ powered_down (released p) /\
  w_db (nd_world (pc_node (released p))) = w_db (nd_world (pc_node p)) /\
  w_hub (nd_world (pc_node (released p))) = None /\
  forall rt r, pc_book p = Some rt -> pv_reader (br_provider rt) = Some r ->
    reader_done (stop_reader (br_provider rt)).2 r = true.
Proof.
  intros Hc Hb. split; [|split; [done|]; split; [done|]; split; [done|];
    intros rt r Hrt Hr; destruct (Hb rt Hrt) as [Hk Hne]; by apply stop_reader_ok].
  rewrite exit_split. unfold bind at 1. rewrite (close_clients p (Hc _) (Hc _)).
  assert (Hbook : close_order_book_runtime aclose (set_clients None None p) =
    (Ok tt, set_book None 0 (set_clients None None p))).
  { unfold close_order_book_runtime, provider_stop, bind, modify, gets, lift_result, ret. simpl.
    destruct (pc_book p) as [rt|]; [|done]. destruct (Hb rt eq_refl) as [Hk Hne].
    destruct (stop_reader_ok _ Hk Hne) as [H1 _].
    destruct (stop_reader (br_provider rt)) as [res pv]. simpl in *. by rewrite H1, Hc. }
  unfold bind at 1. rewrite Hbook. by rewrite close_brokers.
Qed.

(** C20: an error of the feed stops the shutdown half way.  When the order-book
    reader has ended with an error, stopping the feed raises it again, and
    nothing after it is closed: the brokers' adapters and every worker, the Redis
    client, the pool and the hub are all as they were before the shutdown began,
    which ends with the reader's error. *)
Theorem shutdown_cut_short (p : Process) rt e :
  aclose MarketDataHttp = Ok tt -> aclose PricerHttp = Ok tt ->
  pc_book p = Some rt -> crashed (br_provider rt) e ->
  exists p', lifespan_exit p = (Err e, p') /\ pc_node p' = pc_node p /\ pc_pool p' = pc_pool p /\
    pc_redis p' = pc_redis p /\ is_Some (pc_book p') /\ pc_pricer p' = None /\ pc_market_data p' = None.
Proof.
  intros H1 H2 Hrt Hcr. rewrite exit_split. unfold bind at 1.
  rewrite (close_clients p H1 H2).
  pose proof (stop_reader_crashed _ _ Hcr) as Hs.
  unfold close_order_book_runtime, provider_stop, bind, modify, gets, lift_result, ret. simpl. rewrite Hrt.
  destruct (stop_reader (br_provider rt)) as [res pv]. simpl in *. subst res. by eexists.
Qed.
End props.
