(* ===== verification/LifespanExamples.v ===== *)
(** * LifespanExamples: a process that starts without a database and stops, or cannot *)

From S2P Require Import Prelude Decimals Contracts Events Store Config Cache Adapters Gates HandleRecovery Router RouterExamples OrderBook BookService BookServiceProps Liberator StreamingPro Transport Runtime Engine EngineExamples EngineIO BookProvider BookProviderProps BookProviderLive BookProviderExamples BookRuntime BookSystemExamples Lifespan LifespanProps.
From stdpp Require Import base gmap strings list relations.
From Stdlib Require Import ZArith QArith Lia.
Open Scope Z_scope.

Definition no_pool (_ : string) (_ _ : Z) : result exn unit := Err (OtherError "ConnectionRefusedError").
Definition redis_ok (_ : string) : result exn unit := Ok tt.
Definition closes (_ : Resource) : result exn unit := Ok tt.

Abbreviation Proc := (Process (R := ExRedis) (V := Sessions)).

Definition ex_down : Proc :=
  {| pc_node := ex_off; pc_pool := None; pc_redis := None; pc_book := None; pc_book_tasks := 0;
     pc_pricer := None; pc_market_data := None |}.

(** ** Start-up *)

Lemma startup_degrades_witness :
  (lifespan_enter ex_wiring no_pool redis_ok ex_live_settings ex_down).1 = Ok tt /\
  (get_pool (lifespan_enter ex_wiring no_pool redis_ok ex_live_settings ex_down).2).1 =
    Err PoolNotInitializedError.
Proof.
  assert (H := startup_degrades ex_wiring no_pool redis_ok ex_live_settings ex_down).
  assert (Ha : assert_startup_declaration ex_live_settings = Ok tt) by (vm_compute; reflexivity).
  rewrite Ha in H. destruct H as (n & _ & He & Hg); [repeat split|reflexivity|].
  rewrite He. split; [reflexivity|exact Hg].
Defined.

(** ** Shutdown *)

(** A feed that is live when the process stops. *)
Definition ex_running : Proc :=
  {| pc_node := ex_up; pc_pool := Some {| pool_dsn := ""; pool_min_size := 1; pool_max_size := 10 |};
     pc_redis := Some ""%string;
     pc_book := Some {| br_config := ex_book_cfg; br_service := service_new SrcLiberator; br_provider := ex_live |};
     pc_book_tasks := 2;
     pc_pricer := Some {| sf_order_book := true;
       sf_market_data := md_client (MarketDataClient_new (Some "http://md/"%string) None false) |};
     pc_market_data := Some (MarketDataClient_new None None false) |}.

Lemma shutdown_releases_witness :
  (lifespan_exit closes ex_running).1 = Ok tt /\
  pc_pool (lifespan_exit closes ex_running).2 = None /\
  reader_done (stop_reader ex_live).2 1 = true.
Proof.
  destruct (shutdown_releases closes ex_running) as (He & _ & _ & _ & Hd).
  - intros r. reflexivity.
  - intros rt [= <-]. split.
    + intros r [= <-]. eexists. reflexivity.
    + intros e (r & c & Hr & Hrd). injection Hr as <-. vm_compute in Hrd. discriminate Hrd.
  - rewrite He. split; [reflexivity|]. split; [reflexivity|]. exact (Hd _ 1%nat eq_refl eq_refl).
Defined.

(** A frame whose price reads as NaN ends the reader with [InvalidOperation]. *)
Definition nan_frame : string :=
  update_frame [("room", JInt (ex_book_id "PTT")); ("bp", JList [JStr "NaN"]); ("bv", JList [JInt 100])]%string.

Definition ex_crashed : Provider := Eval vm_compute in
  default ex_live (reader_step 1 (IFrame nan_frame 9) ex_live ≫=
                   reader_step 1 (IClosed 0)).

Lemma ex_crashed_reached : rtc (provider_step ex_book_id true) Provider_new ex_crashed.
Proof.
  etransitivity; [apply ex_live_reached|].
  run_act (ARead 1 (IFrame nan_frame 9)). run_act (ARead 1 (IClosed 0)). apply rtc_refl.
Qed.

Definition ex_stuck : Proc :=
  set_book (Some {| br_config := ex_book_cfg; br_service := service_new SrcLiberator; br_provider := ex_crashed |}) 0
    ex_running.

(** One bad price, and the shutdown leaves four workers, the pool and the Redis
    client behind. *)
Lemma shutdown_cut_short_witness :
  rtc (provider_step ex_book_id true) Provider_new ex_crashed /\
  (lifespan_exit closes ex_stuck).1 = Err InvalidOperation /\
  pc_node (lifespan_exit closes ex_stuck).2 = ex_up /\
  length (nd_workers ex_up) = 4%nat /\ pc_pool (lifespan_exit closes ex_stuck).2 <> None.
Proof.
  split; [exact ex_crashed_reached|].
  destruct (shutdown_cut_short closes ex_stuck _ InvalidOperation eq_refl eq_refl eq_refl)
    as (p' & He & Hn & Hp & _).
  - exists 1%nat, false. split; reflexivity.
  - rewrite He. split; [reflexivity|]. split; [exact Hn|]. split; [vm_compute; reflexivity|].
    cbn [snd]. rewrite Hp. discriminate.
Defined.
