(* ===== verification/ApiProps.v ===== *)
(** * ApiProps: which key opens which route, and that following the history
    cursor lists every order of the window exactly once. *)

From S2P Require Import Prelude Decimals Contracts StateMachine Events Store StoreInv StoreProps Config Api.
From stdpp Require Import base gmap strings list sorting relations.
From Stdlib Require Import ZArith Lia.
Open Scope Z_scope.

(** ** Keys *)

(** A usable read key: configured, not blank and not the full key. *)
Definition scoped_read_key (settings : Settings) (key rk : string) : Prop :=
  s_read_api_key settings = Some rk /\ rk ≠ ""%string /\ rk ≠ key.

Lemma is_read_key_spec provided settings key :
  s_api_key settings = Some key ->
  (_is_read_key provided settings = true <-> scoped_read_key settings key provided).
Proof.
  intros Hk. unfold _is_read_key, scoped_read_key. rewrite Hk.
  destruct (s_read_api_key settings) as [rk|]; [|naive_solver].
  destruct (String.eqb_spec rk ""), (String.eqb_spec rk key), (String.eqb_spec provided rk);
    naive_solver.
Qed.

Lemma header_eq (request : Headers) k v :
  v ≠ ""%string -> (default ""%string (request k) = v <-> request k = Some v).
Proof. destruct (request k); naive_solver. Qed.

(** The outcome of the two guards for a configured key. *)
Lemma guards_spec (request : Headers) settings key :
  s_api_key settings = Some key ->
  let provided := default ""%string (request "X-API-Key"%string) in
  let passed := if s_public_mode settings then Err PublicModeRejected else Ok tt in
  order_write_guard request settings =
    (if decide (provided = key) then passed
     else if _is_read_key provided settings then Err ReadKeyForbidden
     else Err (HTTPException 401)) /\
  account_read_guard request settings =
    (if decide (provided = key) then passed
     else if _is_read_key provided settings then passed
     else Err (HTTPException 401)).
Proof.
  intros Hk. unfold order_write_guard, account_read_guard, require_api_key,
    require_read_or_full_key, require_owner_mode. rewrite Hk. cbn zeta.
  repeat case_decide; destruct (String.eqb_spec (default ""%string (request "X-API-Key"%string)) key);
    try done; simpl; destruct (_is_read_key _ _); done.
Qed.

(** an order write is admitted only in owner mode and only to the full key; the
    account reads also admit the scoped read key, which an order write answers with
    403; with no key configured every guarded route answers 503, and any other
    header 401.  The full key must be non-empty: configured as the empty string, it
    admits a request that carries no key at all. *)
Theorem keys_open_their_routes (request : Headers) (settings : Settings) :
  (s_api_key settings = None ->
     order_write_guard request settings = Err (HTTPException 503) /\
     account_read_guard request settings = Err (HTTPException 503)) /\
  (forall key, s_api_key settings = Some key -> key ≠ ""%string ->
     (order_write_guard request settings = Ok tt <->
        s_public_mode settings = false /\ request "X-API-Key"%string = Some key) /\
     (account_read_guard request settings = Ok tt <->
        s_public_mode settings = false /\
        exists k, request "X-API-Key"%string = Some k /\
          (k = key \/ scoped_read_key settings key k)) /\
     (forall e, order_write_guard request settings = Err e ->
        (_status_for e = 403 <->
           exists k, request "X-API-Key"%string = Some k /\
             (k = key \/ scoped_read_key settings key k)) /\
        (_status_for e = 403 \/ _status_for e = 401))) /\
  (s_api_key settings = Some ""%string -> request "X-API-Key"%string = None ->
     s_public_mode settings = false -> order_write_guard request settings = Ok tt).
Proof.
  split_and!.
  - intros Hk. unfold order_write_guard, account_read_guard, require_api_key,
      require_read_or_full_key. by rewrite Hk.
  - intros key Hk Hne. destruct (guards_spec request settings key Hk) as [-> ->].
    pose proof (is_read_key_spec (default ""%string (request "X-API-Key"%string)) settings key Hk)
      as Hr.
    destruct (request "X-API-Key"%string) as [k|]; cbn [from_option id] in *.
    + destruct (decide (k = key)), (_is_read_key k settings), (s_public_mode settings);
        split_and!; naive_solver.
    + rewrite !decide_False by done.
      destruct (_is_read_key "" settings); [by destruct (proj1 Hr eq_refl) as (_ & ? & _)|].
      split_and!; [split; [done|by intros (_ & [=])]
        | split; [done|by intros (_ & ? & [=] & _)] |]. intros e [= <-]. simpl. split; [|by right].
      split; [done|]. by intros (? & [=] & _).
  - intros Hk Hh Hp. destruct (guards_spec request settings _ Hk) as [-> _].
    by rewrite Hh, Hp.
Qed.

Definition ex_keys : Settings :=
  deployment false Stage.SIM [] (Some "full"%string) (Some "read"%string) None None
    Settings_default.
Definition ex_header (key : string) : Headers :=
  fun h => if String.eqb h "X-API-Key" then Some key else None.

Lemma keys_open_their_routes_witness :
  order_write_guard (ex_header "full") ex_keys = Ok tt /\
  account_read_guard (ex_header "read") ex_keys = Ok tt /\
  order_write_guard (ex_header "read") ex_keys ≠ Ok tt.
Proof.
  destruct (proj1 (proj2 (keys_open_their_routes (ex_header "full") ex_keys)) "full"%string
    eq_refl ltac:(done)) as [Hw _].
  destruct (proj1 (proj2 (keys_open_their_routes (ex_header "read") ex_keys)) "full"%string
    eq_refl ltac:(done)) as (Hw' & Hr & _).
  split_and!.
  - by apply Hw.
  - apply Hr. split; [done|]. exists "read"%string. split; [done|]. right. by repeat split.
  - rewrite Hw'. by intros [_ [=]].
Defined.

(** ** The order history *)

Section history.
Context (cid_le : relation string) `{!forall a b, Decision (cid_le a b)}.
Context `{!PartialOrder cid_le, !Total cid_le}.
Context (account : string) (broker : Broker) (since until : Z) (d : db).
Context (Hkey : forall c r, db_orders d !! c = Some r -> or_client_order_id r = c).
#[local] Instance newer_eq_trans : Transitive (newer_eq cid_le).
Proof.
  intros x y z [?|[? ?]] [?|[? ?]]; unfold newer_eq; [left; lia..|].
  right. split; [lia|]. by etrans.
Qed.

#[local] Instance newer_eq_total : Total (newer_eq cid_le).
Proof.
  intros x y. unfold newer_eq.
  destruct (Z.lt_trichotomy (or_created_at x) (or_created_at y)) as [?|[?|?]]; [by right; left| |by left; left].
  destruct (total cid_le (or_client_order_id x) (or_client_order_id y)); [right|left]; right; auto.
Qed.

(** The rows of the window, newest first. *)
Definition window_rows : list OrderRow :=
  merge_sort (newer_eq cid_le)
    (filter (in_window account broker since until) (map_to_list (db_orders d)).*2).

Lemma stored_rows r : r ∈ (map_to_list (db_orders d)).*2 ->
  db_orders d !! or_client_order_id r = Some r.
Proof.
  intros ([c ?] & -> & Hr)%list_elem_of_fmap. apply elem_of_map_to_list in Hr.
  simpl. by rewrite (Hkey _ _ Hr).
Qed.

Lemma window_rows_elem r : r ∈ window_rows <->
  db_orders d !! or_client_order_id r = Some r /\ in_window account broker since until r.
Proof.
  unfold window_rows. rewrite merge_sort_Permutation, list_elem_of_filter.
  split; intros [H1 H2]; [by split; [apply stored_rows|]|]. split; [done|].
  apply list_elem_of_fmap. eexists (_, _). split; [|by apply elem_of_map_to_list]. done.
Qed.

Lemma window_rows_sorted : StronglySorted (newer_eq cid_le) window_rows.
Proof. apply (StronglySorted_merge_sort _). Qed.

Lemma newer_eq_antisym x y : x ∈ window_rows -> y ∈ window_rows ->
  newer_eq cid_le x y -> newer_eq cid_le y x -> x = y.
Proof.
  intros [Hx _]%window_rows_elem [Hy _]%window_rows_elem [?|[? A]] [?|[? B]]; try lia.
  pose proof (anti_symm _ _ _ A B) as E. rewrite E in Hy. congruence.
Qed.

Lemma map_to_list_snd_NoDup : NoDup (map_to_list (db_orders d)).*2.
Proof.
  apply NoDup_fmap_2_strong; [|apply NoDup_map_to_list].
  intros [c r] [c' r'] Hx Hy. simpl. intros ->.
  apply elem_of_map_to_list in Hx, Hy. apply Hkey in Hx, Hy. congruence.
Qed.

Lemma window_rows_NoDup : NoDup window_rows.
Proof.
  unfold window_rows. rewrite merge_sort_Permutation.
  apply NoDup_filter, map_to_list_snd_NoDup.
Qed.

(** The rows after a cursor are the rest of the listing. *)
Lemma rows_before_suffix l x q : window_rows = l ++ x :: q ->
  filter (row_before cid_le (Some (row_key x))) window_rows = q.
Proof.
  intros Hw. pose proof window_rows_sorted as Hs. pose proof window_rows_NoDup as Hn.
  pose proof newer_eq_antisym as Ha. rewrite Hw in *.
  apply StronglySorted_app in Hs as (Hlx & _ & [_ Hxq]%StronglySorted_inv).
  rewrite Forall_forall in Hxq.
  assert (Hback : forall y, row_before cid_le (Some (row_key x)) y <->
    newer_eq cid_le x y /\ ~ (newer_eq cid_le y x)).
  { intros y. unfold row_before, row_key, newer_eq. split.
    - intros [?|(? & ? & Hne)]; [split; [by left|lia]|]. split; [by right|].
      intros [?|[_ ?]]; [lia|]. apply Hne. by apply (anti_symm cid_le).
    - intros [[?|[E ?]] Hno]; [by left|]. right. split_and!; [done..|].
      intros Hc. apply Hno. right. split; [done|]. rewrite Hc. reflexivity. }
  rewrite filter_app, filter_cons.
  rewrite decide_False by (rewrite Hback; intros [? []]; right; split; reflexivity).
  assert (filter (row_before cid_le (Some (row_key x))) l = []) as ->.
  { apply filter_nil_of. intros y Hy [_ Hb]%Hback. apply Hb, Hlx; set_solver. }
  apply filter_all_of. intros y Hy. apply Hback. split; [by apply Hxq|].
  intros Hyx. assert (x = y) as -> by (apply Ha; [set_solver..| |]; auto).
  apply NoDup_app in Hn as (_ & _ & [Hx _]%NoDup_cons). done.
Qed.

(** Filtering by the cursor commutes with the sort of the window. *)
Lemma page_rows cursor :
  merge_sort (newer_eq cid_le)
    (filter (fun r => in_window account broker since until r /\ row_before cid_le cursor r)
       (map_to_list (db_orders d)).*2) =
  filter (row_before cid_le cursor) window_rows.
Proof.
  eapply (StronglySorted_unique_strong (newer_eq cid_le)).
  - intros x y Hx [_ Hy]%list_elem_of_filter Hxy Hyx. apply newer_eq_antisym; try done.
    rewrite merge_sort_Permutation in Hx. apply list_elem_of_filter in Hx as [[Hin _] Hx].
    apply window_rows_elem. split; [by apply stored_rows|done].
  - apply (StronglySorted_merge_sort _).
  - apply StronglySorted_filter, window_rows_sorted.
  - unfold window_rows. rewrite !merge_sort_Permutation, list_filter_filter.
    apply reflexive_eq, list_filter_iff. naive_solver.
Qed.

(** The result row of a stored row. *)
Definition result_of (r : OrderRow) : OrderResultRow :=
  {| rr_row := r; rr_filled_qty := filled_qty (or_client_order_id r) d;
     rr_fill_notional := fill_notional (or_client_order_id r) d |}.

Lemma omap_results (l : list OrderRow) : (forall r, r ∈ l -> r ∈ window_rows) ->
  omap (fun r => order_result (or_client_order_id r) d) l = result_of <$> l.
Proof.
  induction l as [|r l IH]; intros Hl; [done|]. cbn.
  destruct (proj1 (window_rows_elem r) (Hl r ltac:(set_solver))) as [Hr _].
  unfold order_result at 1. rewrite Hr. cbn. f_equal. apply IH. set_solver.
Qed.

(** [rest] is what a client that sent [cursor] has still to see. *)
Definition remaining (cursor : option (Z * string)) (rest : list OrderRow) : Prop :=
  match cursor with
  | None => rest = window_rows
  | Some c => exists l x, c = row_key x /\ window_rows = l ++ x :: rest
  end.

Lemma fetch_remaining cursor rest n : remaining cursor rest ->
  fetch_account_orders cid_le account broker since until cursor n d = result_of <$> take n rest.
Proof.
  intros Hrest. unfold fetch_account_orders. rewrite page_rows.
  assert (filter (row_before cid_le cursor) window_rows = rest) as ->.
  { destruct cursor as [c|]; simpl in Hrest.
    - destruct Hrest as (l & x & -> & Hw). by eapply rows_before_suffix.
    - subst. by apply filter_all_of. }
  apply omap_results. intros r Hr%elem_of_take. destruct Hr as (i & Hr & _).
  apply list_elem_of_lookup_2 in Hr. destruct cursor as [c|]; simpl in Hrest; [|by subst].
  destruct Hrest as (l & x & _ & ->). set_solver.
Qed.

Lemma remaining_step cursor l x q :
  remaining cursor (l ++ x :: q) -> remaining (Some (row_key x)) q.
Proof.
  destruct cursor as [c|]; [|by intros Hw; exists l, x].
  intros (l' & y & _ & Hw). exists (l' ++ y :: l), x. by rewrite <- app_assoc.
Qed.

Context (limit : nat) (Hlimit : (1 <= limit)%nat).

Lemma history_remaining fuel cursor rest : (length rest < fuel)%nat -> remaining cursor rest ->
  history_all cid_le fuel account broker since until cursor limit d = Some (result_of <$> rest).
Proof.
  revert cursor rest. induction fuel as [|fuel IH]; intros cursor rest Hf Hrest; [lia|].
  cbn [history_all]. unfold history_page. rewrite (fetch_remaining _ _ _ Hrest).
  rewrite <- fmap_take, take_take, Nat.min_l, length_fmap, length_take by lia.
  destruct (limit <? _)%nat eqn:Hmore.
  - apply Nat.ltb_lt in Hmore.
    destruct (take limit rest) as [|x l _] eqn:Hl using rev_ind.
    { apply (f_equal length) in Hl. rewrite length_take in Hl. simpl in Hl. lia. }
    assert (Hsplit : rest = l ++ x :: drop limit rest).
    { rewrite <- (take_drop limit rest) at 1. by rewrite Hl, <- app_assoc. }
    rewrite fmap_app, last_app. cbn.
    rewrite (IH _ (drop limit rest)).
    + cbn. f_equal. rewrite Hsplit at 2. by rewrite fmap_app, <- app_assoc.
    + rewrite length_drop. lia.
    + apply (remaining_step cursor l). by rewrite <- Hsplit.
  - apply Nat.ltb_ge in Hmore. by rewrite take_ge by lia.
Qed.
End history.

(** a client that follows [next_cursor] over a store that does not change
    meanwhile receives, in at most one page per order, every order of the account,
    broker and window exactly once and nothing else, each with its fill totals,
    newest first with ties by descending id, whatever the page size. *)
Lemma history_complete (cid_le : relation string) `{!forall a b, Decision (cid_le a b)}
    `{!PartialOrder cid_le, !Total cid_le}
    (account : string) (broker : Broker) (since until : Z) (limit fuel : nat) (d : db) :
  (forall c r, db_orders d !! c = Some r -> or_client_order_id r = c) ->
  (1 <= limit)%nat -> (size (db_orders d) < fuel)%nat ->
  exists rows,
    history_all cid_le fuel account broker since until None limit d = Some rows /\
    (forall x, x ∈ rows <->
       order_result (or_client_order_id (rr_row x)) d = Some x /\
       in_window account broker since until (rr_row x)) /\
    NoDup rows /\ StronglySorted (newer_eq cid_le) (rr_row <$> rows).
Proof.
  intros Hkey Hlim Hfuel. exists (result_of d <$> window_rows cid_le account broker since until d).
  split_and!.
  - apply history_remaining; [done..| |done].
    unfold window_rows. rewrite merge_sort_Permutation.
    eapply Nat.le_lt_trans; [apply length_filter|]. by rewrite length_fmap, length_map_to_list.
  - intros x. rewrite list_elem_of_fmap. unfold order_result. split.
    + intros (r & -> & [Hr Hin]%window_rows_elem); [|done]. simpl. by rewrite Hr.
    + destruct (db_orders d !! _) as [r|] eqn:Hr; [|by intros [[=] _]].
      intros [[= <-] Hin]. exists r. simpl in *.
      pose proof (Hkey _ _ Hr) as E. rewrite <- E in Hr |- *.
      split; [done|]. apply window_rows_elem; [done|by split].
  - apply NoDup_fmap_2; [by intros ? ? [= ->]|]. by apply window_rows_NoDup.
  - rewrite <- list_fmap_compose. rewrite (list_fmap_ext _ id), list_fmap_id by done.
    apply window_rows_sorted; done.
Qed.

Definition ex_history_row (cid : string) (now : Z) : OrderRow :=
  {| or_client_order_id := cid; or_broker := SIM; or_broker_order_id := None;
     or_account := "acct"; or_symbol := "AOT"; or_market := SET_; or_side := BUY;
     or_order_type := LIMIT; or_price := Some (Dec 605 (-1)); or_stop_price := None;
     or_quantity := 100; or_display_qty := None; or_tif := DAY; or_position_effect := None;
     or_status := OrderState.PENDING_NEW; or_reject_reason := None; or_strategy_id := None;
     or_created_at := now; or_updated_at := now |}.

(** Two orders created in the same instant and a later one. *)
Definition ex_history_db : db :=
  {| db_orders := <["a"%string := ex_history_row "a" 10]>
       (<["b"%string := ex_history_row "b" 10]> {["c"%string := ex_history_row "c" 20]});
     db_fills := []; db_events := []; db_next_fill := 1 |}.

(** ** The audit endpoint *)

Lemma audit_path_types l s : audit_path l s ->
  (forall i e, l !! i = Some e ->
     event_type_for (oe_from_status e) (oe_to_status e) = "create"%string <-> i = 0%nat) /\
  oe_to_status <$> last l = Some s.
Proof.
  induction 1 as [e Hf Ht|l s e Hl [IH Hlast] Hf He].
  - split; [|by simpl; rewrite Ht]. intros [|i] x; [|done]. simpl. intros [= <-]. by rewrite Hf.
  - split; [|by rewrite last_snoc]. intros i x [Hx|[Hlen Hx]]%lookup_app_Some; [by apply IH|].
    apply list_lookup_singleton_Some in Hx as [Hi <-]. rewrite Hf.
    assert (l ≠ []) by (intros ->; done). destruct l; [done|]. simpl in Hlen. split; [|lia].
    destruct (oe_to_status e); simpl; try case_decide; try discriminate.
    by destruct (edge_not_to_entry _ He).
Qed.

(** The audit trail of a stored order is numbered 1, 2, ...; its first event and no
    other is the [create], and its last reaches the order's current status. *)
Lemma order_audit_trail {R V} `{OrdersSchema} (w : world R V) c r :
  db_wf (w_db w) -> db_orders (w_db w) !! c = Some r ->
  exists evs, order_audit c w = (Ok (or_broker r, or_symbol r, evs), w) /\
    (forall i e, evs !! i = Some e -> ae_seq e = Z.of_nat i + 1 /\
       (ae_event_type e = "create"%string <-> i = 0%nat)) /\
    ae_to_status <$> last evs = Some (or_status r).
Proof.
  intros Hw Hr. destruct (audit_path_types _ _ (dw_audit _ _ Hw _ _ Hr)) as [Hty Hlast].
  eexists. split_and!.
  - unfold order_audit, fetch_order. cbn. rewrite Hr. reflexivity.
  - intros i e. rewrite list_lookup_imap. unfold events_of in Hty.
    destruct (_ !! i) as [x|] eqn:Hx; [|done]. intros [= <-]. simpl. split; [done|].
    by apply Hty.
  - revert Hlast. rewrite !last_lookup, length_imap, list_lookup_imap. unfold events_of.
    destruct (List.filter _ _ !! _); [by intros [= <-]|done].
Qed.

(** *** The export *)

Lemma export_join_events `{OrdersSchema} d : db_wf d -> xr_event <$> export_join d = db_events d.
Proof.
  intros Hw. unfold export_join.
  assert (Hall : Forall (fun e => is_Some (db_orders d !! oe_client_order_id e)) (db_events d)).
  { apply Forall_forall. intros e He. apply not_eq_None_Some. intros Hn.
    apply (dw_audit_none _ _ Hw) in Hn. apply list_elem_of_In in He.
    assert (Hin : In e (events_of (oe_client_order_id e) (db_events d)))
      by (apply filter_In; split; [done|apply String.eqb_refl]).
    rewrite Hn in Hin. destruct Hin. }
  induction Hall as [|e l [r Hr] _ IH]; simpl; [done|]. rewrite Hr. simpl. by f_equal.
Qed.

Lemma filter_split {A} (p q r : A -> bool) (l : list A) :
  (forall x, p x = q x || r x) -> (forall x, q x && r x = false) ->
  List.filter p l ≡ₚ List.filter q l ++ List.filter r l.
Proof.
  intros Hp Hd. induction l as [|x l IH]; simpl; [done|]. specialize (Hd x). rewrite (Hp x).
  destruct (q x), (r x); simpl in *; try discriminate; try done; [by constructor|].
  etransitivity; [by constructor|]. apply Permutation_middle.
Qed.

(** The audit export loses nothing: without filters it is every event of the
    store in order, and the exports of two adjacent windows hold between them
    exactly the rows of the window they make up, each once. *)
Theorem audit_export_complete {R V} `{OrdersSchema} (w : world R V) :
  db_wf (w_db w) ->
  (exists rows, stream_order_events None None None w = (Ok rows, w) /\
     xr_event <$> rows = db_events (w_db w)) /\
  forall lo mid hi strategy_id, lo <= mid -> mid <= hi ->
    exists r r1 r2,
      stream_order_events (Some lo) (Some hi) strategy_id w = (Ok r, w) /\
      stream_order_events (Some lo) (Some mid) strategy_id w = (Ok r1, w) /\
      stream_order_events (Some mid) (Some hi) strategy_id w = (Ok r2, w) /\
      r ≡ₚ r1 ++ r2.
Proof.
  intros Hw. split.
  - eexists. split; [reflexivity|]. rewrite <- (export_join_events _ Hw). f_equal.
    induction (export_join (w_db w)) as [|x l IH]; simpl; [done|]. by f_equal.
  - intros lo mid hi s Hlo Hhi. do 3 eexists. repeat (split; [reflexivity|]).
    apply filter_split; intros x; unfold _export_query;
      set (t := oe_created_at (xr_event x)); destruct (match s with Some _ => _ | None => true end);
      destruct (Z.leb_spec lo t), (Z.leb_spec mid t), (Z.ltb_spec t mid), (Z.ltb_spec t hi);
      simpl; lia || done.
Qed.
