(* ===== verification/RoutesExamples.v ===== *)
(** * RoutesExamples: paging through a small history over HTTP *)

From S2P Require Import Prelude Decimals Contracts StateMachine Events Store StoreInv StoreProps Config Cache Adapters Gates HandleRecovery Router RouterProps CancelAmend SimLifecycle RouterExamples OrderBook BookService PyTime PyIso Fees Runtime Api Cursor Routes RoutesProps ApiProps.
From stdpp Require Import base gmap strings list sorting relations.
From Stdlib Require Import ZArith Lia.
Open Scope Z_scope.

Definition history_world : world ExRedis unit :=
  {| w_db := ex_history_db; w_hub := None; w_redis := ex_redis; w_venue := tt; w_now := 100;
     w_entropy := 0 |}.

Abbreviation history := (get_order_history_route owner_router (key_header "read") String.le
                           "acct" SIM).
Definition first_page : result exn (Reply HistoryBody) * world ExRedis unit :=
  history None None 1 None history_world.

(** The first page holds the newest order; its cursor leads to the next. *)
Lemma history_cursor_continues_witness :
  exists body c body', first_page = (Ok body, history_world) /\
    hb_next_cursor (rp_body body) = Some c /\
    history (Some (hb_since (rp_body body))) (Some (hb_until (rp_body body))) 2 (Some c)
      history_world = (Ok body', history_world) /\
    map (or_client_order_id ∘ rr_row) (map (fun x => x.1.1) (hb_orders (rp_body body'))) = ["b"; "a"]%string.
Proof.
  destruct first_page as [[body|e] w1] eqn:H1; [|vm_compute in H1; discriminate H1].
  assert (w1 = history_world) as -> by (vm_compute in H1; by injection H1).
  destruct (hb_next_cursor (rp_body body)) as [c|] eqn:Hc.
  2:{ vm_compute in H1. injection H1 as <-. discriminate Hc. }
  destruct (history (Some (hb_since (rp_body body))) (Some (hb_until (rp_body body))) 2
    (Some c) history_world) as [[body'|e] w'] eqn:H2.
  2:{ vm_compute in H1. injection H1 as <-. vm_compute in Hc. injection Hc as <-.
      vm_compute in H2. discriminate H2. }
  destruct (history_cursor_continues String.le owner_router (key_header "read")
    "acct" SIM None None 1 2 None c history_world history_world body body' w')
    as (_ & -> & row & Hlast & Hpage); try done.
  - intros k r. simpl. rewrite !lookup_insert_Some, lookup_singleton_Some.
    intros [[<- <-]|[_ [[<- <-]|[_ [<- <-]]]]]; (split; [split; vm_compute; repeat split; intros [=]|split; [repeat constructor|discriminate]]).
  - exists body, c, body'. split; [done|]. split; [done|]. split; [done|]. rewrite Hpage.
    vm_compute in H1. injection H1 as <-. simpl in Hlast. injection Hlast as <-.
    vm_compute. reflexivity.
Defined.

(** The partly filled order's three events. *)
Lemma audit_export_complete_witness :
  exists rows, stream_order_events None None None ex_w1 = (Ok rows, ex_w1) /\
    (oe_to_status ∘ xr_event <$> rows) =
      [OrderState.PENDING_NEW; OrderState.NEW; OrderState.PARTIALLY_FILLED].
Proof.
  destruct (audit_export_complete ex_w1 ex_w1_wf) as [(rows & Hrows & _) _].
  exists rows. split; [exact Hrows|]. revert Hrows. vm_compute. by intros [= <-].
Defined.
