(* ===== verification/RouteBodies.v ===== *)
(** * RouteBodies: what the two history routes say, and what they say is missing

    The JSON contents of [GET /accounts/{account}/orders] and
    [GET /accounts/{account}/venue-orders] in [api/routes.py]: the coverage texts, the
    window and the entries.  [row_dump], [fill_dump] and [view_dump] are pydantic's dumps
    of one row. *)

From S2P Require Import Prelude Decimals Contracts StateMachine Events Store StoreInv Config Cache Adapters Router PyTime PyIso Json Runtime Gates Fees Api Cursor Routes RoutesProps Wire ApiProps RouterExamples RoutesExamples.
From stdpp Require Import base gmap strings list sorting relations.
From Stdlib Require Import ZArith Lia.
Open Scope Z_scope.

Definition _STORE_COVERAGE : list (string * json) :=
  [("source", JStr "engine_store");
   ("contains", JStr "orders submitted THROUGH THIS ENGINE on THIS node, with their fills");
   ("cannot_contain", JList [
      JStr "orders placed outside this engine — by hand in the broker's app, or by any other application";
      JStr "orders routed by the other node's engine"])]%string.

Definition _VENUE_SCOPE (broker : Broker) : option (list (string * json)) :=
  match broker with
  | LIBERATOR => Some
      [("day_scope", JStr "today_only");
       ("day_scope_evidence", JStr "OBSERVED — the venue's order list is scoped to the current day; it keeps no order history (umbrella docs/reference/liberator-account-reads.md §9.3)");
       ("cannot_contain", JList [JStr "any order from a previous trading day"])]%string
  | STREAMING_PRO => Some
      [("day_scope", JStr "not_established");
       ("day_scope_evidence", JStr "NOT MEASURED — whether this venue's order list is day-scoped has not been established (TK-0459). Treat it as today only until it is.");
       ("cannot_contain", JList [JStr "possibly any order from a previous trading day"])]%string
  | _ => None
  end.

Definition _SIM_SCOPE : list (string * json) :=
  [("day_scope", JStr "simulated"); ("day_scope_evidence", JStr "sim has no venue; this list is always empty");
   ("cannot_contain", JList [JStr "anything real"])]%string.

(** The ["coverage"] of a store history. *)
Definition store_coverage (first_at : option Z) (lo hi : PyDatetime) : json :=
  JObj (_STORE_COVERAGE ++
    [("complete_since", opt_json (fun t => JStr (isoformat (utc t))) first_at);
     ("window", JObj [("since", JStr (isoformat lo)); ("until", JStr (isoformat hi))])]%string).

(** The ["coverage"] of a venue's list. *)
Definition venue_coverage (broker : Broker) : json :=
  JObj ([("source", JStr "venue_order_list");
         ("contains", JStr "every order the broker lists for this account, in ANY state and from ANY origin — the list is per account, not per client, so orders placed by hand are expected here too (inferred; not yet observed)")]%string
        ++ default _SIM_SCOPE (_VENUE_SCOPE broker)).

Section contents.
Context (row_dump : OrderResultRow -> list (string * json)) (fill_dump : FillRow -> json)
        (view_dump : VenueOrderView -> json).

Definition history_order (entry : OrderResultRow * PublicOrderStatus.t * list FillRow) : json :=
  let '(row, public_status, fills) := entry in
  JObj (dict_set "fills" (JList (map fill_dump fills))
          (dict_set "public_status" (JStr (PublicOrderStatus.value public_status)) (row_dump row))).

Definition history_content (account : string) (broker : Broker) (body : HistoryBody) : json :=
  JObj [("account", JStr account); ("broker", JStr (Broker_value broker));
        ("coverage", store_coverage (hb_complete_since body) (hb_since body) (hb_until body));
        ("orders", JList (map history_order (hb_orders body)));
        ("next_cursor", opt_json JStr (hb_next_cursor body))]%string.

Definition venue_orders_content (account : string) (broker : Broker) (now : Z)
    (views : list VenueOrderView) : json :=
  JObj [("account", JStr account); ("broker", JStr (Broker_value broker)); ("coverage", venue_coverage broker);
        ("retrieved_at", JStr (isoformat (utc now))); ("orders", JList (map view_dump views))]%string.

(** The value under a path of keys. *)
Fixpoint at_path (path : list string) (j : json) : option json :=
  match path, j with
  | [], _ => Some j
  | k :: path', JObj kvs => jassoc k kvs ≫= at_path path'
  | _, _ => None
  end.

(** Neither response passes for a complete history: each names its source and lists
    what it cannot contain. *)
Theorem coverage_states_gaps account broker body now views :
  (at_path ["coverage"; "source"] (history_content account broker body) = Some (JStr "engine_store") /\
   exists gap more, at_path ["coverage"; "cannot_contain"] (history_content account broker body) =
     Some (JList (JStr gap :: more))) /\
  (at_path ["coverage"; "source"] (venue_orders_content account broker now views) = Some (JStr "venue_order_list") /\
   exists gap more, at_path ["coverage"; "cannot_contain"] (venue_orders_content account broker now views) =
     Some (JList (JStr gap :: more)))%string.
Proof. destruct broker; vm_compute; eauto 10. Qed.

(** The window a response states reads back as the window it was served for. *)
Theorem history_window_reads_back account broker body :
  datetime_ok (hb_since body) -> datetime_ok (hb_until body) ->
  exists since until,
    at_path ["coverage"; "window"; "since"]%string (history_content account broker body) = Some (JStr since) /\
    at_path ["coverage"; "window"; "until"]%string (history_content account broker body) = Some (JStr until) /\
    fromisoformat since = Some (hb_since body) /\ fromisoformat until = Some (hb_until body).
Proof.
  intros Hs Hu. exists (isoformat (hb_since body)), (isoformat (hb_until body)).
  by rewrite !fromisoformat_isoformat.
Qed.
End contents.

(** ** [complete_since] *)

Lemma fold_min_le l : forall t, fold_left Z.min l t <= t /\ forall x, x ∈ l -> fold_left Z.min l t <= x.
Proof.
  induction l as [|y l IH]; intros t; simpl; [split; [lia|set_solver]|].
  destruct (IH (Z.min t y)) as [H1 H2]. split; [lia|]. intros x [->|Hx]%elem_of_cons; [lia|auto].
Qed.

(** The store has no order before it, and has one exactly when it is not empty. *)
Lemma first_order_at_min d c r : db_orders d !! c = Some r ->
  exists t, fetch_first_order_at d = Some t /\ t <= or_created_at r.
Proof.
  intros Hr%elem_of_map_to_list. unfold fetch_first_order_at.
  assert (Hin : or_created_at r ∈ map (fun kv => or_created_at kv.2) (map_to_list (db_orders d))).
  { apply list_elem_of_In, in_map_iff. exists (c, r). split; [done|]. by apply list_elem_of_In. }
  destruct (map _ _) as [|t l]; [by apply not_elem_of_nil in Hin|]. eexists. split; [done|].
  destruct (fold_min_le l t). apply elem_of_cons in Hin as [->|]; auto.
Qed.

Section complete_since.
Context {R V : Type} `{RedisOps R} `{OrdersSchema}.
Context (cid_le : relation string) `{!forall a b, Decision (cid_le a b)}.

(** Every order a history response lists was created at or after the time it says
    the store is complete since, which it then states. *)
Theorem history_within_complete_since (rt : OrderRouter R V) request account broker since until limit cursor
    (w : world R V) body w' row :
  get_order_history_route rt request cid_le account broker since until limit cursor w = (Ok body, w') ->
  row ∈ map (fun x => x.1.1) (hb_orders (rp_body body)) ->
  exists t, hb_complete_since (rp_body body) = Some t /\ t <= or_created_at (rr_row row).
Proof.
  intros Hr Hin. destruct (history_served _ _ _ _ _ _ _ _ _ _ _ _ Hr) as (b & _ & _ & _ & _ & _ & P).
  destruct (history_page _ _ _ _ _ _ _ _) as [page next] eqn:Hp. destruct P as [Hpage _]. rewrite Hpage in Hin.
  unfold history_page in Hp. injection Hp as <- _. apply elem_of_take in Hin as (i & Hin & _).
  apply list_elem_of_lookup_2, account_row in Hin as [k Hk].
  destruct (first_order_at_min _ _ _ Hk) as (t & Ht & Hle). exists t. split; [|done].
  rewrite <- Ht. by eapply history_states_first.
Qed.
End complete_since.

(** ** A client that follows the cursor *)

Lemma history_entries_total fills page : exists orders, traverse (history_entry fills) page = Ok orders.
Proof.
  induction page as [|row page [orders IH]]; simpl; [by eexists|]. unfold history_entry at 1.
  destruct (to_public_status_total (or_status (rr_row row)) (rr_filled_qty row)) as (s & -> & _). rewrite IH. by eexists.
Qed.

Section client.
Context {R V : Type} `{RedisOps R} `{OrdersSchema}.
Context (cid_le : relation string) `{!forall a b, Decision (cid_le a b)}.
Context (row_dump : OrderResultRow -> list (string * json)) (fill_dump : FillRow -> json).
Context (rt : OrderRouter R V) (request : Headers) (account : string) (broker : Broker) (limit : Z).
Abbreviation W := (world R V).
Abbreviation history := (get_order_history_route rt request cid_le account broker).

(** Page after page, with the window and the cursor text of the response before;
    [None] when a request fails or the fuel runs out. *)
Fixpoint follow_history (fuel : nat) (since until : option PyDatetime) (cursor : option string) (w : W)
    : option (list OrderResultRow) :=
  match fuel with
  | O => None
  | S fuel =>
      match history since until limit cursor w with
      | (Err _, _) => None
      | (Ok response, w') =>
          let body := rp_body response in
          let rows := map (fun x => x.1.1) (hb_orders body) in
          match at_path ["next_cursor"%string] (history_content row_dump fill_dump account broker body) with
          | Some (JStr c) => app rows <$> follow_history fuel (Some (hb_since body)) (Some (hb_until body)) (Some c) w'
          | _ => Some rows
          end
      end
  end.

Hypothesis allowed : account_read_guard request (rt_settings rt) = Ok tt.
Hypothesis routed : exists a, _resolve_adapter (rt_settings rt) (rt_sim rt) (rt_liberator rt)
                      (rt_streaming_pro rt) broker account AdapterIntent.READ = Ok a.
Hypothesis limit_ok : 1 <= limit <= 500.

Lemma history_request_served since until cursor lo hi before (w : W) :
  _aware since (utc 0) = Ok lo -> _aware until (utc (w_now w)) = Ok hi ->
  parse_history_cursor cursor = Ok before ->
  exists response, history since until limit cursor w = (Ok response, w).
Proof.
  intros Hlo Hhi Hc. unfold get_order_history_route, reads, router_order_history, route, bind, gets, lift_result, ret.
  rewrite allowed, (proj2 (Z.ltb_ge limit 1)), (proj2 (Z.ltb_ge 500 limit)) by lia. cbn [orb].
  destruct routed as [a Ha]. rewrite Hlo, Hhi, Hc, Ha. cbv zeta.
  match goal with |- context [traverse (history_entry ?f) ?p] => destruct (history_entries_total f p) as [os ->] end.
  by eexists.
Qed.

(** A stored order whose id and time a cursor can carry. *)
Definition cursor_ok (r : OrderRow) : Prop :=
  datetime_ok (utc (or_created_at r)) /\ ascii_only (or_client_order_id r) /\ or_client_order_id r <> EmptyString.

Lemma follow_history_all fuel (w : W) : (forall k r, db_orders (w_db w) !! k = Some r -> cursor_ok r) ->
  forall since until cursor lo hi before,
  _aware since (utc 0) = Ok lo -> _aware until (utc (w_now w)) = Ok hi ->
  parse_history_cursor cursor = Ok before ->
  follow_history fuel since until cursor w =
    history_all cid_le fuel account broker (as_utc lo) (as_utc hi) before (Z.to_nat limit) (w_db w).
Proof.
  intros Hok. induction fuel as [|fuel IH]; intros since until cursor lo hi before Hlo Hhi Hc; [done|].
  cbn [follow_history history_all].
  destruct (history_request_served _ _ _ _ _ _ _ Hlo Hhi Hc) as [response Hr]. rewrite Hr.
  destruct (history_served _ _ _ _ _ _ _ _ _ _ _ _ Hr) as (b & Hb & _ & _ & Hlo' & Hhi' & P).
  rewrite Hlo in Hlo'. injection Hlo' as ->. rewrite Hhi in Hhi'. injection Hhi' as ->.
  rewrite Hc in Hb. injection Hb as <-.
  destruct (history_page _ _ _ _ _ _ _ _) as [page next] eqn:Hp. destruct P as [-> Hnext].
  cbn [history_content at_path jassoc String.eqb Ascii.eqb Bool.eqb mbind option_bind].
  destruct next as [k|]; cbn [fmap option_fmap option_map] in Hnext; rewrite Hnext; [|done].
  cbn [opt_json]. rewrite (IH _ _ _ (hb_since (rp_body response)) (hb_until (rp_body response)) (Some k)); [done| | |].
  - by eapply _aware_again.
  - by eapply _aware_again.
  - unfold history_page in Hp. injection Hp as Hpage Hk. destruct (_ <? _)%nat; [|done]. rewrite Hpage in Hk.
    destruct (last page) as [row|] eqn:Hlast; [|done]. injection Hk as <-.
    assert (Hrow : row ∈ page) by (by eapply last_Some_elem_of). rewrite <- Hpage in Hrow.
    apply elem_of_take in Hrow as (i & Hrow & _). apply list_elem_of_lookup_2, account_row in Hrow as [c Hrow].
    destruct (Hok _ _ Hrow) as (Hiso & Hasc & Hne). by apply cursor_reads_back.
Qed.

Context `{!PartialOrder cid_le, !Total cid_le}.

(** C36: a client of the history route that reads [next_cursor] from each response
    and passes it back as text gets every order of the account, broker and window
    exactly once and nothing else, newest first with ties by descending id, whatever
    the page size.  The key and the broker are ones the route serves and the store
    does not change meanwhile; one request per stored order and one more are enough,
    and each order comes with its fill totals. *)
Theorem http_history_complete fuel since until lo hi (w : W) :
  (forall k r, db_orders (w_db w) !! k = Some r -> or_client_order_id r = k /\ cursor_ok r) ->
  _aware since (utc 0) = Ok lo -> _aware until (utc (w_now w)) = Ok hi ->
  (size (db_orders (w_db w)) < fuel)%nat ->
  exists rows, follow_history fuel since until None w = Some rows /\
    (forall x, x ∈ rows <->
       order_result (or_client_order_id (rr_row x)) (w_db w) = Some x /\
       in_window account broker (as_utc lo) (as_utc hi) (rr_row x)) /\
    NoDup rows /\ StronglySorted (newer_eq cid_le) (rr_row <$> rows).
Proof.
  intros Hok Hlo Hhi Hf.
  rewrite (follow_history_all fuel w ltac:(apply Hok) since until None lo hi None Hlo Hhi eq_refl).
  apply (history_complete cid_le); [done..|apply Hok|lia|done].
Qed.
End client.

(** Three orders in pages of one, the tie at 10 not skipped. *)
Lemma http_history_complete_witness :
  exists rows, follow_history String.le (fun _ => []) (fun _ => JNull) owner_router (key_header "read")
      "acct" SIM 1 4 None (Some (utc 100)) None history_world = Some rows /\
    (or_client_order_id ∘ rr_row <$> rows) = ["c"; "b"; "a"]%string /\ NoDup rows.
Proof.
  destruct (http_history_complete String.le (fun _ => []) (fun _ => JNull) owner_router (key_header "read")
    "acct" SIM 1 eq_refl ltac:(eexists; reflexivity) ltac:(lia) 4 None (Some (utc 100)) (utc 0) (utc 100) history_world)
    as (rows & Hall & _ & Hnd & _).
  - intros k r. simpl. rewrite !lookup_insert_Some, lookup_singleton_Some.
    intros [[<- <-]|[_ [[<- <-]|[_ [<- <-]]]]];
      (split; [done|split; [split; vm_compute; repeat split; intros [=]|split; [repeat constructor|discriminate]]]).
  - done.
  - done.
  - vm_compute. lia.
  - exists rows. split; [done|]. split; [|done]. revert Hall. vm_compute. by intros [= <-].
Defined.
